(* ===== verification/_CoqProject ===== *)
-Q . S2P
Prelude.v
CBList.v
CBListOps.v
ObjPool.v
ObjPoolProofs.v
HashTable.v
HashProofs.v
SHashProofs.v
FdEpoll.v
FdEpollProofs.v
Conn.v
ConnProofs.v
ConnSafe.v
ConnCallbacks.v
Worker.v
WorkerSafe.v
WorkerDemo.v
WorkerClaims.v
ConnStream.v
StreamClaims.v
CLib.v
IpAddr.v
IpAddrProofs.v
IpMatch.v
IpText.v
StrUtil.v
StrUtilProofs.v
Algo.v
AlgoProofs.v
MemPool.v
MemPoolProofs.v
DBuffer.v
Locks.v
NetPkt.v
NetPktProofs.v
TcpStream.v
TcpStreamProofs.v
SvrPool.v
SvrPoolProofs.v
SvrPoolData.v
SvrPoolClaims.v
RefCount.v
Policy.v
PolicyProofs.v
PolicyOps.v
Proxy.v
ProxyConfig.v
ConfigWords.v
ConfigProofs.v
ConfigParse.v
ConfigLines.v
System.v
SystemProofs.v
SystemSteps.v
SystemInv.v
ConfigClaims.v
SystemClaims.v
SslDump.v
SslDumpProofs.v
SockUtil.v
SockUtilProofs.v
SockPool.v
SockPoolProofs.v
EpollEvent.v
EpollEventProofs.v
