(* ===== verification/Prelude.v ===== *)
(** * A verification library for the fzsvn C code base

    The repository collects C programs and the utility code they share.  Its
    largest program of its own is a TCP/SSL proxy, tproxyd
    (src/code/network/proxy: tproxy/ and utils/), which is built on the data
    structures of src/code/basic and the address and socket helpers of
    src/code/network/netutil; next to it stand a packet sniffer and an SSL dump
    program (src/code/network/packet).  This library models the proxy from its
    configuration file to its data path, what it stands on and the packet
    programs, and proves what makes them correct, or shows where the code does
    something else.

    ** The program, and the files that model it

    The main thread of tproxyd reads a configuration file into a proxy object,
    hands the policies to worker threads through their command queues and, when
    the program ends, stops the workers and releases what it holds.  A worker
    accepts clients on the listeners of its policies, forwards bytes between
    the two connections of a session, and picks the server of a session from a
    pool.  A turn of its loop flushes pending event updates into epoll, calls
    the callbacks of the descriptors that are ready, and runs the tasks the
    callbacks queued.

    Shared parts:
    - Prelude.v: faults and the error monad ([res], [do]), machine integers,
      byte order, the allocator, list searches, the tactic [inv_ok] and the
      hint database [csem].
    - CLib.v: the C library functions the code calls (strchr, atoi, memcmp,
      inet_pton, ...); IPv6 text is the class [Inet6] with its
      documented laws, which IpText.v instantiates with the fully written form.
    - RefCount.v: maps of counted objects whose counters equal the references.

    Data structures (basic/datastruct, basic/stdext, basic/algorithm):
    - CBList.v, CBListOps.v: cblist.h on a heap of two-pointer nodes; the other
      components keep such a list as the sequence it represents, which the
      refinement theorem justifies.
    - ObjPool.v, ObjPoolProofs.v: objpool.c; the class [ObjPoolSpec] is what the
      hash table and the connections rely on, and the pool implements it.
    - HashTable.v, HashProofs.v, SHashProofs.v: hash.c, hash.h and shash.h.
    - MemPool.v, MemPoolProofs.v: mempool.h with the bytes of its blocks;
      DBuffer.v: dbuffer.h.
    - Locks.v: rwlock.h and spinlock.h, one access to the lock word at a time,
      as a step relation over any number of threads.
    - StrUtil.v, StrUtilProofs.v: str_util.c; Algo.v, AlgoProofs.v: gcd.c,
      bsearch.c, kth.c, maxsubseqsum.c, BM_search.c.

    Network helpers (network/netutil):
    - IpAddr.v, IpAddrProofs.v, IpMatch.v: ip_addr.c.
    - SockUtil.v, SockUtilProofs.v: sock_util.c (and the two functions of
      ip_addr.c that ask the kernel or the resolver).  The kernel is the class
      [Sys]; a ledger keeps, for every open descriptor, the calls made on it.
    - SockPool.v, SockPoolProofs.v: sockpool.c of network/socket/proxy/utils, the
      doubly linked hash entries in one block of items.

    The data path of the proxy:
    - FdEpoll.v, FdEpollProofs.v: proxy/utils/fd_epoll.c, the descriptor map
      and the array of pending updates; EpollEvent.v, EpollEventProofs.v:
      epoll_event.c, the event layer before it.
    - Conn.v: connection.c, session.c, task.h and sk_recv/sk_send of
      sock_util.c, one definition per function; ConnProofs.v, ConnSafe.v and
      ConnCallbacks.v: the invariant of a handler and that every handler keeps
      it; ConnStream.v and StreamClaims.v: the handlers as operations on byte
      streams.
    - Worker.v, WorkerSafe.v, WorkerClaims.v: _worker_loop of tproxy/worker.c
      and _ltn_accept of listener.c, the invariant of a worker and its runs;
      WorkerDemo.v: a worker with concrete inputs for the witnesses.

    Configuration and control:
    - SvrPool.v: svrpool.c, servers, pools and running data in one heap with
      their reference counters; SvrPoolProofs.v, SvrPoolData.v and
      SvrPoolClaims.v: the counting invariant, the gcd of the weights, round
      robin, and traces of all operations.
    - Policy.v, PolicyProofs.v, PolicyOps.v: policy.c, listener.c and certset.c
      as counted objects that refer to each other.
    - Proxy.v: the proxy object of tproxy/proxy.c with its lists, and the
      commands of tproxy/worker.c.
    - ProxyConfig.v: proxy_config.c, character by character through fgets and
      strtok_r; ConfigWords.v, ConfigProofs.v, ConfigParse.v, ConfigLines.v and
      ConfigClaims.v: the words of a line, that every line keeps the invariant,
      and the equivalence of the loader with one that works on lines and words.
    - System.v: the main thread, the workers and their sessions together, as the
      steps of one system; SystemProofs.v, SystemSteps.v, SystemInv.v,
      SystemClaims.v: its invariant and what follows.  No code sends
      WORKER_CMD_DEL_POLICY; the system takes it as a step all the same, since
      worker_del_policy is there for it.

    Packets (network/packet):
    - NetPkt.v, NetPktProofs.v: netpkt.h, the decoders packet_*.c and the callback
      of sniffex.c; TcpStream.v, TcpStreamProofs.v: tcp_stream.c with jhash.h;
      SslDump.v, SslDumpProofs.v: the stream table of ssldump.c.

    A C function that takes a pointer to a structure takes and returns the
    structure or the state that holds it; NULL is [None]; an int, u_int32_t or
    u_int16_t is a Z brought back to its width where the code can leave it
    ([s32], [u32], [u16]).  Undefined behaviour (a bad index, a freed object, a
    failed assert, a division by zero, a node linked twice) is a [Fault], so a
    theorem that a function is [Ok] says that none of it happens.

    ** What the theorems show

    - System: from a configuration file that was loaded, every step of every
      interleaving of the main thread and the workers is memory safe, but for two
      that are characterised exactly (running data for a pool of more than 256
      servers, and a listening descriptor the descriptor map has no item for); the
      counter of a policy is exact in every reachable state; when nothing is held
      the release frees every policy, and everything but certificate sets and SSL
      contexts when no line of the file lost a reference.
    - Configuration: on every text without NUL the program starts without a
      fault and the object it loads is well formed; the loader equals a
      reference on lines and words.
    - Worker: every run of the worker loop from its start, with any answers of
      the sockets and of OpenSSL, ends without a fault, or in a turn in which the
      send of a TASK_PARSE failed and session_run_task uses the session it has
      released; that place is shown, and so is the error exit of the acceptance
      that leaves a dangling pointer, which the runs exclude.
    - Streams: receiving appends exactly what the kernel gave to the input stream
      and fails exactly when a packet or the kernel fails, a parse task moves it
      behind the peer's output stream, sending takes bytes off its front;
      nothing is lost or reordered.
    - fd_epoll: the update array stays in bounds, a flush commits the last
      mask asked for each descriptor, and the limits of both (a lost update, an
      index one past the map, an overflow after an item is cleared).
      epoll_event: epoll holds exactly what the flags of the events say; the
      handlers that run, and the event that is read after its handler freed it.
    - sock_util: whatever the kernel answers, which descriptors are open
      afterwards and what was done on them (one leak in sk_tcp_server), how
      addresses travel, and that sk_send_all has sent the prefix it reports.
    - sockpool: any operations refine a map from sockets to their address and
      whether they are in use, provided sock_tcpcli takes the port in host byte
      order (the class [HostOrderPort]); otherwise the first put fails an assertion.
      A socket of another server may be handed out.
    - locks: exclusion for any number of threads and every interleaving.
    - hash and shash refine sequences per entry, and an insertion fails exactly
      for a duplicate that is refused or a pool that is dry; hash_choose_size is least;
      freeing visits every item.
    - cblist macros refine operations on sequences; the loop macros visit every
      element once.
    - objpool: any client trace keeps the counters exact and hands out no
      object twice, and the bytes of the held objects are apart; releasing; the
      16-bit size fields.  mempool: its objects are separate, behind the pool's own
      structures, and keep their bytes, every block is freed once.
    - svrpool: along every trace of operations each counter is the number of
      references less one, no freed object is reached, and no object is left when
      nothing is held; the two steps that fault are characterised; round robin is fair until its counter wraps, and reads
      outside the array after; the gcd loop terminates with the gcd.
    - Packets: a frame built from headers is decoded into its parts, the checksum
      verifies; the stream table refines a map from connections to streams, and a
      stream's state tells the packets it has seen; the reassembly queues deliver
      nothing.
    - ip_addr: printing and parsing of ports and masks are inverse, mask
      matching is equality of prefixes, ranges and address classes are exact,
      comparison is the numeric order within a family; masking, subnets and
      mixed comparison are shown to be wrong.
    - str_util: copy and append, first and last occurrence, the exact result of
      str_len, and that str_token does not split.  Algorithms: selection, the
      maximal sum, binary and Boyer-Moore search against their specifications.

    ** Bounds and fuel

    A loop that is not structural runs on fuel and faults with [NoReturn] when
    it runs out; the theorems show that it does not.  The fuel is the length of
    the buffer plus one for the string loops (an index leaves the object before
    that), the length of the text for the configuration loader (a turn consumes
    a character), |b| + 1 for the gcd (the remainder shrinks), the number of
    bytes for sk_send_all (a turn sends one at least), the number of items for
    the lists of the socket pool, 20 digits for decimal output of 64-bit
    numbers.  The theorem on svrpool traces is for traces of fewer than
    2^31 / 257 actions, since the counters are ints and an action adds at most
    257 references to an object; the system theorems ask that the length of the
    file and the cost of the steps stay below 2^31 in the same way.  The reference
    loader is for lines of fewer than 1023 characters, which fit the buffer; the
    sizes of memory and socket pools, of frames, and of a text with the pattern
    searched in it, are below 2^31, where the code keeps them in ints; objects of an
    object pool have at most 65488 bytes, beyond which the 16-bit node size wraps.

    Allocation: the object, hash and memory pools run on an allocator that fails when
    it likes.  The theorems on the configuration, the system and svrpool start in
    worlds in which every calloc and every SSL context succeeds: the code does not
    survive all such failures (svrpool.c:282, certset.c:22).  The worker's runs
    take any outcome of the packet pool and of the sockets, but assume that an accepted
    client's destination is found and that the update array has room for the
    callbacks of a turn.

    ** Not modelled

    System calls, epoll, OpenSSL and name resolution are parameters or scripted
    outcomes.  Printing functions, thread and process set-up, signals, command
    lines, pcap set-up and the helpers of the kernel modules are left out.  Some
    files cannot be compiled and have no definite meaning to model:
    network/protocol http_parse.c (it uses fields its header does not have),
    proxy/utils packet.c (its queue type is gone), datastruct tree.c (it does not
    fit tree.h), the copy of sockpool.c in proxy/utils and project/cmf.  Vendored
    code (oldproxy/offline and socket/proxy/offline), the sample programs of the
    other directories, and the older copies of the proxy (pproxy, oldproxy,
    socket/proxy apart from its socket pool) are not part of the program. *)

From stdpp Require Export base numbers list gmap.
From Stdlib Require Export ZArith Lia.
#[global] Open Scope Z_scope.

(** ** Faults and the error monad

    A C function of the model either returns ([Ok]) or runs into one of the
    ways a C program goes wrong ([Fault]); an [assert] that fails is a fault
    too, since the code is built with assertions enabled. *)
Inductive fault : Type :=
  | NullDeref
  | OutOfBounds
  | AssertFailed
  | UseAfterFree
  | DivByZero
  | ListCorrupt    (** a node that is linked already is linked again *)
  | NoReturn.      (** a loop that does not terminate: the fuel ran out *)

#[global] Instance fault_eq_dec : EqDecision fault.
Proof. solve_decision. Defined.

Inductive res (A : Type) : Type :=
  | Ok (a : A)
  | Fault (f : fault).
Arguments Ok {A} _.
Arguments Fault {A} _.

Definition bind {A B} (m : res A) (k : A -> res B) : res B :=
  match m with Ok a => k a | Fault f => Fault f end.

Declare Scope c_scope.
Delimit Scope c_scope with C.
Notation "'do' x <- m ; k" := (bind m (fun x => k))
  (at level 200, x pattern, m at level 100, k at level 200,
   format "'[v' 'do'  x  <-  m ; '/' k ']'") : c_scope.
Notation "'assert!' b ; k" := (if b then k else Fault AssertFailed)
  (at level 200, b at level 100, k at level 200) : c_scope.
#[global] Open Scope c_scope.

(** A pointer read: a location that is absent from a store is a dangling
    (freed or never allocated) pointer. *)
Definition deref {A} (o : option A) : res A :=
  match o with Some a => Ok a | None => Fault UseAfterFree end.

(** An array read or write: out of range is undefined behaviour. *)
Definition arr_get {A} (l : list A) (i : Z) : res A :=
  if i <? 0 then Fault OutOfBounds else
  match l !! Z.to_nat i with Some a => Ok a | None => Fault OutOfBounds end.

Definition arr_set {A} (l : list A) (i : Z) (x : A) : res (list A) :=
  if (i <? 0) || (Z.of_nat (length l) <=? i) then Fault OutOfBounds
  else Ok (<[Z.to_nat i := x]> l).

Lemma bind_Ok {A B} (m : res A) (k : A -> res B) b :
  bind m k = Ok b <-> exists a, m = Ok a /\ k a = Ok b.
Proof. destruct m; simpl; naive_solver. Qed.

Lemma deref_Ok {A} (o : option A) a : deref o = Ok a <-> o = Some a.
Proof. destruct o; simpl; naive_solver. Qed.

Lemma arr_get_Ok {A} (l : list A) i a :
  arr_get l i = Ok a <-> 0 <= i /\ l !! Z.to_nat i = Some a.
Proof.
  unfold arr_get. destruct (Z.ltb_spec i 0).
  - split; [done | lia].
  - destruct (l !! Z.to_nat i); naive_solver.
Qed.

Lemma arr_get_nat {A} (l : list A) (n : nat) a :
  l !! n = Some a -> arr_get l (Z.of_nat n) = Ok a.
Proof. intros H. apply arr_get_Ok. rewrite Nat2Z.id. split; [lia | done]. Qed.

Lemma arr_get_Fault {A} (l : list A) i f :
  arr_get l i = Fault f <-> f = OutOfBounds /\ (i < 0 \/ Z.of_nat (length l) <= i).
Proof.
  unfold arr_get. destruct (Z.ltb_spec i 0); [naive_solver lia|].
  destruct (l !! Z.to_nat i) eqn:E.
  - apply lookup_lt_Some in E. split; [done | lia].
  - apply lookup_ge_None in E. naive_solver lia.
Qed.

Lemma arr_set_Ok {A} (l : list A) i x l' :
  arr_set l i x = Ok l' <->
  0 <= i < Z.of_nat (length l) /\ l' = <[Z.to_nat i := x]> l.
Proof.
  unfold arr_set. destruct (Z.ltb_spec i 0), (Z.leb_spec (Z.of_nat (length l)) i);
    simpl; naive_solver lia.
Qed.

(** ** Machine integers (LP64, little endian: x86-64 Linux) *)
Definition u8 (x : Z) : Z := x mod 2 ^ 8.
Definition u16 (x : Z) : Z := x mod 2 ^ 16.
Definition u32 (x : Z) : Z := x mod 2 ^ 32.
Definition u64 (x : Z) : Z := x mod 2 ^ 64.
Definition s32 (x : Z) : Z := (x + 2 ^ 31) mod 2 ^ 32 - 2 ^ 31.

Lemma u8_range x : 0 <= u8 x < 2 ^ 8.
Proof. apply Z.mod_pos_bound. lia. Qed.
Lemma u16_range x : 0 <= u16 x < 2 ^ 16.
Proof. apply Z.mod_pos_bound. lia. Qed.
Lemma u32_range x : 0 <= u32 x < 2 ^ 32.
Proof. apply Z.mod_pos_bound. lia. Qed.
Lemma s32_range x : - 2 ^ 31 <= s32 x < 2 ^ 31.
Proof. unfold s32. pose proof (Z.mod_pos_bound (x + 2 ^ 31) (2 ^ 32)). lia. Qed.
Lemma u16_small x : 0 <= x < 2 ^ 16 -> u16 x = x.
Proof. apply Z.mod_small. Qed.
Lemma u32_small x : 0 <= x < 2 ^ 32 -> u32 x = x.
Proof. apply Z.mod_small. Qed.
Lemma u64_small x : 0 <= x < 2 ^ 64 -> u64 x = x.
Proof. apply Z.mod_small. Qed.
Lemma s32_small x : - 2 ^ 31 <= x < 2 ^ 31 -> s32 x = x.
Proof. intros. unfold s32. rewrite Z.mod_small; lia. Qed.
(** An unsigned value whose conversion to int is not negative is unchanged. *)
Lemma s32_nonneg x : 0 <= x < 2 ^ 32 -> 0 <= s32 x -> s32 x = x.
Proof.
  intros Hx Hs. destruct (Z.lt_ge_cases x (2 ^ 31)); [apply s32_small; lia|]. exfalso. unfold s32 in Hs.
  replace (x + 2 ^ 31) with (x - 2 ^ 31 + 1 * 2 ^ 32) in Hs by lia.
  rewrite Z.mod_add, Z.mod_small in Hs by lia. lia.
Qed.
Lemma u32_add_l x y : u32 (u32 x + y) = u32 (x + y).
Proof. apply Zplus_mod_idemp_l. Qed.
Lemma u32_sub_l x y : u32 (u32 x - y) = u32 (x - y).
Proof. apply Zminus_mod_idemp_l. Qed.

(** Little-endian bytes of an integer, and back. *)
Fixpoint le_bytes (n : nat) (x : Z) : list Z :=
  match n with
  | O => []
  | S n => x mod 256 :: le_bytes n (x / 256)
  end.

Fixpoint le_combine (bs : list Z) : Z :=
  match bs with
  | [] => 0
  | b :: bs => b + 256 * le_combine bs
  end.

Definition is_byte (b : Z) : Prop := 0 <= b < 256.

Lemma length_le_bytes n x : length (le_bytes n x) = n.
Proof. revert x. induction n; simpl; auto. Qed.

Lemma le_bytes_are_bytes n x : Forall is_byte (le_bytes n x).
Proof.
  revert x. induction n; simpl; constructor; auto.
  apply Z.mod_pos_bound. lia.
Qed.

Lemma le_combine_bytes n x :
  0 <= x < 256 ^ Z.of_nat n -> le_combine (le_bytes n x) = x.
Proof.
  revert x. induction n as [|n IH]; intros x Hx; simpl.
  - simpl in Hx. lia.
  - rewrite Nat2Z.inj_succ, Z.pow_succ_r in Hx by lia.
    rewrite IH; [pose proof (Z.div_mod x 256); lia |].
    split; [apply Z.div_pos; lia | apply Z.div_lt_upper_bound; lia].
Qed.

Lemma le_bytes_combine bs :
  Forall is_byte bs -> le_bytes (length bs) (le_combine bs) = bs.
Proof.
  unfold is_byte.
  induction 1 as [|b bs Hb _ IH]; simpl; [done|]. f_equal.
  - rewrite Z.mul_comm, Z_mod_plus_full, Z.mod_small; lia.
  - rewrite Z.mul_comm, Z_div_plus_full, Z.div_small by lia. exact IH.
Qed.

Lemma le_combine_range bs :
  Forall is_byte bs -> 0 <= le_combine bs < 256 ^ Z.of_nat (length bs).
Proof.
  unfold is_byte.
  induction 1 as [|b bs Hb _ IH]; simpl; [lia|].
  rewrite Nat2Z.inj_succ, Z.pow_succ_r by lia. lia.
Qed.

(** [htonl] and [ntohl] are one function on a little-endian machine: the
    byte order of the word is reversed. *)
Definition bswap (n : nat) (x : Z) : Z := le_combine (reverse (le_bytes n x)).
Definition htonl (x : Z) : Z := bswap 4 x.
Definition ntohl (x : Z) : Z := bswap 4 x.
Definition htons (x : Z) : Z := bswap 2 x.
Definition ntohs (x : Z) : Z := bswap 2 x.

Lemma Forall_reverse {A} (P : A -> Prop) l : Forall P l -> Forall P (reverse l).
Proof. by rewrite Forall_reverse. Qed.

Lemma bswap_range n x : 0 <= bswap n x < 256 ^ Z.of_nat n.
Proof.
  unfold bswap.
  pose proof (le_combine_range (reverse (le_bytes n x))) as H.
  rewrite length_reverse, length_le_bytes in H. apply H.
  apply Forall_reverse, le_bytes_are_bytes.
Qed.

Lemma bswap_involutive n x :
  0 <= x < 256 ^ Z.of_nat n -> bswap n (bswap n x) = x.
Proof.
  intros Hx. unfold bswap.
  pose proof (le_bytes_combine (reverse (le_bytes n x))) as H.
  rewrite length_reverse, length_le_bytes in H.
  rewrite H by (apply Forall_reverse, le_bytes_are_bytes).
  rewrite reverse_involutive. by apply le_combine_bytes.
Qed.

(** ** [char] is signed on this platform *)
Definition schar (b : Z) : Z := if b <? 128 then b else b - 256.

Lemma schar_range b : is_byte b -> -128 <= schar b < 128.
Proof. unfold is_byte, schar. intros. destruct (Z.ltb_spec b 128); lia. Qed.

Lemma schar_inj a b : is_byte a -> is_byte b -> schar a = schar b -> a = b.
Proof.
  unfold is_byte, schar. intros.
  destruct (Z.ltb_spec a 128), (Z.ltb_spec b 128); lia.
Qed.

(** ** [align_num] of gcc_common.h, 64-bit branch *)
Definition align_num (n : Z) : Z := ((n + 7) / 8) * 8.

Lemma align_num_spec n :
  n <= align_num n < n + 8 /\ align_num n mod 8 = 0.
Proof.
  unfold align_num. pose proof (Z.div_mod (n + 7) 8).
  pose proof (Z.mod_pos_bound (n + 7) 8).
  split; [lia | apply Z_mod_mult].
Qed.

(** ** The C allocator

    [malloc] hands out blocks numbered from a counter, so a block is never
    reused.  [al_room] is the number of further blocks that fit into memory,
    and [al_oom] scripts the calls that return NULL before that: its head says
    whether the next call fails.  [al_live] is the set of blocks that are
    allocated and not freed; freeing anything else is undefined. *)
Record allocator : Type := {
  al_next : positive; al_room : nat; al_oom : list bool; al_live : gset positive }.

Definition malloc (a : allocator) : option positive * allocator :=
  match al_oom a, al_room a with
  | true :: r, n =>
      (None, {| al_next := al_next a; al_room := n; al_oom := r; al_live := al_live a |})
  | r, O => (None, {| al_next := al_next a; al_room := O; al_oom := tail r; al_live := al_live a |})
  | r, S n =>
      (Some (al_next a),
       {| al_next := Pos.succ (al_next a); al_room := n; al_oom := tail r;
          al_live := {[al_next a]} ∪ al_live a |})
  end.

Definition mfree (a : allocator) (b : positive) : res allocator :=
  if decide (b ∈ al_live a) then
    Ok {| al_next := al_next a; al_room := S (al_room a); al_oom := al_oom a;
          al_live := al_live a ∖ {[b]} |}
  else Fault UseAfterFree.

(** Every live block lies below the counter. *)
Definition al_wf (a : allocator) : Prop := forall b, b ∈ al_live a -> (b < al_next a)%positive.

Lemma malloc_Some a b a' :
  malloc a = (Some b, a') ->
  b = al_next a /\ al_next a' = Pos.succ b /\ al_room a = S (al_room a') /\
  al_live a' = {[b]} ∪ al_live a.
Proof.
  unfold malloc. destruct (al_oom a) as [|[] ?]; [|done|];
    destruct (al_room a) eqn:E; naive_solver.
Qed.

Lemma malloc_None a a' :
  malloc a = (None, a') ->
  al_next a' = al_next a /\ al_room a' = al_room a /\ al_live a' = al_live a.
Proof.
  unfold malloc. destruct (al_oom a) as [|[] ?]; [|naive_solver|];
    destruct (al_room a) eqn:E; naive_solver.
Qed.

Lemma malloc_wf a r a' : al_wf a -> malloc a = (r, a') -> al_wf a'.
Proof.
  intros Hw Hm b Hb. destruct r as [c|].
  - apply malloc_Some in Hm as (-> & Hn & _ & Hl). rewrite Hl in Hb. rewrite Hn.
    apply elem_of_union in Hb as [Hb%elem_of_singleton|Hb%Hw]; lia.
  - apply malloc_None in Hm as (Hn & _ & Hl). rewrite Hn. apply Hw. by rewrite <- Hl.
Qed.

Lemma mfree_Ok a b :
  b ∈ al_live a ->
  exists a', mfree a b = Ok a' /\ al_next a' = al_next a /\ al_room a' = S (al_room a) /\
    al_live a' = al_live a ∖ {[b]}.
Proof. intros Hb. unfold mfree. rewrite decide_True by done. eauto. Qed.

(** ** Searching lists: the reference notions of the search loops *)
Fixpoint find_first {A} (P : A -> bool) (l : list A) : option nat :=
  match l with
  | [] => None
  | x :: l => if P x then Some O else S <$> find_first P l
  end.

Fixpoint find_last {A} (P : A -> bool) (l : list A) : option nat :=
  match l with
  | [] => None
  | x :: l =>
      match find_last P l with
      | Some i => Some (S i)
      | None => if P x then Some O else None
      end
  end.

Lemma find_first_Some {A} (P : A -> bool) l i :
  find_first P l = Some i <->
  exists x, l !! i = Some x /\ P x = true /\
    (forall j y, (j < i)%nat -> l !! j = Some y -> P y = false).
Proof.
  revert i. induction l as [|a l IH]; intros i; simpl.
  { split; [done | intros (x & H & _); done]. }
  destruct (P a) eqn:Ha.
  - split.
    + intros [= <-]. exists a. split_and!; [done|done|lia].
    + intros (x & Hx & HP & Hlt). destruct i as [|i]; [done|].
      specialize (Hlt O a). rewrite Hlt in Ha; [done|lia|done].
  - destruct i as [|i].
    + split; [by destruct (find_first P l)|]. intros (x & [= ->] & HP & _). congruence.
    + rewrite fmap_Some. split.
      * intros (i' & Hi & [= ->]). apply IH in Hi as (x & ? & ? & Hlt).
        exists x. split_and!; [done..|]. intros [|j] y Hj Hy; simplify_eq/=; [done|].
        eapply Hlt; [|done]. lia.
      * intros (x & ? & ? & Hlt). exists i. split; [|done]. apply IH.
        exists x. split_and!; [done..|]. intros j y ??. eapply (Hlt (S j)); [lia|done].
Qed.

Lemma find_first_None {A} (P : A -> bool) l :
  find_first P l = None <-> Forall (fun x => P x = false) l.
Proof.
  induction l as [|a l IH]; simpl; [by split|].
  rewrite Forall_cons. destruct (P a).
  - split; [done|]. intros [? _]. done.
  - rewrite fmap_None, IH. naive_solver.
Qed.

Lemma find_last_Some {A} (P : A -> bool) l i :
  find_last P l = Some i <->
  exists x, l !! i = Some x /\ P x = true /\
    (forall j y, (i < j)%nat -> l !! j = Some y -> P y = false).
Proof.
  revert i. induction l as [|a l IH]; intros i; simpl.
  { split; [done | intros (x & H & _); done]. }
  destruct (find_last P l) as [k|] eqn:Hk.
  - destruct (proj1 (IH k) eq_refl) as (x & Hx & HP & Hlt).
    split.
    + intros [= <-]. exists x. split_and!; [done..|].
      intros [|j] y ??; [lia|]. eapply Hlt; [|done]. lia.
    + intros (y & Hy & HPy & Hlty). destruct i as [|i].
      * specialize (Hlty (S k) x). rewrite Hlty in HP; [done|lia|done].
      * f_equal. f_equal. destruct (Nat.lt_trichotomy i k) as [H|[->|H]]; [|done|].
        -- specialize (Hlty (S k) x). rewrite Hlty in HP; [done|lia|done].
        -- specialize (Hlt i y). rewrite Hlt in HPy; [done|lia|done].
  - assert (Hn : forall j y, l !! j = Some y -> P y = false).
    { intros j y Hj. destruct (P y) eqn:E; [|done]. exfalso.
      clear - Hk Hj E. revert j Hj. induction l as [|b l IHl]; intros j Hj; [done|].
      simpl in Hk. destruct (find_last P l) eqn:E2; [done|].
      destruct j; simplify_eq/=; [by rewrite E in Hk|]. by eapply IHl. }
    split.
    + destruct (P a) eqn:Ha; [intros [= <-]|done].
      exists a. split_and!; [done..|]. intros [|j] y ??; [lia|]. by eapply Hn.
    + intros (x & Hx & HP & _). destruct i as [|i]; simplify_eq/=.
      * by rewrite HP.
      * by rewrite (Hn i x) in HP.
Qed.

Lemma find_last_None {A} (P : A -> bool) l :
  find_last P l = None <-> Forall (fun x => P x = false) l.
Proof.
  induction l as [|a l IH]; simpl; [by split|].
  rewrite Forall_cons. destruct (find_last P l).
  - split; [done|]. intros [_ H]. by apply IH in H.
  - destruct (P a); [naive_solver|]. split; [|done]. intros _. split; [done|]. by apply IH.
Qed.

(** ** Filters and duplicate-free lists *)
Lemma filter_ext_elem {A} (P Q : A -> Prop) `{!forall x, Decision (P x), !forall x, Decision (Q x)} (l : list A) :
  (forall x, x ∈ l -> P x <-> Q x) -> filter P l = filter Q l.
Proof.
  induction l as [|x l IH]; intros HPQ; [done|]. rewrite !filter_cons, IH by set_solver.
  specialize (HPQ x ltac:(left)). destruct (decide (P x)), (decide (Q x)); tauto.
Qed.

Lemma filter_none {A} (P : A -> Prop) `{!forall x, Decision (P x)} (l : list A) :
  (forall x, x ∈ l -> ~ P x) -> filter P l = [].
Proof.
  induction l as [|x l IH]; intros HP; [done|].
  rewrite filter_cons, decide_False by (apply HP; left). apply IH. set_solver.
Qed.

Lemma filter_all {A} (P : A -> Prop) `{!forall x, Decision (P x)} (l : list A) :
  (forall x, x ∈ l -> P x) -> filter P l = l.
Proof.
  induction l as [|x l IH]; intros HP; [done|].
  rewrite filter_cons, decide_True by (apply HP; left). f_equal. apply IH. set_solver.
Qed.

Lemma NoDup_incl_length {A} (l k : list A) :
  NoDup l -> (forall x, x ∈ l -> x ∈ k) -> (length l <= length k)%nat.
Proof. intros Hl Hi. by apply submseteq_length, NoDup_submseteq. Qed.

Lemma filter_neq_length {A} `{EqDecision A} (l : list A) x :
  NoDup l -> x ∈ l -> length l = S (length (filter (fun y => y <> x) l)).
Proof.
  induction 1 as [|y l Hy Hl IH]; intros Hx; [by apply elem_of_nil in Hx|].
  rewrite filter_cons. apply elem_of_cons in Hx as [->|Hx].
  - rewrite decide_False by tauto. simpl. f_equal. f_equal. symmetry.
    apply filter_all. intros z Hz ->. done.
  - rewrite decide_True by (intros ->; done). simpl. by rewrite IH.
Qed.

(** ** Automation *)
Create HintDb csem.
#[export] Hint Resolve u8_range u16_range u32_range s32_range bswap_range : csem.
#[export] Hint Rewrite @bind_Ok @deref_Ok @arr_get_Ok @arr_set_Ok : csem.

(** [inv_ok] turns a hypothesis that a composite computation returned into
    the results of its parts. *)
Ltac inv_ok :=
  repeat match goal with
  | H : bind _ _ = Ok _ |- _ => apply bind_Ok in H as (? & ? & H)
  | H : deref _ = Ok _ |- _ => apply deref_Ok in H
  | H : arr_get _ _ = Ok _ |- _ => apply arr_get_Ok in H as [? ?]
  | H : arr_set _ _ _ = Ok _ |- _ => apply arr_set_Ok in H as [? ->]
  | H : Ok _ = Ok _ |- _ => injection H as H; subst
  | H : Fault _ = Ok _ |- _ => discriminate H
  | H : (if ?b then _ else _) = Ok _ |- _ => destruct b eqn:?
  end.
