(* ===== verification/CBList.v ===== *)
(** * cblist: the circular doubly linked list of cblist.h

    Pointer-level model of src/code/basic/datastruct/cblist.h: a heap maps
    the address of a [cblist_t] to its two fields, each macro is the sequence
    of assignments it expands to, and the refinement theorems say which
    operation on the represented sequence each macro implements.  The other
    components keep such a list as the sequence it represents. *)
From S2P Require Import Prelude.

Abbreviation loc := positive.

Module CBList.

(** ** The structure and its macros *)
Record cblist_t : Type := { p : loc; n : loc }.

Abbreviation heap := (gmap loc cblist_t).

Definition get_p (h : heap) (l : loc) : res loc := do c <- deref (h !! l); Ok (p c).
Definition get_n (h : heap) (l : loc) : res loc := do c <- deref (h !! l); Ok (n c).
Definition set_p (h : heap) (l v : loc) : res heap :=
  do c <- deref (h !! l); Ok (<[l := {| p := v; n := n c |}]> h).
Definition set_n (h : heap) (l v : loc) : res heap :=
  do c <- deref (h !! l); Ok (<[l := {| p := p c; n := v |}]> h).

Definition CBLIST_INIT (h : heap) (l : loc) : res heap :=
  do h <- set_n h l l;
  set_p h l l.

Definition CBLIST_IS_EMPTY (h : heap) (l : loc) : res bool :=
  do x <- get_n h l; Ok (Pos.eqb x l).

Definition CBLIST_GET_HEAD (h : heap) (lh : loc) : res (option loc) :=
  do x <- get_n h lh; Ok (if Pos.eqb x lh then None else Some x).

(** The macro tests [p] but returns the element of [n]. *)
Definition CBLIST_GET_TAIL (h : heap) (lh : loc) : res (option loc) :=
  do x <- get_p h lh;
  if Pos.eqb x lh then Ok None else do y <- get_n h lh; Ok (Some y).

Definition CBLIST_ADD_HEAD (h : heap) (lh l : loc) : res heap :=
  do x <- get_n h lh;
  do h <- set_n h l x;
  do y <- get_n h l;
  do h <- set_n h lh l;
  do h <- set_p h y l;
  set_p h l lh.

Definition CBLIST_ADD_TAIL (h : heap) (lh l : loc) : res heap :=
  do x <- get_p h lh;
  do h <- set_p h l x;
  do y <- get_p h l;
  do h <- set_p h lh l;
  do h <- set_n h y l;
  set_n h l lh.

Definition CBLIST_DEL (h : heap) (l : loc) : res heap :=
  do nx <- get_n h l;
  do pv <- get_p h l;
  do h <- set_p h nx pv;
  do pv <- get_p h l;
  do nx <- get_n h l;
  do h <- set_n h pv nx;
  CBLIST_INIT h l.

Definition CBLIST_JOIN (h : heap) (lh1 lh2 : loc) : res heap :=
  do e <- CBLIST_IS_EMPTY h lh2;
  if e then Ok h else
  do p1 <- get_p h lh1;
  do n2 <- get_n h lh2;
  do h <- set_n h p1 n2;
  do n2 <- get_n h lh2;
  do p1 <- get_p h lh1;
  do h <- set_p h n2 p1;
  do p2 <- get_p h lh2;
  do h <- set_p h lh1 p2;
  do p2 <- get_p h lh2;
  do h <- set_n h p2 lh1;
  CBLIST_INIT h lh2.

(** The two loops, over a state [S] that contains the heap; the body says
    with its boolean whether it executes [break]. *)
Section Loops.
Context {S : Type} (hp : S -> heap).

Fixpoint for_each (fuel : nat) (lh e : loc) (body : loc -> S -> res (S * bool))
    (s : S) : res S :=
  match fuel with
  | O => Fault NoReturn
  | Datatypes.S fuel =>
      if Pos.eqb e lh then Ok s else
      do (s, brk) <- body e s;
      if brk : bool then Ok s else
      do e' <- get_n (hp s) e;
      for_each fuel lh e' body s
  end.

Definition CBLIST_FOR_EACH (fuel : nat) (lh : loc) (body : loc -> S -> res (S * bool))
    (s : S) : res S :=
  do e <- get_n (hp s) lh;
  for_each fuel lh e body s.

Fixpoint for_each_safe (fuel : nat) (lh e b : loc) (body : loc -> S -> res (S * bool))
    (s : S) : res S :=
  match fuel with
  | O => Fault NoReturn
  | Datatypes.S fuel =>
      if Pos.eqb e lh then Ok s else
      do (s, brk) <- body e s;
      if brk : bool then Ok s else
      do b' <- get_n (hp s) b;
      for_each_safe fuel lh b b' body s
  end.

Definition CBLIST_FOR_EACH_SAFE (fuel : nat) (lh : loc)
    (body : loc -> S -> res (S * bool)) (s : S) : res S :=
  do e <- get_n (hp s) lh;
  do b <- get_n (hp s) e;
  for_each_safe fuel lh e b body s.
End Loops.

(** ** Representation *)
Definition nxt (h : heap) (l : loc) : option loc := n <$> h !! l.
Definition prv (h : heap) (l : loc) : option loc := p <$> h !! l.

Definition link (h : heap) (a b : loc) : Prop := nxt h a = Some b /\ prv h b = Some a.

Fixpoint chain (h : heap) (a : loc) (xs : list loc) (b : loc) : Prop :=
  match xs with
  | [] => link h a b
  | x :: xs => link h a x /\ chain h x xs b
  end.

(** [is_cblist h lh xs]: the header [lh] is the head of the circular list
    whose elements are [xs], in order. *)
Definition is_cblist (h : heap) (lh : loc) (xs : list loc) : Prop :=
  NoDup (lh :: xs) /\ chain h lh xs lh.

(** [h'] differs from [h] at most on the cells [ds]. *)
Definition same_except (ds : list loc) (h h' : heap) : Prop :=
  forall x, x ∉ ds -> h' !! x = h !! x.

(** ** Field accesses through [nxt] and [prv] *)
Lemma get_n_nxt h l x : get_n h l = Ok x <-> nxt h l = Some x.
Proof. unfold get_n, nxt. destruct (h !! l); simpl; naive_solver. Qed.
Lemma get_p_prv h l x : get_p h l = Ok x <-> prv h l = Some x.
Proof. unfold get_p, prv. destruct (h !! l); simpl; naive_solver. Qed.

Lemma set_n_spec h a v :
  is_Some (h !! a) ->
  exists h', set_n h a v = Ok h' /\ nxt h' a = Some v /\
    (forall x, x <> a -> nxt h' x = nxt h x) /\ (forall x, prv h' x = prv h x) /\
    dom h' = dom h /\ same_except [a] h h'.
Proof.
  intros [c Hc]. unfold set_n. rewrite Hc. simpl. eexists. split; [done|].
  unfold nxt, prv. rewrite lookup_insert_eq. simpl. split_and!; [done| | | |].
  - intros x Hx. by rewrite lookup_insert_ne.
  - intros x. destruct (decide (x = a)) as [->|]; [rewrite lookup_insert_eq, Hc|rewrite lookup_insert_ne]; done.
  - apply dom_insert_lookup_L. by eexists.
  - intros x Hx. rewrite lookup_insert_ne; set_solver.
Qed.

Lemma set_p_spec h a v :
  is_Some (h !! a) ->
  exists h', set_p h a v = Ok h' /\ prv h' a = Some v /\
    (forall x, x <> a -> prv h' x = prv h x) /\ (forall x, nxt h' x = nxt h x) /\
    dom h' = dom h /\ same_except [a] h h'.
Proof.
  intros [c Hc]. unfold set_p. rewrite Hc. simpl. eexists. split; [done|].
  unfold nxt, prv. rewrite lookup_insert_eq. simpl. split_and!; [done| | | |].
  - intros x Hx. by rewrite lookup_insert_ne.
  - intros x. destruct (decide (x = a)) as [->|]; [rewrite lookup_insert_eq, Hc|rewrite lookup_insert_ne]; done.
  - apply dom_insert_lookup_L. by eexists.
  - intros x Hx. rewrite lookup_insert_ne; set_solver.
Qed.

Lemma nxt_is_Some h l x : nxt h l = Some x -> is_Some (h !! l).
Proof. unfold nxt. rewrite fmap_Some. naive_solver. Qed.
Lemma prv_is_Some h l x : prv h l = Some x -> is_Some (h !! l).
Proof. unfold prv. rewrite fmap_Some. naive_solver. Qed.
Lemma dom_is_Some (h h' : heap) l : dom h' = dom h -> is_Some (h !! l) -> is_Some (h' !! l).
Proof. intros Hd H. apply elem_of_dom. rewrite Hd. by apply elem_of_dom. Qed.

Lemma same_except_trans ds1 ds2 h1 h2 h3 :
  same_except ds1 h1 h2 -> same_except ds2 h2 h3 -> same_except (ds1 ++ ds2) h1 h3.
Proof. intros H1 H2 x Hx. rewrite H2, H1; set_solver. Qed.
Lemma same_except_weaken ds1 ds2 h1 h2 :
  ds1 ⊆ ds2 -> same_except ds1 h1 h2 -> same_except ds2 h1 h2.
Proof. intros Hs H x Hx. apply H. set_solver. Qed.

(** ** Chains *)
Lemma chain_app h a xs x ys b :
  chain h a (xs ++ x :: ys) b <-> chain h a xs x /\ chain h x ys b.
Proof. revert a. induction xs as [|y xs IH]; intros a; simpl; [done|]. rewrite IH. tauto. Qed.

Lemma chain_frame h h' a xs b :
  (forall x, x ∈ a :: xs -> nxt h' x = nxt h x) ->
  (forall x, x ∈ xs ++ [b] -> prv h' x = prv h x) ->
  chain h a xs b -> chain h' a xs b.
Proof.
  revert a. induction xs as [|x xs IH]; simpl; intros a Hn Hp.
  - unfold link. rewrite Hn, Hp by set_solver. done.
  - intros [[H1 H2] Hc]. split.
    + split; [rewrite Hn by set_solver; done | rewrite Hp by set_solver; done].
    + apply IH; [set_solver..|done].
Qed.

Lemma chain_nxt_head h a xs b :
  chain h a xs b -> nxt h a = Some (default b (head xs)).
Proof. destruct xs; simpl; unfold link; naive_solver. Qed.

Lemma chain_prv_last h a xs b :
  chain h a xs b -> prv h b = Some (default a (last xs)).
Proof.
  revert a. induction xs as [|x xs IH]; simpl; intros a.
  - unfold link; naive_solver.
  - intros [_ Hc]. rewrite (IH _ Hc), last_cons. by destruct (last xs).
Qed.

Lemma chain_cells h a xs b x :
  chain h a xs b -> x ∈ a :: xs -> is_Some (h !! x).
Proof.
  revert a. induction xs as [|y xs IH]; simpl; intros a Hc Hx.
  - apply list_elem_of_singleton in Hx as ->. eapply nxt_is_Some, Hc.
  - destruct Hc as [[H1 _] Hc]. apply elem_of_cons in Hx as [->|Hx].
    + by eapply nxt_is_Some.
    + by eapply IH.
Qed.

Lemma is_cblist_same_except ds h h' lh xs :
  same_except ds h h' -> (forall x, x ∈ lh :: xs -> x ∉ ds) ->
  is_cblist h lh xs -> is_cblist h' lh xs.
Proof.
  intros Hs Hd [Hn Hc]. split; [done|].
  eapply chain_frame; [| |done]; intros x Hx; unfold nxt, prv; rewrite Hs; try done;
    apply Hd; set_solver.
Qed.

(** Executes the next assignment of a macro. *)
Ltac step_set :=
  match goal with
  | |- context [bind (set_n ?h ?a ?v) _] =>
      let h' := fresh "h" in let E := fresh "E" in
      destruct (set_n_spec h a v) as (h' & E & ? & ? & ? & ? & ?);
      [ | rewrite E; simpl ]
  | |- context [bind (set_p ?h ?a ?v) _] =>
      let h' := fresh "h" in let E := fresh "E" in
      destruct (set_p_spec h a v) as (h' & E & ? & ? & ? & ? & ?);
      [ | rewrite E; simpl ]
  end.

(** Computes a field of the current heap from the recorded assignments. *)
Ltac fields :=
  repeat match goal with
  | H : nxt ?h ?x = _ |- context [nxt ?h ?x] => rewrite H
  | H : prv ?h ?x = _ |- context [prv ?h ?x] => rewrite H
  | H : forall x, nxt ?h x = _ |- context [nxt ?h ?y] => rewrite (H y)
  | H : forall x, prv ?h x = _ |- context [prv ?h ?y] => rewrite (H y)
  | H : forall x, x <> _ -> nxt ?h x = _ |- context [nxt ?h ?y] => rewrite (H y) by congruence
  | H : forall x, x <> _ -> prv ?h x = _ |- context [prv ?h ?y] => rewrite (H y) by congruence
  end; first [done | congruence].

Lemma CBLIST_INIT_spec h l :
  is_Some (h !! l) ->
  exists h', CBLIST_INIT h l = Ok h' /\ is_cblist h' l [] /\
    dom h' = dom h /\ same_except [l] h h'.
Proof.
  intros Hl. unfold CBLIST_INIT. step_set; [done|].
  destruct (set_p_spec h0 l l) as (h1 & E1 & Hp & Hpo & Hn & Hd & Hs).
  { eapply dom_is_Some; done. }
  exists h1. split_and!; [done| | congruence | ].
  - split; [apply NoDup_singleton|]. simpl. split; [by rewrite Hn|done].
  - eapply same_except_weaken; [|eapply same_except_trans; done]. set_solver.
Qed.

(** Redirecting the last link of a segment, and the first one. *)
Lemma chain_relink_last h h' a xs b b' :
  NoDup (a :: xs) -> chain h a xs b ->
  (forall x, x ∈ a :: xs -> x <> default a (last xs) -> nxt h' x = nxt h x) ->
  (forall x, x ∈ xs -> prv h' x = prv h x) ->
  link h' (default a (last xs)) b' -> chain h' a xs b'.
Proof.
  revert a. induction xs as [|x xs IH]; intros a Hnd Hc Hn Hp Hl; [done|].
  rewrite last_cons in Hl. destruct Hc as [[H1 H2] Hc].
  assert (Hd : default a (last (x :: xs)) = default x (last xs))
    by (rewrite last_cons; by destruct (last xs)).
  rewrite Hd in Hn. split.
  - split; [rewrite Hn; [done|set_solver|] | rewrite Hp by set_solver; done].
    intros ->. apply NoDup_cons in Hnd as [Hnd _]. apply Hnd.
    destruct (last xs) eqn:E; simpl; [apply last_Some_elem_of in E; set_solver|set_solver].
  - apply IH; [by apply NoDup_cons in Hnd as [_ ?]|done|set_solver|set_solver|].
    by destruct (last xs).
Qed.

Lemma chain_relink_first h h' a a' xs b :
  chain h a xs b ->
  (forall x, x ∈ xs -> nxt h' x = nxt h x) ->
  (forall x, x ∈ tail xs ++ [b] -> xs <> [] -> prv h' x = prv h x) ->
  link h' a' (default b (head xs)) -> chain h' a' xs b.
Proof.
  intros Hc Hn Hp Hl. destruct xs as [|x xs]; [done|].
  destruct Hc as [_ Hc]. split; [done|].
  eapply chain_frame; [| |done]; [done|]. intros y Hy. by apply Hp.
Qed.

Lemma chain_last_in a (xs : list loc) : default a (last xs) ∈ a :: xs.
Proof. destruct (last xs) eqn:E; simpl; [apply last_Some_elem_of in E|]; set_solver. Qed.

Lemma CBLIST_ADD_TAIL_spec h lh xs l :
  is_cblist h lh xs -> l ∉ lh :: xs -> is_Some (h !! l) ->
  exists h', CBLIST_ADD_TAIL h lh l = Ok h' /\ is_cblist h' lh (xs ++ [l]) /\
    dom h' = dom h /\ same_except (lh :: l :: xs) h h'.
Proof.
  intros [Hnd Hc] Hl Hsome. unfold CBLIST_ADD_TAIL.
  pose proof (chain_prv_last _ _ _ _ Hc) as Hlast.
  pose proof (chain_last_in lh xs) as Hz.
  set (z := default lh (last xs)) in *.
  rewrite (proj2 (get_p_prv _ _ _) Hlast). simpl.
  step_set; [done|].
  rewrite (proj2 (get_p_prv h0 l z)) by done. simpl.
  step_set; [eapply dom_is_Some; [done|]; by eapply chain_cells; [done|set_solver]|].
  step_set; [do 2 (eapply dom_is_Some; [done|]); by eapply chain_cells|].
  destruct (set_n_spec h2 l lh) as (h3 & E3 & Hn3 & Hno3 & Hp3 & Hd3 & Hs3).
  { do 3 (eapply dom_is_Some; [done|]). done. }
  assert (Hzl : z <> l) by (intros ->; set_solver).
  assert (Hlhl : lh <> l) by set_solver.
  exists h3. split_and!; [done| | congruence |].
  - split.
    { rewrite app_comm_cons. apply NoDup_app. split_and!; [done|set_solver|apply NoDup_singleton]. }
    rewrite chain_app. split.
    + eapply chain_relink_last; [done|done| | |fold z; split].
      * intros x Hx Hxz. fold z in Hxz. rewrite Hno3 by set_solver. fields.
      * intros x Hx. apply NoDup_cons in Hnd as [Hnd _].
        assert (x <> l) by set_solver. assert (x <> lh) by set_solver.
        rewrite Hp3. fields.
      * by rewrite Hno3 by done.
      * rewrite Hp3. fields.
    + split; [done|]. rewrite Hp3. fields.
  - eapply same_except_weaken; [|do 3 (eapply same_except_trans; [done|]); done]. set_solver.
Qed.

Lemma CBLIST_ADD_HEAD_spec h lh xs l :
  is_cblist h lh xs -> l ∉ lh :: xs -> is_Some (h !! l) ->
  exists h', CBLIST_ADD_HEAD h lh l = Ok h' /\ is_cblist h' lh (l :: xs) /\
    dom h' = dom h /\ same_except (lh :: l :: xs) h h'.
Proof.
  intros [Hnd Hc] Hl Hsome. unfold CBLIST_ADD_HEAD.
  pose proof (chain_nxt_head _ _ _ _ Hc) as Hhd.
  assert (Hz : default lh (head xs) ∈ lh :: xs) by (destruct xs; set_solver).
  set (z := default lh (head xs)) in *.
  rewrite (proj2 (get_n_nxt _ _ _) Hhd). simpl.
  step_set; [done|].
  rewrite (proj2 (get_n_nxt h0 l z)) by done. simpl.
  step_set; [eapply dom_is_Some; [done|]; by eapply chain_cells; [done|set_solver]|].
  step_set; [do 2 (eapply dom_is_Some; [done|]); by eapply chain_cells|].
  destruct (set_p_spec h2 l lh) as (h3 & E3 & Hp3 & Hpo3 & Hn3 & Hd3 & Hs3).
  { do 3 (eapply dom_is_Some; [done|]). done. }
  assert (Hzl : z <> l) by (intros ->; set_solver).
  assert (Hlhl : lh <> l) by set_solver.
  exists h3. split_and!; [done| | congruence |].
  - split.
    { apply NoDup_cons in Hnd as [??]. apply NoDup_cons; split; [set_solver|].
      apply NoDup_cons; split; [set_solver|done]. }
    split; [split; [rewrite Hn3; fields|done]|].
    eapply chain_relink_first; [done| | |fold z; split].
    + intros x Hx. apply NoDup_cons in Hnd as [Hnd _].
      assert (x <> l) by set_solver. assert (x <> lh) by set_solver.
      rewrite Hn3. fields.
    + intros x Hx Hxs.
      assert (x <> l) by (destruct xs; set_solver).
      assert (x <> z).
      { unfold z. destruct xs as [|y ys]; [done|]. simpl in *.
        apply NoDup_cons in Hnd as [Hnd1 Hnd]. apply NoDup_cons in Hnd as [Hnd2 _].
        intros ->. set_solver. }
      rewrite Hpo3 by done. fields.
    + rewrite Hn3. fields.
    + by rewrite Hpo3 by done.
  - eapply same_except_weaken; [|do 3 (eapply same_except_trans; [done|]); done]. set_solver.
Qed.

(** Two segments that meet, as one segment without the element between them. *)
Lemma chain_join h a xs ys b :
  chain h a xs (default b (head ys)) ->
  (forall y ys', ys = y :: ys' -> chain h y ys' b) -> chain h a (xs ++ ys) b.
Proof.
  intros H1 H2. destruct ys as [|y ys]; [by rewrite app_nil_r|].
  rewrite chain_app. split; [done|]. by apply H2.
Qed.

Lemma CBLIST_DEL_spec h lh xs l ys :
  is_cblist h lh (xs ++ l :: ys) ->
  exists h', CBLIST_DEL h l = Ok h' /\ is_cblist h' lh (xs ++ ys) /\ is_cblist h' l [] /\
    dom h' = dom h /\ same_except (lh :: xs ++ l :: ys) h h'.
Proof.
  intros [Hnd Hc]. apply chain_app in Hc as [Hc1 Hc2].
  pose proof (chain_prv_last _ _ _ _ Hc1) as Hpv.
  pose proof (chain_nxt_head _ _ _ _ Hc2) as Hnx.
  pose proof (chain_last_in lh xs) as Hz.
  set (z := default lh (last xs)) in *. set (f := default lh (head ys)) in *.
  assert (Hf : f ∈ lh :: ys) by (unfold f; destruct ys; set_solver).
  rewrite app_comm_cons in Hnd. apply NoDup_app in Hnd as (Hnd1 & Hdis & Hnd2).
  apply NoDup_cons in Hnd2 as [Hly Hnd2].
  assert (Hlx : l ∉ lh :: xs) by (intros Hin; specialize (Hdis l Hin); set_solver).
  assert (Hzl : z <> l) by (intros ->; done).
  assert (Hfl : f <> l) by (intros ->; set_solver).
  assert (Hcell : forall x, x ∈ lh :: xs ++ l :: ys -> is_Some (h !! x)).
  { intros x Hx. eapply (chain_cells h lh (xs ++ l :: ys) lh); [|done]. by rewrite chain_app. }
  unfold CBLIST_DEL. rewrite (proj2 (get_n_nxt _ _ _) Hnx). simpl.
  rewrite (proj2 (get_p_prv _ _ _) Hpv). simpl.
  step_set; [apply Hcell; set_solver|].
  rewrite (proj2 (get_p_prv h0 l z)) by fields. simpl.
  rewrite (proj2 (get_n_nxt h0 l f)) by fields. simpl.
  step_set; [eapply dom_is_Some; [done|]; apply Hcell; set_solver|].
  destruct (CBLIST_INIT_spec h1 l) as (h2 & E2 & Hl2 & Hd2 & Hs2).
  { do 2 (eapply dom_is_Some; [done|]). apply Hcell. set_solver. }
  assert (Hnx2 : forall x, x <> l -> nxt h2 x = nxt h1 x) by (intros; unfold nxt; rewrite Hs2; [done|set_solver]).
  assert (Hpv2 : forall x, x <> l -> prv h2 x = prv h1 x) by (intros; unfold prv; rewrite Hs2; [done|set_solver]).
  exists h2. split_and!; [done| |done|congruence|].
  - split; [rewrite app_comm_cons; apply NoDup_app; split_and!; [done|set_solver|done]|].
    apply chain_join; fold f.
    + eapply chain_relink_last; [done|done| | |fold z; split].
      * intros x Hx Hxz. fold z in Hxz. rewrite Hnx2 by set_solver. fields.
      * intros x Hx. assert (x <> f).
        { unfold f. destruct ys as [|y0 ys0]; simpl in *; [apply NoDup_cons in Hnd1; set_solver|].
          intros ->. apply (Hdis y0); set_solver. }
        rewrite Hpv2 by set_solver. fields.
      * by rewrite Hnx2 by done.
      * rewrite Hpv2 by done. fields.
    + intros y ys' ->. destruct Hc2 as [_ Hc2]. unfold f in *. simpl in *.
      eapply chain_frame; [| |done]; intros x Hx.
      * assert (x <> z) by (intros ->; eapply Hdis; [done|set_solver]).
        rewrite Hnx2 by set_solver. fields.
      * assert (x <> y).
        { apply NoDup_cons in Hnd2 as [Hy _]. intros ->.
          apply elem_of_app in Hx as [?|Hx]; [set_solver|].
          apply list_elem_of_singleton in Hx as ->. apply (Hdis lh); set_solver. }
        rewrite Hpv2 by set_solver. fields.
  - eapply same_except_weaken; [|do 2 (eapply same_except_trans; [done|]); done]. set_solver.
Qed.

Lemma CBLIST_IS_EMPTY_spec h lh xs :
  is_cblist h lh xs -> CBLIST_IS_EMPTY h lh = Ok (bool_decide (xs = [])).
Proof.
  intros [Hnd Hc]. unfold CBLIST_IS_EMPTY.
  rewrite (proj2 (get_n_nxt _ _ _) (chain_nxt_head _ _ _ _ Hc)). simpl.
  destruct xs as [|x xs]; simpl; [by rewrite Pos.eqb_refl|].
  apply NoDup_cons in Hnd as [Hnd _]. destruct (Pos.eqb_spec x lh); [set_solver|done].
Qed.

(** The links of the joined list, from the fields of the final heap. *)
Lemma chain_splice h h' lh1 xs lh2 f ys :
  let z := default lh1 (last xs) in let g := default f (last ys) in
  NoDup (lh1 :: xs) -> chain h lh1 xs lh1 -> NoDup (lh2 :: f :: ys) -> chain h f ys lh2 ->
  (forall x, x ∈ lh1 :: xs -> x ∉ lh2 :: f :: ys) ->
  (forall x, x <> z -> x <> g -> x <> lh2 -> nxt h' x = nxt h x) ->
  (forall x, x <> f -> x <> lh1 -> x <> lh2 -> prv h' x = prv h x) ->
  link h' z f -> link h' g lh1 -> chain h' lh1 (xs ++ f :: ys) lh1.
Proof.
  intros z g Hnd1 Hc1 Hnd2 Hc2 Hdis Hn Hp Hl1 Hl2.
  pose proof (chain_last_in lh1 xs) as Hz. pose proof (chain_last_in f ys) as Hg.
  fold z in Hz. fold g in Hg.
  apply NoDup_cons in Hnd2 as [Hnl2 Hnd2].
  rewrite chain_app. split.
  - eapply chain_relink_last; [done|done| | |done].
    + intros x Hx Hxz. specialize (Hdis x Hx). apply Hn; [done|intros ->|intros ->]; set_solver.
    + intros x Hx. apply NoDup_cons in Hnd1 as [Hx1 _].
      apply Hp; intros ->; [apply (Hdis f)|done|apply (Hdis lh2)]; set_solver.
  - eapply chain_relink_last; [done|done| | |done].
    + intros x Hx Hxg. apply Hn; [intros ->; by apply (Hdis z); set_solver|done|set_solver].
    + intros x Hx. apply NoDup_cons in Hnd2 as [Hx1 _].
      apply Hp; [set_solver|intros ->; apply (Hdis lh1); set_solver|set_solver].
Qed.

Lemma CBLIST_JOIN_spec h lh1 xs lh2 ys :
  is_cblist h lh1 xs -> is_cblist h lh2 ys ->
  (forall x, x ∈ lh1 :: xs -> x ∉ lh2 :: ys) ->
  exists h', CBLIST_JOIN h lh1 lh2 = Ok h' /\
    is_cblist h' lh1 (xs ++ ys) /\ is_cblist h' lh2 [] /\
    dom h' = dom h /\ same_except (lh1 :: xs ++ lh2 :: ys) h h'.
Proof.
  intros HL1 HL2 Hdis. unfold CBLIST_JOIN.
  rewrite (CBLIST_IS_EMPTY_spec _ _ _ HL2). simpl.
  destruct ys as [|f ys].
  { exists h. rewrite app_nil_r. split_and!; done. }
  rewrite bool_decide_eq_false_2 by done. simpl.
  destruct HL1 as [Hnd1 Hc1], HL2 as [Hnd2 Hc2].
  pose proof (chain_prv_last _ _ _ _ Hc1) as Hz. pose proof (chain_last_in lh1 xs) as Hzin.
  pose proof (chain_nxt_head _ _ _ _ Hc2) as Hf. simpl in Hf.
  pose proof (chain_prv_last _ _ _ _ (proj2 Hc2)) as Hg. pose proof (chain_last_in f ys) as Hgin.
  assert (Hcell : forall x, x ∈ lh1 :: xs \/ x ∈ lh2 :: f :: ys -> is_Some (h !! x)).
  { intros x [?|?]; [by apply (chain_cells _ _ _ _ _ Hc1)|by apply (chain_cells _ _ _ _ _ Hc2)]. }
  pose proof (fun h' => chain_splice h h' lh1 xs lh2 f ys) as Hsplice. simpl in Hsplice.
  set (z := default lh1 (last xs)) in *. set (g := default f (last ys)) in *.
  pose proof (Hdis _ Hzin) as Hzd. pose proof (Hdis lh1 ltac:(set_solver)) as Hld.
  pose proof Hnd2 as Hnl2. apply NoDup_cons in Hnl2 as [Hnl2 _].
  clearbody z g. assert (lh2 <> z) by (intros Heq; apply Hzd; rewrite Heq; left).
  assert (lh2 <> lh1) by (intros Heq; apply Hld; rewrite Heq; left).
  assert (f <> lh2) by (intros Heq; apply Hnl2; rewrite Heq; left).
  assert (f <> lh1) by (intros Heq; apply Hld; rewrite Heq; right; left).
  assert (g <> lh2) by (intros Heq; apply Hnl2; by rewrite <- Heq).
  assert (z <> g) by (intros Heq; apply Hzd; rewrite Heq; by right).
  rewrite (proj2 (get_p_prv _ _ _) Hz). simpl. rewrite (proj2 (get_n_nxt _ _ _) Hf). simpl.
  step_set; [apply Hcell; set_solver|].
  rewrite (proj2 (get_n_nxt h0 lh2 f)) by fields. simpl.
  rewrite (proj2 (get_p_prv h0 lh1 z)) by fields. simpl.
  step_set; [eapply dom_is_Some; [done|]; apply Hcell; set_solver|].
  rewrite (proj2 (get_p_prv h1 lh2 g)) by fields. simpl.
  step_set; [do 2 (eapply dom_is_Some; [done|]); apply Hcell; set_solver|].
  rewrite (proj2 (get_p_prv h2 lh2 g)) by fields. simpl.
  step_set; [do 3 (eapply dom_is_Some; [done|]); apply Hcell; set_solver|].
  destruct (CBLIST_INIT_spec h3 lh2) as (h4 & E4 & Hl4 & Hd4 & Hs4).
  { do 4 (eapply dom_is_Some; [done|]). apply Hcell. set_solver. }
  assert (Hnx4 : forall x, x <> lh2 -> nxt h4 x = nxt h3 x) by (intros; unfold nxt; rewrite Hs4; [done|set_solver]).
  assert (Hpv4 : forall x, x <> lh2 -> prv h4 x = prv h3 x) by (intros; unfold prv; rewrite Hs4; [done|set_solver]).
  exists h4. split_and!; [done| |done|congruence|].
  2:{ eapply same_except_weaken; [|do 4 (eapply same_except_trans; [done|]); done]. set_solver. }
  split; [rewrite app_comm_cons; apply NoDup_app; split_and!; [done|set_solver|by apply NoDup_cons in Hnd2 as [_ ?]]|].
  apply Hsplice; [done|done|done|apply Hc2|done|intros; fields|intros; fields|split; fields|split; fields].
Qed.
End CBList.
