(* ===== verification/CBListOps.v ===== *)
(** * Sequences of cblist operations and the list loops

    On top of the pointer-level specifications of CBList.v: a family of
    disjoint lists as the abstract state, the simulation of any legal sequence
    of macro uses, and what the two loop macros visit. *)
From S2P Require Import Prelude CBList.

Module CBListOps.
Import CBList.

(** ** A family of lists

    The abstract state maps every initialised [cblist_t] that is not linked
    into a list to the sequence it heads: a list header to its elements, an
    idle node to the empty sequence. *)
Abbreviation family := (gmap loc (list loc)).

Inductive op : Type :=
  | OInit (l : loc)
  | OAddHead (lh l : loc)
  | OAddTail (lh l : loc)
  | ODel (l : loc)
  | OJoin (lh1 lh2 : loc).

Definition run_op (h : heap) (o : op) : res heap :=
  match o with
  | OInit l => CBLIST_INIT h l
  | OAddHead lh l => CBLIST_ADD_HEAD h lh l
  | OAddTail lh l => CBLIST_ADD_TAIL h lh l
  | ODel l => CBLIST_DEL h l
  | OJoin lh1 lh2 => CBLIST_JOIN h lh1 lh2
  end.

Fixpoint run_ops (h : heap) (os : list op) : res heap :=
  match os with
  | [] => Ok h
  | o :: os => do h <- run_op h o; run_ops h os
  end.

(** The cell [x] belongs to the list headed by [k]. *)
Definition owns (F : family) (k x : loc) : Prop :=
  exists xs, F !! k = Some xs /\ x ∈ k :: xs.

(** What the macros promise: [abs_op A F o F'] says that, with the cells [A]
    allocated, [o] is a legal use in [F] and leads to [F']. *)
Inductive abs_op (A : gset loc) (F : family) : op -> family -> Prop :=
  | abs_init l : l ∈ A -> (forall k, ~ owns F k l) -> abs_op A F (OInit l) (<[l := []]> F)
  | abs_add_head lh l xs : F !! lh = Some xs -> F !! l = Some [] -> lh <> l ->
      abs_op A F (OAddHead lh l) (<[lh := l :: xs]> (delete l F))
  | abs_add_tail lh l xs : F !! lh = Some xs -> F !! l = Some [] -> lh <> l ->
      abs_op A F (OAddTail lh l) (<[lh := xs ++ [l]]> (delete l F))
  | abs_del lh l xs ys : F !! lh = Some (xs ++ l :: ys) ->
      abs_op A F (ODel l) (<[l := []]> (<[lh := xs ++ ys]> F))
  | abs_join lh1 lh2 xs ys : F !! lh1 = Some xs -> F !! lh2 = Some ys -> lh1 <> lh2 ->
      abs_op A F (OJoin lh1 lh2) (<[lh2 := []]> (<[lh1 := xs ++ ys]> F)).

Inductive abs_ops (A : gset loc) : family -> list op -> family -> Prop :=
  | abs_ops_nil F : abs_ops A F [] F
  | abs_ops_cons F F1 F2 o os :
      abs_op A F o F1 -> abs_ops A F1 os F2 -> abs_ops A F (o :: os) F2.

(** The heap holds exactly the lists of the family, on disjoint cells. *)
Definition represents (h : heap) (F : family) : Prop :=
  (forall k xs, F !! k = Some xs -> is_cblist h k xs) /\
  (forall k1 k2 x, owns F k1 x -> owns F k2 x -> k1 = k2).

(** A step that touches only cells [ds] keeps every list that owns none of
    them. *)
Lemma represents_step h h' ds F F' :
  represents h F -> same_except ds h h' ->
  (forall k xs, F' !! k = Some xs ->
     is_cblist h' k xs \/ (F !! k = Some xs /\ forall x, x ∈ ds -> ~ owns F k x)) ->
  (forall k1 k2 x, owns F' k1 x -> owns F' k2 x -> k1 = k2) ->
  represents h' F'.
Proof.
  intros [HF HD] Hs Hc HD'. split; [|done]. intros k xs Hk.
  destruct (Hc k xs Hk) as [?|[Hk' Hx]]; [done|].
  eapply is_cblist_same_except; [done| |by apply HF].
  intros x Hx1 Hx2. apply (Hx x Hx2). by exists xs.
Qed.

Lemma owns_insert F k xs j x :
  owns (<[k := xs]> F) j x <-> (j = k /\ x ∈ k :: xs) \/ (j <> k /\ owns F j x).
Proof.
  unfold owns. destruct (decide (j = k)) as [->|Hj].
  - rewrite lookup_insert_eq. naive_solver.
  - rewrite lookup_insert_ne by done. naive_solver.
Qed.

Lemma owns_delete F k j x : owns (delete k F) j x <-> j <> k /\ owns F j x.
Proof.
  unfold owns. destruct (decide (j = k)) as [->|Hj].
  - rewrite lookup_delete_eq. naive_solver.
  - rewrite lookup_delete_ne by done. naive_solver.
Qed.

(** Linking the idle node [l] into [lh], at either end. *)
Lemma represents_add h h' F lh l xs xs' :
  represents h F -> F !! lh = Some xs -> F !! l = Some [] -> lh <> l ->
  (forall x, x ∈ xs' <-> x = l \/ x ∈ xs) ->
  is_cblist h' lh xs' -> same_except (lh :: l :: xs) h h' ->
  represents h' (<[lh := xs']> (delete l F)).
Proof.
  intros HR Hlh Hl Hne Hin Hc Hs. pose proof (proj2 HR) as HD.
  assert (Hol : owns F l l) by (exists []; set_solver).
  assert (Holh : forall x, x ∈ lh :: xs -> owns F lh x) by (intros x ?; by exists xs).
  eapply represents_step; [done|done| |].
  - intros k ys. rewrite lookup_insert_Some, lookup_delete_Some.
    intros [[<- <-]|(? & ? & Hk)]; [by left|right]. split; [done|]. intros x Hx Ho.
    apply elem_of_cons in Hx as [->|Hx]; [|apply elem_of_cons in Hx as [->|Hx]].
    + assert (k = lh) by (eapply HD; [done|apply Holh; set_solver]). congruence.
    + assert (k = l) by (eapply HD; done). congruence.
    + assert (k = lh) by (eapply HD; [done|apply Holh; set_solver]). congruence.
  - assert (Hx : forall k x, owns (<[lh := xs']> (delete l F)) k x ->
      (x = l /\ k = lh) \/ (x <> l /\ owns F k x)).
    { intros k x. rewrite owns_insert, owns_delete.
      intros [[-> Hx]|(? & ? & Ho)].
      - destruct (decide (x = l)); [by left|]. right. split; [done|]. apply Holh.
        rewrite elem_of_cons, Hin in Hx. set_solver.
      - right. split; [|done]. intros ->. assert (k = l) by (eapply HD; done). congruence. }
    intros k1 k2 x H1%Hx H2%Hx. naive_solver.
Qed.

(** Splitting one list into two, or rearranging two lists: the cells of the
    new lists are those of the old ones. *)
Lemma represents_two h h' F ds k1 xs1 k2 xs2 :
  represents h F -> same_except ds h h' -> k1 <> k2 ->
  is_cblist h' k1 xs1 -> is_cblist h' k2 xs2 ->
  (forall x, x ∈ k1 :: xs1 -> x ∉ k2 :: xs2) ->
  (forall k x, owns F k x -> x ∈ ds \/ x ∈ k1 :: xs1 \/ x ∈ k2 :: xs2 -> k = k1 \/ k = k2) ->
  represents h' (<[k2 := xs2]> (<[k1 := xs1]> F)).
Proof.
  intros HR Hs Hne Hc1 Hc2 Hdis Hown. pose proof (proj2 HR) as HD.
  eapply represents_step; [done|done| |].
  - intros k ys. rewrite !lookup_insert_Some.
    intros [[<- <-]|(? & [[<- <-]|(? & Hk)])]; [by left|by left|right]. split; [done|].
    intros x Hx Ho. destruct (Hown k x); [done|by left|done|done].
  - intros j1 j2 x. rewrite !owns_insert.
    assert (Hno : forall j, j <> k2 -> j <> k1 -> owns F j x -> x ∈ k1 :: xs1 \/ x ∈ k2 :: xs2 -> False).
    { intros j Hj1 Hj2 Ho Hx. destruct (Hown j x); [done|tauto|done|done]. }
    intros [[-> H1]|(? & [[-> H1]|(? & H1)])] [[-> H2]|(? & [[-> H2]|(? & H2)])];
      try done; try (exfalso; eapply Hdis; done); try (exfalso; eauto; fail). by eapply HD.
Qed.

Lemma represents_del h h' F lh l xs ys :
  represents h F -> F !! lh = Some (xs ++ l :: ys) ->
  is_cblist h' lh (xs ++ ys) -> is_cblist h' l [] ->
  same_except (lh :: xs ++ l :: ys) h h' ->
  represents h' (<[l := []]> (<[lh := xs ++ ys]> F)).
Proof.
  intros HR Hlh Hc1 Hc2 Hs. pose proof (proj1 (proj1 HR _ _ Hlh)) as Hnd.
  rewrite app_comm_cons in Hnd. apply NoDup_app in Hnd as (Hnd1 & Hx & Hnd2).
  apply NoDup_cons in Hnd2 as [Hl _].
  assert (Hlx : l ∉ lh :: xs) by (intros ?; eapply Hx; [done|set_solver]).
  eapply represents_two; [done|done|set_solver|done|done| |].
  - intros x. set_solver.
  - intros k x Ho Hin. left. eapply (proj2 HR); [done|].
    exists (xs ++ l :: ys). split; [done|]. set_solver.
Qed.

Lemma represents_join h h' F lh1 lh2 xs ys :
  represents h F -> F !! lh1 = Some xs -> F !! lh2 = Some ys -> lh1 <> lh2 ->
  is_cblist h' lh1 (xs ++ ys) -> is_cblist h' lh2 [] ->
  same_except (lh1 :: xs ++ lh2 :: ys) h h' ->
  represents h' (<[lh2 := []]> (<[lh1 := xs ++ ys]> F)).
Proof.
  intros HR H1 H2 Hne Hc1 Hc2 Hs. pose proof (proj2 HR) as HD.
  eapply represents_two; [done|done|done|done|done| |].
  - intros x Hx ->%list_elem_of_singleton. rewrite app_comm_cons, elem_of_app in Hx.
    destruct Hx as [Hx|Hx].
    + apply Hne, (HD _ _ lh2); [by exists xs|exists ys; set_solver].
    + destruct (proj1 HR _ _ H2) as [Hnd _]. by apply NoDup_cons in Hnd as [? _].
  - intros k x Ho Hin. assert (Hx : x ∈ lh1 :: xs \/ x ∈ lh2 :: ys) by set_solver.
    destruct Hx; [left; eapply HD; [done|by exists xs]|right; eapply HD; [done|by exists ys]].
Qed.

Lemma run_op_sim h F o F' :
  represents h F -> abs_op (dom h) F o F' ->
  exists h', run_op h o = Ok h' /\ represents h' F' /\ dom h' = dom h.
Proof.
  intros HR Ho. pose proof HR as [HF HD].
  destruct Ho as [l Hl Hfree|lh l xs H1 H2 Hne|lh l xs H1 H2 Hne|lh l xs ys H1|lh1 lh2 xs ys H1 H2 Hne]; simpl.
  - destruct (CBLIST_INIT_spec h l) as (h' & E & Hc & Hd & Hs); [by apply elem_of_dom|].
    exists h'. split_and!; [done| |done]. eapply represents_step; [done|done| |].
    + intros k ys. rewrite lookup_insert_Some. intros [[<- <-]|[? Hk]]; [by left|right].
      split; [done|]. intros x ->%list_elem_of_singleton. apply Hfree.
    + intros k1 k2 x. rewrite !owns_insert, !list_elem_of_singleton.
      intros [[-> ->]|[? ?]] [[-> ?]|[? ?]]; try subst; try done; try (by exfalso; eapply Hfree).
      by eapply HD.
  - destruct (CBLIST_ADD_HEAD_spec h lh xs l) as (h' & E & Hc & Hd & Hs); [by apply HF|..].
    { intros Hin. apply Hne, (HD _ _ l); [by exists xs|exists []; set_solver]. }
    { eapply chain_cells; [apply (HF _ _ H2)|left]. }
    exists h'. split_and!; [done| |done]. eapply represents_add; set_solver.
  - destruct (CBLIST_ADD_TAIL_spec h lh xs l) as (h' & E & Hc & Hd & Hs); [by apply HF|..].
    { intros Hin. apply Hne, (HD _ _ l); [by exists xs|exists []; set_solver]. }
    { eapply chain_cells; [apply (HF _ _ H2)|left]. }
    exists h'. split_and!; [done| |done]. eapply represents_add; set_solver.
  - destruct (CBLIST_DEL_spec h lh xs l ys) as (h' & E & Hc & Hc' & Hd & Hs); [by apply HF|].
    exists h'. split_and!; [done| |done]. by eapply represents_del.
  - destruct (CBLIST_JOIN_spec h lh1 xs lh2 ys) as (h' & E & Hc & Hc' & Hd & Hs); [by apply HF|by apply HF|..].
    { intros x Hx Hy. apply Hne, (HD _ _ x); [by exists xs|by exists ys]. }
    exists h'. split_and!; [done| |done]. by eapply represents_join.
Qed.

(** C33: any legal sequence of CBLIST_INIT, CBLIST_ADD_HEAD, CBLIST_ADD_TAIL,
    CBLIST_DEL and CBLIST_JOIN over any number of lists runs without touching
    an invalid pointer, and the heap it leaves represents exactly the sequences
    that the list operations prescribe (push at either end, removal of the
    element, concatenation that empties the second list), every other list
    being left alone. *)
Theorem cblist_ops_refine h F os F' :
  represents h F -> abs_ops (dom h) F os F' ->
  exists h', run_ops h os = Ok h' /\ represents h' F' /\ dom h' = dom h.
Proof.
  intros HR Hos. remember (dom h) as A eqn:HA. revert h HR HA.
  induction Hos as [F|F F1 F2 o os Ho Hos IH]; intros h HR ->; [by exists h|].
  destruct (run_op_sim h F o F1 HR Ho) as (h1 & E1 & HR1 & Hd1).
  destruct (IH h1 HR1 (eq_sym Hd1)) as (h2 & E2 & HR2 & Hd2).
  exists h2. simpl. rewrite E1. simpl. split_and!; [done|done|congruence].
Qed.

(** One list with two elements: headers 1 and 5, nodes 2 and 3. *)
Definition demo_heap : heap :=
  list_to_map [(1, {| p := 1; n := 1 |}); (2, {| p := 2; n := 2 |});
               (3, {| p := 3; n := 3 |}); (5, {| p := 9; n := 9 |})]%positive.

Lemma demo_represents : represents demo_heap {[1 := []; 2 := []; 3 := []]}%positive.
Proof.
  assert (Hk : forall k xs, ({[1 := []; 2 := []; 3 := []]}%positive : family) !! k = Some xs ->
    (k = 1 \/ k = 2 \/ k = 3)%positive /\ xs = []).
  { intros k xs. rewrite !lookup_insert_Some, lookup_singleton_Some. naive_solver. }
  split.
  - intros k xs H%Hk. destruct H as [[->|[->| ->]] ->]; (split; [apply NoDup_singleton|split; reflexivity]).
  - intros k1 k2 x (xs1 & H1%Hk & Hx1) (xs2 & H2%Hk & Hx2).
    destruct H1 as [_ ->], H2 as [_ ->]. set_solver.
Qed.

Lemma cblist_ops_refine_witness :
  exists F' h', F' !! 5%positive = Some [3%positive] /\
    run_ops demo_heap [OAddTail 1 2; OAddHead 1 3; OInit 5; OJoin 5 1; ODel 2] = Ok h' /\
    represents h' F' /\ dom h' = dom demo_heap.
Proof.
  eassert (H : abs_ops (dom demo_heap) {[1%positive := []; 2%positive := []; 3%positive := []]}
    [OAddTail 1 2; OAddHead 1 3; OInit 5; OJoin 5 1; ODel 2] _).
  { eapply abs_ops_cons; [apply (abs_add_tail _ _ 1 2 []); done|].
    eapply abs_ops_cons; [apply (abs_add_head _ _ 1 3 [2%positive]); done|].
    eapply abs_ops_cons; [apply (abs_init _ _ 5); [by apply elem_of_dom; eexists|]|].
    { intros k. rewrite owns_insert, owns_delete, owns_insert, owns_delete. unfold owns.
      intros [[-> Ho]|(_ & _ & [[-> Ho]|(_ & _ & xs & Hk & Ho)])]; [set_solver..|].
      rewrite !lookup_insert_Some, lookup_singleton_Some in Hk.
      destruct Hk as [[<- <-]|(_ & [[<- <-]|(_ & [<- <-])])]; by apply list_elem_of_singleton in Ho. }
    eapply abs_ops_cons; [apply (abs_join _ _ 5 1 [] [3%positive; 2%positive]); done|].
    eapply abs_ops_cons; [apply (abs_del _ _ 5 2 [3%positive] []); done|].
    apply abs_ops_nil. }
  destruct (cblist_ops_refine _ _ _ _ demo_represents H) as [h' Hh'].
  eexists _, h'. split; [|exact Hh']. reflexivity.
Defined.

(** ** What the loops visit *)
Section Loops.
Context {S : Type} (hp : S -> heap) (lh : loc) (body : loc -> S -> res (S * bool)).

(** Running the body on the elements of a list until it breaks. *)
Fixpoint visit (xs : list loc) (s : S) : res S :=
  match xs with
  | [] => Ok s
  | x :: xs => do (s, brk) <- body x s; if brk : bool then Ok s else visit xs s
  end.

Lemma for_each_visit fuel pre xs s :
  (forall x s s' b, body x s = Ok (s', b) -> hp s' = hp s) ->
  is_cblist (hp s) lh (pre ++ xs) -> (length xs < fuel)%nat ->
  for_each hp fuel lh (default lh (head xs)) body s = visit xs s.
Proof.
  intros Hb. revert pre xs s. induction fuel as [|fuel IH]; intros pre xs s Hc Hf; [lia|].
  destruct xs as [|x xs]; simpl; [by rewrite Pos.eqb_refl|].
  destruct Hc as [Hnd Hc]. destruct (Pos.eqb_spec x lh) as [->|_].
  { apply NoDup_cons in Hnd. set_solver. }
  destruct (body x s) as [[s' []]|] eqn:E; simpl; [done| |done].
  pose proof (Hb _ _ _ _ E) as Hh. apply chain_app in Hc as Hc'. destruct Hc' as [_ Hc2].
  rewrite Hh, (proj2 (get_n_nxt _ _ _) (chain_nxt_head _ _ _ _ Hc2)). simpl.
  apply (IH (pre ++ [x])); [|simpl in Hf; lia].
  rewrite Hh, <- app_assoc. by split.
Qed.

Lemma for_each_safe_drain (P : list loc -> S -> Prop) fuel don xs s :
  (forall don x xs s, is_cblist (hp s) lh (x :: xs) -> P don s ->
    exists s', body x s = Ok (s', false) /\ is_cblist (hp s') lh xs /\ P (don ++ [x]) s') ->
  is_cblist (hp s) lh xs -> P don s -> (length xs < fuel)%nat ->
  exists s', for_each_safe hp fuel lh (default lh (head xs)) (default lh (head (tail xs))) body s = Ok s' /\
    is_cblist (hp s') lh [] /\ P (don ++ xs) s'.
Proof.
  intros Hb. revert don xs s. induction fuel as [|fuel IH]; intros don xs s Hc HP Hf; [lia|].
  destruct xs as [|x xs]; simpl.
  { rewrite Pos.eqb_refl. exists s. by rewrite app_nil_r. }
  destruct (Pos.eqb_spec x lh) as [->|_].
  { destruct Hc as [Hnd _]. apply NoDup_cons in Hnd. set_solver. }
  destruct (Hb don x xs s Hc HP) as (s' & -> & Hc' & HP'). simpl.
  assert (get_n (hp s') (default lh (head xs)) = Ok (default lh (head (tail xs)))) as ->.
  { apply get_n_nxt. destruct Hc' as [_ Hc']. destruct xs as [|y ys]; simpl in *; [apply Hc'|].
    by apply (chain_nxt_head _ _ _ _ (proj2 Hc')). }
  simpl. destruct (IH (don ++ [x]) xs s' Hc' HP') as (s2 & E2 & Hc2 & HP2); [simpl in Hf; lia|].
  exists s2. by rewrite E2, <- app_assoc in *.
Qed.
End Loops.

(** On a well-formed list CBLIST_FOR_EACH runs its body on the elements
    in list order, each exactly once, until the body breaks, and returns,
    whenever the body leaves the list links alone. *)
Theorem cblist_for_each_visits {S} (hp : S -> heap) lh body fuel xs s :
  (forall x s s' b, body x s = Ok (s', b) -> hp s' = hp s) ->
  is_cblist (hp s) lh xs -> (length xs < fuel)%nat ->
  CBLIST_FOR_EACH hp fuel lh body s = visit body xs s.
Proof.
  intros Hb Hc Hf. unfold CBLIST_FOR_EACH.
  rewrite (proj2 (get_n_nxt _ _ _) (chain_nxt_head _ _ _ _ (proj2 Hc))). simpl.
  by apply (for_each_visit hp lh body fuel []).
Qed.

(** CBLIST_FOR_EACH_SAFE with a body that unlinks the element it is given
    (and may do anything else to the state, such as freeing the element)
    visits every element of the list exactly once, in order, and leaves the
    list empty: the saved next pointer is always still on the list. *)
Theorem cblist_for_each_safe_drains {S} (hp : S -> heap) lh body (P : list loc -> S -> Prop) fuel xs s :
  (forall don x xs s, is_cblist (hp s) lh (x :: xs) -> P don s ->
    exists s', body x s = Ok (s', false) /\ is_cblist (hp s') lh xs /\ P (don ++ [x]) s') ->
  is_cblist (hp s) lh xs -> P [] s -> (length xs < fuel)%nat ->
  exists s', CBLIST_FOR_EACH_SAFE hp fuel lh body s = Ok s' /\
    is_cblist (hp s') lh [] /\ P xs s'.
Proof.
  intros Hb Hc HP Hf. unfold CBLIST_FOR_EACH_SAFE.
  rewrite (proj2 (get_n_nxt _ _ _) (chain_nxt_head _ _ _ _ (proj2 Hc))). simpl.
  assert (get_n (hp s) (default lh (head xs)) = Ok (default lh (head (tail xs)))) as ->.
  { apply get_n_nxt. destruct Hc as [_ Hc]. destruct xs as [|y ys]; simpl in *; [apply Hc|].
    by apply (chain_nxt_head _ _ _ _ (proj2 Hc)). }
  simpl. by apply (for_each_safe_drain hp lh body P fuel []).
Qed.

(** CBLIST_GET_HEAD and CBLIST_GET_TAIL return NULL exactly on the empty
    list; CBLIST_GET_HEAD returns the first element, and so does
    CBLIST_GET_TAIL, which is therefore not the last element of a list of two
    or more. *)
Theorem cblist_get_head_tail h lh xs :
  is_cblist h lh xs ->
  CBLIST_GET_HEAD h lh = Ok (head xs) /\ CBLIST_GET_TAIL h lh = Ok (head xs) /\
  ((2 <= length xs)%nat -> CBLIST_GET_TAIL h lh <> Ok (last xs)).
Proof.
  intros [Hnd Hc]. unfold CBLIST_GET_HEAD, CBLIST_GET_TAIL.
  rewrite (proj2 (get_n_nxt _ _ _) (chain_nxt_head _ _ _ _ Hc)).
  rewrite (proj2 (get_p_prv _ _ _) (chain_prv_last _ _ _ _ Hc)). simpl.
  destruct xs as [|x xs]; simpl; [rewrite Pos.eqb_refl; split_and!; [done..|lia]|].
  apply NoDup_cons in Hnd as [Hlh Hnd].
  assert (Hl : default lh (last (x :: xs)) ∈ x :: xs).
  { destruct (last (x :: xs)) as [z|] eqn:E; [by apply last_Some_elem_of in E|].
    by apply last_None in E. }
  destruct (Pos.eqb_spec x lh) as [->|_]; [set_solver|].
  destruct (Pos.eqb_spec (default lh (last (x :: xs))) lh) as [E|_]; [rewrite E in Hl; done|].
  split_and!; [done..|]. intros Hlen [= Hx]. destruct xs as [|y xs]; [simpl in Hlen; lia|].
  apply NoDup_cons in Hnd as [Hx2 _]. apply Hx2.
  change (last (x :: y :: xs)) with (last (y :: xs)) in Hx. by apply last_Some_elem_of.
Qed.

Lemma demo_list : exists h, run_ops demo_heap [OAddTail 1 2; OAddTail 1 3] = Ok h /\
  is_cblist h 1 [2; 3]%positive.
Proof.
  eexists. split; [vm_compute; reflexivity|].
  split; [repeat constructor; set_solver|]. simpl. unfold link, nxt, prv. by vm_compute.
Qed.

(** The body of the witnesses: unlink the element and remember it. *)
Definition del_body (x : loc) (s : heap * list loc) : res ((heap * list loc) * bool) :=
  do h <- CBLIST_DEL s.1 x; Ok ((h, s.2 ++ [x]), false).

Lemma del_body_ok don x xs s :
  is_cblist (fst s) 1 (x :: xs) -> snd s = don ->
  exists s', del_body x s = Ok (s', false) /\ is_cblist (fst s') 1 xs /\ snd s' = don ++ [x].
Proof.
  intros Hc <-. destruct (CBLIST_DEL_spec _ _ [] _ _ Hc) as (h' & E & Hc' & _).
  exists (h', s.2 ++ [x]). unfold del_body. by rewrite E.
Qed.

Lemma cblist_for_each_safe_drains_witness :
  exists h s', run_ops demo_heap [OAddTail 1 2; OAddTail 1 3] = Ok h /\
    CBLIST_FOR_EACH_SAFE fst 3 1 del_body (h, []) = Ok s' /\
    is_cblist (fst s') 1 [] /\ snd s' = [2; 3]%positive.
Proof.
  destruct demo_list as (h & E & Hc). exists h.
  destruct (cblist_for_each_safe_drains fst 1 del_body (fun d s => snd s = d) 3 [2; 3]%positive (h, []))
    as (s' & H & ? & ?); [exact del_body_ok|exact Hc|reflexivity|simpl; lia|].
  exists s'. split; [exact E|]. split; [exact H|]. by split.
Defined.

Lemma cblist_for_each_visits_witness :
  exists h, run_ops demo_heap [OAddTail 1 2; OAddTail 1 3] = Ok h /\
    CBLIST_FOR_EACH (fun s => fst s) 3 1 (fun x s => Ok ((fst s, snd s ++ [x]), false)) (h, [])
      = Ok (h, [2; 3]%positive).
Proof.
  destruct demo_list as (h & E & Hc). exists h. split; [exact E|].
  rewrite (cblist_for_each_visits _ 1 _ 3 [2; 3]%positive);
    [reflexivity|intros x s s' b [= <- <-]; reflexivity|exact Hc|simpl; lia].
Defined.

Lemma cblist_get_head_tail_witness :
  exists h, run_ops demo_heap [OAddTail 1 2; OAddTail 1 3] = Ok h /\
    CBLIST_GET_TAIL h 1 = Ok (Some 2%positive) /\ CBLIST_GET_TAIL h 1 <> Ok (Some 3%positive).
Proof.
  destruct demo_list as (h & E & Hc). exists h. split; [exact E|].
  destruct (cblist_get_head_tail h 1 [2; 3]%positive Hc) as (_ & H1 & H2).
  split; [exact H1|apply H2; simpl; lia].
Defined.
End CBListOps.
