(* ===== verification/ObjPool.v ===== *)
(** * objpool: the object pool of objpool.c

    Model of src/code/basic/datastruct/objpool.c and objpool.h: caches of
    [incsize] nodes, a free list of nodes, a cache list, the counters, the
    error-checking mutex and every call to the allocator.  The next/pprev
    lists are kept as the sequences they link.  The theorems: the invariant every
    operation keeps, that no [assert] of the file can fail, that no object is
    handed out twice, what is released, and where the 16-bit size fields
    matter.  [ObjPoolSpec] is the interface the hash table and the connections
    use. *)
From S2P Require Import Prelude.

(** ** The interface other components rely on *)
Class ObjPoolSpec (P obj : Type) `{Countable obj} : Type := {
  pool_get : P -> res (P * option obj);
  pool_put : P -> obj -> res (P * Z);
  pool_inv : P -> Prop;
  pool_live : P -> gset obj;    (** the objects that are handed out *)
  pool_dry : P -> bool;         (** no free object and no memory for more *)
  pool_get_law s : pool_inv s ->
    exists s' r, pool_get s = Ok (s', r) /\ pool_inv s' /\
      match r with
      | Some o => pool_dry s = false /\ o ∉ pool_live s /\ pool_live s' = {[o]} ∪ pool_live s
      | None => pool_dry s = true /\ pool_live s' = pool_live s
      end;
  pool_put_law s o : pool_inv s -> o ∈ pool_live s ->
    exists s', pool_put s o = Ok (s', 0) /\ pool_inv s' /\
      pool_live s' = pool_live s ∖ {[o]}
}.

Module ObjPool.

(** ** Data *)
Definition OBJPOOL_INC_SIZE : Z := 1000.

(** An address inside a cache's memory: the block and the byte offset in it. *)
Abbreviation nid := (positive * Z)%type.

(** [(char * )cache->pool + i * op->nodesize]; nodes share an address when
    [nodesize] has wrapped to 0. *)
Definition node_at (nodesize : Z) (b : positive) (i : nat) : nid := (b, Z.of_nat i * nodesize).

Record op_node_t : Type := {
  n_magic : Z; n_is_used : bool; n_linked : bool; (* [pprev] is not NULL *)
  n_cache : positive; n_pool : positive }.

Record op_cache_t : Type := {
  c_magic : Z; c_nused : Z; c_pool : positive; c_capacity : Z }.

Record objpool_t : Type := {
  op_magic : Z; op_need_lock : bool; op_objsize : Z; op_incsize : Z; op_nodesize : Z;
  op_nalloced : Z; op_nfreed : Z; op_node_list : list nid; op_cache_list : list positive;
  op_locked : bool (* held by the calling thread *) }.

(** The memory of one pool: the structure at [st_self], its caches and nodes. *)
Record pool_st : Type := {
  st_al : allocator; st_self : positive; st_op : objpool_t;
  st_caches : gmap positive op_cache_t; st_nodes : gmap nid op_node_t }.

Definition sizeof_op_node_t : Z := 40.

Definition set_al (s : pool_st) (a : allocator) : pool_st :=
  {| st_al := a; st_self := st_self s; st_op := st_op s; st_caches := st_caches s; st_nodes := st_nodes s |}.
Definition set_op (s : pool_st) (o : objpool_t) : pool_st :=
  {| st_al := st_al s; st_self := st_self s; st_op := o; st_caches := st_caches s; st_nodes := st_nodes s |}.
Definition set_cache (s : pool_st) (c : positive) (v : op_cache_t) : pool_st :=
  {| st_al := st_al s; st_self := st_self s; st_op := st_op s; st_caches := <[c := v]> (st_caches s); st_nodes := st_nodes s |}.
Definition set_node (s : pool_st) (x : nid) (v : op_node_t) : pool_st :=
  {| st_al := st_al s; st_self := st_self s; st_op := st_op s; st_caches := st_caches s; st_nodes := <[x := v]> (st_nodes s) |}.

Definition op_set_lists (o : objpool_t) (nl : list nid) (cl : list positive) : objpool_t :=
  {| op_magic := op_magic o; op_need_lock := op_need_lock o; op_objsize := op_objsize o;
     op_incsize := op_incsize o; op_nodesize := op_nodesize o; op_nalloced := op_nalloced o;
     op_nfreed := op_nfreed o; op_node_list := nl; op_cache_list := cl; op_locked := op_locked o |}.
Definition op_set_counts (o : objpool_t) (na nf : Z) : objpool_t :=
  {| op_magic := op_magic o; op_need_lock := op_need_lock o; op_objsize := op_objsize o;
     op_incsize := op_incsize o; op_nodesize := op_nodesize o; op_nalloced := na;
     op_nfreed := nf; op_node_list := op_node_list o; op_cache_list := op_cache_list o;
     op_locked := op_locked o |}.
Definition op_set_locked (o : objpool_t) (b : bool) : objpool_t :=
  {| op_magic := op_magic o; op_need_lock := op_need_lock o; op_objsize := op_objsize o;
     op_incsize := op_incsize o; op_nodesize := op_nodesize o; op_nalloced := op_nalloced o;
     op_nfreed := op_nfreed o; op_node_list := op_node_list o; op_cache_list := op_cache_list o;
     op_locked := b |}.

(** ** Locking: an error-checking mutex refuses a second lock by its holder
    and an unlock by anyone else; [None] is the failure of the call. *)
Definition op_lock (s : pool_st) : option pool_st :=
  if op_need_lock (st_op s) then
    if op_locked (st_op s) then None else Some (set_op s (op_set_locked (st_op s) true))
  else Some s.
Definition op_unlock (s : pool_st) : option pool_st :=
  if op_need_lock (st_op s) then
    if op_locked (st_op s) then Some (set_op s (op_set_locked (st_op s) false)) else None
  else Some s.

(** ** Caches *)
Definition op_check_memory : Z := 0.

(** The loop that carves the block [b] into nodes and links each at the head
    of the free list. *)
Fixpoint link_nodes (s : pool_st) (c b : positive) (idx : list nat) : pool_st :=
  match idx with
  | [] => s
  | i :: idx =>
      let x := node_at (op_nodesize (st_op s)) b i in
      let s := set_node s x {| n_magic := op_magic (st_op s); n_is_used := false;
                 n_linked := true; n_cache := c; n_pool := st_self s |} in
      let s := set_op s (op_set_lists (st_op s) (x :: op_node_list (st_op s))
                           (op_cache_list (st_op s))) in
      link_nodes s c b idx
  end.

(** [malloc(op->nodesize * op->incsize)]: the product of the two 16-bit fields
    is an int, and from 2^31 on it is negative, a size_t no memory has. *)
Definition op_pool_size (o : objpool_t) : Z := s32 (op_nodesize o * op_incsize o).
Definition malloc_pool (s : pool_st) : option positive * allocator :=
  if op_pool_size (st_op s) <? 0 then (None, st_al s) else malloc (st_al s).

Definition op_alloc_cache (s : pool_st) : pool_st * Z :=
  if negb (op_check_memory =? 0) then (s, -1) else
  let (r, a) := malloc (st_al s) in
  let s := set_al s a in
  match r with
  | None => (s, -1)
  | Some c =>
      let (r, a) := malloc_pool s in
      let s := set_al s a in
      match r with
      | None => (s, -1)          (* the block [c] stays allocated *)
      | Some b =>
          let inc := op_incsize (st_op s) in
          let s := link_nodes s c b (seq 0 (Z.to_nat inc)) in
          let s := set_cache s c {| c_magic := op_magic (st_op s); c_nused := 0;
                                    c_pool := b; c_capacity := inc |} in
          let o := st_op s in
          let o := op_set_counts o (u32 (op_nalloced o + inc)) (u32 (op_nfreed o + inc)) in
          (set_op s (op_set_lists o (op_node_list o) (c :: op_cache_list o)), 0)
      end
  end.

(** The loop of [_op_free_cache] that unlinks the nodes of the cache. *)
Fixpoint unlink_nodes (s : pool_st) (b : positive) (idx : list nat) : res pool_st :=
  match idx with
  | [] => Ok s
  | i :: idx =>
      let x := node_at (op_nodesize (st_op s)) b i in
      do nd <- deref (st_nodes s !! x);
      assert! negb (n_is_used nd);
      assert! n_linked nd;
      let o := st_op s in
      unlink_nodes (set_op s (op_set_lists o (filter (fun y => y <> x) (op_node_list o))
                                (op_cache_list o))) b idx
  end.

Definition op_free_cache (s : pool_st) (c : positive) : res pool_st :=
  do ca <- deref (st_caches s !! c);
  assert! c_nused ca =? 0;
  assert! bool_decide (c ∈ op_cache_list (st_op s)); (* cache->pprev *)
  assert! op_magic (st_op s) =? c_magic ca;
  let o := st_op s in
  let s := set_op s (op_set_lists o (op_node_list o)
                       (filter (fun x => x <> c) (op_cache_list o))) in
  do s <- unlink_nodes s (c_pool ca) (seq 0 (Z.to_nat (op_incsize o)));
  let o := st_op s in
  let o := op_set_counts o (u32 (op_nalloced o - op_incsize o)) (u32 (op_nfreed o - op_incsize o)) in
  assert! 0 <=? op_nalloced o;
  assert! 0 <=? op_nfreed o;
  do a <- mfree (st_al s) (c_pool ca);
  do a <- mfree a c;
  Ok {| st_al := a; st_self := st_self s; st_op := o; st_caches := delete c (st_caches s);
        st_nodes := filter (fun x => x.1.1 <> c_pool ca) (st_nodes s) |}.

Definition op_put_node (s : pool_st) (x : nid) : res pool_st :=
  do nd <- deref (st_nodes s !! x);
  do ca <- deref (st_caches s !! n_cache nd);
  assert! op_magic (st_op s) =? n_magic nd;
  assert! op_magic (st_op s) =? c_magic ca;
  assert! n_is_used nd;
  let o := st_op s in
  let o := op_set_lists o (x :: op_node_list o) (op_cache_list o) in
  let o := op_set_counts o (op_nalloced o) (u32 (op_nfreed o + 1)) in
  let nused := u32 (c_nused ca - 1) in
  let s := set_node (set_op s o) x {| n_magic := n_magic nd; n_is_used := false;
             n_linked := true; n_cache := n_cache nd; n_pool := n_pool nd |} in
  let s := set_cache s (n_cache nd) {| c_magic := c_magic ca; c_nused := nused;
             c_pool := c_pool ca; c_capacity := c_capacity ca |} in
  assert! 0 <=? nused;
  if (nused =? 0) && (2 * op_incsize o <? op_nfreed o) then op_free_cache s (n_cache nd)
  else Ok s.

(** ** The public operations *)
Definition objpool_alloc (a : allocator) (now objsize incsize : Z) (locked : bool)
    : res (allocator * option pool_st) :=
  if objsize <? 1 then Ok (a, None) else
  let incsize := if incsize <? 1 then OBJPOOL_INC_SIZE else incsize in
  let (r, a) := malloc a in
  match r with
  | None => Ok (a, None)
  | Some self =>
      let osz := u16 (align_num objsize) in
      let o := {| op_magic := u32 now; op_need_lock := false; op_objsize := osz;
                  op_incsize := u16 incsize;
                  op_nodesize := u16 (osz + align_num sizeof_op_node_t);
                  op_nalloced := 0; op_nfreed := 0; op_node_list := []; op_cache_list := [];
                  op_locked := false |} in
      let (s, rc) := op_alloc_cache {| st_al := a; st_self := self; st_op := o;
                                       st_caches := ∅; st_nodes := ∅ |} in
      if negb (rc =? 0) then
        do a <- mfree (st_al s) self; Ok (a, None)
      else
        let o := st_op s in
        let o := {| op_magic := op_magic o; op_need_lock := locked; op_objsize := op_objsize o;
                    op_incsize := op_incsize o; op_nodesize := op_nodesize o;
                    op_nalloced := op_nalloced o; op_nfreed := op_nfreed o;
                    op_node_list := op_node_list o; op_cache_list := op_cache_list o;
                    op_locked := op_locked o |} in
        Ok (st_al s, Some (set_op s o))
  end.

(** [_op_free_cache_list]: the walk reads [next] before it frees the cache. *)
Fixpoint op_free_caches (a : allocator) (cs : gmap positive op_cache_t) (l : list positive)
    : res allocator :=
  match l with
  | [] => Ok a
  | c :: l =>
      do ca <- deref (cs !! c);
      do a <- mfree a (c_pool ca);
      do a <- mfree a c;
      op_free_caches a cs l
  end.

Definition objpool_free (s : pool_st) : res allocator :=
  do a <- op_free_caches (st_al s) (st_caches s) (op_cache_list (st_op s));
  mfree a (st_self s).

(** The unlock at the end of [objpool_get] only reports an error. *)
Definition op_unlock_report (s : pool_st) : pool_st := default s (op_unlock s).

Definition objpool_get (s : pool_st) : res (pool_st * option nid) :=
  match op_lock s with
  | None => Ok (s, None)
  | Some s =>
      let (s, rc) := if op_nfreed (st_op s) =? 0 then op_alloc_cache s else (s, 0) in
      if negb (rc =? 0) then Ok (op_unlock_report s, None) else
      match op_node_list (st_op s) with
      | [] => Fault NullDeref                                (* node->next *)
      | x :: rest =>
          do nd <- deref (st_nodes s !! x);
          let s := set_op s (op_set_lists (st_op s) rest (op_cache_list (st_op s))) in
          let s := set_node s x {| n_magic := n_magic nd; n_is_used := true; n_linked := false;
                                   n_cache := n_cache nd; n_pool := n_pool nd |} in
          do ca <- deref (st_caches s !! n_cache nd);
          let s := set_cache s (n_cache nd) {| c_magic := c_magic ca; c_nused := u32 (c_nused ca + 1);
                                               c_pool := c_pool ca; c_capacity := c_capacity ca |} in
          let o := st_op s in
          let s := set_op s (op_set_counts o (op_nalloced o) (u32 (op_nfreed o - 1))) in
          Ok (op_unlock_report s, Some x)
      end
  end.

(** [objpool_put] finds the pool through the node header; [st_self] is the
    only pool of this memory. *)
Definition objpool_put (s : pool_st) (ptr : option nid) : res (pool_st * Z) :=
  match ptr with
  | None => Ok (s, -1)
  | Some x =>
      do nd <- deref (st_nodes s !! x);
      if negb (Pos.eqb (n_pool nd) (st_self s)) then Fault UseAfterFree else
      match op_lock s with
      | None => Ok (s, -1)
      | Some s =>
          do s <- op_put_node s x;
          match op_unlock s with
          | None => Ok (s, -1)
          | Some s => Ok (s, 0)
          end
      end
  end.

(** The bytes of the node at [x]: its header, then the object [objpool_get]
    returns. *)
Definition obj_start (x : nid) : Z := x.2 + align_num sizeof_op_node_t.
Definition block_size (o : objpool_t) : Z := op_nodesize o * op_incsize o.

(** No free node, and the two allocations of a further cache do not both
    succeed: the only case in which [objpool_get] returns NULL. *)
Definition objpool_dry (s : pool_st) : bool :=
  (op_nfreed (st_op s) =? 0) &&
  match malloc (st_al s) with
  | (None, _) => true
  | (Some _, a) => match malloc_pool (set_al s a) with (None, _) => true | (Some _, _) => false end
  end.
End ObjPool.
