(* ===== verification/ObjPoolProofs.v ===== *)
(** * The object pool: invariant, safety and the pool interface

    Theorems about the definitions of ObjPool.v. *)
From S2P Require Import Prelude ObjPool.

Module ObjPoolProofs.
Import ObjPool.

Lemma node_at_inj z b : 0 < z -> forall i j, node_at z b i = node_at z b j -> i = j.
Proof. intros Hz i j [= E]. nia. Qed.

(** ** Counting the used nodes of a block *)
Definition node_used (ns : gmap nid op_node_t) (x : nid) : bool :=
  match ns !! x with Some nd => n_is_used nd | None => false end.

Definition used_count (ns : gmap nid op_node_t) (z : Z) (b : positive) (k : nat) : nat :=
  length (filter (fun i => node_used ns (node_at z b i) = true) (seq 0 k)).

Lemma used_count_ext ns ns' z b k :
  (forall i, (i < k)%nat -> node_used ns' (node_at z b i) = node_used ns (node_at z b i)) ->
  used_count ns' z b k = used_count ns z b k.
Proof.
  intros H. unfold used_count. f_equal. apply filter_ext_elem.
  intros i Hi%elem_of_seq. rewrite H; [done|lia].
Qed.

Lemma used_count_bound ns z b k : (used_count ns z b k <= k)%nat.
Proof.
  unfold used_count. etrans; [apply length_filter|]. by rewrite length_seq.
Qed.

(** Turning one unused node of the block into a used one adds one. *)
Lemma used_count_toggle ns ns' z b k i :
  (i < k)%nat -> node_used ns (node_at z b i) = false -> node_used ns' (node_at z b i) = true ->
  (forall j, j <> i -> node_used ns' (node_at z b j) = node_used ns (node_at z b j)) ->
  used_count ns' z b k = S (used_count ns z b k).
Proof.
  intros Hi H0 H1 Hj. unfold used_count.
  assert (Hk : seq 0 k = seq 0 i ++ i :: seq (S i) (k - S i)).
  { replace k with (i + S (k - S i))%nat at 1 by lia. by rewrite seq_app. }
  rewrite Hk, !filter_app, !filter_cons.
  rewrite decide_True, decide_False by congruence. rewrite !length_app. simpl.
  assert (forall l : list nat, i ∉ l -> filter (fun j => node_used ns' (node_at z b j) = true) l =
    filter (fun j => node_used ns (node_at z b j) = true) l) as Hl.
  { intros l Hil. apply filter_ext_elem. intros j Hj'. rewrite Hj; [done|]. by intros ->. }
  rewrite !Hl by (rewrite elem_of_seq; lia).
  lia.
Qed.

Lemma used_count_zero ns z b k :
  used_count ns z b k = 0%nat -> forall i, (i < k)%nat -> node_used ns (node_at z b i) = false.
Proof.
  unfold used_count. intros H i Hi. destruct (node_used ns (node_at z b i)) eqn:E; [|done].
  apply nil_length_inv in H. exfalso.
  assert (i ∈ filter (fun i => node_used ns (node_at z b i) = true) (seq 0 k)) as Hin.
  { apply list_elem_of_filter. split; [done|]. apply elem_of_seq. lia. }
  rewrite H in Hin. by apply elem_of_nil in Hin.
Qed.

(** ** The invariant *)
Definition incn (s : pool_st) : nat := Z.to_nat (op_incsize (st_op s)).

(** The address of the [i]-th node of the block [b]. *)
Abbreviation naddr s b i := (node_at (op_nodesize (st_op s)) b i).
Abbreviation nused s b := (used_count (st_nodes s) (op_nodesize (st_op s)) b (incn s)).

(** The cache list and the caches. *)
Record caches_wf (s : pool_st) : Prop := {
  wf_cl_nodup : NoDup (op_cache_list (st_op s));
  wf_cl c : c ∈ op_cache_list (st_op s) <-> is_Some (st_caches s !! c);
  wf_cache c ca : st_caches s !! c = Some ca ->
    c_magic ca = op_magic (st_op s) /\ c_capacity ca = op_incsize (st_op s) /\
    c_nused ca = Z.of_nat (nused s (c_pool ca));
  wf_cache_live c ca : st_caches s !! c = Some ca ->
    c ∈ al_live (st_al s) /\ c_pool ca ∈ al_live (st_al s) /\
    c <> st_self s /\ c_pool ca <> st_self s;
  wf_blocks c1 c2 ca1 ca2 : st_caches s !! c1 = Some ca1 -> st_caches s !! c2 = Some ca2 ->
    c1 <> c_pool ca2 /\ (c_pool ca1 = c_pool ca2 -> c1 = c2)
}.

(** The nodes and the free list. *)
Record nodes_wf (s : pool_st) : Prop := {
  wf_node_dom c ca i : st_caches s !! c = Some ca -> (i < incn s)%nat ->
    is_Some (st_nodes s !! naddr s (c_pool ca) i);
  wf_node x nd : st_nodes s !! x = Some nd ->
    n_magic nd = op_magic (st_op s) /\ n_pool nd = st_self s /\ n_linked nd = negb (n_is_used nd) /\
    exists ca i, st_caches s !! n_cache nd = Some ca /\ (i < incn s)%nat /\ x = naddr s (c_pool ca) i;
  wf_nl_nodup : NoDup (op_node_list (st_op s));
  wf_nl x : x ∈ op_node_list (st_op s) <-> exists nd, st_nodes s !! x = Some nd /\ n_is_used nd = false
}.

(** The counters, and the memory bound under which they cannot wrap. *)
Record counts_wf (s : pool_st) : Prop := {
  wf_inc : 0 < op_incsize (st_op s) < 2 ^ 16;
  wf_nodesize : 0 < op_nodesize (st_op s) < 2 ^ 16;
  wf_pool_size : op_cache_list (st_op s) <> [] -> 0 <= op_pool_size (st_op s);
  wf_nalloced : op_nalloced (st_op s) = op_incsize (st_op s) * Z.of_nat (length (op_cache_list (st_op s)));
  wf_nfreed : op_nfreed (st_op s) = Z.of_nat (length (op_node_list (st_op s)));
  wf_room : op_incsize (st_op s) *
    (2 * Z.of_nat (length (op_cache_list (st_op s))) + Z.of_nat (al_room (st_al s))) < 2 ^ 32
}.

Record pool_wf (s : pool_st) : Prop := {
  wf_al : al_wf (st_al s);
  wf_self : st_self s ∈ al_live (st_al s);
  wf_caches : caches_wf s;
  wf_nodes : nodes_wf s;
  wf_counts : counts_wf s
}.

Definition pool_ok (s : pool_st) : Prop := pool_wf s /\ op_locked (st_op s) = false.

(** The objects handed out: the used nodes. *)
Definition live_objs (s : pool_st) : gset nid := dom (filter (fun x => n_is_used x.2 = true) (st_nodes s)).

Lemma elem_of_live_objs s x :
  x ∈ live_objs s <-> exists nd, st_nodes s !! x = Some nd /\ n_is_used nd = true.
Proof.
  unfold live_objs. rewrite elem_of_dom. unfold is_Some. setoid_rewrite map_lookup_filter_Some. done.
Qed.

(** The free list is no longer than the number of nodes of the caches. *)
Lemma free_list_bound s k cl (l : list nid) :
  NoDup l ->
  (forall x, x ∈ l -> exists c ca, c ∈ cl /\ st_caches s !! c = Some ca /\ exists i, (i < k)%nat /\ x = naddr s (c_pool ca) i) ->
  (length l <= length cl * k)%nat.
Proof.
  intros Hnd Hin.
  set (f := fun c => match st_caches s !! c with Some ca => node_at (op_nodesize (st_op s)) (c_pool ca) <$> seq 0 k | None => [] end).
  assert (Hlen : (length (cl ≫= f) <= length cl * k)%nat).
  { clear. induction cl as [|c cl IH]; [done|]. rewrite bind_cons, length_app.
    assert (length (f c) <= k)%nat.
    { unfold f. destruct (st_caches s !! c); [rewrite length_fmap, length_seq; done|simpl; lia]. }
    simpl. lia. }
  etrans; [|exact Hlen]. apply NoDup_incl_length; [done|]. intros x Hx.
  destruct (Hin _ Hx) as (c & ca & Hc & Hca & i & Hi & ->). apply list_elem_of_bind.
  exists c. split; [|done]. unfold f. rewrite Hca. apply list_elem_of_fmap.
  exists i. split; [done|]. apply elem_of_seq. lia.
Qed.

Lemma nl_bound s :
  pool_wf s -> (length (op_node_list (st_op s)) <= length (op_cache_list (st_op s)) * incn s)%nat.
Proof.
  intros Hw. apply (free_list_bound s); [apply (wf_nl_nodup s), Hw|]. intros x (nd & Hnd & _)%(wf_nl s (wf_nodes s Hw)).
  destruct (wf_node s (wf_nodes s Hw) x nd Hnd) as (_ & _ & _ & ca & i & Hca & Hi & Hb).
  exists (n_cache nd), ca. split_and!; try done; [|by eauto]. apply (wf_cl s (wf_caches s Hw)). by eexists.
Qed.

(** A used node leaves room for itself on the free list. *)
Lemma nl_bound_used s x nd :
  pool_wf s -> st_nodes s !! x = Some nd -> n_is_used nd = true ->
  (S (length (op_node_list (st_op s))) <= length (op_cache_list (st_op s)) * incn s)%nat.
Proof.
  intros Hw Hx Hu. apply (free_list_bound s _ _ (x :: op_node_list (st_op s))).
  - apply NoDup_cons. split; [|apply (wf_nl_nodup s), Hw]. intros (nd' & ? & ?)%(wf_nl s (wf_nodes s Hw)). congruence.
  - assert (Hn : forall y nd, st_nodes s !! y = Some nd -> exists c ca, c ∈ op_cache_list (st_op s) /\
      st_caches s !! c = Some ca /\ exists i, (i < incn s)%nat /\ y = naddr s (c_pool ca) i).
    { intros y nd' Hy. destruct (wf_node s (wf_nodes s Hw) y nd' Hy) as (_ & _ & _ & ca & i & Hca & Hi & Hb).
      exists (n_cache nd'), ca. split_and!; try done; [|by eauto]. apply (wf_cl s (wf_caches s Hw)). by eexists. }
    intros y [->|(nd' & ? & _)%(wf_nl s (wf_nodes s Hw))]%elem_of_cons; eauto.
Qed.

(** The free list fits the 32-bit counter. *)
Lemma op_nfreed_range s : pool_wf s -> 0 <= op_nfreed (st_op s) < 2 ^ 32.
Proof.
  intros Hw. pose proof (nl_bound s Hw) as Hl. destruct (wf_counts _ Hw) as [Hinc _ _ _ -> Hr].
  assert (Hinc' : Z.of_nat (incn s) = op_incsize (st_op s)) by (unfold incn; lia).
  assert (0 <= op_incsize (st_op s) * Z.of_nat (al_room (st_al s))) by (apply Z.mul_nonneg_nonneg; lia).
  assert (Z.of_nat (length (op_node_list (st_op s))) <=
    op_incsize (st_op s) * Z.of_nat (length (op_cache_list (st_op s)))) by (rewrite <- Hinc'; lia).
  lia.
Qed.

(** ** The two loops *)
Definition fresh_node (s : pool_st) (c : positive) : op_node_t :=
  {| n_magic := op_magic (st_op s); n_is_used := false; n_linked := true; n_cache := c; n_pool := st_self s |}.

Lemma link_nodes_spec s c b idx :
  exists ns, link_nodes s c b idx =
    {| st_al := st_al s; st_self := st_self s;
       st_op := op_set_lists (st_op s) (reverse (node_at (op_nodesize (st_op s)) b <$> idx) ++ op_node_list (st_op s)) (op_cache_list (st_op s));
       st_caches := st_caches s; st_nodes := ns |} /\
    (forall i, i ∈ idx -> ns !! naddr s b i = Some (fresh_node s c)) /\
    (forall x, x ∉ node_at (op_nodesize (st_op s)) b <$> idx -> ns !! x = st_nodes s !! x).
Proof.
  revert s. induction idx as [|i idx IH]; intros s; simpl.
  - exists (st_nodes s). split_and!; [by destruct s as [? ? [] ? ?]|set_solver|done].
  - match goal with |- context [link_nodes ?t _ _ _] => destruct (IH t) as (ns & E & Hin & Hout) end.
    exists ns. split_and!.
    + rewrite E. simpl. rewrite reverse_cons, <- app_assoc. done.
    + intros j [->|Hj]%elem_of_cons; [|by apply Hin].
      destruct (decide (naddr s b i ∈ node_at (op_nodesize (st_op s)) b <$> idx)) as [Hi|Hi].
      * apply list_elem_of_fmap in Hi as (j & -> & Hj). by apply Hin.
      * rewrite Hout by done. simpl. by rewrite lookup_insert_eq.
    + intros x Hx. apply not_elem_of_cons in Hx as [Hx1 Hx2]. rewrite Hout by done. simpl.
      by rewrite lookup_insert_ne.
Qed.

Lemma unlink_nodes_spec s b idx :
  (forall i, i ∈ idx -> exists nd, st_nodes s !! naddr s b i = Some nd /\ n_is_used nd = false /\ n_linked nd = true) ->
  unlink_nodes s b idx = Ok (set_op s (op_set_lists (st_op s)
    (filter (fun x => x ∉ node_at (op_nodesize (st_op s)) b <$> idx) (op_node_list (st_op s))) (op_cache_list (st_op s)))).
Proof.
  revert s. induction idx as [|i idx IH]; intros s H; simpl.
  - f_equal. rewrite filter_all by set_solver.
    by destruct s as [? ? [] ? ?].
  - destruct (H i ltac:(left)) as (nd & -> & Hu & Hl). simpl. rewrite Hu, Hl. simpl.
    rewrite IH by (intros j Hj; apply H; by right). unfold set_op, op_set_lists. simpl.
    do 3 f_equal. rewrite list_filter_filter. apply filter_ext_elem. intros x _. simpl.
    rewrite not_elem_of_cons. tauto.
Qed.

Lemma pool_wf_locked s b : pool_wf s -> pool_wf (set_op s (op_set_locked (st_op s) b)).
Proof. intros [? ? [] [] []]. constructor; [done..| | |]; constructor; done. Qed.

Lemma pool_wf_al s a :
  pool_wf s -> al_wf a -> al_live (st_al s) ⊆ al_live a -> (al_room a <= al_room (st_al s))%nat ->
  pool_wf (set_al s a).
Proof.
  intros [Hal Hself [H1 H2 H3 H4 H5] [] [Hinc ? ? ? ? Hroom]] Ha Hl Hr.
  constructor; simpl; [done|set_solver| | |]; constructor; simpl; try done.
  - intros c ca Hc. destruct (H4 c ca Hc) as (? & ? & ? & ?). set_solver.
  - eapply Z.le_lt_trans; [|exact Hroom]. apply Z.mul_le_mono_nonneg_l; lia.
Qed.

(** ** Adding a cache [c] with block [b], both new, whose nodes are all free *)
Section AddCache.
Context (s : pool_st) (c b : positive) (ns : gmap nid op_node_t).
Hypothesis Hw : pool_wf s.
Hypothesis Hc : c ∈ al_live (st_al s).
Hypothesis Hb : b ∈ al_live (st_al s).
Hypothesis Hcb : c <> b.
Hypothesis Hcs : c <> st_self s.
Hypothesis Hbs : b <> st_self s.
Hypothesis Hnew : forall d da, st_caches s !! d = Some da -> d <> c /\ d <> b /\ c_pool da <> b /\ c_pool da <> c.
Hypothesis Hin : forall i, i ∈ seq 0 (incn s) -> ns !! naddr s b i = Some (fresh_node s c).
Hypothesis Hout : forall x, x ∉ node_at (op_nodesize (st_op s)) b <$> seq 0 (incn s) -> ns !! x = st_nodes s !! x.
Hypothesis Hroom : op_incsize (st_op s) *
  (2 * Z.of_nat (S (length (op_cache_list (st_op s)))) + Z.of_nat (al_room (st_al s))) < 2 ^ 32.

Hypothesis Hsize : 0 <= op_pool_size (st_op s).

Definition add_cache_st : pool_st :=
  let o := op_set_counts (op_set_lists (st_op s) (reverse (node_at (op_nodesize (st_op s)) b <$> seq 0 (incn s)) ++ op_node_list (st_op s))
             (op_cache_list (st_op s)))
             (u32 (op_nalloced (st_op s) + op_incsize (st_op s)))
             (u32 (op_nfreed (st_op s) + op_incsize (st_op s))) in
  {| st_al := st_al s; st_self := st_self s;
     st_op := op_set_lists o (op_node_list o) (c :: op_cache_list (st_op s));
     st_caches := <[c := {| c_magic := op_magic (st_op s); c_nused := 0; c_pool := b;
                            c_capacity := op_incsize (st_op s) |}]> (st_caches s);
     st_nodes := ns |}.

Definition new_addrs : list nid := node_at (op_nodesize (st_op s)) b <$> seq 0 (incn s).

Lemma elem_of_new_addrs x : x ∈ new_addrs <-> exists i, (i < incn s)%nat /\ x = naddr s b i.
Proof.
  clear - s. unfold new_addrs. rewrite list_elem_of_fmap. setoid_rewrite elem_of_seq. split.
  - intros (i & -> & ?). exists i. split; [lia|done].
  - intros (i & ? & ->). exists i. split; [done|lia].
Qed.

Lemma add_cache_ns x :
  ns !! x = if decide (x ∈ new_addrs) then Some (fresh_node s c) else st_nodes s !! x.
Proof.
  destruct (decide _) as [(i & Hi & ->)%elem_of_new_addrs|Hn]; [|by apply Hout].
  apply Hin, elem_of_seq. lia.
Qed.

Lemma add_cache_old x nd : st_nodes s !! x = Some nd -> x.1 <> b.
Proof.
  intros Hx. destruct (wf_node _ (wf_nodes _ Hw) x nd Hx) as (_ & _ & _ & ca & i & Hca & _ & ->).
  by eapply Hnew.
Qed.

Lemma new_addrs_block x : x ∈ new_addrs -> x.1 = b.
Proof. intros (i & _ & ->)%elem_of_new_addrs. done. Qed.

Lemma add_cache_none : st_caches s !! c = None.
Proof. destruct (st_caches s !! c) eqn:E; [|done]. by destruct (Hnew _ _ E). Qed.

Lemma add_cache_used :
  used_count ns (op_nodesize (st_op s)) b (incn s) = 0%nat /\
  (forall d da, st_caches s !! d = Some da ->
    used_count ns (op_nodesize (st_op s)) (c_pool da) (incn s) = nused s (c_pool da)).
Proof.
  split.
  - unfold used_count. rewrite filter_none; [done|].
    intros i Hi%elem_of_seq. unfold node_used. rewrite add_cache_ns, decide_True; [done|].
    apply elem_of_new_addrs. exists i. split; [lia|done].
  - intros d da Hda. apply used_count_ext. intros i Hi. unfold node_used.
    rewrite add_cache_ns, decide_False; [done|].
    intros ?%new_addrs_block. by destruct (Hnew d da Hda) as (_ & _ & ? & _).
Qed.

Lemma add_cache_caches_wf : caches_wf add_cache_st.
Proof.
  pose proof add_cache_none as Hnone. destruct add_cache_used as [Hu1 Hu2].
  destruct (wf_caches _ Hw) as [H1 H2 H3 H4 H5]. constructor; simpl.
  - apply NoDup_cons. split; [|done]. rewrite H2, Hnone. by intros [].
  - intros d. rewrite elem_of_cons, H2, lookup_insert_is_Some'. naive_solver.
  - intros d da. rewrite lookup_insert_Some. change (incn add_cache_st) with (incn s).
    intros [[<- <-]|[Hd Hda]]; simpl; [by rewrite Hu1|].
    destruct (H3 d da Hda) as (? & ? & Hu). by rewrite (Hu2 d da).
  - intros d da. rewrite lookup_insert_Some. intros [[<- <-]|[Hd Hda]]; simpl; [done|by eapply H4].
  - intros d1 d2 da1 da2. rewrite !lookup_insert_Some. intros [[<- <-]|[Hd Hda]] [[<- <-]|[Hd' Hda']]; simpl.
    + done.
    + destruct (Hnew _ _ Hda') as (? & ? & ? & ?). split; congruence.
    + destruct (Hnew _ _ Hda) as (? & ? & ? & ?). split; congruence.
    + by eapply H5.
Qed.

Lemma add_cache_nodes_wf : nodes_wf add_cache_st.
Proof.
  pose proof add_cache_none as Hnone. pose proof (wf_nodesize _ (wf_counts _ Hw)) as Hz.
  destruct (wf_nodes _ Hw) as [H1 H2 H3 H4]. constructor; simpl; change (incn add_cache_st) with (incn s).
  - intros d da i. rewrite lookup_insert_Some.
    intros [[<- <-]|[Hd Hda]] Hi; simpl; rewrite add_cache_ns.
    + rewrite decide_True; [by eexists|]. apply elem_of_new_addrs. eauto.
    + rewrite decide_False; [by eapply H1|]. intros ?%new_addrs_block.
      by destruct (Hnew d da Hda) as (_ & _ & ? & _).
  - intros x nd. rewrite add_cache_ns. destruct (decide _) as [(i & Hi & ->)%elem_of_new_addrs|Hx].
    + intros [= <-]. simpl. split_and!; [done..|]. eexists _, i. by rewrite lookup_insert_eq.
    + intros Hnd. destruct (H2 x nd Hnd) as (? & ? & ? & ca & i & Hca & ? & ?). split_and!; [done..|].
      exists ca, i. rewrite lookup_insert_ne; [done|]. intros ->. congruence.
  - apply NoDup_app. split_and!; [|  |done].
    + rewrite reverse_Permutation. apply (NoDup_fmap_2_strong _ _); [|apply NoDup_seq].
      intros i j _ _. apply node_at_inj. lia.
    + intros x Hx (nd & Hnd & _)%H4. rewrite elem_of_reverse in Hx. apply new_addrs_block in Hx.
      by apply add_cache_old in Hnd.
  - intros x. rewrite elem_of_app, elem_of_reverse, H4, add_cache_ns. fold new_addrs.
    destruct (decide _) as [Hx|Hx]; [|naive_solver].
    split; [intros _; by eexists|by left].
Qed.

Lemma add_cache_wf : pool_wf add_cache_st.
Proof.
  pose proof (nl_bound s Hw) as Hnl. destruct (wf_counts _ Hw) as [H1 Hz _ H2 H3 H4].
  constructor; [apply Hw|apply Hw|apply add_cache_caches_wf|apply add_cache_nodes_wf|].
  assert (Hinc : Z.of_nat (incn s) = op_incsize (st_op s)) by (unfold incn; lia).
  constructor; simpl; [done|done|done| | |done].
  - rewrite H2, u32_small; [lia|]. split; [lia|]. lia.
  - rewrite H3, length_app, length_reverse, length_fmap, length_seq, u32_small; [lia|].
    split; [lia|]. nia.
Qed.

Lemma add_cache_live : live_objs add_cache_st = live_objs s.
Proof.
  apply set_eq. intros x. rewrite !elem_of_live_objs. simpl. setoid_rewrite add_cache_ns.
  destruct (decide _) as [Hx%new_addrs_block|Hx]; [|done]. split.
  - intros (nd & [= <-] & ?). done.
  - intros (nd & Hnd & ?). by apply add_cache_old in Hnd.
Qed.
End AddCache.

(** What stays the same through an operation. *)
Definition same_config (s s' : pool_st) : Prop :=
  st_self s' = st_self s /\ op_need_lock (st_op s') = op_need_lock (st_op s) /\
  op_locked (st_op s') = op_locked (st_op s) /\ op_incsize (st_op s') = op_incsize (st_op s) /\
  op_objsize (st_op s') = op_objsize (st_op s) /\ op_nodesize (st_op s') = op_nodesize (st_op s).

Lemma op_alloc_cache_eq s c b a1 a2 :
  malloc (st_al s) = (Some c, a1) -> malloc_pool (set_al s a1) = (Some b, a2) ->
  let s2 := set_al s a2 in
  exists ns, op_alloc_cache s = (add_cache_st s2 c b ns, 0) /\
    (forall i, i ∈ seq 0 (incn s2) -> ns !! naddr s2 b i = Some (fresh_node s2 c)) /\
    (forall x, x ∉ node_at (op_nodesize (st_op s2)) b <$> seq 0 (incn s2) -> ns !! x = st_nodes s2 !! x).
Proof.
  intros E1 E2 s2. unfold op_alloc_cache. simpl. rewrite E1. simpl. rewrite E2.
  destruct (link_nodes_spec s2 c b (seq 0 (incn s2))) as (ns & El & Hin & Hout).
  exists ns. split; [|done]. change (set_al (set_al s a1) a2) with s2.
  change (Z.to_nat (op_incsize (st_op s))) with (incn s2). rewrite El. done.
Qed.

Lemma op_alloc_cache_fail s c a1 :
  malloc (st_al s) = (None, a1) \/ (exists a0, malloc (st_al s) = (Some c, a0) /\ malloc_pool (set_al s a0) = (None, a1)) ->
  op_alloc_cache s = (set_al s a1, -1).
Proof.
  unfold op_alloc_cache. simpl. intros [->|(a0 & -> & E)]; simpl; [|rewrite E]; done.
Qed.

Lemma malloc_pool_Some s b a : malloc_pool s = (Some b, a) ->
  malloc (st_al s) = (Some b, a) /\ 0 <= op_pool_size (st_op s).
Proof. unfold malloc_pool. by destruct (Z.ltb_spec (op_pool_size (st_op s)) 0). Qed.

Lemma malloc_pool_None s a : malloc_pool s = (None, a) ->
  al_next a = al_next (st_al s) /\ al_room a = al_room (st_al s) /\ al_live a = al_live (st_al s).
Proof. unfold malloc_pool. destruct (_ <? 0); [by intros [= <-]|apply malloc_None]. Qed.

Lemma malloc_pool_wf s r a : al_wf (st_al s) -> malloc_pool s = (r, a) -> al_wf a.
Proof. unfold malloc_pool. destruct (_ <? 0); [by intros ? [= <- <-]|apply malloc_wf]. Qed.

(** Two successive blocks are new. *)
Lemma malloc_twice a c b a1 a2 :
  al_wf a -> malloc a = (Some c, a1) -> malloc a1 = (Some b, a2) ->
  al_wf a2 /\ c <> b /\ (forall x, x ∈ al_live a -> x <> c /\ x <> b) /\
  al_room a = S (S (al_room a2)) /\ al_live a ⊆ al_live a2 /\ c ∈ al_live a2 /\ b ∈ al_live a2.
Proof.
  intros Hw E1 E2. pose proof (malloc_wf _ _ _ Hw E1) as Hw1. pose proof (malloc_wf _ _ _ Hw1 E2) as Hw2.
  apply malloc_Some in E1 as (-> & Hn1 & Hr1 & Hl1). apply malloc_Some in E2 as (-> & Hn2 & Hr2 & Hl2).
  split_and!; [done|lia| |lia|set_solver|set_solver|set_solver].
  intros x Hx%Hw. lia.
Qed.

(** Both allocations of a further cache succeed. *)
Definition grows (s : pool_st) : bool :=
  match malloc (st_al s) with
  | (None, _) => false
  | (Some _, a) => match malloc_pool (set_al s a) with (None, _) => false | (Some _, _) => true end
  end.

Lemma op_alloc_cache_spec s :
  pool_wf s ->
  exists s' rc, op_alloc_cache s = (s', rc) /\ pool_wf s' /\ live_objs s' = live_objs s /\
    same_config s s' /\
    (rc = 0 /\ op_node_list (st_op s') <> [] /\ grows s = true \/ rc = -1 /\ grows s = false).
Proof.
  intros Hw. pose proof (wf_al _ Hw) as Hal. unfold grows. destruct (malloc (st_al s)) as [[c|] a1] eqn:E1.
  2:{ rewrite (op_alloc_cache_fail s xH a1) by auto. do 2 eexists. split; [done|].
      apply malloc_wf in E1 as Hw1; [|done]. apply malloc_None in E1 as (? & ? & Hl).
      split_and!; [apply pool_wf_al; [done|done|by rewrite Hl|lia]|done|done|by right]. }
  destruct (malloc_pool (set_al s a1)) as [[b|] a2] eqn:E2.
  2:{ rewrite (op_alloc_cache_fail s c a2) by eauto. do 2 eexists. split; [done|].
      apply malloc_wf in E1 as Hw1; [|done]. apply malloc_pool_wf in E2 as Hw2; [|done].
      apply malloc_Some in E1 as (-> & ? & ? & Hl1). apply malloc_pool_None in E2 as (? & ? & Hl2). simpl in *.
      split_and!; [apply pool_wf_al; [done|done|set_solver|lia]|done|done|by right]. }
  destruct (op_alloc_cache_eq s c b a1 a2 E1 E2) as (ns & -> & Hin & Hout). 
  apply malloc_pool_Some in E2 as [E2 Hps].
  destruct (malloc_twice _ _ _ _ _ Hal E1 E2) as (Hw2 & Hcb & Hlt & Hr & Hsub & Hcl & Hbl).
  assert (Hs2 : pool_wf (set_al s a2)) by (apply pool_wf_al; [done|done|done|lia]).
  assert (Hnew : forall d da, st_caches (set_al s a2) !! d = Some da ->
    d <> c /\ d <> b /\ c_pool da <> b /\ c_pool da <> c).
  { intros d da Hda. destruct (wf_cache_live _ (wf_caches _ Hw) d da Hda) as (Hd1%Hlt & Hd2%Hlt & _). tauto. }
  destruct (Hlt _ (wf_self _ Hw)) as [Hsc Hsb]. pose proof (wf_counts _ Hw) as [Hinc _ _ _ _ Hroom].
  assert (Hroom2 : op_incsize (st_op (set_al s a2)) * (2 * Z.of_nat (S (length (op_cache_list (st_op
    (set_al s a2))))) + Z.of_nat (al_room (st_al (set_al s a2)))) < 2 ^ 32).
  { simpl. eapply Z.le_lt_trans; [|exact Hroom]. apply Z.mul_le_mono_nonneg_l; lia. }
  do 2 eexists. split; [done|].
  split_and!; [|by apply (add_cache_live (set_al s a2) c b)|done|left; split_and!; [done| |done]].
  - by apply add_cache_wf.
  - simpl. unfold incn. simpl. destruct (Z.to_nat (op_incsize (st_op s))) eqn:E; [lia|].
    simpl. rewrite reverse_cons. by destruct (reverse _).
Qed.

(** ** Handing out or taking back one node *)
Section Toggle.
Context (s : pool_st) (x : nid) (nd : op_node_t) (ca : op_cache_t) (u : bool) (nl : list nid).
Hypothesis Hw : pool_wf s.
Hypothesis Hx : st_nodes s !! x = Some nd.
Hypothesis Hca : st_caches s !! n_cache nd = Some ca.
Hypothesis Hu : n_is_used nd = negb u.
Hypothesis Hnl : NoDup nl.
Hypothesis Hin : forall y, y ∈ nl <-> (y <> x /\ y ∈ op_node_list (st_op s)) \/ (y = x /\ u = false).

Definition toggle_st : pool_st :=
  {| st_al := st_al s; st_self := st_self s;
     st_op := op_set_counts (op_set_lists (st_op s) nl (op_cache_list (st_op s)))
                (op_nalloced (st_op s)) (Z.of_nat (length nl));
     st_caches := <[n_cache nd := {| c_magic := c_magic ca;
       c_nused := if u then c_nused ca + 1 else c_nused ca - 1;
       c_pool := c_pool ca; c_capacity := c_capacity ca |}]> (st_caches s);
     st_nodes := <[x := {| n_magic := n_magic nd; n_is_used := u; n_linked := negb u;
       n_cache := n_cache nd; n_pool := n_pool nd |}]> (st_nodes s) |}.

Lemma toggle_pool : exists i, (i < incn s)%nat /\ x = naddr s (c_pool ca) i.
Proof.
  destruct (wf_node _ (wf_nodes _ Hw) x nd Hx) as (_ & _ & _ & ca' & i & Hca' & Hi & Hb).
  rewrite Hca in Hca'. injection Hca' as <-. exists i. split; [exact Hi|exact Hb].
Qed.

Lemma toggle_node_used y :
  node_used (st_nodes toggle_st) y = if decide (y = x) then u else node_used (st_nodes s) y.
Proof.
  unfold node_used. simpl. destruct (decide _) as [->|Hne]; [by rewrite lookup_insert_eq|].
  by rewrite lookup_insert_ne.
Qed.

Lemma toggle_count :
  Z.of_nat (used_count (st_nodes toggle_st) (op_nodesize (st_op s)) (c_pool ca) (incn s)) =
  if u then c_nused ca + 1 else c_nused ca - 1.
Proof.
  clear Hin Hnl. destruct toggle_pool as (i & Hi & Hp).
  destruct (wf_cache _ (wf_caches _ Hw) _ _ Hca) as (_ & _ & Hn). pose proof (wf_nodesize _ (wf_counts _ Hw)) as Hz.
  assert (Hxu : node_used (st_nodes s) x = negb u) by (unfold node_used; by rewrite Hx).
  assert (Hoth : forall j, j <> i ->
    node_used (st_nodes toggle_st) (naddr s (c_pool ca) j) = node_used (st_nodes s) (naddr s (c_pool ca) j)).
  { intros j Hj. rewrite toggle_node_used, decide_False; [done|]. rewrite Hp. intros ?%node_at_inj; [done|lia]. }
  pose proof (toggle_node_used x) as Hself. rewrite decide_True in Hself by done. rewrite Hn. rewrite Hp in Hxu, Hself.
  destruct u eqn:Eu.
  - rewrite (used_count_toggle (st_nodes s) _ _ _ _ i); [lia|done..].
  - rewrite (used_count_toggle (st_nodes toggle_st) (st_nodes s) _ _ _ i); [lia|done|done|done|].
    intros j Hj. symmetry. by apply Hoth.
Qed.

Lemma toggle_caches_wf : caches_wf toggle_st.
Proof.
  destruct (wf_caches _ Hw) as [H1 H2 H3 H4 H5]. constructor; simpl.
  - done.
  - intros c. rewrite H2, lookup_insert_is_Some'. split; [by right|]. intros [<-|?]; [by eexists|done].
  - intros c ca'. rewrite lookup_insert_Some. change (incn toggle_st) with (incn s).
    intros [[<- <-]|[Hc Hca']]; simpl.
    + destruct (H3 _ _ Hca) as (? & ? & _). split_and!; [done..|]. symmetry. apply toggle_count.
    + destruct (H3 _ _ Hca') as (? & ? & Hn). split_and!; [done..|]. rewrite Hn. f_equal. symmetry.
      apply used_count_ext. intros i Hi. rewrite toggle_node_used, decide_False; [done|].
      destruct toggle_pool as (j & _ & ->). intros [= Heq _]. apply Hc, (H5 _ _ _ _ Hca Hca'). done.
  - intros c ca'. rewrite lookup_insert_Some. intros [[<- <-]|[_ Hc]]; simpl; by eapply H4.
  - intros c1 c2 ca1 ca2. rewrite !lookup_insert_Some.
    intros [[<- <-]|[_ Hc]] [[<- <-]|[_ Hc']]; simpl; by eapply H5.
Qed.

Lemma toggle_nodes_wf : nodes_wf toggle_st.
Proof.
  destruct (wf_nodes _ Hw) as [H1 H2 H3 H4]. constructor; simpl; change (incn toggle_st) with (incn s).
  - intros c ca' i Hc Hi. apply lookup_insert_is_Some'. right.
    apply lookup_insert_Some in Hc as [[<- <-]|[_ Hc]]; simpl; by eapply H1.
  - assert (Hcs : forall c ca', st_caches s !! c = Some ca' -> exists ca'',
      st_caches toggle_st !! c = Some ca'' /\ c_pool ca'' = c_pool ca').
    { intros c ca' Hc. simpl. destruct (decide (n_cache nd = c)) as [<-|Hne].
      - rewrite lookup_insert_eq. eexists. split; [done|]. simpl. congruence.
      - rewrite lookup_insert_ne by done. eauto. }
    intros y nd' Hy. apply lookup_insert_Some in Hy as [[<- <-]|[Hne Hy]]; simpl.
    + destruct (H2 _ _ Hx) as (? & ? & _ & ca' & i & Hca' & Hi & Hxi). split_and!; [done..|].
      destruct (Hcs _ _ Hca') as (ca'' & ? & Hp). exists ca'', i. by rewrite Hp.
    + destruct (H2 _ _ Hy) as (? & ? & ? & ca' & i & Hca' & Hi & Hyi). split_and!; [done..|].
      destruct (Hcs _ _ Hca') as (ca'' & ? & Hp). exists ca'', i. by rewrite Hp.
  - done.
  - intros y. rewrite Hin, H4. destruct (decide (y = x)) as [->|Hne].
    + rewrite lookup_insert_eq. split; [intros [?|[_ ->]]; [tauto|by eexists]|].
      intros (nd' & [= <-] & ?). by right.
    + rewrite lookup_insert_ne by done. naive_solver.
Qed.

Lemma toggle_wf : pool_wf toggle_st.
Proof.
  constructor; [apply Hw|apply Hw|apply toggle_caches_wf|apply toggle_nodes_wf|].
  destruct (wf_counts _ Hw). by constructor.
Qed.

Lemma toggle_live : live_objs toggle_st = if u then {[x]} ∪ live_objs s else live_objs s ∖ {[x]}.
Proof.
  clear - s. apply set_eq. intros y.
  assert (Hy : y ∈ live_objs toggle_st <-> (y = x /\ u = true) \/ (y <> x /\ y ∈ live_objs s)).
  { rewrite !elem_of_live_objs. simpl. destruct (decide (y = x)) as [->|Hne].
    - rewrite lookup_insert_eq. naive_solver.
    - rewrite lookup_insert_ne by done. naive_solver. }
  rewrite Hy. destruct u eqn:Eu.
  - rewrite elem_of_union, elem_of_singleton. destruct (decide (y = x)); tauto.
  - rewrite elem_of_difference, not_elem_of_singleton. naive_solver.
Qed.
End Toggle.

(** ** Releasing a cache none of whose nodes is used *)
Lemma filter_out_length {A} `{EqDecision A} (blk l : list A) :
  NoDup blk -> NoDup l -> (forall x, x ∈ blk -> x ∈ l) ->
  length l = (length blk + length (filter (fun x => x ∉ blk) l))%nat.
Proof.
  intros Hb Hl Hin. rewrite <- (filter_app_complement (fun x => x ∈ blk) l) at 1.
  rewrite length_app. f_equal. apply Permutation_length, NoDup_Permutation; [by apply NoDup_filter|done|].
  intros x. rewrite list_elem_of_filter. naive_solver.
Qed.

Section FreeCache.
Context (s : pool_st) (c : positive) (ca : op_cache_t) (a : allocator).
Hypothesis Hw : pool_wf s.
Hypothesis Hc : st_caches s !! c = Some ca.
Hypothesis Hu : c_nused ca = 0.
Hypothesis Haw : al_wf a.
Hypothesis Har : al_room a = S (S (al_room (st_al s))).
Hypothesis Hal : al_live a = al_live (st_al s) ∖ {[c_pool ca]} ∖ {[c]}.

Definition blk : list nid := node_at (op_nodesize (st_op s)) (c_pool ca) <$> seq 0 (incn s).

Definition drop_st : pool_st :=
  let o := st_op s in
  {| st_al := a; st_self := st_self s;
     st_op := op_set_counts (op_set_lists o (filter (fun x => x ∉ blk) (op_node_list o))
                               (filter (fun d => d <> c) (op_cache_list o)))
                (u32 (op_nalloced o - op_incsize o)) (u32 (op_nfreed o - op_incsize o));
     st_caches := delete c (st_caches s);
     st_nodes := filter (fun x => x.1.1 <> c_pool ca) (st_nodes s) |}.

Lemma drop_unused i : (i < incn s)%nat ->
  exists nd, st_nodes s !! naddr s (c_pool ca) i = Some nd /\ n_is_used nd = false /\ n_linked nd = true.
Proof.
  clear - Hw Hc Hu. intros Hi. destruct (wf_node_dom _ (wf_nodes _ Hw) c ca i Hc Hi) as [nd Hnd]. exists nd.
  destruct (wf_cache _ (wf_caches _ Hw) _ _ Hc) as (_ & _ & Hn).
  assert (Hz : node_used (st_nodes s) (naddr s (c_pool ca) i) = false) by (eapply used_count_zero; [|done]; lia).
  unfold node_used in Hz. rewrite Hnd in Hz.
  destruct (wf_node _ (wf_nodes _ Hw) _ _ Hnd) as (_ & _ & -> & _). by rewrite Hz.
Qed.

Lemma elem_of_blk y : y ∈ blk <-> exists i, (i < incn s)%nat /\ y = naddr s (c_pool ca) i.
Proof. apply elem_of_new_addrs. Qed.

Lemma drop_lookup y :
  st_nodes drop_st !! y = if decide (y.1 = c_pool ca) then None else st_nodes s !! y.
Proof.
  simpl. rewrite map_lookup_filter. destruct (st_nodes s !! y) eqn:E; simpl; case_decide; simpl;
    repeat case_guard; naive_solver.
Qed.

Lemma drop_node_used y : y.1 <> c_pool ca -> node_used (st_nodes drop_st) y = node_used (st_nodes s) y.
Proof. intros Hb. unfold node_used. by rewrite drop_lookup, decide_False. Qed.

Lemma drop_other d da : st_caches s !! d = Some da -> d <> c -> c_pool da <> c_pool ca.
Proof. intros Hd Hne Hp. apply Hne. by apply (wf_blocks _ (wf_caches _ Hw) _ _ _ _ Hd Hc). Qed.

Lemma drop_caches_wf : caches_wf drop_st.
Proof.
  pose proof drop_other as Hoth. destruct (wf_caches _ Hw) as [H1 H2 H3 H4 H5]. constructor; simpl.
  - by apply NoDup_filter.
  - intros d. rewrite list_elem_of_filter, H2, lookup_delete_is_Some. naive_solver.
  - intros d da [Hd Hda]%lookup_delete_Some. change (incn drop_st) with (incn s).
    destruct (H3 _ _ Hda) as (? & ? & Hn). split_and!; [done..|]. rewrite Hn. f_equal. symmetry.
    apply used_count_ext. intros i _. apply drop_node_used. simpl. eauto.
  - intros d da [Hd Hda]%lookup_delete_Some. destruct (H4 _ _ Hda) as (? & ? & ? & ?).
    destruct (H5 _ _ _ _ Hda Hc), (H5 _ _ _ _ Hc Hda). pose proof (Hoth d da Hda ltac:(done)).
    rewrite Hal. set_solver.
  - intros c1 c2 ca1 ca2 [_ Hc1]%lookup_delete_Some [_ Hc2]%lookup_delete_Some. by eapply H5.
Qed.

Lemma drop_nodes_wf : nodes_wf drop_st.
Proof.
  pose proof drop_other as Hoth. destruct (wf_nodes _ Hw) as [H1 H2 H3 H4].
  constructor; change (incn drop_st) with (incn s).
  - intros d da i Hd0 Hi. simpl in Hd0. apply lookup_delete_Some in Hd0 as [Hd Hda]. rewrite drop_lookup, decide_False by (simpl; eauto). by eapply H1.
  - intros y nd. rewrite drop_lookup. case_decide as Hy; [done|]. intros Hnd.
    destruct (H2 _ _ Hnd) as (? & ? & ? & ca' & i & Hca' & Hi & Hp). split_and!; [done..|].
    exists ca', i. split; [|done]. simpl. rewrite lookup_delete_ne; [done|].
    intros Heq. rewrite <- Heq in Hca'. apply Hy. rewrite Hp. simpl. congruence.
  - by apply NoDup_filter.
  - intros y. simpl st_op. simpl op_node_list. rewrite list_elem_of_filter, H4, elem_of_blk, drop_lookup.
    case_decide as Hy.
    + split; [|naive_solver]. intros (Hn & nd & Hnd & _). exfalso.
      destruct (H2 _ _ Hnd) as (_ & _ & _ & ca' & i & Hca' & Hi & ->). apply Hn. exists i. simpl in Hy. by rewrite Hy.
    + split; [naive_solver|]. intros Hnd. split; [|done]. intros (i & _ & ->). by apply Hy.
Qed.

Lemma drop_wf : pool_wf drop_st.
Proof.
  destruct (wf_counts _ Hw) as [Hi Hz Hps Ha Hf Hr]. destruct (wf_caches _ Hw) as [Hcn Hcl _ Hlive _].
  assert (Hinc : Z.of_nat (incn s) = op_incsize (st_op s)) by (unfold incn; lia).
  constructor; [done| |apply drop_caches_wf|apply drop_nodes_wf|].
  - simpl. rewrite Hal. destruct (Hlive _ _ Hc) as (_ & _ & ? & ?). pose proof (wf_self _ Hw). set_solver.
  - pose proof (filter_neq_length (op_cache_list (st_op s)) c Hcn (proj2 (Hcl c) (ex_intro _ ca Hc))) as Hlc.
    assert (Hnl : length (op_node_list (st_op s)) =
      (incn s + length (filter (fun x => x ∉ blk) (op_node_list (st_op s))))%nat).
    { rewrite (filter_out_length blk) at 1.
      - unfold blk. by rewrite length_fmap, length_seq.
      - apply (NoDup_fmap_2_strong _ _); [|apply NoDup_seq]. intros i j _ _. apply node_at_inj. lia.
      - apply (wf_nl_nodup _ (wf_nodes _ Hw)).
      - intros y (i & Hi' & ->)%elem_of_blk. apply (wf_nl _ (wf_nodes _ Hw)).
        destruct (drop_unused i Hi') as (nd & ? & ? & _). eauto. }
    constructor; simpl; [done|done| | | |].
    + intros Hf'. apply Hps. intros Hn. by rewrite Hn in Hf'.
    + rewrite Ha, Hlc, u32_small; [|split]; nia.
    + rewrite Hf, Hnl, u32_small; [lia|]. pose proof (nl_bound s Hw). split; nia.
    + rewrite Har. rewrite Hlc in Hr. eapply Z.le_lt_trans; [|exact Hr].
      apply Z.mul_le_mono_nonneg_l; lia.
Qed.

Lemma drop_live : live_objs drop_st = live_objs s.
Proof.
  apply set_eq. intros y. rewrite !elem_of_live_objs, drop_lookup.
  case_decide as Hy; [|done]. split; [naive_solver|]. intros (nd & Hnd & Hused).
  destruct (wf_node _ (wf_nodes _ Hw) _ _ Hnd) as (_ & _ & _ & ca' & i & _ & Hi & ->). simpl in Hy. rewrite Hy in Hnd.
  destruct (drop_unused _ Hi) as (nd' & Hnd' & ? & _). congruence.
Qed.
End FreeCache.

Lemma mfree_wf a b a' : al_wf a -> mfree a b = Ok a' -> al_wf a'.
Proof.
  intros Hw Hf x Hx. unfold mfree in Hf. case_decide; [|done]. injection Hf as <-. apply Hw.
  simpl in Hx. set_solver.
Qed.

Lemma op_free_cache_spec s c ca :
  pool_wf s -> st_caches s !! c = Some ca -> c_nused ca = 0 ->
  exists s', op_free_cache s c = Ok s' /\ pool_wf s' /\ live_objs s' = live_objs s /\ same_config s s'.
Proof.
  intros Hw Hc Hu. destruct (wf_caches _ Hw) as [_ Hcl Hca Hlive Hbl].
  destruct (Hca _ _ Hc) as (Hm & _ & _). destruct (Hlive _ _ Hc) as (Hl1 & Hl2 & _).
  destruct (mfree_Ok (st_al s) (c_pool ca) Hl2) as (a1 & E1 & _ & Hr1 & Hv1).
  destruct (mfree_Ok a1 c) as (a2 & E2 & _ & Hr2 & Hv2).
  { rewrite Hv1. pose proof (proj1 (Hbl _ _ _ _ Hc Hc)). set_solver. }
  exists (drop_st s c ca a2). split; [|split_and!].
  - unfold op_free_cache. rewrite Hc. simpl. rewrite Hu, Hm, (Z.eqb_refl (op_magic _)).
    rewrite bool_decide_eq_true_2 by (apply Hcl; by eexists). simpl.
    rewrite unlink_nodes_spec.
    2:{ intros i Hi%elem_of_seq. apply (drop_unused s c ca Hw Hc Hu i). unfold incn. lia. }
    simpl. pose proof (u32_range (op_nalloced (st_op s) - op_incsize (st_op s))).
    pose proof (u32_range (op_nfreed (st_op s) - op_incsize (st_op s))).
    rewrite !(proj2 (Z.leb_le _ _)) by lia.
    rewrite E1. simpl. rewrite E2. reflexivity.
  - apply drop_wf; [done..| |lia|by rewrite Hv2, Hv1].
    eapply mfree_wf; [eapply mfree_wf; [apply Hw|done]|done].
  - by apply drop_live.
  - done.
Qed.

Lemma op_lock_spec s :
  pool_ok s -> exists s', op_lock s = Some s' /\ pool_wf s' /\ live_objs s' = live_objs s /\
    st_nodes s' = st_nodes s /\ st_self s' = st_self s /\
    op_need_lock (st_op s') = op_need_lock (st_op s) /\
    op_locked (st_op s') = op_need_lock (st_op s).
Proof.
  intros [Hw Hl]. unfold op_lock. destruct (op_need_lock (st_op s)) eqn:E; rewrite ?Hl.
  - eexists. split; [done|]. split_and!; try done. by apply pool_wf_locked.
  - eexists. split; [done|]. split_and!; done.
Qed.

Lemma op_unlock_spec s :
  pool_wf s -> op_locked (st_op s) = op_need_lock (st_op s) ->
  exists s', op_unlock s = Some s' /\ pool_ok s' /\ live_objs s' = live_objs s.
Proof.
  intros Hw Hl. unfold op_unlock. destruct (op_need_lock (st_op s)) eqn:E; rewrite ?Hl.
  - eexists. split; [done|]. split; [split|]; [by apply pool_wf_locked|done|done].
  - exists s. split_and!; [done|split; congruence|done].
Qed.

(** The free list with the returned node in front. *)
Lemma put_free_list s x nd :
  pool_wf s -> st_nodes s !! x = Some nd -> n_is_used nd = true ->
  NoDup (x :: op_node_list (st_op s)) /\
  (forall y, y ∈ x :: op_node_list (st_op s) <->
    (y <> x /\ y ∈ op_node_list (st_op s)) \/ (y = x /\ false = false)).
Proof.
  intros Hw Hx Hu. split.
  - apply NoDup_cons. split; [|apply (wf_nl_nodup _ (wf_nodes _ Hw))].
    intros (nd' & ? & ?)%(wf_nl _ (wf_nodes _ Hw)). congruence.
  - intros y. rewrite elem_of_cons. destruct (decide (y = x)) as [->|]; tauto.
Qed.

(** No assertion of [_op_put_node] fails and no counter wraps. *)
Lemma op_put_node_eq s x nd ca :
  pool_wf s -> st_nodes s !! x = Some nd -> n_is_used nd = true ->
  st_caches s !! n_cache nd = Some ca ->
  let s1 := toggle_st s x nd ca false (x :: op_node_list (st_op s)) in
  op_put_node s x =
    if (c_nused ca - 1 =? 0) && (2 * op_incsize (st_op s) <? op_nfreed (st_op s1))
    then op_free_cache s1 (n_cache nd) else Ok s1.
Proof.
  intros Hw Hx Hu Hca s1. pose proof (nl_bound_used s x nd Hw Hx Hu) as Hlen.
  destruct (wf_node _ (wf_nodes _ Hw) _ _ Hx) as (Hm & _).
  destruct (wf_cache _ (wf_caches _ Hw) _ _ Hca) as (Hcm & _ & Hn).
  pose proof (used_count_bound (st_nodes s) (op_nodesize (st_op s)) (c_pool ca) (incn s)) as Hub.
  pose proof (toggle_count s x nd ca false [] Hw Hx Hca Hu) as Htc. simpl in Htc.
  destruct (wf_counts _ Hw) as [Hinc _ _ _ Hnf Hr].
  assert (Hinc' : Z.of_nat (incn s) = op_incsize (st_op s)) by (unfold incn; lia).
  unfold op_put_node. rewrite Hx. simpl. rewrite Hca. simpl. rewrite Hm, Hcm, !Z.eqb_refl, Hu. simpl.
  assert (Hp : Z.of_nat (S (length (op_node_list (st_op s)))) <=
    op_incsize (st_op s) * Z.of_nat (length (op_cache_list (st_op s)))) by (rewrite <- Hinc'; lia).
  assert (0 <= op_incsize (st_op s) * Z.of_nat (al_room (st_al s))) by (apply Z.mul_nonneg_nonneg; lia).
  rewrite (u32_small (c_nused ca - 1)), (u32_small (op_nfreed (st_op s) + 1)) by lia.
  rewrite (proj2 (Z.leb_le 0 _)) by lia. rewrite Hnf.
  replace (Z.of_nat (length (op_node_list (st_op s))) + 1) with
    (Z.of_nat (length (x :: op_node_list (st_op s)))) by (simpl; lia).
  unfold s1, toggle_st. rewrite Hm, Hcm. done.
Qed.

Lemma op_put_node_spec s x :
  pool_wf s -> x ∈ live_objs s ->
  exists s', op_put_node s x = Ok s' /\ pool_wf s' /\ live_objs s' = live_objs s ∖ {[x]} /\ same_config s s'.
Proof.
  intros Hw (nd & Hx & Hu)%elem_of_live_objs.
  destruct (wf_node _ (wf_nodes _ Hw) _ _ Hx) as (_ & _ & _ & ca & _ & Hca & _).
  destruct (put_free_list s x nd Hw Hx Hu) as [Hnl Hin]. rewrite (op_put_node_eq s x nd ca) by done.
  assert (Htw := toggle_wf s x nd ca false _ Hw Hx Hca Hu Hnl Hin).
  pose proof (toggle_live s x nd ca false (x :: op_node_list (st_op s))) as Htl. simpl in Htl.
  set (s1 := toggle_st s x nd ca false (x :: op_node_list (st_op s))) in *.
  destruct (Z.eqb_spec (c_nused ca - 1) 0) as [Hz|Hz]; simpl; [|by exists s1].
  destruct (_ <? _); [|by exists s1].
  destruct (op_free_cache_spec s1 (n_cache nd) {| c_magic := c_magic ca; c_nused := c_nused ca - 1;
    c_pool := c_pool ca; c_capacity := c_capacity ca |}) as (s2 & -> & Hw2 & Hl2 & Hc2);
    [done|by simpl; rewrite lookup_insert_eq|done|].
  exists s2. split_and!; [done|done|by rewrite Hl2|done].
Qed.

(** The part of [objpool_get] between lock and unlock. *)
Definition take_node (s : pool_st) : res (pool_st * option nid) :=
  match op_node_list (st_op s) with
  | [] => Fault NullDeref
  | x :: rest =>
      do nd <- deref (st_nodes s !! x);
      do ca <- deref (st_caches s !! n_cache nd);
      Ok (toggle_st s x nd ca true rest, Some x)
  end.

Lemma take_node_spec s :
  pool_wf s -> op_node_list (st_op s) <> [] ->
  exists s' x, take_node s = Ok (s', Some x) /\ pool_wf s' /\ same_config s s' /\
    x ∉ live_objs s /\ live_objs s' = {[x]} ∪ live_objs s.
Proof.
  intros Hw Hne. unfold take_node. destruct (op_node_list (st_op s)) as [|x rest] eqn:El; [done|].
  destruct (wf_nodes _ Hw) as [_ Hnode Hnd Hnl]. rewrite El in Hnd. setoid_rewrite El in Hnl.
  destruct (proj1 (Hnl x) ltac:(left)) as (nd & Hx & Hu).
  destruct (Hnode _ _ Hx) as (_ & _ & _ & ca & _ & Hca & _). rewrite Hx. simpl. rewrite Hca. simpl.
  apply NoDup_cons in Hnd as [Hxr Hnd].
  assert (Hin : forall y, y ∈ rest <-> (y <> x /\ y ∈ op_node_list (st_op s)) \/ (y = x /\ true = false)).
  { intros y. rewrite El, elem_of_cons. split; [|naive_solver]. intros Hy. left. split; [|by right].
    intros ->. done. }
  do 2 eexists. split; [done|]. split_and!; [by apply toggle_wf|done| |apply toggle_live].
  intros (nd' & Hnd' & Hu')%elem_of_live_objs. congruence.
Qed.

Lemma objpool_get_locked s s1 :
  op_lock s = Some s1 -> pool_wf s1 ->
  objpool_get s =
    (let (s2, rc) := if op_nfreed (st_op s1) =? 0 then op_alloc_cache s1 else (s1, 0) in
     if negb (rc =? 0) then Ok (op_unlock_report s2, None) else
     do (s3, x) <- take_node s2; Ok (op_unlock_report s3, x)).
Proof.
  intros E Hw. unfold objpool_get. rewrite E.
  assert (Hs2 : forall s2 rc, (if op_nfreed (st_op s1) =? 0 then op_alloc_cache s1 else (s1, 0)) = (s2, rc) ->
    pool_wf s2).
  { intros s2 rc. destruct (_ =? _); [|by intros [= <- _]].
    destruct (op_alloc_cache_spec s1 Hw) as (s' & rc' & -> & Hw' & _). by intros [= <- _]. }
  destruct (if op_nfreed (st_op s1) =? 0 then _ else _) as [s2 rc]. specialize (Hs2 s2 rc eq_refl).
  destruct (negb _); [done|]. unfold take_node. destruct (op_node_list (st_op s2)) as [|x rest] eqn:El; [done|].
  destruct (st_nodes s2 !! x) as [nd|]; simpl; [|done].
  destruct (st_caches s2 !! n_cache nd) as [ca|] eqn:Hca; simpl; [|done].
  destruct (wf_cache _ (wf_caches _ Hs2) _ _ Hca) as (_ & _ & Hn).
  pose proof (used_count_bound (st_nodes s2) (op_nodesize (st_op s2)) (c_pool ca) (incn s2)).
  destruct (wf_counts _ Hs2) as [Hinc _ _ _ Hnf _]. rewrite El in Hnf. simpl in Hnf.
  assert (Z.of_nat (incn s2) < 2 ^ 16) by (unfold incn; lia).
  pose proof (nl_bound s2 Hs2). rewrite (u32_small (c_nused ca + 1)) by lia.
  rewrite Hnf. replace (u32 _) with (Z.of_nat (length rest)); [done|].
  unfold u32. pose proof (op_nfreed_range s2 Hs2) as Hr. rewrite Hnf in Hr. rewrite Z.mod_small; lia.
Qed.

Lemma op_unlock_report_spec s :
  pool_wf s -> op_locked (st_op s) = op_need_lock (st_op s) ->
  pool_ok (op_unlock_report s) /\ live_objs (op_unlock_report s) = live_objs s.
Proof.
  intros Hw Hl. destruct (op_unlock_spec s Hw Hl) as (s' & E & Hok & Hlive).
  unfold op_unlock_report. by rewrite E.
Qed.

(** The sizes [objpool_alloc] computes never change. *)
Definition sizes (s : pool_st) : Z * Z := (op_nodesize (st_op s), op_incsize (st_op s)).

Lemma same_config_sizes s s' : same_config s s' -> sizes s' = sizes s.
Proof. intros (_ & _ & _ & H1 & _ & H2). unfold sizes. congruence. Qed.

Lemma op_unlock_report_sizes s : sizes (op_unlock_report s) = sizes s.
Proof. unfold op_unlock_report, op_unlock. destruct (op_need_lock (st_op s)); [|done]. by destruct (op_locked (st_op s)). Qed.

Lemma op_lock_sizes s s1 : op_lock s = Some s1 -> sizes s1 = sizes s.
Proof.
  unfold op_lock. destruct (op_need_lock (st_op s)); [destruct (op_locked (st_op s)); [done|]|]; intros [= <-]; reflexivity.
Qed.

Lemma op_unlock_sizes s s1 : op_unlock s = Some s1 -> sizes s1 = sizes s.
Proof.
  unfold op_unlock. destruct (op_need_lock (st_op s)); [destruct (op_locked (st_op s)); [|done]|]; intros [= <-]; reflexivity.
Qed.

Lemma dry_grows s : objpool_dry s = (op_nfreed (st_op s) =? 0) && negb (grows s).
Proof.
  unfold objpool_dry, grows. f_equal. destruct (malloc (st_al s)) as [[]]; [|done].
  by destruct (malloc_pool _) as [[]].
Qed.

Lemma op_lock_dry s s1 : op_lock s = Some s1 -> objpool_dry s1 = objpool_dry s.
Proof.
  unfold op_lock. destruct (op_need_lock (st_op s)); [destruct (op_locked (st_op s)); [done|]|]; intros [= <-]; reflexivity.
Qed.

Lemma objpool_get_full s :
  pool_ok s ->
  exists s' r, objpool_get s = Ok (s', r) /\ pool_ok s' /\ sizes s' = sizes s /\
    match r with
    | Some o => objpool_dry s = false /\ o ∉ live_objs s /\ live_objs s' = {[o]} ∪ live_objs s
    | None => objpool_dry s = true /\ live_objs s' = live_objs s
    end.
Proof.
  intros Hok. destruct (op_lock_spec s Hok) as (s1 & E & Hw1 & Hl1 & _ & _ & Hn1 & Hk1).
  rewrite (objpool_get_locked s s1 E Hw1).
  assert (exists s2 rc, (if op_nfreed (st_op s1) =? 0 then op_alloc_cache s1 else (s1, 0)) = (s2, rc) /\
    pool_wf s2 /\ live_objs s2 = live_objs s1 /\ same_config s1 s2 /\
    (rc = 0 /\ op_node_list (st_op s2) <> [] /\ objpool_dry s1 = false \/ rc = -1 /\ objpool_dry s1 = true))
    as (s2 & rc & -> & Hw2 & Hl2 & Hc2 & Hrc).
  { rewrite dry_grows. destruct (Z.eqb_spec (op_nfreed (st_op s1)) 0) as [|Hnz].
    { destruct (op_alloc_cache_spec s1 Hw1) as (s2 & rc & E2 & ? & ? & ? & Hg). exists s2, rc. split_and!; [done..|].
      destruct Hg as [(-> & ? & ->)|[-> ->]]; [left|right]; done. }
    exists s1, 0. split_and!; [done..|]. left. split_and!; [done| |done].
    rewrite (wf_nfreed _ (wf_counts _ Hw1)) in Hnz. by destruct (op_node_list (st_op s1)). }
  rewrite (op_lock_dry _ _ E) in Hrc.
  pose proof (same_config_sizes _ _ Hc2) as Hz2. rewrite (op_lock_sizes _ _ E) in Hz2.
  destruct Hc2 as (_ & Hn2 & Hk2 & _). destruct Hrc as [(-> & Hne & Hd)|[-> Hd]]; simpl.
  - destruct (take_node_spec s2 Hw2 Hne) as (s3 & x & -> & Hw3 & Hc3 & Hx & Hl3). simpl.
    pose proof (same_config_sizes _ _ Hc3) as Hz3. destruct Hc3 as (_ & Hn3 & Hk3 & _).
    destruct (op_unlock_report_spec s3 Hw3) as [Hok4 Hl4]; [congruence|].
    do 2 eexists. split; [done|]. split; [done|]. split; [rewrite op_unlock_report_sizes; congruence|].
    rewrite Hl4, Hl3, Hl2, Hl1. rewrite Hl2, Hl1 in Hx. done.
  - destruct (op_unlock_report_spec s2 Hw2) as [Hok4 Hl4]; [congruence|].
    do 2 eexists. split; [done|]. split; [done|]. split; [rewrite op_unlock_report_sizes; congruence|].
    split; [done|congruence].
Qed.

Lemma objpool_get_spec s :
  pool_ok s ->
  exists s' r, objpool_get s = Ok (s', r) /\ pool_ok s' /\
    match r with
    | Some o => objpool_dry s = false /\ o ∉ live_objs s /\ live_objs s' = {[o]} ∪ live_objs s
    | None => objpool_dry s = true /\ live_objs s' = live_objs s
    end.
Proof. intros Hok. destruct (objpool_get_full s Hok) as (s' & r & ? & ? & _ & ?). eauto. Qed.

Lemma objpool_put_full s x :
  pool_ok s -> x ∈ live_objs s ->
  exists s', objpool_put s (Some x) = Ok (s', 0) /\ pool_ok s' /\ sizes s' = sizes s /\
    live_objs s' = live_objs s ∖ {[x]}.
Proof.
  intros Hok Hx. destruct (op_lock_spec s Hok) as (s1 & E & Hw1 & Hl1 & _ & _ & Hn1 & Hk1).
  pose proof Hx as (nd & Hnd & _)%elem_of_live_objs. unfold objpool_put. rewrite Hnd. simpl.
  destruct (wf_node _ (wf_nodes _ (proj1 Hok)) _ _ Hnd) as (_ & -> & _). rewrite Pos.eqb_refl. simpl.
  rewrite E. destruct (op_put_node_spec s1 x Hw1) as (s2 & -> & Hw2 & Hl2 & Hc2); [by rewrite Hl1|].
  pose proof (same_config_sizes _ _ Hc2) as Hz2. destruct Hc2 as (_ & Hn2 & Hk2 & _).
  simpl. destruct (op_unlock_spec s2 Hw2) as (s3 & E3 & Hok3 & Hl3); [congruence|]. rewrite E3.
  apply op_unlock_sizes in E3. apply op_lock_sizes in E.
  exists s3. split_and!; [done|done|congruence|congruence].
Qed.

Lemma objpool_put_spec s x :
  pool_ok s -> x ∈ live_objs s ->
  exists s', objpool_put s (Some x) = Ok (s', 0) /\ pool_ok s' /\ live_objs s' = live_objs s ∖ {[x]}.
Proof. intros Hok Hx. destruct (objpool_put_full s x Hok Hx) as (s' & ? & ? & _ & ?). eauto. Qed.

#[export] Instance objpool_spec : ObjPoolSpec pool_st nid := {|
  pool_get := objpool_get;
  pool_put := fun s x => objpool_put s (Some x);
  pool_inv := pool_ok;
  pool_live := live_objs;
  pool_dry := objpool_dry;
  pool_get_law := objpool_get_spec;
  pool_put_law := objpool_put_spec
|}.

(** A pool before its first cache. *)
Lemma empty_pool_wf a self o :
  al_wf a -> self ∈ al_live a -> 0 < op_incsize o < 2 ^ 16 -> 0 < op_nodesize o < 2 ^ 16 ->
  op_node_list o = [] -> op_cache_list o = [] -> op_nalloced o = 0 -> op_nfreed o = 0 ->
  op_incsize o * Z.of_nat (al_room a) < 2 ^ 32 ->
  pool_wf {| st_al := a; st_self := self; st_op := o; st_caches := ∅; st_nodes := ∅ |}.
Proof.
  intros Ha Hs Hi Hz Hn Hc H1 H2 Hr. constructor; simpl; [done|done| | |]; constructor; simpl;
    rewrite ?Hn, ?Hc; try done; try apply NoDup_nil_2; try (simpl; lia).
  - intros c. rewrite lookup_empty, elem_of_nil. split; [done|by intros []].
  - intros x. rewrite elem_of_nil. setoid_rewrite lookup_empty. naive_solver.
Qed.

(** Up to 65488 bytes the 16-bit sizes do not wrap. *)
Lemma objsize_fits objsize : 1 <= objsize <= 65488 ->
  u16 (u16 (align_num objsize) + align_num sizeof_op_node_t) = align_num objsize + 40 /\
  objsize <= align_num objsize <= 65488.
Proof.
  intros Ho. destruct (align_num_spec objsize) as [Hal Hm]. change (align_num sizeof_op_node_t) with 40.
  assert (align_num objsize <= 65488) by (pose proof (Z.div_mod (align_num objsize) 8); lia).
  rewrite (u16_small (align_num objsize)) by lia. rewrite u16_small by lia. lia.
Qed.

Lemma objpool_alloc_spec a now objsize incsize locked :
  al_wf a -> 1 <= objsize <= 65488 -> u16 (if incsize <? 1 then OBJPOOL_INC_SIZE else incsize) <> 0 ->
  u16 (if incsize <? 1 then OBJPOOL_INC_SIZE else incsize) * Z.of_nat (al_room a) < 2 ^ 32 ->
  exists a' r, objpool_alloc a now objsize incsize locked = Ok (a', r) /\
    match r with
    | Some s => pool_ok s /\ live_objs s = ∅ /\ op_objsize (st_op s) = u16 (align_num objsize) /\
        op_nodesize (st_op s) = u16 (u16 (align_num objsize) + 40) /\ op_need_lock (st_op s) = locked /\
        op_incsize (st_op s) = u16 (if incsize <? 1 then OBJPOOL_INC_SIZE else incsize)
    | None => True
    end.
Proof.
  intros Ha Ho Hi Hr. unfold objpool_alloc. rewrite (proj2 (Z.ltb_ge _ _)) by lia.
  set (inc := if incsize <? 1 then OBJPOOL_INC_SIZE else incsize) in *.
  pose proof (u16_range inc) as Hinc.
  destruct (malloc a) as [[self|] a1] eqn:E1; [|by exists a1, None].
  pose proof (malloc_wf _ _ _ Ha E1) as Ha1. apply malloc_Some in E1 as (-> & _ & Hr1 & Hl1).
  match goal with |- context [op_alloc_cache ?t] => destruct (op_alloc_cache_spec t) as
    (s & rc & E & Hw & Hl & (Hs & Hn & Hk & Hi2 & Ho2 & Hn2) & Hrc) end.
  { apply empty_pool_wf; simpl; try done; [set_solver|lia|destruct (objsize_fits objsize Ho) as [-> ?]; lia|].
    eapply Z.le_lt_trans; [|exact Hr]. apply Z.mul_le_mono_nonneg_l; lia. }
  simpl in *. rewrite E. destruct Hrc as [(-> & _)|[-> _]]; simpl.
  - do 2 eexists. split; [done|]. split_and!; [split; [|by simpl; rewrite Hk]| |done..].
    + destruct Hw as [? ? [] [] []]. constructor; [done..| | |]; by constructor.
    + change (live_objs _) with (live_objs s). rewrite Hl. apply set_eq. intros x.
      rewrite elem_of_live_objs. simpl. setoid_rewrite lookup_empty. set_solver.
  - pose proof (wf_self _ Hw) as Hself. rewrite Hs in Hself.
    destruct (mfree_Ok (st_al s) (al_next a) Hself) as (a' & -> & _). by exists a', None.
Qed.

(** ** Clients of a pool

    A client gets objects and returns any of the ones it holds, in any order;
    the run stops with a failed assertion if the pool ever hands out an
    object the client still holds or refuses one back. *)
Inductive client_op : Type :=
  | CGet
  | CPut (k : nat).     (** return the [k]-th held object, if there is one *)

Section Client.
Context {P obj : Type} `{Countable obj} `{!ObjPoolSpec P obj}.

Fixpoint client_run (s : P) (held : list obj) (ops : list client_op) : res (P * list obj) :=
  match ops with
  | [] => Ok (s, held)
  | CGet :: ops =>
      do (s, r) <- pool_get s;
      match r with
      | None => client_run s held ops
      | Some x => assert! bool_decide (x ∉ held); client_run s (x :: held) ops
      end
  | CPut k :: ops =>
      match held !! k with
      | None => client_run s held ops
      | Some x =>
          do (s, rc) <- pool_put s x;
          assert! rc =? 0; client_run s (delete k held) ops
      end
  end.

End Client.



Definition demo_al : allocator := {| al_next := 1; al_room := 100; al_oom := []; al_live := ∅ |}.

Definition demo_pool (locked : bool) : res (allocator * option pool_st) :=
  objpool_alloc demo_al 7 24 2 locked.

Lemma demo_run :
  exists a' s, demo_pool true = Ok (a', Some s) /\
  exists s' held, client_run s [] [CGet; CGet; CGet; CPut 1; CPut 0; CGet] = Ok (s', held) /\
    length held = 2%nat.
Proof.
  do 2 eexists. split; [vm_compute; reflexivity|]. do 2 eexists.
  split; [vm_compute; reflexivity|reflexivity].
Qed.


(** ** Releasing the pool *)
Lemma op_free_caches_spec a cs l :
  NoDup l ->
  (forall c, c ∈ l -> exists ca, cs !! c = Some ca /\ c ∈ al_live a /\ c_pool ca ∈ al_live a) ->
  (forall c1 c2 ca1 ca2, cs !! c1 = Some ca1 -> cs !! c2 = Some ca2 ->
    c1 <> c_pool ca2 /\ (c_pool ca1 = c_pool ca2 -> c1 = c2)) ->
  exists a', op_free_caches a cs l = Ok a' /\
    forall b, b ∈ al_live a' <-> b ∈ al_live a /\
      forall c ca, c ∈ l -> cs !! c = Some ca -> b <> c /\ b <> c_pool ca.
Proof.
  intros Hnd. revert a. induction Hnd as [|c l Hc Hnd IH]; intros a Hin Hbl; simpl.
  { exists a. set_solver. }
  destruct (Hin c ltac:(left)) as (ca & Hca & Hl1 & Hl2). rewrite Hca. simpl.
  destruct (mfree_Ok a (c_pool ca) Hl2) as (a1 & -> & _ & _ & Hv1). simpl.
  destruct (mfree_Ok a1 c) as (a2 & -> & _ & _ & Hv2).
  { rewrite Hv1. destruct (Hbl _ _ _ _ Hca Hca). set_solver. }
  simpl. destruct (IH a2) as (a' & -> & Ha').
  - intros d Hd. destruct (Hin d ltac:(by right)) as (da & Hda & ? & ?). exists da.
    destruct (Hbl _ _ _ _ Hda Hca), (Hbl _ _ _ _ Hca Hda).
    assert (d <> c) by (intros ->; done). rewrite Hv2, Hv1. set_solver.
  - done.
  - exists a'. split; [done|]. intros b. rewrite Ha', Hv2, Hv1. set_solver.
Qed.

Lemma objpool_free_spec s :
  pool_ok s ->
  exists a, objpool_free s = Ok a /\
    forall b, b ∈ al_live a <-> b ∈ al_live (st_al s) /\ b <> st_self s /\
      forall c ca, st_caches s !! c = Some ca -> b <> c /\ b <> c_pool ca.
Proof.
  intros [Hw _]. destruct (wf_caches _ Hw) as [Hnd Hcl _ Hlive Hbl]. unfold objpool_free.
  destruct (op_free_caches_spec (st_al s) (st_caches s) (op_cache_list (st_op s)) Hnd)
    as (a1 & -> & Ha1); [|done|].
  { intros c [ca Hca]%Hcl. exists ca. destruct (Hlive _ _ Hca) as (? & ? & _). done. }
  simpl. destruct (mfree_Ok a1 (st_self s)) as (a2 & -> & _ & _ & Hv2).
  { apply Ha1. split; [apply (wf_self _ Hw)|]. intros c ca _ Hca.
    destruct (Hlive _ _ Hca) as (_ & _ & ? & ?). split; congruence. }
  exists a2. split; [done|]. intros b. rewrite Hv2, elem_of_difference, not_elem_of_singleton, Ha1.
  split.
  - intros [[Hb Hn] Hne]. split_and!; [done..|]. intros c ca Hca. apply Hn; [|done]. apply Hcl. by eexists.
  - intros (Hb & Hne & Hn). split; [split|]; eauto.
Qed.

(** C35: [objpool_free] frees the memory of every cache, the cache structures
    and the pool structure, each exactly once (no double free), and nothing
    else: exactly those blocks leave the allocator's live set. *)
Theorem objpool_free_releases s :
  pool_ok s ->
  exists a, objpool_free s = Ok a /\
    forall b, b ∈ al_live a <-> b ∈ al_live (st_al s) /\ b <> st_self s /\
      forall c ca, st_caches s !! c = Some ca -> b <> c /\ b <> c_pool ca.
Proof. apply objpool_free_spec. Qed.

(** Above 65488 bytes the 16-bit size fields wrap: for 65489 to 65496 bytes
    the node size is 0, every node of a cache has the same address, and two
    calls of [objpool_get] in a row return the same object. *)
Definition first_two (objsize : Z) : option (Z * option nid * option nid) :=
  match objpool_alloc demo_al 7 objsize 2 false with
  | Ok (_, Some s) =>
      match objpool_get s with
      | Ok (s1, x) => match objpool_get s1 with Ok (_, y) => Some (op_nodesize (st_op s), x, y) | _ => None end
      | _ => None
      end
  | _ => None
  end.

Example objpool_nodes_alias :
  first_two 65490 = Some (0, Some (3%positive, 0), Some (3%positive, 0)) /\
  first_two 65488 = Some (65528, Some (3%positive, 65528), Some (3%positive, 0)).
Proof. split; vm_compute; reflexivity. Qed.

(** A cache whose second allocation fails reports -1 and changes no
    counter or list, but the block of the cache structure stays allocated and
    no pool structure refers to it: the block leaks. *)
Theorem op_alloc_cache_leaks s c a1 a2 :
  pool_wf s -> malloc (st_al s) = (Some c, a1) -> malloc_pool (set_al s a1) = (None, a2) ->
  exists s', op_alloc_cache s = (s', -1) /\ st_op s' = st_op s /\ st_caches s' = st_caches s /\
    c ∈ al_live (st_al s') /\ c <> st_self s' /\
    (forall d da, st_caches s' !! d = Some da -> c <> d /\ c <> c_pool da).
Proof.
  intros Hw E1 E2. exists (set_al s a2). rewrite (op_alloc_cache_fail s c a2) by eauto. simpl.
  pose proof (wf_al _ Hw) as Hal. apply malloc_Some in E1 as (-> & ? & ? & Hl1).
  apply malloc_pool_None in E2 as (? & ? & Hl2). simpl in *. split_and!; [done..|set_solver| |].
  - pose proof (Hal _ (wf_self _ Hw)). lia.
  - intros d da Hda. destruct (wf_cache_live _ (wf_caches _ Hw) _ _ Hda) as (Hd1%Hal & Hd2%Hal & _). lia.
Qed.

(** [incsize] is stored in 16 bits: a pool asked for a multiple of 65536
    objects per cache never hands out an object: its first [objpool_get]
    dereferences NULL, unless the allocation of a further empty cache fails, in
    which case it returns NULL. *)
Theorem objpool_incsize_wraps a now objsize incsize a' s :
  1 <= incsize -> u16 incsize = 0 ->
  objpool_alloc a now objsize incsize false = Ok (a', Some s) ->
  objpool_get s = Fault NullDeref \/ exists s', objpool_get s = Ok (s', None).
Proof.
  intros Hi Hu. unfold objpool_alloc. destruct (_ <? _); [done|]. rewrite (proj2 (Z.ltb_ge _ _)) by lia.
  rewrite Hu. destruct (malloc a) as [[self|] b]; [|done]. simpl.
  unfold op_alloc_cache at 1. simpl. destruct (malloc b) as [[c|] b2]; simpl; [|by intros ?; inv_ok].
  destruct (malloc_pool _) as [[d|] b3]; simpl; [|by intros ?; inv_ok]. intros [= <- <-].
  unfold objpool_get, op_lock. simpl. unfold op_alloc_cache. simpl.
  destruct (malloc b3) as [[e|] b4]; simpl; [|eauto]. destruct (malloc_pool _) as [[f|] b5]; simpl; eauto.
Qed.

Lemma demo_pool_alloc : exists a' s, demo_pool true = Ok (a', Some s) /\ pool_ok s.
Proof.
  destruct demo_run as (a' & s & E & _). exists a', s. split; [done|].
  destruct (objpool_alloc_spec demo_al 7 24 2 true) as (a2 & r & E2 & Hs);
    [intros b Hb; set_solver|lia|done|done|].
  unfold demo_pool in E. rewrite E in E2. injection E2 as <- <-. apply Hs.
Qed.

Lemma objpool_free_releases_witness :
  exists a' s a, demo_pool true = Ok (a', Some s) /\ objpool_free s = Ok a /\
    st_self s ∉ al_live a.
Proof.
  destruct demo_pool_alloc as (a' & s & E & Hok).
  destruct (objpool_free_releases s Hok) as (a & E2 & Ha). exists a', s, a. split_and!; [exact E|exact E2|].
  intros (_ & Hn & _)%Ha. by apply Hn.
Defined.

Lemma op_alloc_cache_leaks_witness :
  exists s a1 s', pool_wf s /\ malloc (st_al s) = (Some 50%positive, a1) /\
    op_alloc_cache s = (s', -1) /\ 50%positive ∈ al_live (st_al s').
Proof.
  set (a := {| al_next := 50; al_room := 10; al_oom := [false; true]; al_live := {[1%positive]} |}).
  set (o := {| op_magic := 7; op_need_lock := false; op_objsize := 24; op_incsize := 2; op_nodesize := 64;
    op_nalloced := 0; op_nfreed := 0; op_node_list := []; op_cache_list := []; op_locked := false |}).
  assert (Hw : pool_wf {| st_al := a; st_self := 1; st_op := o; st_caches := ∅; st_nodes := ∅ |}).
  { apply empty_pool_wf; [intros b Hb; simpl in Hb; apply elem_of_singleton in Hb as ->; simpl; lia|simpl; by apply elem_of_singleton|simpl; lia|done..]. }
  destruct (op_alloc_cache_leaks _ 50 _ _ Hw eq_refl eq_refl) as (s' & E & _ & _ & Hin & _).
  do 2 eexists. exists s'. split; [exact Hw|]. split; [reflexivity|]. split; [exact E|exact Hin].
Defined.

Lemma objpool_incsize_wraps_witness :
  exists a' s, objpool_alloc demo_al 7 24 65536 false = Ok (a', Some s) /\
    (objpool_get s = Fault NullDeref \/ exists s', objpool_get s = Ok (s', None)).
Proof.
  do 2 eexists. split; [vm_compute; reflexivity|].
  apply (objpool_incsize_wraps demo_al 7 24 65536 {| al_next := 4; al_room := 97; al_oom := []; al_live := {[1; 2; 3]}%positive |});
    [lia|reflexivity|vm_compute; reflexivity].
Defined.
End ObjPoolProofs.
