(* ===== verification/HashTable.v ===== *)
(** * hash: the chained hash table of hash.c and the simple one of shash.h

    Model of src/code/basic/datastruct/hash.c, hash.h and shash.h.  A table
    owns an array of entries, each the header of a cblist of items; an item
    comes from the table's object pool and holds the caller's pointer.  The
    lists are the sequences of CBList.v, the pool is any implementation of
    [ObjPoolSpec], and the caller's compare function is a parameter. *)
From S2P Require Import Prelude ObjPool.

Module HashTable.

(** ** Table sizes *)
Definition HT_SIZE_SZ : Z := 44.

Definition ht_size : list Z :=
  [7; 47; 79; 97; 163; 197; 331; 397; 673; 797; 1361; 1597;
   2729; 3203; 5471; 6421; 10949; 12853; 21911; 25717; 43853;
   51437; 87719; 102877; 175447; 205759; 350899; 411527; 701819;
   823117; 1403641; 1646237; 2807303; 3292489; 5614657; 6584983;
   11229331; 13169977; 22458671; 26339969; 44917381; 52679969;
   89834777; 105359939].

(** The search loop: the last [mid] and the value of [newsize], which is
    uninitialised ([None]) when the loop leaves it unset. *)
Fixpoint choose_loop (fuel : nat) (size bottom top mid : Z) : res (Z * option Z) :=
  match fuel with
  | O => Fault NoReturn
  | S fuel =>
      if bottom <=? top then
        let mid := (bottom + top) / 2 in
        do hm <- arr_get ht_size mid;
        if size =? hm then Ok (mid, Some hm)
        else if (hm <? size) && (mid <? HT_SIZE_SZ) then
          do hn <- arr_get ht_size (mid + 1);
          if size <=? hn then Ok (mid, Some hn)
          else choose_loop fuel size (mid + 1) top mid
        else if (size <? hm) && (0 <? mid) then
          do hp <- arr_get ht_size (mid - 1);
          if hp <=? size then Ok (mid, Some (if size =? hp then size else hm))
          else choose_loop fuel size bottom (mid - 1) mid
        else if (mid =? top) && (mid =? bottom) then Ok (mid, None)
        else choose_loop fuel size bottom top mid
      else Ok (mid, None)
  end.

Definition hash_choose_size (size : Z) : res Z :=
  do (mid, newsize) <- choose_loop 44 size 0 (HT_SIZE_SZ - 1) 0;
  if mid =? 0 then arr_get ht_size 0
  else if mid =? HT_SIZE_SZ - 1 then arr_get ht_size (HT_SIZE_SZ - 1)
  else match newsize with Some n => Ok n | None => Fault NoReturn end.

(** ** The table *)
Record hash_stat_t : Type := { nconflict : Z; nfind_failed : Z; nfind_success : Z }.

Definition inc_conflict (st : hash_stat_t) : hash_stat_t :=
  {| nconflict := s32 (nconflict st + 1); nfind_failed := nfind_failed st; nfind_success := nfind_success st |}.
Definition inc_failed (st : hash_stat_t) : hash_stat_t :=
  {| nconflict := nconflict st; nfind_failed := s32 (nfind_failed st + 1); nfind_success := nfind_success st |}.
Definition inc_success (st : hash_stat_t) : hash_stat_t :=
  {| nconflict := nconflict st; nfind_failed := nfind_failed st; nfind_success := s32 (nfind_success st + 1) |}.

Section Table.
(** [P] and [obj]: the item pool; [D]: the caller's pointers, never NULL
    inside the table. *)
Context {P obj : Type} `{Countable obj} `{!ObjPoolSpec P obj} {D : Type}.

Record hash_t : Type := {
  h_pool : P;
  h_entries : list (list obj);      (* the item list of each entry *)
  h_data : gmap obj D;              (* item->data *)
  h_nentry : Z;
  h_cmp_func : D -> D -> Z;
  h_size : Z;
  h_stat : hash_stat_t;
  h_need_lock : bool;
  h_locked : bool }.

Definition h_set_stat (h : hash_t) (st : hash_stat_t) : hash_t :=
  {| h_pool := h_pool h; h_entries := h_entries h; h_data := h_data h; h_nentry := h_nentry h;
     h_cmp_func := h_cmp_func h; h_size := h_size h; h_stat := st; h_need_lock := h_need_lock h;
     h_locked := h_locked h |}.
Definition h_set_locked (h : hash_t) (b : bool) : hash_t :=
  {| h_pool := h_pool h; h_entries := h_entries h; h_data := h_data h; h_nentry := h_nentry h;
     h_cmp_func := h_cmp_func h; h_size := h_size h; h_stat := h_stat h; h_need_lock := h_need_lock h;
     h_locked := b |}.
Definition h_set_items (h : hash_t) (p : P) (es : list (list obj)) (m : gmap obj D) (sz : Z) : hash_t :=
  {| h_pool := p; h_entries := es; h_data := m; h_nentry := h_nentry h;
     h_cmp_func := h_cmp_func h; h_size := sz; h_stat := h_stat h; h_need_lock := h_need_lock h;
     h_locked := h_locked h |}.

(** The error-checking mutex; an unlock failure is only reported. *)
Definition hh_lock (h : hash_t) : option hash_t :=
  if h_need_lock h then if h_locked h then None else Some (h_set_locked h true) else Some h.
Definition hh_unlock (h : hash_t) : hash_t :=
  if h_need_lock h then h_set_locked h false else h.

(** [key % hash->nentry], an unsigned division. *)
Definition hash_index (h : hash_t) (key : Z) : res Z :=
  if h_nentry h =? 0 then Fault DivByZero else Ok (key mod h_nentry h).

(** The search loop shared by [hash_search] and [hash_delete]: the position
    and data of the first item that compares equal, and the statistics. *)
Fixpoint search_loop (h : hash_t) (val : D) (items : list obj) (k : nat) (st : hash_stat_t)
    : res (option (nat * obj * D) * hash_stat_t) :=
  match items with
  | [] => Ok (None, st)
  | it :: items =>
      do d <- deref (h_data h !! it);
      if h_cmp_func h d val =? 0 then Ok (Some (k, it, d), inc_success st)
      else search_loop h val items (S k) (inc_conflict st)
  end.

Definition hash_search (h : option hash_t) (key : Z) (val : option D)
    : res (option hash_t * option D) :=
  match h, val with
  | Some h, Some val =>
      do index <- hash_index h key;
      do entry <- arr_get (h_entries h) index;
      match hh_lock h with
      | None => Ok (Some h, None)
      | Some h =>
          do (r, st) <- search_loop h val entry 0 (h_stat h);
          match r with
          | Some (_, _, d) => Ok (Some (hh_unlock (h_set_stat h st)), Some d)
          | None => Ok (Some (hh_unlock (h_set_stat h (inc_failed st))), None)
          end
      end
  | _, _ => Ok (h, None)
  end.

(** Taking an item from the pool and linking it at the tail of its entry;
    -1 when the pool is exhausted. *)
Definition hash_add_item (h : hash_t) (index : Z) (val : D) : res (hash_t * Z) :=
  do (p, r) <- pool_get (h_pool h);
  match r with
  | None => Ok (h_set_items h p (h_entries h) (h_data h) (h_size h), -1)
  | Some it =>
      do entry <- arr_get (h_entries h) index;
      do es <- arr_set (h_entries h) index (entry ++ [it]);
      Ok (h_set_items h p es (<[it := val]> (h_data h)) (u32 (h_size h + 1)), 0)
  end.

Definition hash_insert (h : option hash_t) (key : Z) (val : option D)
    : res (option hash_t * Z) :=
  match h, val with
  | Some h, Some val =>
      do index <- hash_index h key;
      match hh_lock h with
      | None => Ok (Some h, -1)
      | Some h =>
          do (h, rc) <- hash_add_item h index val;
          Ok (Some (hh_unlock h), rc)
      end
  | _, _ => Ok (h, -1)
  end.

(** The duplicate check of [hash_insert_nodup]; it keeps no statistics. *)
Fixpoint dup_loop (h : hash_t) (val : D) (items : list obj) : res bool :=
  match items with
  | [] => Ok false
  | it :: items =>
      do d <- deref (h_data h !! it);
      if h_cmp_func h d val =? 0 then Ok true else dup_loop h val items
  end.

Definition hash_insert_nodup (h : option hash_t) (key : Z) (val : option D)
    : res (option hash_t * Z) :=
  match h, val with
  | Some h, Some val =>
      do index <- hash_index h key;
      do entry <- arr_get (h_entries h) index;
      match hh_lock h with
      | None => Ok (Some h, -1)
      | Some h =>
          do dup <- dup_loop h val entry;
          if dup : bool then Ok (Some (hh_unlock h), -1) else
          do (h, rc) <- hash_add_item h index val;
          Ok (Some (hh_unlock h), rc)
      end
  | _, _ => Ok (h, -1)
  end.

Definition hash_delete (h : option hash_t) (key : Z) (val : option D)
    : res (option hash_t * option D) :=
  match h, val with
  | Some h, Some val =>
      do index <- hash_index h key;
      do entry <- arr_get (h_entries h) index;
      match hh_lock h with
      | None => Ok (Some h, None)
      | Some h =>
          do (r, st) <- search_loop h val entry 0 (h_stat h);
          match r with
          | Some (k, it, d) =>
              do es <- arr_set (h_entries h) index (delete k entry);
              do (p, _) <- pool_put (h_pool h) it;
              let h := h_set_items h p es (delete it (h_data h)) (u32 (h_size h - 1)) in
              Ok (Some (hh_unlock (h_set_stat h st)), Some d)
          | None => Ok (Some (hh_unlock (h_set_stat h (inc_failed st))), None)
          end
      end
  | _, _ => Ok (h, None)
  end.

Definition hash_size (h : option hash_t) : Z :=
  match h with
  | None => -1
  | Some h => match hh_lock h with None => -1 | Some h => s32 (h_size h) end
  end.

(** The data [hash_free] passes to [free_func], in order. *)
Fixpoint free_loop (h : hash_t) (items : list obj) : res (list D) :=
  match items with
  | [] => Ok []
  | it :: items => do d <- deref (h_data h !! it); do r <- free_loop h items; Ok (d :: r)
  end.

Fixpoint free_entries (h : hash_t) (i : nat) (n : nat) : res (list D) :=
  match n with
  | O => Ok []
  | S n =>
      do entry <- arr_get (h_entries h) (Z.of_nat i);
      do ds <- free_loop h entry;
      do r <- free_entries h (S i) n;
      Ok (ds ++ r)
  end.
End Table.
Arguments hash_t P obj {_ _} D.

(** ** Creation and destruction, with the pool of objpool.c *)
Definition sizeof_hash_item_t : Z := 24.

Definition hash_alloc {D} (a : allocator) (now size : Z) (cmp : option (D -> D -> Z)) (need_lock : bool)
    : res (allocator * option (positive * positive * hash_t ObjPool.pool_st (positive * Z) D)) :=
  match cmp with
  | None => Ok (a, None)
  | Some cmp =>
      if size <? 1 then Ok (a, None) else
      let (r, a) := malloc a in
      match r with
      | None => Ok (a, None)
      | Some hb =>
          do (a, p) <- ObjPool.objpool_alloc a now sizeof_hash_item_t 500 false;
          match p with
          | None => do a <- mfree a hb; Ok (a, None)
          | Some p =>
              do nentry <- hash_choose_size size;
              let (r, a) := malloc (ObjPool.st_al p) in
              let p := ObjPool.set_al p a in
              match r with
              | None =>
                  do a <- ObjPool.objpool_free p;
                  do a <- mfree a hb; Ok (a, None)
              | Some eb =>
                  Ok (a, Some (hb, eb,
                    {| h_pool := p; h_entries := replicate (Z.to_nat nentry) [];
                       h_data := ∅; h_nentry := nentry; h_cmp_func := cmp; h_size := 0;
                       h_stat := {| nconflict := 0; nfind_failed := 0; nfind_success := 0 |};
                       h_need_lock := need_lock; h_locked := false |}))
              end
          end
      end
  end.

(** [hb] and [eb] are the blocks of the table and of its entry array; the
    result lists the calls of [free_func] and the allocator afterwards. *)
Definition hash_free {D} (hb eb : positive) (h : hash_t ObjPool.pool_st (positive * Z) D) (has_free : bool)
    : res (Z * list D * option allocator) :=
  match hh_lock h with
  | None => Ok (-1, [], None)
  | Some h =>
      do ds <- (if has_free then free_entries h 0 (Z.to_nat (h_nentry h)) else Ok []);
      do a <- ObjPool.objpool_free (h_pool h);
      do a <- mfree a eb;
      do a <- mfree a hb;
      Ok (0, ds, Some a)
  end.

(** ** The simple hash table of shash.h *)
Section SHash.
Context {P obj : Type} `{Countable obj} `{!ObjPoolSpec P obj} {D : Type} `{EqDecision D}.

Record shash_bucket_t : Type := { sb_list : list obj; sb_size : Z }.

Record shash_t : Type := {
  sh_buckets : list shash_bucket_t; sh_nbucket : Z; sh_itempool : P; sh_data : gmap obj D;
  sh_size : Z; sh_cmp_func : D -> D -> Z; sh_free_func : bool }.

Definition sh_set (h : shash_t) (bs : list shash_bucket_t) (p : P) (m : gmap obj D) (sz : Z) : shash_t :=
  {| sh_buckets := bs; sh_nbucket := sh_nbucket h; sh_itempool := p; sh_data := m;
     sh_size := sz; sh_cmp_func := sh_cmp_func h; sh_free_func := sh_free_func h |}.

Definition shash_index (h : shash_t) (hval : Z) : res Z :=
  if sh_nbucket h =? 0 then Fault DivByZero else Ok (hval mod sh_nbucket h).

(** The duplicate check: the same pointer or an equal object. *)
Fixpoint shash_dup (h : shash_t) (d : D) (items : list obj) : res bool :=
  match items with
  | [] => Ok false
  | it :: items =>
      do x <- deref (sh_data h !! it);
      if bool_decide (x = d) || (sh_cmp_func h x d =? 0) then Ok true else shash_dup h d items
  end.

Definition shash_add (h : option shash_t) (d : option D) (hval : Z) (check : bool)
    : res (option shash_t * Z) :=
  match h, d with
  | Some h, Some d =>
      do hval <- shash_index h hval;
      do b <- arr_get (sh_buckets h) hval;
      do dup <- (if check then shash_dup h d (sb_list b) else Ok false);
      if dup : bool then Ok (Some h, -1) else
      do (p, r) <- pool_get (sh_itempool h);
      match r with
      | None => Ok (Some (sh_set h (sh_buckets h) p (sh_data h) (sh_size h)), -1)
      | Some it =>
          do bs <- arr_set (sh_buckets h) hval
                     {| sb_list := sb_list b ++ [it]; sb_size := u32 (sb_size b + 1) |};
          Ok (Some (sh_set h bs p (<[it := d]> (sh_data h)) (u32 (sh_size h + 1))), 0)
      end
  | _, _ => Ok (h, -1)
  end.

(** The first item of a bucket that compares equal, with its position. *)
Fixpoint shash_loop (h : shash_t) (d : D) (items : list obj) (k : nat) : res (option (nat * obj * D)) :=
  match items with
  | [] => Ok None
  | it :: items =>
      do x <- deref (sh_data h !! it);
      if sh_cmp_func h x d =? 0 then Ok (Some (k, it, x)) else shash_loop h d items (S k)
  end.

(** Neither [size] counter is touched. *)
Definition shash_del (h : option shash_t) (d : option D) (hval : Z) : res (option shash_t * option D) :=
  match h, d with
  | Some h, Some d =>
      do hval <- shash_index h hval;
      do b <- arr_get (sh_buckets h) hval;
      do r <- shash_loop h d (sb_list b) 0;
      match r with
      | None => Ok (Some h, None)
      | Some (k, it, x) =>
          do bs <- arr_set (sh_buckets h) hval
                     {| sb_list := delete k (sb_list b); sb_size := sb_size b |};
          do (p, _) <- pool_put (sh_itempool h) it;
          Ok (Some (sh_set h bs p (delete it (sh_data h)) (sh_size h)), Some x)
      end
  | _, _ => Ok (h, None)
  end.

Definition shash_find (h : option shash_t) (d : option D) (hval : Z) : res (option D) :=
  match h, d with
  | Some h, Some d =>
      do hval <- shash_index h hval;
      do b <- arr_get (sh_buckets h) hval;
      do r <- shash_loop h d (sb_list b) 0;
      match r with None => Ok None | Some (_, _, x) => Ok (Some x) end
  | _, _ => Ok None
  end.

(** The walk of [shash_free] over one bucket: every item is unlinked, its
    data passed to [free_func] if there is one, and returned to the pool. *)
Fixpoint shash_free_bucket (h : shash_t) (p : P) (items : list obj) : res (P * list D) :=
  match items with
  | [] => Ok (p, [])
  | it :: items =>
      do x <- deref (sh_data h !! it);
      do (p, _) <- pool_put p it;
      do (p, ds) <- shash_free_bucket h p items;
      Ok (p, if sh_free_func h then x :: ds else ds)
  end.

Fixpoint shash_free_buckets (h : shash_t) (p : P) (bs : list shash_bucket_t) : res (P * list D) :=
  match bs with
  | [] => Ok (p, [])
  | b :: bs =>
      do (p, ds) <- shash_free_bucket h p (sb_list b);
      do (p, ds') <- shash_free_buckets h p bs;
      Ok (p, ds ++ ds')
  end.
End SHash.
Arguments shash_bucket_t obj : clear implicits.
Arguments shash_t P obj {_ _} D.

Definition shash_alloc {D} (a : allocator) (now bucket : Z) (cfunc : D -> D -> Z) (ffunc : bool)
    : res (allocator * option (positive * positive * shash_t ObjPool.pool_st (positive * Z) D)) :=
  if bucket <? 1 then Ok (a, None) else
  let (r, a) := malloc a in
  match r with
  | None => Ok (a, None)
  | Some hb =>
      let (r, a) := malloc a in
      match r with
      | None => do a <- mfree a hb; Ok (a, None)
      | Some bb =>
          do (a, p) <- ObjPool.objpool_alloc a now sizeof_hash_item_t 1024 false;
          match p with
          | None => do a <- mfree a bb; do a <- mfree a hb; Ok (a, None)
          | Some p =>
              Ok (a, Some (hb, bb,
                {| sh_buckets := replicate (Z.to_nat bucket) {| sb_list := []; sb_size := 0 |};
                   sh_nbucket := bucket; sh_itempool := p; sh_data := ∅; sh_size := 0;
                   sh_cmp_func := cfunc; sh_free_func := ffunc |}))
          end
      end
  end.

Definition shash_free {D} (hb bb : positive) (h : shash_t ObjPool.pool_st (positive * Z) D)
    `{!ObjPoolSpec ObjPool.pool_st (positive * Z)} : res (list D * allocator) :=
  do (p, ds) <- shash_free_buckets h (sh_itempool h) (sh_buckets h);
  do a <- mfree (ObjPool.st_al p) bb;
  do a <- ObjPool.objpool_free (ObjPool.set_al p a);
  do a <- mfree a hb;
  Ok (ds, a).
End HashTable.
