(* ===== verification/HashProofs.v ===== *)
(** * The hash tables: refinement to sequences per entry

    Theorems about the definitions of HashTable.v. *)
From S2P Require Import Prelude ObjPool ObjPoolProofs HashTable.

Module HashProofs.
Import HashTable.

(** ** The size table *)
Lemma choose_loop_eq fuel size bottom top mid :
  choose_loop (S fuel) size bottom top mid =
  if bottom <=? top then
    let mid := (bottom + top) / 2 in
    do hm <- arr_get ht_size mid;
    if size =? hm then Ok (mid, Some hm)
    else if (hm <? size) && (mid <? HT_SIZE_SZ) then
      do hn <- arr_get ht_size (mid + 1);
      if size <=? hn then Ok (mid, Some hn)
      else choose_loop fuel size (mid + 1) top mid
    else if (size <? hm) && (0 <? mid) then
      do hp <- arr_get ht_size (mid - 1);
      if hp <=? size then Ok (mid, Some (if size =? hp then size else hm))
      else choose_loop fuel size bottom (mid - 1) mid
    else if (mid =? top) && (mid =? bottom) then Ok (mid, None)
    else choose_loop fuel size bottom top mid
  else Ok (mid, None).
Proof. reflexivity. Qed.

(** The table read as a function; it is strictly increasing. *)
Definition ht (i : Z) : Z := nth (Z.to_nat i) ht_size 0.

Lemma ht_last : ht 43 = 105359939.
Proof. reflexivity. Qed.

Lemma ht_get i : 0 <= i < 44 -> arr_get ht_size i = Ok (ht i).
Proof.
  intros Hi. apply arr_get_Ok. split; [lia|]. unfold ht.
  destruct (ht_size !! Z.to_nat i) as [x|] eqn:E; [by rewrite (nth_lookup_Some _ _ _ _ E)|].
  apply lookup_ge_None in E. change (length ht_size) with 44%nat in E. lia.
Qed.

Lemma ht_mono i j : 0 <= i < j -> j < 44 -> ht i < ht j.
Proof.
  intros Hi Hj.
  assert (Hs : forall k, (k < 43)%nat -> nth k ht_size 0 < nth (S k) ht_size 0).
  { intros k Hk. do 43 (destruct k as [|k]; [vm_compute; reflexivity|]). lia. }
  unfold ht. remember (Z.to_nat j - Z.to_nat i - 1)%nat as d eqn:Hd.
  replace (Z.to_nat j) with (S (d + Z.to_nat i)) by lia.
  assert (Hb : (d + Z.to_nat i < 43)%nat) by lia. clear -Hs Hb.
  induction d as [|d IH]; [apply Hs; lia|].
  etrans; [apply IH; lia|]. apply (Hs (S (d + Z.to_nat i))). lia.
Qed.

(** The intervals the loop can reach never have their middle at an end of
    the table, except the two one-element ones. *)
Fixpoint tree_ok (fuel : nat) (b t : Z) : bool :=
  match fuel with
  | O => false
  | S f =>
      let mid := (b + t) / 2 in
      if (t <? b) || ((b =? 0) && (t =? 0)) || ((b =? 43) && (t =? 43)) then true
      else (0 <? mid) && (mid <? 43) && tree_ok f (mid + 1) t && tree_ok f b (mid - 1)
  end.

Definition least_ge (size k : Z) : Prop :=
  0 <= k < 44 /\ size <= ht k /\ (k = 0 \/ ht (k - 1) < size).

Lemma choose_loop_spec fuel size b t m0 :
  tree_ok fuel b t = true -> 0 <= b <= t -> t < 44 -> size <= ht 43 ->
  (b = 0 \/ ht b < size) -> (t = 43 \/ size < ht t) ->
  exists mid ns, choose_loop fuel size b t m0 = Ok (mid, ns) /\
    ((mid = 0 /\ size < ht 0) \/
     (0 < mid < 43 /\ exists k, ns = Some (ht k) /\ least_ge size k)).
Proof.
  revert b t m0. induction fuel as [|fuel IH]; intros b t m0 Hok Hb Ht Hsz Hlo Hhi; [done|].
  rewrite choose_loop_eq, (proj2 (Z.leb_le _ _)) by lia. simpl in Hok.
  assert (Hmid : b <= (b + t) / 2 <= t)
    by (split; [apply Z.div_le_lower_bound; lia|apply Z.div_le_upper_bound; lia]).
  cbv zeta. remember ((b + t) / 2) as mid eqn:Em. rewrite (ht_get mid) by lia. cbn [bind].
  unfold HT_SIZE_SZ, least_ge in *. rewrite (proj2 (Z.ltb_lt mid 44)), andb_true_r by lia.
  destruct (_ || _) eqn:Hend in Hok.
  { clear Hok. rename Hend into Hok. apply orb_true_iff in Hok as [Hok|Hok]; [apply orb_true_iff in Hok as [Hok|Hok]; [lia|]|].
    - assert (b = 0 /\ t = 0) as [-> ->] by lia. change ((0 + 0) / 2) with 0 in Em. subst mid.
      assert (size < ht 0) by lia.
      rewrite (proj2 (Z.eqb_neq _ _)), (proj2 (Z.ltb_ge (ht 0) size)) by lia. simpl.
      rewrite andb_false_r. eexists _, _. split; [done|]. by left.
    - assert (b = 43 /\ t = 43) as [-> ->] by lia. lia. }
  rewrite !andb_true_iff in Hok. destruct Hok as [[[Hm0 Hm1] Hr] Hl].
  rewrite (proj2 (Z.ltb_lt 0 mid)), andb_true_r by lia.
  rewrite (ht_get (mid + 1)), (ht_get (mid - 1)) by lia. cbn [bind].
  pose proof (ht_mono (mid - 1) mid ltac:(lia) ltac:(lia)).
  destruct (Z.eqb_spec size (ht mid)) as [->|Hne].
  { eexists _, _. split; [done|]. right. split; [lia|]. exists mid. split; [done|]. lia. }
  destruct (Z.ltb_spec (ht mid) size).
  { destruct (Z.leb_spec size (ht (mid + 1))).
    - eexists _, _. split; [done|]. right. split; [lia|]. exists (mid + 1). split; [done|].
      replace (mid + 1 - 1) with mid by lia. lia.
    - apply IH; try done; try lia. destruct (decide (mid = t)) as [E|]; [|lia]. rewrite <- E in *. lia. }
  rewrite (proj2 (Z.ltb_lt size (ht mid))) by lia. destruct (Z.leb_spec (ht (mid - 1)) size).
  - eexists _, _. split; [done|]. right. split; [lia|]. destruct (Z.eqb_spec size (ht (mid - 1))) as [->|].
    + exists (mid - 1). split; [done|]. pose proof (ht_mono (mid - 1 - 1) (mid - 1)). lia.
    + exists mid. split; [done|]. lia.
  - apply IH; try done; try lia. destruct (decide (mid = b)) as [E|]; [|lia].
    pose proof (ht_mono (mid - 1) mid). rewrite <- E in *. lia.
Qed.

Lemma choose_size_index size :
  size <= 105359939 -> exists k, hash_choose_size size = Ok (ht k) /\ least_ge size k.
Proof.
  intros Hs. unfold hash_choose_size.
  destruct (choose_loop_spec 44 size 0 (HT_SIZE_SZ - 1) 0) as (mid & ns & -> & Hr);
    [vm_compute; reflexivity|unfold HT_SIZE_SZ; lia|unfold HT_SIZE_SZ; lia|rewrite ht_last; exact Hs|left; reflexivity|left; reflexivity|].
  cbn [bind]. unfold HT_SIZE_SZ. destruct Hr as [[-> Hz]|(Hm & k & -> & Hk)].
  - exists 0. simpl. split; [done|]. unfold least_ge. lia.
  - rewrite (proj2 (Z.eqb_neq mid 0)), (proj2 (Z.eqb_neq mid _)) by lia. eauto.
Qed.

Lemma choose_loop_oob fuel size b m0 :
  0 <= b <= 43 -> ht 43 < size -> (Z.to_nat (43 - b) < fuel)%nat ->
  choose_loop fuel size b 43 m0 = Fault OutOfBounds.
Proof.
  revert b m0. induction fuel as [|fuel IH]; intros b m0 Hb Hs Hf; [lia|].
  rewrite choose_loop_eq, (proj2 (Z.leb_le _ _)) by lia.
  assert (Hmid : b <= (b + 43) / 2 <= 43)
    by (split; [apply Z.div_le_lower_bound; lia|apply Z.div_le_upper_bound; lia]).
  set (mid := (b + 43) / 2) in *. cbv zeta. rewrite (ht_get mid) by lia. cbn [bind].
  assert (Hlt : ht mid < size) by (destruct (decide (mid = 43)) as [->|]; [done|pose proof (ht_mono mid 43); lia]).
  rewrite (proj2 (Z.eqb_neq _ _)), (proj2 (Z.ltb_lt _ _)) by lia. unfold HT_SIZE_SZ.
  rewrite (proj2 (Z.ltb_lt mid 44)) by lia. cbn [andb]. destruct (decide (mid = 43)) as [->|Hne]; [reflexivity|].
  rewrite (ht_get (mid + 1)) by lia. cbn [bind].
  assert (ht (mid + 1) < size) by (destruct (decide (mid + 1 = 43)) as [->|]; [done|pose proof (ht_mono (mid + 1) 43); lia]).
  rewrite (proj2 (Z.leb_gt _ _)) by lia. apply IH; lia.
Qed.

(** [_hash_choose_size] returns the smallest entry of the size table that
    is at least the requested size, for every size up to the last entry
    (105359939); beyond it the loop reads past the end of the table. *)
Theorem hash_choose_size_least size :
  (size <= 105359939 -> exists n, hash_choose_size size = Ok n /\ n ∈ ht_size /\ size <= n /\
     forall m, m ∈ ht_size -> size <= m -> n <= m) /\
  (105359939 < size -> hash_choose_size size = Fault OutOfBounds).
Proof.
  split; intros Hs.
  - destruct (choose_size_index size Hs) as (k & E & Hk & Hge & Hlo). exists (ht k). split_and!; [done| |done|].
    + pose proof (ht_get k Hk) as [_ Hl]%arr_get_Ok. by eapply list_elem_of_lookup_2.
    + intros m [i Hi]%list_elem_of_lookup_1 Hm. pose proof (lookup_lt_Some _ _ _ Hi) as Hlt.
      change (length ht_size) with 44%nat in Hlt. pose proof (nth_lookup_Some _ _ 0 _ Hi) as Hn.
      assert (Hmi : m = ht (Z.of_nat i)) by (unfold ht; rewrite Nat2Z.id; congruence).
      destruct (Z.lt_trichotomy k (Z.of_nat i)) as [H|[H|H]]; [|rewrite Hmi, <- H; lia|].
      * pose proof (ht_mono k (Z.of_nat i)). lia.
      * destruct (decide (Z.of_nat i = k - 1)) as [E2|]; [rewrite E2 in Hmi; lia|].
        pose proof (ht_mono (Z.of_nat i) (k - 1)). lia.
  - unfold hash_choose_size. change (HT_SIZE_SZ - 1) with 43. rewrite choose_loop_oob; [reflexivity|lia|rewrite ht_last; exact Hs|simpl; lia].
Qed.

Lemma hash_choose_size_least_witness :
  exists n, hash_choose_size 1000 = Ok n /\ n = 1361 /\ hash_choose_size 105359940 = Fault OutOfBounds.
Proof.
  destruct (proj1 (hash_choose_size_least 1000)) as (n & E & _ & _ & Hn); [lia|].
  exists n. split; [exact E|]. split; [|apply hash_choose_size_least; lia].
  vm_compute in E. congruence.
Defined.

(** ** Refinement of the table *)
Section Table.
Context {P obj : Type} `{Countable obj} `{!ObjPoolSpec P obj} {D : Type}.
Implicit Types (h : hash_t P obj D) (es : list (list obj)) (m : gmap obj D).

(** The data of each entry, in list order. *)
Definition datas m (items : list obj) : list D := omap (fun it => m !! it) items.
Definition view m es : list (list D) := datas m <$> es.
Definition contents h : list (list D) := view (h_data h) (h_entries h).

Record hash_core h : Prop := {
  hi_pool : pool_inv (h_pool h);
  hi_len : Z.of_nat (length (h_entries h)) = h_nentry h;
  hi_pos : 0 < h_nentry h;
  hi_nodup : NoDup (concat (h_entries h));
  hi_data it : it ∈ concat (h_entries h) -> is_Some (h_data h !! it);
  hi_live : pool_live (h_pool h) = list_to_set (concat (h_entries h));
  hi_size : h_size h = u32 (Z.of_nat (length (concat (h_entries h))))
}.

Definition hash_inv h : Prop := hash_core h /\ h_locked h = false.

Lemma concat_split es i e :
  es !! i = Some e ->
  concat es = concat (take i es) ++ e ++ concat (drop (S i) es) /\
  (forall e', concat (<[i := e']> es) = concat (take i es) ++ e' ++ concat (drop (S i) es)).
Proof.
  intros Hi. split.
  - rewrite <- (take_drop_middle es i e Hi) at 1. by rewrite concat_app.
  - intros e'. rewrite (insert_take_drop es i e') by (by eapply lookup_lt_Some).
    by rewrite concat_app.
Qed.

Lemma datas_cons m it e :
  datas m (it :: e) = match m !! it with Some d => d :: datas m e | None => datas m e end.
Proof. done. Qed.
#[local] Arguments datas : simpl never.

Lemma view_ext m m' es :
  (forall it, it ∈ concat es -> m' !! it = m !! it) -> view m' es = view m es.
Proof.
  intros Hm. unfold view. apply list_fmap_ext. intros i e Hi.
  assert (Hin : forall it, it ∈ e -> m' !! it = m !! it).
  { intros it Hit. apply Hm. destruct (concat_split es i e Hi) as [-> _]. set_solver. }
  clear - Hin. induction e as [|it e IH]; [done|]. rewrite !datas_cons, Hin by left.
  rewrite IH by (intros; apply Hin; by right). done.
Qed.

Lemma view_insert m es i e : view m (<[i := e]> es) = <[i := datas m e]> (view m es).
Proof. unfold view. by rewrite list_fmap_insert. Qed.

(** Replacing the items of one entry, with their number changing by [d]. *)
Lemma hash_core_update h p i e e' m' :
  hash_core h -> h_entries h !! i = Some e -> pool_inv p ->
  NoDup e' -> (forall it, it ∈ e' -> it ∈ e \/ it ∉ concat (h_entries h)) ->
  (forall it, it ∈ e' -> is_Some (m' !! it)) ->
  (forall it, it ∈ concat (h_entries h) -> it ∉ e -> m' !! it = h_data h !! it) ->
  pool_live p = list_to_set (concat (<[i := e']> (h_entries h))) ->
  hash_core (h_set_items h p (<[i := e']> (h_entries h)) m'
    (u32 (h_size h + (Z.of_nat (length e') - Z.of_nat (length e))))).
Proof.
  intros [H1 H2 H3 H4 H5 H6 H7] Hi Hp Hnd Hin He' Hm Hl.
  destruct (concat_split _ _ _ Hi) as [Hc Hc']. constructor; simpl; try done.
  - by rewrite length_insert.
  - rewrite Hc'. rewrite Hc in H4, Hin.
    apply NoDup_app in H4 as (N1 & N2 & (N3 & N4 & N5)%NoDup_app).
    apply NoDup_app. split_and!; [done| |apply NoDup_app; split_and!; [done| |done]].
    + intros x Hx [Hx'|Hx']%elem_of_app; [|apply (N2 x Hx); set_solver].
      destruct (Hin x Hx') as [?|Hn]; [apply (N2 x Hx)|apply Hn]; set_solver.
    + intros x Hx Hx'. destruct (Hin x Hx) as [?|Hn]; [by apply (N4 x)|apply Hn]; set_solver.
  - intros it. rewrite Hc'. intros Hit. destruct (decide (it ∈ e')) as [?|Hne]; [by apply He'|].
    assert (it ∈ concat (h_entries h)) by (rewrite Hc; set_solver).
    destruct (decide (it ∈ e)) as [Hie|?]; [|rewrite Hm by done; by apply H5].
    exfalso. rewrite Hc in H4. apply NoDup_app in H4 as (_ & N2 & (_ & N4 & _)%NoDup_app).
    rewrite !elem_of_app in Hit. destruct Hit as [Hit|[?|Hit]]; [apply (N2 it Hit)|done|apply (N4 it Hie Hit)].
    set_solver.
  - rewrite H7, u32_add_l. f_equal. rewrite Hc', Hc, !length_app. lia.
Qed.

Lemma search_loop_spec h val items k st :
  (forall it, it ∈ items -> is_Some (h_data h !! it)) ->
  exists r st', search_loop h val items k st = Ok (r, st') /\
    match find_first (fun d => h_cmp_func h d val =? 0) (datas (h_data h) items) with
    | None => r = None
    | Some i => exists it d, r = Some ((k + i)%nat, it, d) /\ items !! i = Some it /\
        h_data h !! it = Some d /\ datas (h_data h) items !! i = Some d
    end.
Proof.
  revert k st. induction items as [|it items IH]; intros k st Hd; simpl; [by eexists _, _|].
  destruct (Hd it ltac:(left)) as [d Hit]. rewrite datas_cons, Hit. simpl.
  destruct (_ =? 0) eqn:E.
  { eexists _, _. split; [done|]. exists it, d. by rewrite Nat.add_0_r. }
  destruct (IH (S k) (inc_conflict st)) as (r & st' & -> & Hr); [intros; apply Hd; by right|].
  eexists _, _. split; [done|]. destruct (find_first _ _) as [i|]; simpl in *; [|done].
  destruct Hr as (it' & d' & -> & ? & ? & ?). exists it', d'. by rewrite Nat.add_succ_r.
Qed.

Lemma dup_loop_spec h val items :
  (forall it, it ∈ items -> is_Some (h_data h !! it)) ->
  dup_loop h val items =
    Ok (bool_decide (is_Some (find_first (fun d => h_cmp_func h d val =? 0) (datas (h_data h) items)))).
Proof.
  induction items as [|it items IH]; intros Hd; simpl; [done|].
  destruct (Hd it ltac:(left)) as [d Hit]. rewrite datas_cons, Hit. simpl.
  destruct (_ =? 0); [done|]. rewrite IH by (intros; apply Hd; by right). f_equal.
  apply bool_decide_ext. rewrite fmap_is_Some. done.
Qed.

(** The entry a key selects. *)
Definition idx (c : list (list D)) (key : Z) : nat := Z.to_nat (key mod Z.of_nat (length c)).

Lemma hash_entry h key :
  hash_core h ->
  exists e, hash_index h key = Ok (Z.of_nat (idx (contents h) key)) /\
    arr_get (h_entries h) (Z.of_nat (idx (contents h) key)) = Ok e /\
    h_entries h !! idx (contents h) key = Some e /\
    contents h !! idx (contents h) key = Some (datas (h_data h) e) /\
    (forall it, it ∈ e -> it ∈ concat (h_entries h)).
Proof.
  intros [_ Hlen Hpos _ _ _ _].
  assert (Hidx : idx (contents h) key = Z.to_nat (key mod h_nentry h)).
  { unfold idx, contents, view. by rewrite length_fmap, Hlen. }
  pose proof (Z.mod_pos_bound key (h_nentry h) Hpos) as Hm. rewrite Hidx, Z2Nat.id by lia.
  destruct (lookup_lt_is_Some_2 (h_entries h) (Z.to_nat (key mod h_nentry h))) as [e He]; [lia|].
  exists e. split_and!; [|apply arr_get_Ok; split; [lia|done]|done| |].
  - unfold hash_index. by rewrite (proj2 (Z.eqb_neq _ _)) by lia.
  - unfold contents, view. by rewrite list_lookup_fmap, He.
  - intros it Hit. destruct (concat_split _ _ _ He) as [-> _]. set_solver.
Qed.

(** ** The abstract operations *)
Inductive hop : Type :=
  | HInsert (key : Z) (v : D)
  | HInsertNodup (key : Z) (v : D)
  | HSearch (key : Z) (v : D)
  | HDelete (key : Z) (v : D).

Inductive hres : Type := RC (rc : Z) | RV (v : option D).

Definition run_hop h (o : hop) : res (option (hash_t P obj D) * hres) :=
  match o with
  | HInsert key v => do (h, rc) <- hash_insert (Some h) key (Some v); Ok (h, RC rc)
  | HInsertNodup key v => do (h, rc) <- hash_insert_nodup (Some h) key (Some v); Ok (h, RC rc)
  | HSearch key v => do (h, r) <- hash_search (Some h) key (Some v); Ok (h, RV r)
  | HDelete key v => do (h, r) <- hash_delete (Some h) key (Some v); Ok (h, RV r)
  end.

Section Abstract.
Context (cmp : D -> D -> Z).

Definition hit (v : D) (b : list D) : option nat := find_first (fun d => cmp d v =? 0) b.

(** [dry]: the item pool has no free item and gets no memory for more; an
    insertion without a duplicate fails exactly then. *)
Inductive hstep (dry : bool) (c : list (list D)) : hop -> hres -> list (list D) -> Prop :=
  | hs_insert key v b : dry = false -> c !! idx c key = Some b ->
      hstep dry c (HInsert key v) (RC 0) (<[idx c key := b ++ [v]]> c)
  | hs_insert_oom key v : dry = true -> hstep dry c (HInsert key v) (RC (-1)) c
  | hs_nodup key v b : dry = false -> c !! idx c key = Some b -> hit v b = None ->
      hstep dry c (HInsertNodup key v) (RC 0) (<[idx c key := b ++ [v]]> c)
  | hs_nodup_dup key v b : c !! idx c key = Some b -> is_Some (hit v b) ->
      hstep dry c (HInsertNodup key v) (RC (-1)) c
  | hs_nodup_oom key v b : dry = true -> c !! idx c key = Some b -> hit v b = None ->
      hstep dry c (HInsertNodup key v) (RC (-1)) c
  | hs_search_miss key v b : c !! idx c key = Some b -> hit v b = None ->
      hstep dry c (HSearch key v) (RV None) c
  | hs_search_hit key v b i d : c !! idx c key = Some b -> hit v b = Some i -> b !! i = Some d ->
      hstep dry c (HSearch key v) (RV (Some d)) c
  | hs_delete_miss key v b : c !! idx c key = Some b -> hit v b = None ->
      hstep dry c (HDelete key v) (RV None) c
  | hs_delete_hit key v b i d : c !! idx c key = Some b -> hit v b = Some i -> b !! i = Some d ->
      hstep dry c (HDelete key v) (RV (Some d)) (<[idx c key := delete i b]> c).
End Abstract.

(** What an operation never changes. *)
Definition same_setup h h' : Prop :=
  h_cmp_func h' = h_cmp_func h /\ h_need_lock h' = h_need_lock h /\ h_locked h' = h_locked h.

Lemma hh_lock_unlocked h : h_locked h = false -> hh_lock h = Some (h_set_locked h (h_need_lock h)).
Proof. intros Hl. unfold hh_lock. rewrite Hl. destruct h; simpl in *. by destruct h_need_lock0; subst. Qed.

Lemma hh_unlock_inv h h' :
  hash_core h' -> same_setup (h_set_locked h (h_need_lock h)) h' ->
  hash_inv (hh_unlock h') /\ contents (hh_unlock h') = contents h' /\ h_cmp_func (hh_unlock h') = h_cmp_func h.
Proof.
  intros Hc (Hs & Hn & Hl). simpl in *. unfold hh_unlock. destruct (h_need_lock h') eqn:E.
  - split; [|done]. split; [|done]. destruct Hc. by constructor.
  - split; [|done]. split; [done|]. congruence.
Qed.

Lemma hash_core_locked h b : hash_core h -> hash_core (h_set_locked h b).
Proof. intros []. by constructor. Qed.
Lemma hash_core_stat h st : hash_core h -> hash_core (h_set_stat h st).
Proof. intros []. by constructor. Qed.

Lemma datas_app m e1 e2 : datas m (e1 ++ e2) = datas m e1 ++ datas m e2.
Proof. unfold datas. by rewrite omap_app. Qed.

Lemma datas_delete m e k :
  (forall it, it ∈ e -> is_Some (m !! it)) -> datas m (delete k e) = delete k (datas m e).
Proof.
  revert k. induction e as [|it e IH]; intros k Hd; [done|].
  rewrite datas_cons. destruct (Hd it ltac:(left)) as [d Hit]. rewrite Hit.
  destruct k as [|k]; [done|]. change (delete (S k) (it :: e)) with (it :: delete k e).
  rewrite datas_cons, Hit, IH by (intros; apply Hd; by right). done.
Qed.

Lemma hash_add_item_spec h i e v :
  hash_core h -> h_entries h !! i = Some e ->
  exists h' rc, hash_add_item h (Z.of_nat i) v = Ok (h', rc) /\ hash_core h' /\ same_setup h h' /\
    ((rc = 0 /\ pool_dry (h_pool h) = false /\ contents h' = <[i := datas (h_data h) e ++ [v]]> (contents h)) \/
     (rc = -1 /\ pool_dry (h_pool h) = true /\ contents h' = contents h)).
Proof.
  intros Hc He. pose proof Hc as [H1 H2 H3 H4 H5 H6 H7]. unfold hash_add_item.
  destruct (pool_get_law _ H1) as (p & [it|] & -> & Hp & Hr); simpl.
  2:{ destruct Hr as [Hd Hr]. eexists _, _. split; [done|]. split_and!; [|done|by right]. constructor; simpl; try done.
      congruence. }
  destruct Hr as (Hd & Hnew & Hl). rewrite H6, elem_of_list_to_set in Hnew.
  destruct (concat_split _ _ _ He) as [Hcc Hcc'].
  rewrite (arr_get_nat _ _ _ He). simpl. unfold arr_set.
  pose proof (lookup_lt_Some _ _ _ He). rewrite (proj2 (Z.ltb_ge _ _)), (proj2 (Z.leb_gt _ _)) by lia.
  simpl. rewrite Nat2Z.id. eexists _, _. split; [done|].
  assert (Hne : it ∉ e) by (rewrite Hcc in Hnew; set_solver).
  split_and!; [|done|left; split_and!; [done|done|]].
  - replace (h_size h + 1) with (h_size h + (Z.of_nat (length (e ++ [it])) - Z.of_nat (length e)))
      by (rewrite length_app; simpl; lia).
    apply hash_core_update; [done|done|done| | | | |].
    + apply NoDup_app. split_and!; [|set_solver|apply NoDup_singleton].
      rewrite Hcc in H4. apply NoDup_app in H4 as (_ & _ & (? & _)%NoDup_app). done.
    + intros x [?| ->%list_elem_of_singleton]%elem_of_app; [by left|by right].
    + intros x [Hx| ->%list_elem_of_singleton]%elem_of_app; [|by rewrite lookup_insert_eq].
      rewrite lookup_insert_ne by (intros ->; done). apply H5. rewrite Hcc. set_solver.
    + intros x Hx _. rewrite lookup_insert_ne; [done|]. intros ->. done.
    + rewrite Hl, H6, Hcc, Hcc'. set_solver.
  - unfold contents. simpl. rewrite view_insert.
    rewrite (view_ext (h_data h)) by (intros x Hx; rewrite lookup_insert_ne; [done|intros ->; done]).
    f_equal. rewrite datas_app. f_equal; [|by rewrite datas_cons, lookup_insert_eq].
    pose proof (view_ext (h_data h) (<[it := v]> (h_data h)) [e]) as Hv. simpl in Hv.
    injection Hv; [done|]. intros x Hx. rewrite app_nil_r in Hx. rewrite lookup_insert_ne; [done|].
    intros ->. done.
Qed.

(** Unlinking the [k]-th item of an entry and returning it to the pool. *)
Lemma hash_del_item_spec h i e k it :
  hash_core h -> h_entries h !! i = Some e -> e !! k = Some it ->
  exists p, pool_put (h_pool h) it = Ok (p, 0) /\
    let h' := h_set_items h p (<[i := delete k e]> (h_entries h)) (delete it (h_data h)) (u32 (h_size h - 1)) in
    hash_core h' /\ contents h' = <[i := delete k (datas (h_data h) e)]> (contents h).
Proof.
  intros Hc He Hk. pose proof Hc as [H1 H2 H3 H4 H5 H6 H7].
  destruct (concat_split _ _ _ He) as [Hcc Hcc'].
  assert (Hit : it ∈ concat (h_entries h)) by (rewrite Hcc; apply list_elem_of_lookup_2 in Hk; set_solver).
  destruct (pool_put_law (h_pool h) it H1) as (p & Hput & Hp & Hl).
  { rewrite H6. by apply elem_of_list_to_set. }
  exists p. split; [done|]. cbv zeta.
  pose proof H4 as Hnd. rewrite Hcc in Hnd. apply NoDup_app in Hnd as (N1 & N2 & (N3 & N4 & N5)%NoDup_app).
  pose proof (delete_Permutation e k it Hk) as Hperm.
  assert (Hde : forall x, x ∈ delete k e <-> x ∈ e /\ x <> it).
  { intros x. rewrite Hperm in N3. apply NoDup_cons in N3 as [Hni _].
    assert (x ∈ e <-> x = it \/ x ∈ delete k e) by (rewrite Hperm at 1; apply elem_of_cons).
    split; [|tauto]. intros Hx. split; [tauto|]. intros ->. done. }
  assert (Hdel : forall x, x <> it -> delete it (h_data h) !! x = h_data h !! x).
  { intros x Hx. by rewrite lookup_delete_ne. }
  split.
  - replace (h_size h - 1) with (h_size h + (Z.of_nat (length (delete k e)) - Z.of_nat (length e)))
      by (rewrite Hperm at 2; simpl; lia).
    apply hash_core_update; [done|done|done| | | | |].
    + rewrite Hperm in N3. by apply NoDup_cons in N3 as [_ ?].
    + intros x [? _]%Hde. by left.
    + intros x [Hx Hne]%Hde. rewrite Hdel by done. apply H5. rewrite Hcc. set_solver.
    + intros x Hx Hne. apply Hdel. intros ->. apply Hne. by eapply list_elem_of_lookup_2.
    + rewrite Hl, H6, Hcc, Hcc'. apply set_eq. intros x.
      rewrite elem_of_difference, not_elem_of_singleton, !elem_of_list_to_set, !elem_of_app, Hde.
      apply list_elem_of_lookup_2 in Hk. split; [naive_solver|].
      intros [Hx|[Hx|Hx]]; [|naive_solver|]; (split; [naive_solver|]); intros ->.
      * apply (N2 it Hx). set_solver.
      * by apply (N4 it).
  - unfold contents. simpl. rewrite (view_ext (h_data h)).
    + rewrite view_insert, datas_delete; [done|]. intros x Hx. apply H5. rewrite Hcc. set_solver.
    + intros x. rewrite Hcc', !elem_of_app, Hde. intros Hx. apply Hdel. intros ->.
      apply list_elem_of_lookup_2 in Hk.
      destruct Hx as [Hx|[[_ ?]|Hx]]; [apply (N2 it Hx); set_solver|done|by apply (N4 it)].
Qed.

Lemma arr_set_entry {A} (l : list A) i e x :
  l !! i = Some e -> arr_set l (Z.of_nat i) x = Ok (<[i := x]> l).
Proof.
  intros He. apply arr_set_Ok. rewrite Nat2Z.id. pose proof (lookup_lt_Some _ _ _ He). split; [lia|done].
Qed.

(** Each operation, under the lock, implements its abstract step. *)
Lemma run_hop_search h key v :
  hash_inv h ->
  exists h' r, run_hop h (HSearch key v) = Ok (Some h', r) /\ hash_inv h' /\
    hstep (h_cmp_func h) (pool_dry (h_pool h)) (contents h) (HSearch key v) r (contents h') /\ h_cmp_func h' = h_cmp_func h.
Proof.
  intros [Hc Hl]. destruct (hash_entry h key Hc) as (e & Ei & Eg & He & Hb & Hin). simpl. unfold hash_search.
  rewrite Ei. simpl. rewrite Eg. simpl. rewrite (hh_lock_unlocked h Hl). set (h1 := h_set_locked h (h_need_lock h)).
  destruct (search_loop_spec h1 v e 0 (h_stat h1)) as (r & st & -> & Hr); [intros; apply Hc; auto|].
  simpl. change (find_first _ _) with (hit (h_cmp_func h) v (datas (h_data h) e)) in Hr.
  assert (Hu : forall st', hash_inv (hh_unlock (h_set_stat h1 st')) /\
    contents (hh_unlock (h_set_stat h1 st')) = contents h /\ h_cmp_func (hh_unlock (h_set_stat h1 st')) = h_cmp_func h).
  { intros st'. exact (hh_unlock_inv h (h_set_stat h1 st') (hash_core_stat _ _ (hash_core_locked _ _ Hc))
      (conj eq_refl (conj eq_refl eq_refl))). }
  destruct (hit _ _ _) as [i|] eqn:Eh.
  - destruct Hr as (it & d & -> & _ & _ & Hd). destruct (Hu st) as (? & Hcont & ?).
    eexists _, _. split; [done|]. rewrite Hcont. split_and!; [done|by eapply hs_search_hit|done].
  - rewrite Hr. destruct (Hu (inc_failed st)) as (? & Hcont & ?).
    eexists _, _. split; [done|]. rewrite Hcont. split_and!; [done|by eapply hs_search_miss|done].
Qed.

Lemma run_hop_insert h key v :
  hash_inv h ->
  exists h' r, run_hop h (HInsert key v) = Ok (Some h', r) /\ hash_inv h' /\
    hstep (h_cmp_func h) (pool_dry (h_pool h)) (contents h) (HInsert key v) r (contents h') /\ h_cmp_func h' = h_cmp_func h.
Proof.
  intros [Hc Hl]. destruct (hash_entry h key Hc) as (e & Ei & Eg & He & Hb & Hin). simpl. unfold hash_insert.
  rewrite Ei. simpl. rewrite (hh_lock_unlocked h Hl). set (h1 := h_set_locked h (h_need_lock h)).
  destruct (hash_add_item_spec h1 (idx (contents h) key) e v) as (h2 & rc & -> & Hc2 & Hs2 & Hr);
    [by apply hash_core_locked|done|]. simpl.
  destruct (hh_unlock_inv h h2 Hc2 Hs2) as (Hi & Hcont & Hcmp). eexists _, _. split; [done|].
  split_and!; [done| |done]. rewrite Hcont. destruct Hr as [(-> & ? & ->)|(-> & ? & ->)]; [by constructor|by constructor].
Qed.

Lemma run_hop_insert_nodup h key v :
  hash_inv h ->
  exists h' r, run_hop h (HInsertNodup key v) = Ok (Some h', r) /\ hash_inv h' /\
    hstep (h_cmp_func h) (pool_dry (h_pool h)) (contents h) (HInsertNodup key v) r (contents h') /\ h_cmp_func h' = h_cmp_func h.
Proof.
  intros [Hc Hl]. destruct (hash_entry h key Hc) as (e & Ei & Eg & He & Hb & Hin). simpl.
  unfold hash_insert_nodup. rewrite Ei. simpl. rewrite Eg. simpl. rewrite (hh_lock_unlocked h Hl).
  set (h1 := h_set_locked h (h_need_lock h)).
  rewrite (dup_loop_spec h1) by (intros; apply Hc; auto). simpl.
  change (find_first _ _) with (hit (h_cmp_func h) v (datas (h_data h) e)). case_bool_decide as Hd.
  - destruct (hh_unlock_inv h h1) as (Hi & Hcont & Hcmp); [by apply hash_core_locked|done|].
    eexists _, _. split; [done|]. rewrite Hcont. split_and!; [done|by eapply hs_nodup_dup|done].
  - assert (Hn : hit (h_cmp_func h) v (datas (h_data h) e) = None).
    { destruct (hit _ _ _); [|done]. destruct Hd. by eexists. }
    destruct (hash_add_item_spec h1 (idx (contents h) key) e v) as (h2 & rc & -> & Hc2 & Hs2 & Hr);
      [by apply hash_core_locked|done|]. simpl.
    destruct (hh_unlock_inv h h2 Hc2 Hs2) as (Hi & Hcont & Hcmp). eexists _, _. split; [done|].
    split_and!; [done| |done]. rewrite Hcont.
    destruct Hr as [(-> & ? & ->)|(-> & ? & ->)]; [by eapply hs_nodup|by eapply hs_nodup_oom].
Qed.

Lemma run_hop_delete h key v :
  hash_inv h ->
  exists h' r, run_hop h (HDelete key v) = Ok (Some h', r) /\ hash_inv h' /\
    hstep (h_cmp_func h) (pool_dry (h_pool h)) (contents h) (HDelete key v) r (contents h') /\ h_cmp_func h' = h_cmp_func h.
Proof.
  intros [Hc Hl]. destruct (hash_entry h key Hc) as (e & Ei & Eg & He & Hb & Hin). simpl. unfold hash_delete.
  rewrite Ei. simpl. rewrite Eg. simpl. rewrite (hh_lock_unlocked h Hl). set (h1 := h_set_locked h (h_need_lock h)).
  destruct (search_loop_spec h1 v e 0 (h_stat h1)) as (r & st & -> & Hr); [intros; apply Hc; auto|].
  simpl. change (find_first _ _) with (hit (h_cmp_func h) v (datas (h_data h) e)) in Hr. destruct (hit _ _ _) as [i|] eqn:Eh.
  - destruct Hr as (it & d & -> & Hit & _ & Hd). rewrite (arr_set_entry _ _ e) by done. simpl.
    destruct (hash_del_item_spec h1 (idx (contents h) key) e i it) as (p & Ep & Hc2 & Hcont2);
      [by apply hash_core_locked|done|done|]. simpl in Ep, Hcont2. rewrite Ep. cbn [bind].
    match goal with |- context [Ok (Some (hh_unlock ?t), _)] => destruct (hh_unlock_inv h t) as (Hi & Hcont & Hcmp) end;
      [by apply hash_core_stat|done|]. eexists _, _. split; [done|]. rewrite Hcont.
    split_and!; [done| |done]. change (contents (h_set_stat ?x _)) with (contents x). rewrite Hcont2.
    by eapply hs_delete_hit.
  - rewrite Hr. destruct (hh_unlock_inv h (h_set_stat h1 (inc_failed st))) as (Hi & Hcont & Hcmp);
      [by apply hash_core_stat, hash_core_locked|done|].
    eexists _, _. split; [done|]. rewrite Hcont. split_and!; [done|by eapply hs_delete_miss|done].
Qed.

(** A run with the result of each operation and whether the item pool was dry
    before it. *)
Fixpoint run_hops h (os : list hop) : res (option (hash_t P obj D) * list (bool * hres)) :=
  match os with
  | [] => Ok (Some h, [])
  | o :: os =>
      let dry := pool_dry (h_pool h) in
      do (h, r) <- run_hop h o;
      match h with
      | None => Ok (None, [(dry, r)])
      | Some h => do (h, rs) <- run_hops h os; Ok (h, (dry, r) :: rs)
      end
  end.

Inductive hsteps (cmp : D -> D -> Z) : list (list D) -> list hop -> list (bool * hres) -> list (list D) -> Prop :=
  | hsteps_nil c : hsteps cmp c [] [] c
  | hsteps_cons c c1 c2 o os dry r rs :
      hstep cmp dry c o r c1 -> hsteps cmp c1 os rs c2 -> hsteps cmp c (o :: os) ((dry, r) :: rs) c2.

Lemma run_hops_refines h os :
  hash_inv h ->
  exists h' rs, run_hops h os = Ok (Some h', rs) /\ hash_inv h' /\
    hsteps (h_cmp_func h) (contents h) os rs (contents h').
Proof.
  revert h. induction os as [|o os IH]; intros h Hi; simpl.
  { eexists _, _. split; [done|]. split; [done|constructor]. }
  assert (exists h' r, run_hop h o = Ok (Some h', r) /\ hash_inv h' /\
    hstep (h_cmp_func h) (pool_dry (h_pool h)) (contents h) o r (contents h') /\ h_cmp_func h' = h_cmp_func h)
    as (h1 & r & -> & Hi1 & Hs & Hcmp).
  { destruct o; [apply run_hop_insert|apply run_hop_insert_nodup|apply run_hop_search|apply run_hop_delete]; done. }
  simpl. destruct (IH h1 Hi1) as (h2 & rs & -> & Hi2 & Hss). simpl. eexists _, _. split; [done|].
  split; [done|]. econstructor; [done|]. by rewrite <- Hcmp.
Qed.

Lemma length_contents h : hash_core h -> length (concat (contents h)) = length (concat (h_entries h)).
Proof.
  intros [_ _ _ _ Hd _ _]. unfold contents, view. revert Hd.
  induction (h_entries h) as [|e es IH]; intros Hd; [done|].
  rewrite fmap_cons. cbn [concat] in *. rewrite !length_app, IH by set_solver. f_equal. assert (Hde : forall it, it ∈ e -> is_Some (h_data h !! it)) by set_solver.
  clear - Hde. induction e as [|it e IH]; [done|]. rewrite datas_cons.
  destruct (Hde it ltac:(left)) as [d ->]. simpl. f_equal. apply IH. set_solver.
Qed.

Lemma free_loop_spec h items :
  (forall it, it ∈ items -> is_Some (h_data h !! it)) -> free_loop h items = Ok (datas (h_data h) items).
Proof.
  induction items as [|it items IH]; intros Hd; [done|]. rewrite datas_cons. simpl.
  destruct (Hd it ltac:(left)) as [d ->]. simpl. rewrite IH by set_solver. done.
Qed.

Lemma free_entries_spec h i n :
  (forall it, it ∈ concat (h_entries h) -> is_Some (h_data h !! it)) ->
  (i + n = length (h_entries h))%nat ->
  free_entries h i n = Ok (concat (drop i (contents h))).
Proof.
  intros Hd. revert i. induction n as [|n IH]; intros i Hn; simpl.
  - rewrite drop_ge; [done|]. unfold contents, view. rewrite length_fmap. lia.
  - destruct (lookup_lt_is_Some_2 (h_entries h) i) as [e He]; [lia|]. rewrite (arr_get_nat _ _ _ He). simpl.
    rewrite free_loop_spec.
    2:{ intros it Hit. apply Hd. destruct (concat_split _ _ _ He) as [-> _]. set_solver. }
    simpl. rewrite IH by lia. simpl. unfold contents, view. rewrite <- !fmap_drop.
    by rewrite (drop_S _ _ _ He).
Qed.
End Table.

(** ** Tables on the pool of objpool.c *)
Import ObjPoolProofs.
Lemma hash_alloc_spec {D} (a : allocator) (now size : Z) (cmp : D -> D -> Z) (lk : bool) (a' : allocator) (hb eb : positive) (h : hash_t ObjPool.pool_st (positive * Z) D) :
  al_wf a -> 500 * Z.of_nat (al_room a) < 2 ^ 32 -> size <= 105359939 ->
  hash_alloc a now size (Some cmp) lk = Ok (a', Some (hb, eb, h)) ->
  hash_inv h /\ h_cmp_func h = cmp /\
  exists n, hash_choose_size size = Ok n /\ contents h = replicate (Z.to_nat n) [].
Proof.
  intros Ha Hr Hs E. destruct (choose_size_index size Hs) as (k & Ek & Hk & _ & _).
  unfold hash_alloc in E. destruct (_ <? _); [done|].
  destruct (malloc a) as [[b|] a1] eqn:E1; [|done].
  pose proof (malloc_wf _ _ _ Ha E1) as Ha1. apply malloc_Some in E1 as (_ & _ & Hr1 & _).
  destruct (ObjPoolProofs.objpool_alloc_spec a1 now sizeof_hash_item_t 500 false) as (a2 & p & E2 & Hp);
    [done|done|done|change (u16 _) with 500; lia|].
  rewrite E2 in E. simpl in E. destruct p as [p|]; [|by inv_ok]. destruct Hp as (Hok & Hl & _).
  rewrite Ek in E. simpl in E. destruct (malloc (ObjPool.st_al p)) as [[e|] a3] eqn:E3; [|by inv_ok].
  injection E as <- <- <- <-. split_and!; [|done|].
  - split; [|done]. assert (Hc : concat (replicate (Z.to_nat (ht k)) []) = @nil (positive * Z))
      by (induction (Z.to_nat (ht k)); done).
    assert (0 < ht k) by (pose proof (ht_mono 0 k); destruct (decide (k = 0)) as [->|]; [done|];
      change (ht 0) with 7 in *; lia).
    constructor; simpl; rewrite ?Hc; try done; [| |by apply NoDup_nil_2|].
    + destruct Hok as [Hw Hlk]. split; [|done]. 
      apply ObjPoolProofs.pool_wf_al; [done|by eapply malloc_wf, E3; apply Hw| |];
        apply malloc_Some in E3 as (_ & _ & Hr3 & Hl3); [set_solver|lia].
    + rewrite length_replicate. lia.
    + intros it ?%elem_of_nil. done.
  - exists (ht k). split; [done|]. unfold contents, view. simpl. by rewrite fmap_replicate.
Qed.

(** C14: from a freshly allocated table, every sequence of [hash_insert],
    [hash_insert_nodup], [hash_search] and [hash_delete] runs without a fault,
    and the results and the contents are those of the abstract table: a
    sequence of data per entry, where insertion appends to the entry
    [key mod nentry], search returns the first element that compares equal,
    deletion removes exactly that element.  An insertion returns [-1], with
    the contents unchanged, exactly when the item pool is dry (no free item
    and the allocation of more fails, [objpool_dry]) or, for
    [hash_insert_nodup], when an equal element is in the entry; otherwise it
    returns 0, duplicates of [hash_insert] included.  [hash_size] is the
    number of elements stored; the find statistics are not part of the
    statement.  The bound on memory keeps the pool's counters from wrapping. *)
Theorem hash_refines_sequences {D} (a : allocator) (now size : Z) (cmp : D -> D -> Z) (lk : bool)
    (a' : allocator) (hb eb : positive) (h : hash_t ObjPool.pool_st (positive * Z) D) (os : list hop) :
  al_wf a -> 500 * Z.of_nat (al_room a) < 2 ^ 32 -> size <= 105359939 ->
  hash_alloc a now size (Some cmp) lk = Ok (a', Some (hb, eb, h)) ->
  exists n h' rs, hash_choose_size size = Ok n /\ run_hops h os = Ok (Some h', rs) /\
    hsteps cmp (replicate (Z.to_nat n) []) os rs (contents h') /\
    hash_size (Some h') = s32 (u32 (Z.of_nat (length (concat (contents h'))))).
Proof.
  intros Ha Hr Hs E. destruct (hash_alloc_spec _ _ _ _ _ _ _ _ _ Ha Hr Hs E) as (Hi & Hcmp & n & Hn & Hc).
  destruct (run_hops_refines h os Hi) as (h' & rs & Er & [Hi' Hl'] & Hst). exists n, h', rs.
  rewrite Hcmp, Hc in Hst. split_and!; [done..|]. simpl. rewrite hh_lock_unlocked by done. simpl.
  by rewrite length_contents, (hi_size _ Hi').
Qed.

(** [hash_free] calls [free_func] on every stored element exactly once,
    entry by entry in list order, then frees the item pool, the entry array and
    the table without a double free and returns 0. *)
Theorem hash_free_visits_all {D} (hb eb : positive) (h : hash_t ObjPool.pool_st (positive * Z) D) :
  hash_inv h -> hb <> eb ->
  (forall b, b = hb \/ b = eb -> b ∈ al_live (ObjPool.st_al (h_pool h)) /\ b <> ObjPool.st_self (h_pool h) /\
    forall c ca, ObjPool.st_caches (h_pool h) !! c = Some ca -> b <> c /\ b <> ObjPool.c_pool ca) ->
  exists a, hash_free hb eb h true = Ok (0, concat (contents h), Some a) /\
    hb ∉ al_live a /\ eb ∉ al_live a.
Proof.
  intros [Hc Hl] Hne Hb. unfold hash_free. rewrite hh_lock_unlocked by done. cbn [h_set_locked h_nentry].
  pose proof Hc as [Hp Hlen Hpos _ Hd _ _].
  pose proof (free_entries_spec (h_set_locked h (h_need_lock h)) 0 (Z.to_nat (h_nentry h)) Hd) as Hf.
  rewrite Hf by (simpl; lia). rewrite drop_0. cbn [bind].
  destruct (objpool_free_spec (h_pool h) Hp) as (a & Ea & Hal). simpl. rewrite Ea. cbn [bind].
  destruct (mfree_Ok a eb) as (a1 & -> & _ & _ & Hv1); [apply Hal, Hb; by right|]. cbn [bind].
  destruct (mfree_Ok a1 hb) as (a2 & -> & _ & _ & Hv2).
  { rewrite Hv1. apply elem_of_difference. split; [apply Hal, Hb; by left|set_solver]. }
  exists a2. split; [done|]. rewrite Hv2, Hv1. set_solver.
Qed.

Definition zcmp (x y : Z) : Z := x - y.

Definition demo_ops : list hop :=
  [HInsert 3 30; HInsert 10 30; HInsertNodup 10 30; HInsertNodup 10 40; HSearch 17 40; HDelete 3 30; HDelete 3 30; HSearch 3 30].

(** Equal data are inserted twice, the checked insertion is refused. *)
Definition demo_results : list (bool * hres) :=
  (false,.) <$> [RC 0; RC 0; RC (-1); RC 0; RV (Some 40); RV (Some 30); RV (Some 30); RV None].

Lemma demo_al_wf : al_wf demo_al.
Proof. intros b Hb. by apply not_elem_of_empty in Hb. Qed.

(** What the demonstration run produces. *)
Definition demo_result
    (r : res (allocator * option (positive * positive * hash_t ObjPool.pool_st (positive * Z) Z)))
    : option (list (bool * hres) * list Z) :=
  match r with
  | Ok (_, Some (_, _, h)) =>
      match run_hops h demo_ops with
      | Ok (Some h', rs) => Some (rs, concat (contents h'))
      | _ => None
      end
  | _ => None
  end.

Lemma demo_result_eq :
  demo_result (hash_alloc demo_al 7 5 (Some zcmp) true) = Some (demo_results, [40]).
Proof. vm_compute. reflexivity. Qed.

Lemma demo_table : exists a' hb eb h h',
  hash_alloc demo_al 7 5 (Some zcmp) true = Ok (a', Some (hb, eb, h)) /\
  run_hops h demo_ops = Ok (Some h', demo_results).
Proof.
  pose proof demo_result_eq as Hd.
  destruct (hash_alloc demo_al 7 5 (Some zcmp) true) as [[a' [[[hb eb] h]|]]|]; try discriminate Hd.
  unfold demo_result in Hd. destruct (run_hops h demo_ops) as [[[h'|] rs]|] eqn:Er; try discriminate Hd. injection Hd as -> _.
  by exists a', hb, eb, h, h'.
Qed.

Lemma hash_refines_sequences_witness :
  exists h h' rs n, run_hops h demo_ops = Ok (Some h', rs) /\ hash_choose_size 5 = Ok n /\
    hsteps zcmp (replicate (Z.to_nat n) []) demo_ops rs (contents h') /\
    rs = demo_results.
Proof.
  destruct demo_table as (a' & hb & eb & h & h1 & E & Er). exists h.
  destruct (hash_refines_sequences demo_al 7 5 zcmp true a' hb eb h demo_ops) as (n & h' & rs & En & Er' & Hst & _);
    [exact demo_al_wf|reflexivity|discriminate|exact E|].
  exists h', rs, n. split; [exact Er'|]. split; [exact En|]. split; [exact Hst|]. congruence.
Defined.

(** The blocks of the fresh table and of its pool. *)
Definition demo_blocks
    (r : res (allocator * option (positive * positive * hash_t ObjPool.pool_st (positive * Z) Z)))
    : option (list (positive * positive) * list positive * bool) :=
  match r with
  | Ok (_, Some (hb, eb, h)) =>
      Some (prod_map id ObjPool.c_pool <$> map_to_list (ObjPool.st_caches (h_pool h)),
            [hb; eb; ObjPool.st_self (h_pool h)],
            bool_decide (hb ∈ al_live (ObjPool.st_al (h_pool h))) &&
            bool_decide (eb ∈ al_live (ObjPool.st_al (h_pool h))))
  | _ => None
  end.

Lemma demo_blocks_eq :
  demo_blocks (hash_alloc demo_al 7 5 (Some zcmp) true) = Some ([(3, 4)], [1; 5; 2], true)%positive.
Proof. vm_compute. reflexivity. Qed.

Lemma demo_fresh : exists a' h,
  hash_alloc demo_al 7 5 (Some zcmp) true = Ok (a', Some (1%positive, 5%positive, h)) /\
  forall b, b = 1%positive \/ b = 5%positive ->
    b ∈ al_live (ObjPool.st_al (h_pool h)) /\ b <> ObjPool.st_self (h_pool h) /\
    forall c ca, ObjPool.st_caches (h_pool h) !! c = Some ca -> b <> c /\ b <> ObjPool.c_pool ca.
Proof.
  pose proof demo_blocks_eq as Hd.
  destruct (hash_alloc demo_al 7 5 (Some zcmp) true) as [[a' [[[hb eb] h]|]]|]; try discriminate Hd.
  unfold demo_blocks in Hd. injection Hd as Hcs -> -> Hself [H1%bool_decide_eq_true H2%bool_decide_eq_true]%andb_true_iff.
  exists a', h. split; [done|]. intros b Hb. split; [by destruct Hb as [->| ->]|].
  split; [destruct Hb as [->| ->]; congruence|].
  intros c ca Hca%elem_of_map_to_list%(list_elem_of_fmap_2 (prod_map id ObjPool.c_pool)).
  rewrite Hcs in Hca. apply list_elem_of_singleton in Hca. injection Hca as Hc1 Hc2. simpl in *.
  destruct Hb as [->| ->]; split; congruence.
Qed.

Lemma hash_free_visits_all_witness :
  exists (h : hash_t ObjPool.pool_st (positive * Z) Z) a,
    hash_free 1 5 h true = Ok (0, concat (contents h), Some a) /\ 1%positive ∉ al_live a.
Proof.
  destruct demo_fresh as (a' & h & E & Hb).
  destruct (hash_alloc_spec demo_al 7 5 zcmp true a' 1 5 h) as (Hi & _ & n & En & Hc);
    [exact demo_al_wf|reflexivity|discriminate|exact E|].
  exists h. destruct (hash_free_visits_all 1 5 h Hi ltac:(discriminate) Hb) as (a & Ef & Ha & _).
  exists a. split; [exact Ef|exact Ha].
Defined.
End HashProofs.
