(* ===== verification/SHashProofs.v ===== *)
(** * The simple hash table: refinement and the element counter

    Theorems about the shash.h part of HashTable.v; the representation
    invariant is that of the chained table. *)
From S2P Require Import Prelude ObjPool ObjPoolProofs HashTable HashProofs.

Module SHashProofs.
Import HashTable HashProofs.
#[local] Arguments datas : simpl never.

Section SHash.
Context {P obj : Type} `{Countable obj} `{!ObjPoolSpec P obj} {D : Type} `{EqDecision D}.
Implicit Types (h : shash_t P obj D).

Definition lists h : list (list obj) := sb_list <$> sh_buckets h.

(** The part of the table that both implementations share. *)
Definition as_hash h : hash_t P obj D :=
  {| h_pool := sh_itempool h; h_entries := lists h; h_data := sh_data h; h_nentry := sh_nbucket h;
     h_cmp_func := sh_cmp_func h; h_size := u32 (Z.of_nat (length (concat (lists h))));
     h_stat := {| nconflict := 0; nfind_failed := 0; nfind_success := 0 |};
     h_need_lock := false; h_locked := false |}.

Definition shash_inv h : Prop := hash_core (as_hash h).
Definition scontents h : list (list D) := contents (as_hash h).

(** Equal for the duplicate check: the same pointer, or [cmp_func] says so. *)
Definition scmp h (x d : D) : Z := if decide (x = d) then 0 else sh_cmp_func h x d.

Lemma shash_loop_spec h d items k :
  (forall it, it ∈ items -> is_Some (sh_data h !! it)) ->
  exists r, shash_loop h d items k = Ok r /\
    match hit (sh_cmp_func h) d (datas (sh_data h) items) with
    | None => r = None
    | Some i => exists it x, r = Some ((k + i)%nat, it, x) /\ items !! i = Some it /\
        datas (sh_data h) items !! i = Some x
    end.
Proof.
  unfold hit. revert k. induction items as [|it items IH]; intros k Hd; simpl; [by eexists|].
  destruct (Hd it ltac:(left)) as [x Hit]. rewrite datas_cons, Hit. simpl.
  destruct (_ =? 0); [eexists; split; [done|]; exists it, x; by rewrite Nat.add_0_r|].
  destruct (IH (S k)) as (r & -> & Hr); [intros; apply Hd; by right|]. eexists. split; [done|].
  destruct (find_first _ _) as [i|]; simpl in *; [|done].
  destruct Hr as (it' & x' & -> & ? & ?). exists it', x'. by rewrite Nat.add_succ_r.
Qed.

Lemma shash_dup_spec h d items :
  (forall it, it ∈ items -> is_Some (sh_data h !! it)) ->
  shash_dup h d items = Ok (bool_decide (is_Some (hit (scmp h) d (datas (sh_data h) items)))).
Proof.
  unfold hit. induction items as [|it items IH]; intros Hd; simpl; [done|].
  destruct (Hd it ltac:(left)) as [x Hit]. rewrite datas_cons, Hit. simpl.
  assert (Hs : bool_decide (x = d) || (sh_cmp_func h x d =? 0) = (scmp h x d =? 0)).
  { unfold scmp. destruct (decide (x = d)); [by rewrite bool_decide_eq_true_2|by rewrite bool_decide_eq_false_2]. }
  rewrite Hs. destruct (scmp h x d =? 0); [done|].
  rewrite IH by (intros; apply Hd; by right). f_equal. apply bool_decide_ext. by rewrite fmap_is_Some.
Qed.

Lemma shash_bucket h hval :
  shash_inv h ->
  let i := idx (scontents h) hval in
  exists b, shash_index h hval = Ok (Z.of_nat i) /\ arr_get (sh_buckets h) (Z.of_nat i) = Ok b /\
    sh_buckets h !! i = Some b /\ scontents h !! i = Some (datas (sh_data h) (sb_list b)) /\
    (forall it, it ∈ sb_list b -> is_Some (sh_data h !! it)).
Proof.
  intros Hc i. destruct (hash_entry (as_hash h) hval Hc) as (e & Ei & _ & He & Hb & Hin).
  simpl in He. unfold lists in He. apply list_lookup_fmap_Some in He as (b & -> & Hbk).
  exists b. split_and!; [exact Ei|by apply arr_get_nat|done|exact Hb|]. intros it Hit.
  apply (hi_data _ Hc). by apply Hin.
Qed.

(** Changing the item list of one bucket. *)
Lemma as_hash_set h bs p m sz i b b' :
  sh_buckets h !! i = Some b -> bs = <[i := b']> (sh_buckets h) ->
  as_hash (sh_set h bs p m sz) =
  h_set_items (as_hash h) p (<[i := sb_list b']> (lists h)) m
    (u32 (Z.of_nat (length (concat (<[i := sb_list b']> (lists h)))))).
Proof. intros Hb ->. unfold as_hash, h_set_items, lists. simpl. by rewrite list_fmap_insert. Qed.

(** ** Operations *)
Inductive sop : Type :=
  | SAdd (d : D) (hval : Z) (check : bool)
  | SDel (d : D) (hval : Z)
  | SFind (d : D) (hval : Z).

Definition run_sop h (o : sop) : res (option (shash_t P obj D) * hres) :=
  match o with
  | SAdd d hval check => do (h, rc) <- shash_add (Some h) (Some d) hval check; Ok (h, RC rc)
  | SDel d hval => do (h, r) <- shash_del (Some h) (Some d) hval; Ok (h, RV r)
  | SFind d hval => do r <- shash_find (Some h) (Some d) hval; Ok (Some h, RV r)
  end.

(** [dry]: the item pool has no free item and gets no memory for more. *)
Inductive sstep (cmp cmp' : D -> D -> Z) (dry : bool) (c : list (list D)) : sop -> hres -> list (list D) -> Prop :=
  | ss_add d hval check b : dry = false -> c !! idx c hval = Some b -> (check = true -> hit cmp' d b = None) ->
      sstep cmp cmp' dry c (SAdd d hval check) (RC 0) (<[idx c hval := b ++ [d]]> c)
  | ss_add_dup d hval b : c !! idx c hval = Some b -> is_Some (hit cmp' d b) ->
      sstep cmp cmp' dry c (SAdd d hval true) (RC (-1)) c
  | ss_add_oom d hval check b : dry = true -> c !! idx c hval = Some b -> (check = true -> hit cmp' d b = None) ->
      sstep cmp cmp' dry c (SAdd d hval check) (RC (-1)) c
  | ss_del_miss d hval b : c !! idx c hval = Some b -> hit cmp d b = None ->
      sstep cmp cmp' dry c (SDel d hval) (RV None) c
  | ss_del_hit d hval b i x : c !! idx c hval = Some b -> hit cmp d b = Some i -> b !! i = Some x ->
      sstep cmp cmp' dry c (SDel d hval) (RV (Some x)) (<[idx c hval := delete i b]> c)
  | ss_find_miss d hval b : c !! idx c hval = Some b -> hit cmp d b = None ->
      sstep cmp cmp' dry c (SFind d hval) (RV None) c
  | ss_find_hit d hval b i x : c !! idx c hval = Some b -> hit cmp d b = Some i -> b !! i = Some x ->
      sstep cmp cmp' dry c (SFind d hval) (RV (Some x)) c.

(** What one successful addition counts. *)
Definition added (r : hres (D := D)) : Z := match r with RC rc => if rc =? 0 then 1 else 0 | RV _ => 0 end.

Definition sop_ok h (o : sop) : Prop :=
  exists h' r, run_sop h o = Ok (Some h', r) /\ shash_inv h' /\
    sstep (sh_cmp_func h) (scmp h) (pool_dry (sh_itempool h)) (scontents h) o r (scontents h') /\
    sh_cmp_func h' = sh_cmp_func h /\ sh_size h' = u32 (sh_size h + added r).

Lemma shash_add_ok h d hval check :
  shash_inv h -> u32 (sh_size h) = sh_size h -> sop_ok h (SAdd d hval check).
Proof.
  intros Hc Hsz. destruct (shash_bucket h hval Hc) as (b & Ei & Eg & Hb & Hcb & Hd).
  set (i := idx (scontents h) hval) in *. unfold sop_ok. simpl. rewrite Ei. simpl. rewrite Eg. simpl.
  assert (exists dup, (if check then shash_dup h d (sb_list b) else Ok false) = Ok dup /\
    (dup = true -> check = true /\ is_Some (hit (scmp h) d (datas (sh_data h) (sb_list b)))) /\
    (dup = false -> check = true -> hit (scmp h) d (datas (sh_data h) (sb_list b)) = None))
    as (dup & -> & Hyes & Hdup).
  { destruct check; [|by exists false]. rewrite shash_dup_spec by done. eexists. split; [done|]. split.
    - intros Hy. apply bool_decide_eq_true in Hy. done.
    - intros Hn _. apply bool_decide_eq_false in Hn. destruct (hit _ _ _); [|done]. destruct Hn. by eexists. }
  simpl. destruct dup.
  { destruct (Hyes eq_refl) as [-> Hy]. eexists _, _. split; [done|]. simpl. rewrite Z.add_0_r.
    split_and!; [done|by eapply ss_add_dup|done|done]. }
  destruct (hash_add_item_spec (as_hash h) i (sb_list b) d Hc) as (h' & rc & Ea & Hc' & _ & Hr).
  { simpl. unfold lists. by rewrite list_lookup_fmap, Hb. }
  unfold hash_add_item in Ea. simpl in Ea.
  destruct (pool_get (sh_itempool h)) as [[p [it|]]|]; simpl in *; [| |done].
  - unfold lists in Ea. rewrite (arr_get_nat _ i (sb_list b)) in Ea by (by rewrite list_lookup_fmap, Hb).
    simpl in Ea. rewrite (arr_set_entry _ i (sb_list b)) in Ea by (by rewrite list_lookup_fmap, Hb).
    rewrite (arr_set_entry _ i b) by done. simpl in *. injection Ea as <- <-.
    destruct Hr as [(_ & Hdry & Hr)|[? _]]; [|done]. eexists _, _. split; [done|]. unfold shash_inv, scontents.
    rewrite (as_hash_set h _ p _ _ i b _ Hb eq_refl). split_and!; [| |done|done].
    + pose proof (hi_size _ Hc') as Hs. simpl in Hs. unfold lists. cbn [sb_list]. rewrite <- Hs. exact Hc'.
    + change (contents (h_set_items ?a ?b ?c ?d ?e)) with (view d c). unfold contents in Hr. simpl in Hr.
      unfold lists. cbn [sb_list]. rewrite Hr. apply ss_add; [exact Hdry|exact Hcb|by apply Hdup].
  - injection Ea as <- <-. eexists _, _. split; [done|]. simpl. rewrite Z.add_0_r.
    split_and!; [exact Hc'| |done|done].
    destruct Hr as [[? _]|(_ & Hdry & Hr)]; [done|].
    exact (eq_ind_r (sstep _ _ _ _ _ _) (ss_add_oom _ _ _ _ d hval check _ Hdry Hcb (Hdup eq_refl)) Hr).
Qed.

Lemma shash_del_ok h d hval :
  shash_inv h -> u32 (sh_size h) = sh_size h -> sop_ok h (SDel d hval).
Proof.
  intros Hc Hsz. destruct (shash_bucket h hval Hc) as (b & Ei & Eg & Hb & Hcb & Hd).
  set (i := idx (scontents h) hval) in *. unfold sop_ok. simpl. rewrite Ei. simpl. rewrite Eg. simpl.
  destruct (shash_loop_spec h d (sb_list b) 0 Hd) as (r & -> & Hr). simpl.
  destruct (hit _ _ _) as [k|] eqn:Eh.
  - destruct Hr as (it & x & -> & Hk & Hx). simpl. rewrite (arr_set_entry _ i b) by done. simpl.
    destruct (hash_del_item_spec (as_hash h) i (sb_list b) k it Hc) as (p & Ep & Hc' & Hcont); [|done|].
    { simpl. unfold lists. by rewrite list_lookup_fmap, Hb. }
    simpl in Ep. rewrite Ep. simpl. eexists _, _. split; [done|]. unfold shash_inv, scontents.
    rewrite (as_hash_set h _ p _ _ i b _ Hb eq_refl). cbn [sb_list]. split_and!; [| |done|].
    + pose proof (hi_size _ Hc') as Hs. simpl in Hs. rewrite <- Hs. exact Hc'.
    + change (contents (h_set_items ?a ?b ?c ?d ?e)) with (view d c). unfold contents in Hcont.
      simpl in Hcont. rewrite Hcont. by eapply ss_del_hit.
    + simpl. by rewrite Z.add_0_r.
  - rewrite Hr. eexists _, _. split; [done|]. simpl. rewrite Z.add_0_r.
    split_and!; [done|by eapply ss_del_miss|done|done].
Qed.

Lemma shash_find_ok h d hval :
  shash_inv h -> u32 (sh_size h) = sh_size h -> sop_ok h (SFind d hval).
Proof.
  intros Hc Hsz. destruct (shash_bucket h hval Hc) as (b & Ei & Eg & Hb & Hcb & Hd).
  unfold sop_ok. simpl. rewrite Ei. simpl. rewrite Eg. simpl.
  destruct (shash_loop_spec h d (sb_list b) 0 Hd) as (r & -> & Hr). simpl.
  destruct (hit _ _ _) as [k|] eqn:Eh.
  - destruct Hr as (it & x & -> & _ & Hx). eexists _, _. split; [done|]. simpl. rewrite Z.add_0_r.
    split_and!; [done|by eapply ss_find_hit|done|done].
  - rewrite Hr. eexists _, _. split; [done|]. simpl. rewrite Z.add_0_r.
    split_and!; [done|by eapply ss_find_miss|done|done].
Qed.

Fixpoint run_sops h (os : list sop) : res (option (shash_t P obj D) * list (bool * hres)) :=
  match os with
  | [] => Ok (Some h, [])
  | o :: os =>
      let dry := pool_dry (sh_itempool h) in
      do (h, r) <- run_sop h o;
      match h with
      | None => Ok (None, [(dry, r)])
      | Some h => do (h, rs) <- run_sops h os; Ok (h, (dry, r) :: rs)
      end
  end.

Inductive ssteps (cmp cmp' : D -> D -> Z) : list (list D) -> list sop -> list (bool * hres) -> list (list D) -> Prop :=
  | ssteps_nil c : ssteps cmp cmp' c [] [] c
  | ssteps_cons c c1 c2 o os dry r rs :
      sstep cmp cmp' dry c o r c1 -> ssteps cmp cmp' c1 os rs c2 -> ssteps cmp cmp' c (o :: os) ((dry, r) :: rs) c2.

Definition total_added (rs : list (bool * hres (D := D))) : Z := foldr (fun r n => added r.2 + n) 0 rs.

Lemma run_sops_refines h os :
  shash_inv h -> u32 (sh_size h) = sh_size h ->
  exists h' rs, run_sops h os = Ok (Some h', rs) /\ shash_inv h' /\
    ssteps (sh_cmp_func h) (scmp h) (scontents h) os rs (scontents h') /\
    sh_size h' = u32 (sh_size h + total_added rs).
Proof.
  revert h. induction os as [|o os IH]; intros h Hi Hsz; simpl.
  { eexists _, _. split; [done|]. split_and!; [done|constructor|]. simpl. by rewrite Z.add_0_r. }
  assert (sop_ok h o) as (h1 & r & -> & Hi1 & Hs & Hcmp & Hsz1).
  { destruct o; [by apply shash_add_ok|by apply shash_del_ok|by apply shash_find_ok]. }
  simpl. destruct (IH h1 Hi1) as (h2 & rs & -> & Hi2 & Hss & Hsz2).
  { rewrite Hsz1. unfold u32. by rewrite Zmod_mod. }
  simpl. eexists _, _. split; [done|]. split_and!; [done| |].
  - econstructor; [done|]. unfold scmp in *. by rewrite Hcmp in Hss.
  - rewrite Hsz2, Hsz1, u32_add_l. f_equal. simpl. lia.
Qed.
End SHash.

Import ObjPoolProofs.

(** A fresh table satisfies the invariant. *)
Lemma shash_alloc_spec {D} `{EqDecision D} (a : allocator) (now bucket : Z) (cmp : D -> D -> Z) (ff : bool)
    (a' : allocator) (hb bb : positive) (h : shash_t ObjPool.pool_st (positive * Z) D) :
  al_wf a -> 1024 * Z.of_nat (al_room a) < 2 ^ 32 ->
  shash_alloc a now bucket cmp ff = Ok (a', Some (hb, bb, h)) ->
  hash_core (as_hash h) /\ scontents h = replicate (Z.to_nat bucket) [] /\ sh_size h = 0 /\ sh_cmp_func h = cmp.
Proof.
  intros Ha Hr E. unfold shash_alloc in E. destruct (Z.ltb_spec bucket 1) as [|Hb]; [done|].
  destruct (malloc a) as [[b1|] a1] eqn:E1; [|done].
  pose proof (malloc_wf _ _ _ Ha E1) as Ha1. apply malloc_Some in E1 as (_ & _ & Hr1 & _).
  destruct (malloc a1) as [[b2|] a2] eqn:E2; [|by inv_ok].
  pose proof (malloc_wf _ _ _ Ha1 E2) as Ha2. apply malloc_Some in E2 as (_ & _ & Hr2 & _).
  destruct (ObjPoolProofs.objpool_alloc_spec a2 now sizeof_hash_item_t 1024 false) as (a3 & p & E3 & Hp);
    [done|done|done|change (u16 _) with 1024; lia|].
  rewrite E3 in E. simpl in E. destruct p as [p|]; [|by inv_ok]. destruct Hp as (Hok & Hl & _).
  injection E as <- <- <- <-.
  match goal with |- hash_core (as_hash ?t) /\ _ => assert (Hls : lists t = replicate (Z.to_nat bucket) [])
    by (unfold lists; simpl; by rewrite fmap_replicate) end.
  assert (Hc : concat (replicate (Z.to_nat bucket) []) = @nil (positive * Z))
    by (clear; induction (Z.to_nat bucket); done).
  split_and!; [|unfold scontents, contents, view; simpl; rewrite Hls; by rewrite fmap_replicate|done|done].
  constructor; simpl; rewrite ?Hls, ?Hc; try done.
  - rewrite length_replicate. lia.
  - lia.
  - by apply NoDup_nil_2.
  - intros it ?%elem_of_nil. done.
Qed.

(** C15: from a freshly allocated table every sequence of [shash_add],
    [shash_del] and [shash_find] runs without a fault and behaves as on one
    sequence of data per bucket (append, remove the first equal element, return
    the first equal element).  [shash_add] returns -1, with the contents
    unchanged, exactly when [check] is set and the same pointer or an equal
    element is in the bucket, or when the item pool is dry (no free item and
    the allocation of more fails, [objpool_dry]); without [check] duplicates
    are added.  The [size] field, however, is the number of successful
    additions: no deletion ever decrements it. *)
Theorem shash_refines_sequences {D} `{EqDecision D} (a : allocator) (now bucket : Z) (cmp : D -> D -> Z)
    (ff : bool) (a' : allocator) (hb bb : positive) (h : shash_t ObjPool.pool_st (positive * Z) D)
    (os : list sop) :
  al_wf a -> 1024 * Z.of_nat (al_room a) < 2 ^ 32 ->
  shash_alloc a now bucket cmp ff = Ok (a', Some (hb, bb, h)) ->
  exists h' rs, run_sops h os = Ok (Some h', rs) /\
    ssteps cmp (fun x d => if decide (x = d) then 0 else cmp x d) (replicate (Z.to_nat bucket) []) os rs
      (scontents h') /\
    sh_size h' = u32 (total_added rs).
Proof.
  intros Ha Hr E. destruct (shash_alloc_spec _ _ _ _ _ _ _ _ _ Ha Hr E) as (Hi & Hc & Hsz & Hcmp).
  destruct (run_sops_refines h os Hi) as (h' & rs & Er & _ & Hst & Hsz'); [by rewrite Hsz|].
  exists h', rs. unfold scmp in Hst. rewrite Hc, Hcmp in Hst. rewrite Hsz in Hsz'. done.
Qed.

(** 30 is added twice without the check and refused with it. *)
Definition demo_sops : list sop :=
  [SAdd 30 3 true; SAdd 30 3 false; SAdd 30 8 true; SAdd 40 3 false; SDel 30 3; SFind 30 3; SFind 40 3].

Definition demo_sresults : list (bool * hres) :=
  (false,.) <$> [RC 0; RC 0; RC (-1); RC 0; RV (Some 30); RV (Some 30); RV (Some 40)].

(** The results and the final state of the demonstration run. *)
Definition demo_sresult
    (r : res (allocator * option (positive * positive * shash_t ObjPool.pool_st (positive * Z) Z)))
    : option (list (bool * hres) * Z * list (list Z)) :=
  match r with
  | Ok (_, Some (_, _, h)) =>
      match run_sops h demo_sops with
      | Ok (Some h', rs) => Some (rs, sh_size h', scontents h')
      | _ => None
      end
  | _ => None
  end.

(** Two elements are left, the counter says three. *)
Lemma demo_sresult_eq :
  demo_sresult (shash_alloc demo_al 7 5 zcmp false) = Some (demo_sresults, 3, [[]; []; []; [30; 40]; []]).
Proof. vm_compute. reflexivity. Qed.

Lemma demo_stable : exists a' hb bb h h',
  shash_alloc demo_al 7 5 zcmp false = Ok (a', Some (hb, bb, h)) /\
  run_sops h demo_sops = Ok (Some h', demo_sresults) /\ scontents h' = [[]; []; []; [30; 40]; []].
Proof.
  pose proof demo_sresult_eq as Hd.
  destruct (shash_alloc demo_al 7 5 zcmp false) as [[a' [[[hb eb] h]|]]|]; try discriminate Hd.
  unfold demo_sresult in Hd. destruct (run_sops h demo_sops) as [[[h'|] rs]|] eqn:Er; try discriminate Hd.
  injection Hd as -> _ Hc. by exists a', hb, eb, h, h'.
Qed.

Lemma shash_refines_sequences_witness :
  exists h h', run_sops h demo_sops = Ok (Some h', demo_sresults) /\
    ssteps zcmp (fun x d => if decide (x = d) then 0 else zcmp x d) (replicate 5 []) demo_sops demo_sresults
      [[]; []; []; [30; 40]; []] /\ sh_size h' = 3.
Proof.
  destruct demo_stable as (a' & hb & bb & h & h1 & E & Er1 & Hc).
  destruct (shash_refines_sequences demo_al 7 5 zcmp false a' hb bb h demo_sops) as (h' & rs & Er & Hst & Hs);
    [exact demo_al_wf|reflexivity|exact E|].
  rewrite Er1 in Er. injection Er as <- <-. rewrite Hc in Hst.
  exists h, h1. split; [exact Er1|]. split; [exact Hst|]. rewrite Hs. reflexivity.
Defined.
End SHashProofs.
