(* ===== verification/FdEpoll.v ===== *)
(** * fd_epoll: the event registration layer of the proxy

    Model of src/code/network/proxy/utils/fd_epoll.c and fd_epoll.h: the map
    of file descriptors, the pending-update array that is flushed into epoll,
    and the dispatch of the events epoll reports.  epoll itself is a
    parameter: its state [K], the interest mask it holds for a descriptor and
    [epoll_ctl], with what the manual page promises as hypotheses. *)
From S2P Require Import Prelude.

Module FdEpoll.

Inductive fd_state_e : Type := FD_CLOSED | FD_READY.
#[global] Instance fd_state_eq_dec : EqDecision fd_state_e.
Proof. solve_decision. Defined.

Definition EPOLLIN : Z := 1.
Definition EPOLLOUT : Z := 4.
Definition EPOLLERR : Z := 8.
Definition EPOLLRDHUP : Z := 8192.
Definition FD_IN : Z := Z.lor EPOLLIN EPOLLRDHUP.
Definition FD_OUT : Z := EPOLLOUT.

Inductive epoll_op : Type := EPOLL_CTL_ADD | EPOLL_CTL_DEL | EPOLL_CTL_MOD.

Section Epoll.
(** [A]: the callback argument; [C]: the callback functions; [K]: the state of
    the epoll descriptor, with the mask registered for a descriptor (0: none)
    and the system call. *)
Context {A C K : Type}.
Context (epoll_ctl : K -> epoll_op -> Z -> Z -> K * Z).

Record fd_item_t : Type := {
  fi_events : Z; fi_pevents : Z; fi_revents : Z; fi_state : fd_state_e;
  fi_arg : option A; fi_is_updated : bool; fi_iocb : option C }.

Definition zero_item : fd_item_t :=
  {| fi_events := 0; fi_pevents := 0; fi_revents := 0; fi_state := FD_CLOSED;
     fi_arg := None; fi_is_updated := false; fi_iocb := None |}.

Record fd_epoll_t : Type := {
  fe_kernel : K; fe_maxfd : Z; fe_maxwait : Z; fe_waittime : Z;
  fe_maps : list fd_item_t; fe_updates : list Z; fe_nupdate : Z }.

Definition fe_set_maps (fe : fd_epoll_t) (m : list fd_item_t) : fd_epoll_t :=
  {| fe_kernel := fe_kernel fe; fe_maxfd := fe_maxfd fe; fe_maxwait := fe_maxwait fe;
     fe_waittime := fe_waittime fe; fe_maps := m; fe_updates := fe_updates fe;
     fe_nupdate := fe_nupdate fe |}.
Definition fe_set_updates (fe : fd_epoll_t) (u : list Z) (n : Z) : fd_epoll_t :=
  {| fe_kernel := fe_kernel fe; fe_maxfd := fe_maxfd fe; fe_maxwait := fe_maxwait fe;
     fe_waittime := fe_waittime fe; fe_maps := fe_maps fe; fe_updates := u; fe_nupdate := n |}.
Definition fe_set_kernel (fe : fd_epoll_t) (k : K) : fd_epoll_t :=
  {| fe_kernel := k; fe_maxfd := fe_maxfd fe; fe_maxwait := fe_maxwait fe;
     fe_waittime := fe_waittime fe; fe_maps := fe_maps fe; fe_updates := fe_updates fe;
     fe_nupdate := fe_nupdate fe |}.

Definition fi_set_updated (fi : fd_item_t) (b : bool) : fd_item_t :=
  {| fi_events := fi_events fi; fi_pevents := fi_pevents fi; fi_revents := fi_revents fi;
     fi_state := fi_state fi; fi_arg := fi_arg fi; fi_is_updated := b; fi_iocb := fi_iocb fi |}.
Definition fi_set_pevents (fi : fd_item_t) (e : Z) : fd_item_t :=
  {| fi_events := fi_events fi; fi_pevents := e; fi_revents := fi_revents fi;
     fi_state := fi_state fi; fi_arg := fi_arg fi; fi_is_updated := false; fi_iocb := fi_iocb fi |}.
Definition fi_set_events (fi : fd_item_t) (e : Z) (cb : option C) : fd_item_t :=
  {| fi_events := e; fi_pevents := fi_pevents fi; fi_revents := fi_revents fi;
     fi_state := fi_state fi; fi_arg := fi_arg fi; fi_is_updated := fi_is_updated fi; fi_iocb := cb |}.
Definition fi_set_arg (fi : fd_item_t) (s : fd_state_e) (a : option A) : fd_item_t :=
  {| fi_events := fi_events fi; fi_pevents := fi_pevents fi; fi_revents := fi_revents fi;
     fi_state := s; fi_arg := a; fi_is_updated := fi_is_updated fi; fi_iocb := fi_iocb fi |}.

(** [fd_epoll_alloc]; [mem k] says whether the [k]-th allocation succeeds and
    [epfd] is what [epoll_create] returns. *)
Definition fd_epoll_alloc (mem : nat -> bool) (epfd : Z) (k : K) (maxfd waittime : Z) : option fd_epoll_t :=
  if (maxfd <? 1) || (waittime <? 0) then None
  else if negb (mem 0%nat) then None
  else if epfd <? 0 then None
  else if negb (mem 1%nat) then None
  else if negb (mem 2%nat) then None
  else if negb (mem 3%nat) then None
  else Some {| fe_kernel := k; fe_maxfd := maxfd; fe_maxwait := 200; fe_waittime := waittime;
               fe_maps := replicate (Z.to_nat maxfd) zero_item;
               fe_updates := replicate (Z.to_nat maxfd) 0; fe_nupdate := 0 |}.

(** [fd_epoll_map]: the index of the item, [None] for NULL; the item itself is
    read by the caller. *)
Definition fd_epoll_map (fe : fd_epoll_t) (fd : Z) : option Z :=
  if (fd <? 0) || (fe_maxfd fe <? fd) then None else Some fd.

(** Reading and writing through the pointer [fd_epoll_map] returns, after
    [assert(fi)]. *)
Definition map_item (fe : fd_epoll_t) (fd : Z) : res fd_item_t :=
  match fd_epoll_map fe fd with
  | None => Fault AssertFailed
  | Some i => arr_get (fe_maps fe) i
  end.
Definition set_item (fe : fd_epoll_t) (fd : Z) (fi : fd_item_t) : res fd_epoll_t :=
  match fd_epoll_map fe fd with
  | None => Fault AssertFailed
  | Some i => do m <- arr_set (fe_maps fe) i fi; Ok (fe_set_maps fe m)
  end.

Definition fd_epoll_add_event (fe : fd_epoll_t) (fd events : Z) (iocb : option C)
    : res (fd_epoll_t * Z) :=
  if fd <? 0 then Ok (fe, -1)
  else if fe_maxfd fe <=? fd then Ok (fe, -1)
  else
    do fi <- arr_get (fe_maps fe) fd;
    let fi := fi_set_events fi events iocb in
    if fi_is_updated fi then
      do m <- arr_set (fe_maps fe) fd fi; Ok (fe_set_maps fe m, 0)
    else
      let n := fe_nupdate fe + 1 in
      do u <- arr_set (fe_updates fe) (n - 1) fd;
      do m <- arr_set (fe_maps fe) fd (fi_set_updated fi true);
      Ok (fe_set_updates (fe_set_maps fe m) u n, 0).

(** One iteration of the loop of [fd_epoll_flush_events]. *)
Definition flush_one (fe : fd_epoll_t) (i : Z) : res fd_epoll_t :=
  do fd <- arr_get (fe_updates fe) i;
  if fd <=? 0 then Ok fe else
  do fi <- arr_get (fe_maps fe) fd;
  match fi_arg fi with
  | None => Ok fe
  | Some _ =>
      if negb (fi_is_updated fi) then Ok fe
      else if negb (bool_decide (fi_state fi = FD_READY)) || (fi_events fi =? fi_pevents fi) then
        do m <- arr_set (fe_maps fe) fd (fi_set_updated fi false); Ok (fe_set_maps fe m)
      else
        let op := if fi_pevents fi =? 0 then EPOLL_CTL_ADD
                  else if fi_events fi =? 0 then EPOLL_CTL_DEL else EPOLL_CTL_MOD in
        let (k, rc) := epoll_ctl (fe_kernel fe) op fd (fi_events fi) in
        let fe := fe_set_kernel fe k in
        if negb (rc =? 0) then Ok fe else
        do m <- arr_set (fe_maps fe) fd (fi_set_pevents fi (fi_events fi));
        Ok (fe_set_maps fe m)
  end.

Fixpoint flush_loop (fe : fd_epoll_t) (i : Z) (n : nat) : res fd_epoll_t :=
  match n with
  | O => Ok fe
  | S n => do fe <- flush_one fe i; flush_loop fe (i + 1) n
  end.

Definition fd_epoll_flush_events (fe : fd_epoll_t) : res (fd_epoll_t * Z) :=
  if fe_nupdate fe <? 1 then Ok (fe, 0) else
  do fe <- flush_loop fe 0 (Z.to_nat (fe_nupdate fe));
  Ok (fe_set_updates fe (fe_updates fe) 0, 0).

(** [fd_epoll_poll] over the whole program state [S]: [evs] are the events
    [epoll_wait] returned ([None]: it failed), [call] runs a callback.  The
    boolean says whether the process exited (a ready item has no callback). *)
Section Poll.
Context {S : Type} (fe_of : S -> fd_epoll_t) (call : C -> Z -> Z -> A -> S -> res S).

Fixpoint poll_loop (s : S) (evs : list (Z * Z)) : res (S * bool) :=
  match evs with
  | [] => Ok (s, false)
  | (fd, events) :: evs =>
      if events =? 0 then poll_loop s evs else
      do fi <- map_item (fe_of s) fd;
      if negb (bool_decide (fi_state fi = FD_READY)) then poll_loop s evs else
      match fi_iocb fi with
      | None => Ok (s, true)
      | Some cb =>
          match fi_arg fi with
          | None => poll_loop s evs
          | Some arg => do s <- call cb fd events arg s; poll_loop s evs
          end
      end
  end.

Definition fd_epoll_poll (s : S) (evs : option (list (Z * Z))) : res (S * bool * Z) :=
  match evs with
  | None => Ok (s, false, -1)
  | Some evs =>
      if (length evs =? 0)%nat then Ok (s, false, 0) else
      do (s, ex) <- poll_loop s evs; Ok (s, ex, 0)
  end.
End Poll.
End Epoll.
Arguments fd_item_t A C : clear implicits.
Arguments fd_epoll_t A C K : clear implicits.
End FdEpoll.
