(* ===== verification/FdEpollProofs.v ===== *)
(** * fd_epoll: bounds of the update array and what a flush commits *)
From S2P Require Import Prelude FdEpoll.

Module FdEpollProofs.
Import FdEpoll.

Section Proofs.
Context {A C K : Type}.
Context (epoll_ctl : K -> epoll_op -> Z -> Z -> K * Z).
Implicit Types (fe : fd_epoll_t A C K) (fi : fd_item_t A C).

(** The pending descriptors, oldest first. *)
Definition pending fe : list Z := take (Z.to_nat (fe_nupdate fe)) (fe_updates fe).

Definition item fe (fd : Z) : option (fd_item_t A C) := fe_maps fe !! Z.to_nat fd.

(** Every pending descriptor is marked, once. *)
Record fe_wf fe : Prop := {
  fw_maps : Z.of_nat (length (fe_maps fe)) = fe_maxfd fe;
  fw_updates : Z.of_nat (length (fe_updates fe)) = fe_maxfd fe;
  fw_nupdate : 0 <= fe_nupdate fe <= fe_maxfd fe;
  fw_nodup : NoDup (pending fe);
  fw_pending fd : fd ∈ pending fe ->
    0 <= fd < fe_maxfd fe /\ exists fi, item fe fd = Some fi /\ fi_is_updated fi = true
}.

Lemma length_pending fe : fe_wf fe -> length (pending fe) = Z.to_nat (fe_nupdate fe).
Proof. intros [? Hu Hn _ _]. unfold pending. rewrite length_take. lia. Qed.

(** A duplicate-free list of descriptors below [n] that misses one of them is
    shorter than [n]. *)
Lemma fds_bound (l : list Z) (n fd : Z) :
  NoDup l -> (forall x, x ∈ l -> 0 <= x < n) -> 0 <= fd < n -> fd ∉ l -> Z.of_nat (length l) < n.
Proof.
  intros Hnd Hl Hfd Hn.
  assert (Hlen : (length (fd :: l) <= length (Z.of_nat <$> seq 0 (Z.to_nat n)))%nat).
  { apply NoDup_incl_length; [by apply NoDup_cons|]. intros x Hx.
    assert (0 <= x < n) by (apply elem_of_cons in Hx as [->|Hx]; [done|by apply Hl]).
    apply list_elem_of_fmap. exists (Z.to_nat x). split; [lia|]. apply elem_of_seq. lia. }
  rewrite length_fmap, length_seq in Hlen. simpl in Hlen. lia.
Qed.

Lemma item_range fe fd fi : fe_wf fe -> 0 <= fd -> item fe fd = Some fi -> fd < fe_maxfd fe.
Proof. intros [Hm _ _ _ _] Hfd Hi. apply lookup_lt_Some in Hi. lia. Qed.

Lemma item_get fe fd : fe_wf fe -> 0 <= fd < fe_maxfd fe ->
  exists fi, item fe fd = Some fi /\ arr_get (fe_maps fe) fd = Ok fi.
Proof.
  intros [Hm _ _ _ _] Hfd. unfold item.
  destruct (lookup_lt_is_Some_2 (fe_maps fe) (Z.to_nat fd)) as [fi Hi]; [lia|].
  exists fi. split; [done|]. apply arr_get_Ok. split; [lia|done].
Qed.

Lemma arr_set_range {B} (l : list B) i x :
  0 <= i < Z.of_nat (length l) -> arr_set l i x = Ok (<[Z.to_nat i := x]> l).
Proof. intros Hi. apply arr_set_Ok. by split. Qed.

(** Adding an event never writes outside the arrays, and it marks the
    descriptor as pending. *)
Lemma add_event_wf fe fd events cb :
  fe_wf fe -> exists fe' rc, fd_epoll_add_event fe fd events cb = Ok (fe', rc) /\ fe_wf fe' /\
    fe_kernel fe' = fe_kernel fe /\ fe_maxfd fe' = fe_maxfd fe /\
    ((rc = -1 /\ fe' = fe /\ ~ (0 <= fd < fe_maxfd fe)) \/
     (rc = 0 /\ 0 <= fd < fe_maxfd fe /\ exists fi', item fe' fd = Some fi' /\
        fi_events fi' = events /\ fi_iocb fi' = cb /\ fi_is_updated fi' = true)).
Proof.
  intros Hw. pose proof Hw as [Hm Hu Hn Hnd Hp]. unfold fd_epoll_add_event.
  destruct (Z.ltb_spec fd 0); [exists fe, (-1); split_and!; [done..|left; split_and!; [done|done|lia]]|].
  destruct (Z.leb_spec (fe_maxfd fe) fd); [exists fe, (-1); split_and!; [done..|left; split_and!; [done|done|lia]]|].
  destruct (item_get fe fd Hw) as (fi & Hi & ->); [lia|]. cbn [bind].
  assert (Hlt : (Z.to_nat fd < length (fe_maps fe))%nat) by lia.
  destruct (fi_is_updated (fi_set_events fi events cb)) eqn:Eu; simpl in Eu.
  - rewrite arr_set_range by lia. cbn [bind]. eexists _, _. split; [done|]. split_and!; [|done|done|right].
    + constructor; simpl; [by rewrite length_insert|done|done|exact Hnd|]. intros x Hx.
      destruct (Hp x Hx) as (Hr & fx & Hfx & Hux). split; [done|]. unfold item. simpl.
      destruct (decide (Z.to_nat fd = Z.to_nat x)) as [->|Hne].
      * eexists. split; [apply list_lookup_insert_eq; lia|done].
      * exists fx. rewrite list_lookup_insert_ne by done. done.
    + split_and!; [done|lia|lia|]. eexists. unfold item. simpl. split; [apply list_lookup_insert_eq; lia|done].
  - assert (Hnot : fd ∉ pending fe).
    { intros Hin. destruct (Hp fd Hin) as (_ & fi' & Hi' & Hu'). rewrite Hi in Hi'. injection Hi' as <-. congruence. }
    pose proof (fds_bound (pending fe) (fe_maxfd fe) fd Hnd (fun x Hx => proj1 (Hp x Hx)) ltac:(lia) Hnot) as Hb.
    rewrite length_pending in Hb by done. rewrite arr_set_range by lia. cbn [bind].
    rewrite arr_set_range by lia. cbn [bind]. eexists _, _. split; [done|].
    assert (Hpend : take (Z.to_nat (fe_nupdate fe + 1)) (<[Z.to_nat (fe_nupdate fe + 1 - 1):=fd]> (fe_updates fe))
      = pending fe ++ [fd]).
    { replace (fe_nupdate fe + 1 - 1) with (fe_nupdate fe) by lia.
      replace (Z.to_nat (fe_nupdate fe + 1)) with (S (Z.to_nat (fe_nupdate fe))) by lia.
      rewrite (take_S_r _ _ fd) by (apply list_lookup_insert_eq; lia). f_equal. by apply take_insert_ge. }
    split_and!; [|done|done|right].
    + constructor; simpl; [by rewrite length_insert|by rewrite length_insert|lia| |].
      * unfold pending. simpl. rewrite Hpend. apply NoDup_app. split_and!; [done|set_solver|apply NoDup_singleton].
      * unfold pending. simpl. rewrite Hpend. intros x [Hx|Hx%list_elem_of_singleton]%elem_of_app.
        -- destruct (Hp x Hx) as (Hr & fx & Hfx & Hux). split; [done|]. exists fx.
           unfold item. simpl. rewrite list_lookup_insert_ne; [done|]. intros Heq. apply Hnot.
           assert (fd = x) as -> by lia. done.
        -- subst x. split; [lia|]. eexists. unfold item. simpl. split; [apply list_lookup_insert_eq; lia|done].
    + split_and!; [done|lia|lia|]. eexists. unfold item. simpl. split; [apply list_lookup_insert_eq; lia|done].
Qed.

(** What the manual page says of [epoll_ctl]: success leaves the given mask
    (none after a deletion) registered for the descriptor and nothing else
    changed; failure changes nothing. *)
Context (kmask : K -> Z -> Z).
Hypothesis epoll_ctl_ok : forall k op fd ev k', epoll_ctl k op fd ev = (k', 0) ->
  kmask k' fd = (match op with EPOLL_CTL_DEL => 0 | _ => ev end) /\
  forall x, x <> fd -> kmask k' x = kmask k x.
Hypothesis epoll_ctl_fail : forall k op fd ev k' rc, epoll_ctl k op fd ev = (k', rc) -> rc <> 0 ->
  forall x, kmask k' x = kmask k x.

(** The recorded masks are the registered ones. *)
Definition synced fe : Prop := forall fd fi, 0 <= fd -> item fe fd = Some fi -> fi_pevents fi = kmask (fe_kernel fe) fd.

Definition same_shape fe fe' : Prop :=
  length (fe_maps fe') = length (fe_maps fe) /\ fe_updates fe' = fe_updates fe /\
  fe_nupdate fe' = fe_nupdate fe /\ fe_maxfd fe' = fe_maxfd fe.

(** Everything of an item but its mark and the recorded mask. *)
Definition same_request fi fi' : Prop :=
  fi_events fi' = fi_events fi /\ fi_arg fi' = fi_arg fi /\ fi_state fi' = fi_state fi /\ fi_iocb fi' = fi_iocb fi.

(** The effect of one loop iteration on the descriptor it handles. *)
Definition flush_fi (k : K) (fd : Z) fi : K * fd_item_t A C :=
  match fi_arg fi with
  | None => (k, fi)
  | Some _ =>
      if (fd <=? 0) || negb (fi_is_updated fi) then (k, fi)
      else if negb (bool_decide (fi_state fi = FD_READY)) || (fi_events fi =? fi_pevents fi)
      then (k, fi_set_updated fi false)
      else
        let op := if fi_pevents fi =? 0 then EPOLL_CTL_ADD
                  else if fi_events fi =? 0 then EPOLL_CTL_DEL else EPOLL_CTL_MOD in
        let (k, rc) := epoll_ctl k op fd (fi_events fi) in
        if rc =? 0 then (k, fi_set_pevents fi (fi_events fi)) else (k, fi)
  end.

Lemma fe_set_same fe fd fi :
  item fe fd = Some fi -> fe_set_maps (fe_set_kernel fe (fe_kernel fe)) (<[Z.to_nat fd := fi]> (fe_maps fe)) = fe.
Proof. intros Hi. destruct fe; unfold fe_set_maps, item in *; simpl in *. by rewrite list_insert_id. Qed.

Lemma flush_one_eq fe i fd fi :
  arr_get (fe_updates fe) i = Ok fd -> 0 <= fd -> item fe fd = Some fi ->
  flush_one epoll_ctl fe i =
    let (k, fi') := flush_fi (fe_kernel fe) fd fi in
    Ok (fe_set_maps (fe_set_kernel fe k) (<[Z.to_nat fd := fi']> (fe_maps fe))).
Proof.
  intros Hu Hfd Hi. unfold flush_one, flush_fi. rewrite Hu. cbn [bind].
  pose proof (lookup_lt_Some _ _ _ Hi) as Hlt. pose proof (fe_set_same fe fd fi Hi) as Hsame.
  destruct (Z.leb_spec fd 0) as [Hz|Hz]; simpl; [destruct (fi_arg fi); by rewrite Hsame|].
  rewrite (proj2 (arr_get_Ok (fe_maps fe) fd fi)) by done. cbn [bind].
  destruct (fi_arg fi); [|by rewrite Hsame].
  destruct (fi_is_updated fi); simpl; [|by rewrite Hsame].
  destruct (_ || _); [rewrite arr_set_range by lia; cbn [bind]; by destruct fe|].
  destruct (epoll_ctl _ _ _ _) as [k rc]. destruct (rc =? 0); simpl.
  - rewrite arr_set_range by lia. done.
  - unfold item in Hi. unfold fe_set_maps. simpl. rewrite list_insert_id by done. by destruct fe.
Qed.

Lemma item_set fe fd x fi0 k :
  0 <= fd -> is_Some (item fe fd) -> 0 <= x ->
  item (fe_set_maps (fe_set_kernel fe k) (<[Z.to_nat fd := fi0]> (fe_maps fe))) x =
  if decide (x = fd) then Some fi0 else item fe x.
Proof.
  intros Hfd [fi Hi] Hx. apply lookup_lt_Some in Hi. unfold item. simpl. destruct (decide (x = fd)) as [->|Hne].
  - apply list_lookup_insert_eq. lia.
  - rewrite list_lookup_insert_ne; [done|lia].
Qed.

(** Whatever [epoll_ctl] answers, the loop stays inside the arrays. *)
Lemma flush_loop_shape fe i n :
  0 <= i ->
  (forall j, 0 <= j < i + Z.of_nat n -> exists fd, arr_get (fe_updates fe) j = Ok fd /\ 0 <= fd /\ is_Some (item fe fd)) ->
  exists fe', flush_loop epoll_ctl fe i n = Ok fe' /\ same_shape fe fe'.
Proof.
  revert fe i. induction n as [|n IH]; intros fe i Hi0 Hu; simpl; [by exists fe|].
  destruct (Hu i ltac:(lia)) as (fd & Hg & Hfd & [fi Hi]). rewrite (flush_one_eq fe i fd fi) by done.
  destruct (flush_fi _ _ _) as [k fi']. cbn [bind]. set (fe1 := fe_set_maps _ _).
  destruct (IH fe1 (i + 1)) as (fe' & E & (H1 & H2 & H3 & H4)); [lia| |].
  - intros j Hj. destruct (Hu j ltac:(lia)) as (x & Hx & Hx0 & Hxi). exists x. split_and!; [done|done|].
    unfold fe1. rewrite item_set; [by destruct (decide (x = fd))|done|by eexists|done].
  - exists fe'. split; [done|]. unfold same_shape. rewrite H1, H2, H3, H4. simpl. by rewrite length_insert.
Qed.

Lemma flush_wf fe :
  fe_wf fe -> exists fe', fd_epoll_flush_events epoll_ctl fe = Ok (fe', 0) /\ fe_wf fe' /\ fe_maxfd fe' = fe_maxfd fe /\
    fe_nupdate fe' = 0.
Proof.
  intros Hw. pose proof Hw as [Hm Hu Hn Hnd Hp]. unfold fd_epoll_flush_events.
  destruct (Z.ltb_spec (fe_nupdate fe) 1) as [Hz|Hz]; [exists fe; split_and!; [done..|lia]|].
  destruct (flush_loop_shape fe 0 (Z.to_nat (fe_nupdate fe))) as (fe' & -> & (H1 & H2 & H3 & H4)); [done| |].
  - intros j Hj. destruct (lookup_lt_is_Some_2 (pending fe) (Z.to_nat j)) as [fd Hfd]; [rewrite length_pending by done; lia|].
    destruct (Hp fd) as (? & fi & ? & _); [by eapply list_elem_of_lookup_2|].
    exists fd. split_and!; [|lia|by eexists]. apply arr_get_Ok. split; [lia|]. unfold pending in Hfd.
    by apply lookup_take_Some in Hfd as [? _].
  - cbn [bind]. eexists. split; [done|]. split; [|done].
    constructor; simpl; rewrite ?H1, ?H2, ?H4; try done; [lia|..].
    + unfold pending. simpl. apply NoDup_nil_2.
    + intros fd Hfd. unfold pending in Hfd. simpl in Hfd. by apply elem_of_nil in Hfd.
Qed.

(** Descriptors other than the one handled keep their registration. *)
Lemma flush_fi_kmask k fd fi x : x <> fd -> kmask (flush_fi k fd fi).1 x = kmask k x.
Proof.
  intros Hx. unfold flush_fi. destruct (fi_arg fi); [|done]. destruct (_ || _); [done|].
  destruct (_ || _); [done|]. destruct (epoll_ctl _ _ _ _) as [k' rc] eqn:E.
  destruct (Z.eqb_spec rc 0) as [->|Hne]; simpl.
  - by apply (epoll_ctl_ok _ _ _ _ _ E).
  - by apply (epoll_ctl_fail _ _ _ _ _ _ E).
Qed.

(** The loop handles the pending descriptors one by one. *)
Lemma flush_loop_spec fe i n l :
  (forall j, (j < n)%nat -> exists fd, l !! j = Some fd /\ arr_get (fe_updates fe) (i + Z.of_nat j) = Ok fd) ->
  length l = n -> NoDup l -> (forall fd, fd ∈ l -> 0 <= fd /\ is_Some (item fe fd)) ->
  exists fe', flush_loop epoll_ctl fe i n = Ok fe' /\ same_shape fe fe' /\
    (forall x, 0 <= x -> x ∉ l -> item fe' x = item fe x /\ kmask (fe_kernel fe') x = kmask (fe_kernel fe) x) /\
    (forall x fi, x ∈ l -> item fe x = Some fi -> exists k0, kmask k0 x = kmask (fe_kernel fe) x /\
       item fe' x = Some (flush_fi k0 x fi).2 /\ kmask (fe_kernel fe') x = kmask (flush_fi k0 x fi).1 x).
Proof.
  revert fe i l. induction n as [|n IH]; intros fe i l Hu Hlen Hnd Hl; simpl.
  { apply nil_length_inv in Hlen as ->. exists fe. split_and!; [done..|]. intros x fi Hx. by apply elem_of_nil in Hx. }
  destruct l as [|fd l]; [done|]. apply NoDup_cons in Hnd as [Hfd Hnd].
  destruct (Hu 0%nat ltac:(lia)) as (fd' & [= <-] & Hg). rewrite Z.add_0_r in Hg.
  destruct (Hl fd ltac:(left)) as [Hpos [fi Hi]]. rewrite (flush_one_eq fe i fd fi) by done.
  destruct (flush_fi (fe_kernel fe) fd fi) as [k fi'] eqn:Ef. cbn [bind].
  set (fe1 := fe_set_maps _ _). assert (Hit : forall x, 0 <= x -> item fe1 x = if decide (x = fd) then Some fi' else item fe x).
  { intros x Hx. apply item_set; [done|by eexists|done]. }
  assert (Hk : forall x, x <> fd -> kmask k x = kmask (fe_kernel fe) x).
  { intros x Hx. pose proof (flush_fi_kmask (fe_kernel fe) fd fi x Hx) as H. by rewrite Ef in H. }
  destruct (IH fe1 (i + 1) l) as (fe' & E & Hs & Hother & Hin); [|simpl in Hlen; lia|done| |].
  { intros j Hj. destruct (Hu (S j) ltac:(lia)) as (x & Hx & Hgx). exists x. split; [done|].
    replace (i + 1 + Z.of_nat j) with (i + Z.of_nat (S j)) by lia. done. }
  { intros x Hx. destruct (Hl x ltac:(by right)) as [? ?]. split; [done|]. rewrite Hit by done.
    by destruct (decide (x = fd)). }
  exists fe'. split; [done|]. split_and!.
  - destruct Hs as (H1 & H2 & H3 & H4). unfold same_shape. rewrite H1, H2, H3, H4. simpl. by rewrite length_insert.
  - intros x Hx Hxl. apply not_elem_of_cons in Hxl as [Hne Hxl]. destruct (Hother x Hx Hxl) as [H1 H2].
    rewrite H1, H2, Hit by done. rewrite decide_False by done. split; [done|]. by apply Hk.
  - intros x fx Hx Hix. destruct (decide (x = fd)) as [->|Hne].
    + rewrite Hi in Hix. injection Hix as <-. exists (fe_kernel fe). rewrite Ef. simpl.
      destruct (Hother fd Hpos Hfd) as [H1 H2]. rewrite H1, H2, Hit by done. by rewrite decide_True.
    + assert (Hxl : x ∈ l) by set_solver. destruct (Hl x Hx) as [Hx0 _].
      destruct (Hin x fx Hxl) as (k0 & H1 & H2 & H3); [by rewrite Hit, decide_False|].
      exists k0. split_and!; [|done|done]. rewrite H1. simpl. by apply Hk.
Qed.

Lemma flush_spec fe :
  fe_wf fe ->
  exists fe', fd_epoll_flush_events epoll_ctl fe = Ok (fe', 0) /\ fe_wf fe' /\ pending fe' = [] /\
    fe_maxfd fe' = fe_maxfd fe /\
    (forall x, 0 <= x -> x ∉ pending fe -> item fe' x = item fe x /\ kmask (fe_kernel fe') x = kmask (fe_kernel fe) x) /\
    (forall x fi, x ∈ pending fe -> item fe x = Some fi -> exists k0, kmask k0 x = kmask (fe_kernel fe) x /\
       item fe' x = Some (flush_fi k0 x fi).2 /\ kmask (fe_kernel fe') x = kmask (flush_fi k0 x fi).1 x).
Proof.
  intros Hw. pose proof Hw as [Hm Hu Hn Hnd Hp]. unfold fd_epoll_flush_events.
  destruct (Z.ltb_spec (fe_nupdate fe) 1) as [Hz|Hz].
  { assert (Hpe : pending fe = []) by (unfold pending; by replace (fe_nupdate fe) with 0 by lia).
    exists fe. split_and!; try done. intros x fi Hx. rewrite Hpe in Hx. by apply elem_of_nil in Hx. }
  destruct (flush_loop_spec fe 0 (Z.to_nat (fe_nupdate fe)) (pending fe)) as (fe' & -> & Hs & Ho & Hi).
  - intros j Hj. destruct (lookup_lt_is_Some_2 (pending fe) j) as [fd Hfd]; [by rewrite length_pending|].
    exists fd. split; [done|]. rewrite Z.add_0_l. apply arr_get_nat. unfold pending in Hfd.
    by apply lookup_take_Some in Hfd as [? _].
  - by apply length_pending.
  - done.
  - intros fd Hfd. destruct (Hp fd Hfd) as (? & fi & ? & _). split; [lia|by eexists].
  - cbn [bind]. eexists. split; [done|]. destruct Hs as (H1 & H2 & H3 & H4).
    split_and!; [|done|done|exact Ho|exact Hi]. constructor; simpl; rewrite ?H1, ?H2, ?H4; try done; [lia|..].
    + unfold pending. simpl. apply NoDup_nil_2.
    + intros fd Hfd. unfold pending in Hfd. simpl in Hfd. by apply elem_of_nil in Hfd.
Qed.

(** ** Sequences of registrations, arguments and flushes
    [FArm] is what the callers do with the item of a descriptor they own
    (listener.c:108-112, connection.c:310-312): look it up with
    [fd_epoll_map], assert it, make it ready and store the argument. *)
Inductive fe_op : Type :=
  | FAdd (fd events : Z) (cb : option C)
  | FArm (fd : Z) (arg : A)
  | FFlush.

Definition run_fe_op fe (o : fe_op) : res (fd_epoll_t A C K * Z) :=
  match o with
  | FAdd fd ev cb => fd_epoll_add_event fe fd ev cb
  | FArm fd a =>
      do fi <- map_item fe fd;
      do fe <- set_item fe fd (fi_set_arg fi FD_READY (Some a)); Ok (fe, 0)
  | FFlush => fd_epoll_flush_events epoll_ctl fe
  end.

(** [FArm] is used on descriptors of the map only ([fd_epoll_map] lets one
    more through, [fd_epoll_map_off_by_one]). *)
Definition fe_op_in (maxfd : Z) (o : fe_op) : Prop :=
  match o with FArm fd _ => 0 <= fd < maxfd | _ => True end.

Fixpoint run_fe_ops fe (os : list fe_op) : res (fd_epoll_t A C K * list Z) :=
  match os with
  | [] => Ok (fe, [])
  | o :: os => do (fe, rc) <- run_fe_op fe o; do (fe, rcs) <- run_fe_ops fe os; Ok (fe, rc :: rcs)
  end.

(** The return value each call must have. *)
Definition fe_rc (maxfd : Z) (o : fe_op) : Z :=
  match o with FAdd fd _ _ => if (0 <=? fd) && (fd <? maxfd) then 0 else -1 | FArm _ _ | FFlush => 0 end.

Lemma arm_eq fe fd a : fe_wf fe -> 0 <= fd < fe_maxfd fe -> exists fi, item fe fd = Some fi /\
  run_fe_op fe (FArm fd a) = Ok (fe_set_maps fe (<[Z.to_nat fd := fi_set_arg fi FD_READY (Some a)]> (fe_maps fe)), 0).
Proof.
  intros Hw Hr. destruct (item_get fe fd Hw Hr) as (fi & Hi & Hg). exists fi. split; [done|].
  unfold run_fe_op, map_item, set_item, fd_epoll_map.
  rewrite (proj2 (Z.ltb_ge fd 0)), (proj2 (Z.ltb_ge (fe_maxfd fe) fd)) by lia. cbn [orb]. rewrite Hg. cbn [bind].
  pose proof (fw_maps _ Hw). rewrite arr_set_range by lia. done.
Qed.

Lemma arm_item fe fd fi x :
  item fe fd = Some fi -> 0 <= x -> 0 <= fd -> forall fi',
  item (fe_set_maps fe (<[Z.to_nat fd := fi']> (fe_maps fe))) x = if decide (x = fd) then Some fi' else item fe x.
Proof.
  intros Hi Hx Hfd fi'. unfold item in *. simpl. destruct (decide (x = fd)) as [->|Hne].
  - apply list_lookup_insert_eq. by eapply lookup_lt_Some.
  - apply list_lookup_insert_ne. lia.
Qed.

Lemma arm_wf fe fd fi a : fe_wf fe -> 0 <= fd -> item fe fd = Some fi ->
  fe_wf (fe_set_maps fe (<[Z.to_nat fd := fi_set_arg fi FD_READY (Some a)]> (fe_maps fe))).
Proof.
  intros [Hm Hu Hn Hnd Hp] Hfd Hi. constructor; simpl; rewrite ?length_insert; try done.
  intros x Hx. destruct (Hp x Hx) as (Hr & fx & Hix & Hux). split; [done|].
  rewrite (arm_item fe fd fi x Hi) by lia. destruct (decide (x = fd)) as [->|]; [|by eauto].
  rewrite Hi in Hix. injection Hix as <-. eauto.
Qed.

Lemma run_fe_op_wf fe o :
  fe_wf fe -> fe_op_in (fe_maxfd fe) o ->
  exists fe', run_fe_op fe o = Ok (fe', fe_rc (fe_maxfd fe) o) /\ fe_wf fe' /\ fe_maxfd fe' = fe_maxfd fe.
Proof.
  intros Hw Hin. destruct o as [fd ev cb|fd a|].
  - simpl. destruct (add_event_wf fe fd ev cb Hw) as (fe' & rc & E & Hw' & _ & Hmax & Hrc). exists fe'.
    rewrite E. split_and!; [|done|done]. do 2 f_equal.
    destruct Hrc as [(-> & _ & Hn)|(-> & Hr & _)].
    + destruct (Z.leb_spec 0 fd), (Z.ltb_spec fd (fe_maxfd fe)); simpl; try done. lia.
    + rewrite (proj2 (Z.leb_le _ _)), (proj2 (Z.ltb_lt _ _)) by lia. done.
  - destruct (arm_eq fe fd a Hw Hin) as (fi & Hi & ->). eexists. split; [done|]. split; [|done].
    simpl in Hin. apply arm_wf; [done|lia|done].
  - simpl. destruct (flush_wf fe Hw) as (fe' & E & Hw' & Hmax & _). by exists fe'.
Qed.

Lemma run_fe_ops_wf fe os :
  fe_wf fe -> Forall (fe_op_in (fe_maxfd fe)) os ->
  exists fe', run_fe_ops fe os = Ok (fe', fe_rc (fe_maxfd fe) <$> os) /\ fe_wf fe' /\
    fe_maxfd fe' = fe_maxfd fe.
Proof.
  revert fe. induction os as [|o os IH]; intros fe Hw Hin; [by exists fe|].
  apply Forall_cons in Hin as [Ho Hin]. cbn [run_fe_ops].
  destruct (run_fe_op_wf fe o Hw Ho) as (fe1 & -> & Hw1 & Hm1). rewrite <- Hm1 in Hin. cbn [bind].
  destruct (IH fe1 Hw1 Hin) as (fe2 & -> & Hw2 & Hm2). cbn [bind]. exists fe2. cbn [fmap list_fmap].
  rewrite <- Hm1 at 2. split_and!; [by rewrite Hm1|done|congruence].
Qed.

Lemma run_fe_ops_snoc fe os o : run_fe_ops fe (os ++ [o]) =
  (do (fe, rcs) <- run_fe_ops fe os; do (fe, rc) <- run_fe_op fe o; Ok (fe, rcs ++ [rc])).
Proof.
  revert fe. induction os as [|x os IH]; intros fe; cbn [run_fe_ops app bind].
  - by destruct (run_fe_op fe o) as [[??]|].
  - destruct (run_fe_op fe x) as [[fe1 rc]|]; cbn [bind]; [|done]. rewrite IH.
    destruct (run_fe_ops fe1 os) as [[fe2 rcs]|]; cbn [bind]; [|done]. by destruct (run_fe_op fe2 o) as [[??]|].
Qed.

(** A marked descriptor that is not pending. *)
Definition stuck fe (fd : Z) : Prop :=
  fd ∉ pending fe /\ exists fi, item fe fd = Some fi /\ fi_is_updated fi = true.

Lemma add_event_stuck fe x fd events cb fe' rc :
  0 <= x -> fd_epoll_add_event fe fd events cb = Ok (fe', rc) -> fe_wf fe -> stuck fe x ->
  stuck fe' x /\ fe_kernel fe' = fe_kernel fe.
Proof.
  intros Hx E Hw [Hnp (fi & Hi & Hu)]. unfold fd_epoll_add_event in E.
  destruct (Z.ltb_spec fd 0); [injection E as <- <-; split; [split; eauto|done]|].
  destruct (Z.leb_spec (fe_maxfd fe) fd); [injection E as <- <-; split; [split; eauto|done]|].
  pose proof Hw as [Hm Hul Hn _ _].
  destruct (item_get fe fd Hw) as (fi1 & Hi1 & Hg); [lia|]. rewrite Hg in E. cbn [bind] in E.
  destruct (decide (x = fd)) as [->|Hne].
  - rewrite Hi in Hi1. injection Hi1 as <-. simpl in E. rewrite Hu in E. rewrite arr_set_range in E by lia.
    injection E as <- <-. split; [|done]. split; [done|]. eexists. unfold item. simpl.
    split; [apply list_lookup_insert_eq; lia|done].
  - destruct (fi_is_updated _); inv_ok; (split; [|done]); split.
    + done.
    + exists fi. unfold item. simpl. rewrite list_lookup_insert_ne by lia. done.
    + unfold pending. simpl. intros Hin. apply Hnp. unfold pending.
      replace (fe_nupdate fe + 1 - 1) with (fe_nupdate fe) in Hin by lia.
      replace (Z.to_nat (fe_nupdate fe + 1)) with (S (Z.to_nat (fe_nupdate fe))) in Hin by lia.
      rewrite (take_S_r _ _ fd) in Hin by (apply list_lookup_insert_eq; lia).
      rewrite take_insert_ge in Hin by lia. set_solver.
    + exists fi. unfold item. simpl. rewrite list_lookup_insert_ne by lia. done.
Qed.

Lemma run_fe_ops_stuck fe os x :
  0 <= x -> fe_wf fe -> stuck fe x -> Forall (fe_op_in (fe_maxfd fe)) os ->
  exists fe', run_fe_ops fe os = Ok (fe', fe_rc (fe_maxfd fe) <$> os) /\ stuck fe' x /\
    kmask (fe_kernel fe') x = kmask (fe_kernel fe) x.
Proof.
  intros Hx. revert fe. induction os as [|o os IH]; intros fe Hw Hst Hin; [by exists fe|].
  apply Forall_cons in Hin as [Ho Hin]. cbn [run_fe_ops].
  destruct (run_fe_op_wf fe o Hw Ho) as (fe1 & E & Hw1 & Hm1). rewrite E. cbn [bind]. rewrite <- Hm1 in Hin.
  assert (Hst1 : stuck fe1 x /\ kmask (fe_kernel fe1) x = kmask (fe_kernel fe) x).
  { destruct o as [fd ev cb|fd a|].
    - simpl in E. destruct (add_event_stuck _ x _ _ _ _ _ Hx E Hw Hst) as [? ->]. done.
    - destruct (arm_eq fe fd a Hw Ho) as (fi & Hi & E'). rewrite E in E'. injection E' as ->. simpl in Ho.
      split; [|done]. destruct Hst as [Hn (fx & Hix & Hux)]. split; [done|].
      rewrite (arm_item fe fd fi x Hi) by lia. destruct (decide (x = fd)) as [->|]; [|by eauto].
      rewrite Hi in Hix. injection Hix as <-. eauto.
    - simpl in E. destruct (flush_spec fe Hw) as (fe' & E' & _ & Hpe & _ & Hk & _). rewrite E in E'. injection E' as <-.
      destruct Hst as [Hn Hi]. destruct (Hk x Hx Hn) as [Hit Hk']. split; [|done]. split; [rewrite Hpe; set_solver|].
      by rewrite Hit. }
  destruct Hst1 as [Hst1 Hk1]. destruct (IH fe1 Hw1 Hst1 Hin) as (fe2 & -> & Hst2 & Hk2). cbn [bind].
  exists fe2. cbn [fmap list_fmap]. rewrite Hm1. split_and!; [done|done|congruence].
Qed.

(** [epoll_ctl] succeeds on [fd] when the operation fits what is registered. *)
Definition ctl_works (fd : Z) : Prop := forall k op ev,
  match op with EPOLL_CTL_ADD => kmask k fd = 0 | _ => kmask k fd <> 0 end -> (epoll_ctl k op fd ev).2 = 0.

(** What the flush does to one pending descriptor. *)
Lemma flush_fi_commit k fd fi :
  0 < fd -> fi_is_updated fi = true -> is_Some (fi_arg fi) -> fi_state fi = FD_READY ->
  fi_pevents fi = kmask k fd -> ctl_works fd ->
  kmask (flush_fi k fd fi).1 fd = fi_events fi /\ fi_is_updated (flush_fi k fd fi).2 = false.
Proof.
  intros Hfd Hu [a Ha] Hs Hp Hctl. unfold flush_fi. rewrite Ha, Hu, Hs. rewrite (proj2 (Z.leb_gt _ _)) by lia.
  rewrite bool_decide_eq_true_2 by done. simpl. destruct (Z.eqb_spec (fi_events fi) (fi_pevents fi)) as [E|_].
  - simpl. by rewrite <- Hp.
  - set (op := if fi_pevents fi =? 0 then _ else _). assert (Hop : (epoll_ctl k op fd (fi_events fi)).2 = 0).
    { apply Hctl. unfold op. rewrite <- Hp. destruct (Z.eqb_spec (fi_pevents fi) 0); [done|]. by destruct (_ =? 0). }
    destruct (epoll_ctl _ _ _ _) as [k' rc] eqn:E. simpl in Hop. subst rc. simpl. split; [|done].
    rewrite (proj1 (epoll_ctl_ok _ _ _ _ _ E)). unfold op. destruct (_ =? 0); [done|].
    by destruct (Z.eqb_spec (fi_events fi) 0).
Qed.

Lemma flush_fi_lost k fd fi :
  fi_arg fi = None \/ (fi_events fi <> fi_pevents fi /\ fi_state fi = FD_READY /\
    forall k op ev, (epoll_ctl k op fd ev).2 <> 0) ->
  fi_is_updated (flush_fi k fd fi).2 = fi_is_updated fi.
Proof.
  intros H. unfold flush_fi. destruct (fi_arg fi); [|done]. destruct H as [?|(He & Hs & Hf)]; [done|].
  destruct (_ || _); [done|]. rewrite Hs, bool_decide_eq_true_2, (proj2 (Z.eqb_neq _ _)) by done. simpl.
  destruct (epoll_ctl _ _ _ _) as [k' rc] eqn:E. destruct (Z.eqb_spec rc 0) as [->|]; [|done].
  exfalso. eapply Hf. by rewrite E.
Qed.

(** C12: a flush commits every pending registration: for each pending
    descriptor (other than 0) that has an argument and is ready, and on which
    [epoll_ctl] succeeds, the mask registered in epoll becomes the requested
    one; descriptors that are not pending keep theirs; the pending array is
    empty afterwards. *)
Theorem fd_epoll_flush_commits fe fd fi :
  fe_wf fe -> synced fe -> fd ∈ pending fe -> 0 < fd -> item fe fd = Some fi ->
  is_Some (fi_arg fi) -> fi_state fi = FD_READY -> ctl_works fd ->
  exists fe', fd_epoll_flush_events epoll_ctl fe = Ok (fe', 0) /\ fe_wf fe' /\ pending fe' = [] /\
    kmask (fe_kernel fe') fd = fi_events fi /\
    (exists fi', item fe' fd = Some fi' /\ fi_is_updated fi' = false) /\
    (forall x, 0 <= x -> x ∉ pending fe -> kmask (fe_kernel fe') x = kmask (fe_kernel fe) x).
Proof.
  intros Hw Hsy Hp Hpos Hi Ha Hs Hctl. destruct (flush_spec fe Hw) as (fe' & E & Hw' & Hpe & _ & Ho & Hin).
  destruct (fw_pending _ Hw fd Hp) as (_ & fi' & Hi' & Hu). rewrite Hi in Hi'. injection Hi' as <-.
  destruct (Hin fd fi Hp Hi) as (k0 & Hk0 & Hit & Hk).
  destruct (flush_fi_commit k0 fd fi Hpos Hu Ha Hs) as [Hc Hu']; [rewrite Hk0; apply Hsy; [lia|done]|done|].
  exists fe'. split_and!; [done|done|done|congruence|eauto|]. intros x Hx Hn. by apply Ho.
Qed.

(** A pending registration that the flush cannot commit (its item has no
    argument, or [epoll_ctl] fails) is dropped for good: the item stays marked
    as updated without being pending, so whatever registrations and flushes
    follow, all reporting success, the mask in epoll never changes again. *)
Theorem fd_epoll_lost_update fe fd fi os :
  fe_wf fe -> fd ∈ pending fe -> item fe fd = Some fi -> Forall (fe_op_in (fe_maxfd fe)) os ->
  fi_arg fi = None \/ (fi_events fi <> fi_pevents fi /\ fi_state fi = FD_READY /\
    forall k op ev, (epoll_ctl k op fd ev).2 <> 0) ->
  exists fe1 fe2, fd_epoll_flush_events epoll_ctl fe = Ok (fe1, 0) /\
    run_fe_ops fe1 os = Ok (fe2, fe_rc (fe_maxfd fe) <$> os) /\
    kmask (fe_kernel fe2) fd = kmask (fe_kernel fe1) fd.
Proof.
  intros Hw Hp Hi Hos Hl. destruct (flush_spec fe Hw) as (fe1 & E & Hw1 & Hpe & Hm & _ & Hin).
  destruct (fw_pending _ Hw fd Hp) as (Hr & fi' & Hi' & Hu). rewrite Hi in Hi'. injection Hi' as <-.
  destruct (Hin fd fi Hp Hi) as (k0 & _ & Hit & _).
  destruct (run_fe_ops_stuck fe1 os fd) as (fe2 & E2 & _ & Hk2); [lia|done| |by rewrite Hm|].
  - split; [rewrite Hpe; set_solver|]. eexists. split; [exact Hit|]. by rewrite flush_fi_lost.
  - exists fe1, fe2. rewrite Hm in E2. done.
Qed.
End Proofs.

Lemma fd_epoll_alloc_wf {A C K} mem epfd (k : K) maxfd waittime (fe : fd_epoll_t A C K) :
  fd_epoll_alloc mem epfd k maxfd waittime = Some fe ->
  fe_wf fe /\ fe_maxfd fe = maxfd /\ fe_kernel fe = k /\ pending fe = [] /\
  (forall fd fi, item fe fd = Some fi -> fi = zero_item).
Proof.
  unfold fd_epoll_alloc. destruct (_ || _) eqn:E; [done|]. repeat (case_match; [done|]). intros [= <-].
  apply orb_false_iff in E as [E1%Z.ltb_ge E2%Z.ltb_ge].
  split_and!; [|done|done|done|]; [constructor; simpl; rewrite ?length_replicate; try lia|].
  - apply NoDup_nil_2.
  - intros fd Hfd. unfold pending in Hfd. simpl in Hfd. by apply elem_of_nil in Hfd.
  - intros fd fi Hi. unfold item in Hi. simpl in Hi. by apply lookup_replicate in Hi as [-> _].
Qed.

(** C13: from a fresh [fd_epoll_t], any sequence of [fd_epoll_add_event] (any
    descriptor), of readying an item of the map with its argument ([FArm], the
    callers' writes through [fd_epoll_map]) and of [fd_epoll_flush_events]
    stays inside the map and the update array, whatever [epoll_ctl] answers; a
    registration returns 0 exactly for the descriptors below [maxfd] and -1
    for the others, a flush returns 0, the number of pending updates never
    exceeds [maxfd], and right after a flush it is 0.  Callers that clear a
    whole item with memset are not part of the sequence: they can overrun the
    update array ([fd_epoll_reset_overflow]). *)
Theorem fd_epoll_ops_in_bounds {A C K} (epoll_ctl : K -> epoll_op -> Z -> Z -> K * Z)
    mem epfd k maxfd waittime (fe : fd_epoll_t A C K) os :
  fd_epoll_alloc mem epfd k maxfd waittime = Some fe -> Forall (fe_op_in maxfd) os ->
  exists fe', run_fe_ops epoll_ctl fe os = Ok (fe', fe_rc maxfd <$> os) /\
    0 <= fe_nupdate fe' <= maxfd /\ (last os = Some FFlush -> fe_nupdate fe' = 0).
Proof.
  intros E Hin. destruct (fd_epoll_alloc_wf _ _ _ _ _ _ E) as (Hw & <- & _).
  destruct (run_fe_ops_wf epoll_ctl fe os Hw Hin) as (fe' & H & Hw' & Hm). exists fe'.
  split_and!; [done|pose proof (fw_nupdate _ Hw'); lia..|]. intros (os' & ->)%last_Some.
  apply Forall_app in Hin as [Hin _]. destruct (run_fe_ops_wf epoll_ctl fe os' Hw Hin) as (fe1 & H1 & Hw1 & _).
  rewrite run_fe_ops_snoc, H1 in H. cbn [bind run_fe_op] in H.
  destruct (flush_wf epoll_ctl fe1 Hw1) as (fe2 & E2 & _ & _ & Hz). rewrite E2 in H. by injection H as <-.
Qed.

(** The bound check of [fd_epoll_map] lets [fd = maxfd] through: the item
    it points to lies one past the end of the map, and polling an event for
    that descriptor reads out of bounds. *)
Theorem fd_epoll_map_off_by_one {A C K} (mem : nat -> bool) epfd (k : K) maxfd waittime (fe : fd_epoll_t A C K)
    (call : C -> Z -> Z -> A -> fd_epoll_t A C K -> res (fd_epoll_t A C K)) :
  fd_epoll_alloc mem epfd k maxfd waittime = Some fe ->
  fd_epoll_map fe maxfd = Some maxfd /\
  fd_epoll_poll id call fe (Some [(maxfd, EPOLLIN)]) = Fault OutOfBounds.
Proof.
  intros E. destruct (fd_epoll_alloc_wf _ _ _ _ _ _ E) as (Hw & Hm & _). pose proof Hw as [Hl _ Hn _ _].
  assert (Hmap : fd_epoll_map fe maxfd = Some maxfd).
  { unfold fd_epoll_map. rewrite Hm, Z.ltb_irrefl, (proj2 (Z.ltb_ge _ _)) by lia. done. }
  split; [done|]. simpl. unfold map_item. simpl. rewrite Hmap.
  rewrite (proj2 (arr_get_Fault (fe_maps fe) maxfd OutOfBounds)); [done|]. split; [done|right; lia].
Qed.

(** Descriptor 0 is closed (its item cleared) and registered again. *)
Definition reopen {A C K} (r : res (fd_epoll_t A C K)) : res (fd_epoll_t A C K) :=
  do fe <- r;
  do fe <- set_item fe 0 zero_item;
  do (fe, rc) <- fd_epoll_add_event fe 0 FD_IN None;
  Ok fe.

Definition fe_sized {A C K} (maxfd : Z) (fe : fd_epoll_t A C K) : Prop :=
  1 <= maxfd /\ fe_maxfd fe = maxfd /\ Z.of_nat (length (fe_maps fe)) = maxfd /\
  Z.of_nat (length (fe_updates fe)) = maxfd /\ 0 <= fe_nupdate fe.

Lemma reopen_step {A C K} maxfd (fe : fd_epoll_t A C K) :
  fe_sized maxfd fe ->
  (fe_nupdate fe < maxfd -> exists fe', reopen (Ok fe) = Ok fe' /\ fe_nupdate fe' = fe_nupdate fe + 1 /\ fe_sized maxfd fe') /\
  (maxfd <= fe_nupdate fe -> reopen (Ok fe) = Fault OutOfBounds).
Proof.
  intros (H0 & H1 & H2 & H3 & H4). unfold reopen, set_item, fd_epoll_map. cbn [bind].
  rewrite H1, (proj2 (Z.ltb_ge maxfd 0)) by lia. cbn [Z.ltb Z.compare orb]. rewrite arr_set_range by lia. cbn [bind].
  unfold fd_epoll_add_event. cbn [Z.ltb Z.compare]. simpl fe_maxfd. rewrite H1, (proj2 (Z.leb_gt _ _)) by lia.
  rewrite (proj2 (arr_get_Ok _ 0 zero_item)) by (split; [done|]; simpl; apply list_lookup_insert_eq; lia).
  cbn [bind]. simpl fi_is_updated. cbv iota zeta. replace (fe_nupdate _ + 1 - 1) with (fe_nupdate fe) by (simpl; lia).
  simpl fe_updates. split; intros Hn.
  - rewrite arr_set_range by lia. cbn [bind]. rewrite arr_set_range by (simpl; rewrite length_insert; lia).
    cbn [bind]. eexists. split; [done|]. unfold fe_sized. simpl. rewrite !length_insert. lia.
  - unfold arr_set. rewrite (proj2 (Z.leb_le _ _)) by lia. by rewrite orb_true_r.
Qed.

Lemma fd_epoll_alloc_sized {A C K} mem epfd (k : K) maxfd waittime (fe : fd_epoll_t A C K) :
  fd_epoll_alloc mem epfd k maxfd waittime = Some fe -> fe_sized maxfd fe /\ fe_nupdate fe = 0.
Proof.
  intros E. destruct (fd_epoll_alloc_wf _ _ _ _ _ _ E) as ([Hm Hu Hn _ _] & Hmax & _).
  unfold fd_epoll_alloc in E. destruct (_ || _) eqn:E0; [done|]. apply orb_false_iff in E0 as [E0%Z.ltb_ge _].
  repeat (case_match; [done|]). injection E as <-. unfold fe_sized. simpl in *. lia.
Qed.

Lemma reopen_iter {A C K} maxfd (fe : fd_epoll_t A C K) n :
  fe_sized maxfd fe -> fe_nupdate fe = 0 -> Z.of_nat n <= maxfd ->
  exists fe', Nat.iter n reopen (Ok fe) = Ok fe' /\ fe_nupdate fe' = Z.of_nat n /\ fe_sized maxfd fe'.
Proof.
  intros Hs H0. induction n as [|n IH]; intros Hle; [by exists fe|].
  destruct IH as (fe' & E' & Hn & Hs'); [lia|]. destruct (reopen_step maxfd fe' Hs') as [Hstep _].
  destruct Hstep as (fe1 & E1 & Hn1 & Hs1); [lia|]. exists fe1. simpl. rewrite E'. split_and!; [done|lia|done].
Qed.

(** Clearing an item with [memset] (as [conn_free] does when it closes a
    descriptor) drops its mark but leaves it in the update array, so
    registering it again appends a second entry: closing and reopening the same
    descriptor more than [maxfd] times between two flushes writes past the
    update array. *)
Theorem fd_epoll_reset_overflow {A C K} (mem : nat -> bool) epfd (k : K) maxfd waittime (fe : fd_epoll_t A C K) n :
  fd_epoll_alloc mem epfd k maxfd waittime = Some fe ->
  (Z.of_nat n <= maxfd -> exists fe', Nat.iter n reopen (Ok fe) = Ok fe' /\ fe_nupdate fe' = Z.of_nat n) /\
  (maxfd < Z.of_nat n -> Nat.iter n reopen (Ok fe) = Fault OutOfBounds).
Proof.
  intros E. destruct (fd_epoll_alloc_sized _ _ _ _ _ _ E) as [Hs H0]. split; intros Hn.
  - destruct (reopen_iter maxfd fe n Hs H0 Hn) as (fe' & ? & ? & _). eauto.
  - assert (1 <= maxfd) by apply Hs. replace n with ((n - Z.to_nat maxfd - 1) + S (Z.to_nat maxfd))%nat by lia.
    rewrite Nat.iter_add. assert (Hb : Nat.iter (S (Z.to_nat maxfd)) reopen (Ok fe) = Fault OutOfBounds).
    { destruct (reopen_iter maxfd fe (Z.to_nat maxfd) Hs H0 ltac:(lia)) as (fe' & E' & Hn' & Hs').
      simpl. rewrite E'. apply (reopen_step maxfd fe' Hs'). lia. }
    rewrite Hb. induction (n - Z.to_nat maxfd - 1)%nat as [|d IH]; [done|]. simpl. by rewrite IH.
Qed.

(** ** A concrete epoll *)
Definition demo_mask (k : gmap Z Z) (fd : Z) : Z := default 0 (k !! fd).

Definition demo_ctl (k : gmap Z Z) (op : epoll_op) (fd ev : Z) : gmap Z Z * Z :=
  match op with
  | EPOLL_CTL_ADD => if demo_mask k fd =? 0 then (<[fd := ev]> k, 0) else (k, -1)
  | EPOLL_CTL_MOD => if demo_mask k fd =? 0 then (k, -1) else (<[fd := ev]> k, 0)
  | EPOLL_CTL_DEL => if demo_mask k fd =? 0 then (k, -1) else (delete fd k, 0)
  end.

Lemma demo_ctl_ok k op fd ev k' : demo_ctl k op fd ev = (k', 0) ->
  demo_mask k' fd = (match op with EPOLL_CTL_DEL => 0 | _ => ev end) /\
  forall x, x <> fd -> demo_mask k' x = demo_mask k x.
Proof.
  unfold demo_ctl. destruct op; case_match; intros [= <-]; unfold demo_mask; (split;
    [by rewrite ?lookup_insert_eq, ?lookup_delete_eq
    |intros x Hx; by rewrite ?lookup_insert_ne, ?lookup_delete_ne by done]).
Qed.

Lemma demo_ctl_fail k op fd ev k' rc : demo_ctl k op fd ev = (k', rc) -> rc <> 0 ->
  forall x, demo_mask k' x = demo_mask k x.
Proof. unfold demo_ctl. destruct op; case_match; intros [= <- <-]; done. Qed.

Lemma demo_ctl_works fd : ctl_works demo_ctl demo_mask fd.
Proof.
  intros k op ev H. unfold demo_ctl. destruct op; destruct (Z.eqb_spec (demo_mask k fd) 0); done.
Qed.

Definition demo_item (arg : option nat) : fd_item_t nat nat :=
  {| fi_events := FD_IN; fi_pevents := 0; fi_revents := 0; fi_state := FD_READY; fi_arg := arg;
     fi_is_updated := true; fi_iocb := Some 1%nat |}.

(** Descriptor 3 ready with an argument and a pending registration;
    descriptor 4 pending without argument. *)
Definition demo_fe : fd_epoll_t nat nat (gmap Z Z) :=
  {| fe_kernel := ∅; fe_maxfd := 5; fe_maxwait := 200; fe_waittime := 10;
     fe_maps := [zero_item; zero_item; zero_item; demo_item (Some 7%nat); demo_item None];
     fe_updates := [3; 4; 0; 0; 0]; fe_nupdate := 2 |}.

Lemma demo_fe_wf : fe_wf demo_fe /\ synced demo_mask demo_fe.
Proof.
  split; [constructor|].
  - done.
  - done.
  - simpl. lia.
  - unfold pending. simpl. apply NoDup_cons. split; [set_solver|apply NoDup_singleton].
  - intros fd Hfd. unfold pending in Hfd. simpl in Hfd.
    apply elem_of_cons in Hfd as [->| ->%list_elem_of_singleton]; (split; [simpl; lia|by eexists]).
  - intros fd fi Hfd Hi. unfold item in Hi. simpl in *. apply list_elem_of_lookup_2 in Hi.
    assert (fi_pevents fi = 0) as -> by (repeat (apply elem_of_cons in Hi as [->|Hi]; [done|]); by apply elem_of_nil in Hi).
    unfold demo_mask. by rewrite lookup_empty.
Qed.

Lemma fd_epoll_flush_commits_witness :
  exists fe', fd_epoll_flush_events demo_ctl demo_fe = Ok (fe', 0) /\ demo_mask (fe_kernel fe') 3 = FD_IN.
Proof.
  destruct demo_fe_wf as [Hw Hs].
  destruct (fd_epoll_flush_commits demo_ctl demo_mask demo_ctl_ok demo_ctl_fail demo_fe 3 (demo_item (Some 7%nat)) Hw Hs) as (fe' & E & _ & _ & Hm & _);
    [unfold pending; simpl; left|lia|reflexivity|by eexists|reflexivity|apply demo_ctl_works|].
  exists fe'. split; [exact E|exact Hm].
Defined.

Lemma fd_epoll_lost_update_witness :
  exists fe1 fe2, fd_epoll_flush_events demo_ctl demo_fe = Ok (fe1, 0) /\
    run_fe_ops demo_ctl fe1 [FAdd 4 FD_OUT (Some 2%nat); FFlush] = Ok (fe2, [0; 0]) /\
    demo_mask (fe_kernel fe2) 4 = demo_mask (fe_kernel fe1) 4.
Proof.
  destruct demo_fe_wf as [Hw _].
  destruct (fd_epoll_lost_update demo_ctl demo_mask demo_ctl_ok demo_ctl_fail demo_fe 4 (demo_item None)
    [FAdd 4 FD_OUT (Some 2%nat); FFlush] Hw) as (fe1 & fe2 & E1 & E2 & Hk);
    [unfold pending; simpl; right; left|reflexivity|repeat constructor|left; reflexivity|].
  exists fe1, fe2. split; [exact E1|]. split; [exact E2|exact Hk].
Defined.

Definition fresh_fe : fd_epoll_t nat nat (gmap Z Z) :=
  {| fe_kernel := ∅; fe_maxfd := 2; fe_maxwait := 200; fe_waittime := 10;
     fe_maps := [zero_item; zero_item]; fe_updates := [0; 0]; fe_nupdate := 0 |}.

(** Descriptor 1 is made ready and registered, the flush commits it to epoll;
    a second round changes the mask; descriptor 2 is refused. *)
Definition demo_ops : list fe_op :=
  [FArm 1 7%nat; FAdd 1 FD_IN (Some 1%nat); FAdd 2 FD_IN None; FFlush; FAdd 1 FD_OUT (Some 2%nat); FFlush].

Lemma fd_epoll_ops_in_bounds_witness :
  exists fe', run_fe_ops demo_ctl fresh_fe demo_ops = Ok (fe', [0; 0; -1; 0; 0; 0]) /\ fe_nupdate fe' = 0 /\
    demo_mask (fe_kernel fe') 1 = FD_OUT.
Proof.
  destruct (fd_epoll_ops_in_bounds demo_ctl (fun _ => true) 3 ∅ 2 10 fresh_fe demo_ops) as (fe' & E & _ & Hn);
    [reflexivity|repeat constructor; simpl; lia|].
  exists fe'. split; [exact E|]. split; [apply Hn; reflexivity|].
  vm_compute in E. injection E as <-. reflexivity.
Defined.

Lemma fd_epoll_map_off_by_one_witness :
  fd_epoll_poll id (fun _ _ _ _ fe => Ok fe) fresh_fe (Some [(2, EPOLLIN)]) = Fault OutOfBounds.
Proof. apply (fd_epoll_map_off_by_one (fun _ => true) 3 ∅ 2 10 fresh_fe). reflexivity. Defined.

Lemma fd_epoll_reset_overflow_witness : Nat.iter 3 reopen (Ok fresh_fe) = Fault OutOfBounds.
Proof. apply (fd_epoll_reset_overflow (fun _ => true) 3 ∅ 2 10 fresh_fe 3); [reflexivity|lia]. Defined.
End FdEpollProofs.
