(* ===== verification/Conn.v ===== *)
(** * connection, session and task queue: the data path of the TCP proxy

    Model of src/code/network/proxy/utils: task.h, task.c, packet.h,
    connection.h, connection.c, session.h, session.c, and of [sk_recv] and
    [sk_send] of src/code/network/netutil/sock_util.c.  The state is that of
    one worker: its descriptor map, its task queue, its packet pool and the
    sessions; the two connections of a session are named by the session and
    the direction (client [false], server [true]).  System calls, OpenSSL and
    the choice of a server are parameters: the [k]-th external call answers
    what the environment says for [k]. *)
From S2P Require Import Prelude ObjPool FdEpoll.

Module Conn.
Import FdEpoll.

(** ** Data *)
Inductive task_e : Type := TASK_NONE | TASK_PARSE | TASK_SEND | TASK_DELETE.

Definition CONN_F_ERROR : Z := 1.
Definition CONN_F_HSK : Z := 2.
Definition CONN_F_SSLHSK : Z := 4.
Definition CONN_F_SHUTRD : Z := 256.
Definition CONN_F_SHUTWR : Z := 512.
Definition CONN_F_SSLSHUT : Z := 1024.
Definition CONN_F_BLOCKED : Z := 4096.
Definition CONN_F_CLOSED : Z := Z.lor CONN_F_SHUTRD CONN_F_SHUTWR.

Definition has (flags f : Z) : bool := negb (Z.land flags f =? 0).

Definition MAX_PKTLEN : Z := 4096 - 40 - 32.

(** [data] holds the [len] bytes received so far. *)
Record packet_t : Type := {
  pk_max : Z; pk_recvpos : Z; pk_sendpos : Z; pk_len : Z; pk_data : list Z }.

Definition PKT_INIT : packet_t :=
  {| pk_max := MAX_PKTLEN; pk_recvpos := 0; pk_sendpos := 0; pk_len := 0; pk_data := [] |}.

(** The callbacks registered with the descriptor map. *)
Inductive fd_func : Type := cb_recv | cb_send | cb_handshake | cb_shutdown.

Abbreviation cid := (positive * bool)%type.
Definition peer_of (c : cid) : cid := (c.1, negb c.2).

Definition EINTR : Z := 4.
Definition EAGAIN : Z := 11.

(** What [session_get_server] can end in: no server, a server whose SSL
    object cannot be allocated, or a server that speaks SSL or not. *)
Inductive svr_res : Type := NoServer | SslFail | Server (ssl : bool).

Inductive effect : Type :=
  | ESend (fd : Z) (bytes : list Z)
  | EClose (fd : Z)
  | EShutWr (fd : Z)
  | EPolicyFree (s : positive)
  | ESvrFree (s : positive).

(** The [k]-th external call.  [x_recv] and [x_send] are the system calls:
    result, errno and, for [x_recv], the bytes stored. *)
Record externals : Type := {
  x_recv : nat -> Z -> Z -> Z * Z * list Z;
  x_send : nat -> Z -> list Z -> Z * Z;
  x_ssl_recv : nat -> Z -> Z * list Z * bool * bool;
  x_ssl_send : nat -> list Z -> Z;
  x_ssl_handshake : nat -> Z * Z;
  x_ssl_shutdown : nat -> Z * Z;
  x_ssl_pending : nat -> bool;
  x_ssl_free : nat -> Z;
  x_ssl_set_fd : nat -> Z;
  x_connected : nat -> Z;
  x_server : nat -> svr_res;
  x_connect : nat -> Z * bool }.

Section Worker.
Context {P obj K : Type} `{Countable obj} `{!ObjPoolSpec P obj}.
Context (X : externals).

Record connection_t : Type := {
  c_fd : Z; c_ssl : bool; c_in : list obj; c_out : list obj; c_task : task_e; c_flags : Z }.

Record session_t : Type := {
  s_conns0 : connection_t; s_conns1 : connection_t; s_nalloced : Z;
  s_request : list obj; s_response : list obj; s_svrdata : bool }.

Record worker_t : Type := {
  w_fe : fd_epoll_t cid fd_func K;
  w_taskq : list cid; w_ntask : Z;
  w_pktpool : P; w_pkts : gmap obj packet_t;
  w_sess : gmap positive session_t;
  w_io : nat; w_log : list effect }.

(** ** Field updates *)
Definition set_fe (w : worker_t) (fe : fd_epoll_t cid fd_func K) : worker_t :=
  {| w_fe := fe; w_taskq := w_taskq w; w_ntask := w_ntask w; w_pktpool := w_pktpool w;
     w_pkts := w_pkts w; w_sess := w_sess w; w_io := w_io w; w_log := w_log w |}.
Definition set_taskq (w : worker_t) (q : list cid) (n : Z) : worker_t :=
  {| w_fe := w_fe w; w_taskq := q; w_ntask := n; w_pktpool := w_pktpool w;
     w_pkts := w_pkts w; w_sess := w_sess w; w_io := w_io w; w_log := w_log w |}.
Definition set_pkts (w : worker_t) (p : P) (m : gmap obj packet_t) : worker_t :=
  {| w_fe := w_fe w; w_taskq := w_taskq w; w_ntask := w_ntask w; w_pktpool := p;
     w_pkts := m; w_sess := w_sess w; w_io := w_io w; w_log := w_log w |}.
Definition set_sess (w : worker_t) (m : gmap positive session_t) : worker_t :=
  {| w_fe := w_fe w; w_taskq := w_taskq w; w_ntask := w_ntask w; w_pktpool := w_pktpool w;
     w_pkts := w_pkts w; w_sess := m; w_io := w_io w; w_log := w_log w |}.
Definition tick (w : worker_t) : worker_t :=
  {| w_fe := w_fe w; w_taskq := w_taskq w; w_ntask := w_ntask w; w_pktpool := w_pktpool w;
     w_pkts := w_pkts w; w_sess := w_sess w; w_io := S (w_io w); w_log := w_log w |}.
Definition emit (w : worker_t) (e : effect) : worker_t :=
  {| w_fe := w_fe w; w_taskq := w_taskq w; w_ntask := w_ntask w; w_pktpool := w_pktpool w;
     w_pkts := w_pkts w; w_sess := w_sess w; w_io := w_io w; w_log := w_log w ++ [e] |}.

Definition set_queues (c : connection_t) (i o : list obj) : connection_t :=
  {| c_fd := c_fd c; c_ssl := c_ssl c; c_in := i; c_out := o; c_task := c_task c; c_flags := c_flags c |}.
Definition set_cflags (c : connection_t) (f : Z) : connection_t :=
  {| c_fd := c_fd c; c_ssl := c_ssl c; c_in := c_in c; c_out := c_out c; c_task := c_task c; c_flags := f |}.
Definition set_ctask (c : connection_t) (t : task_e) : connection_t :=
  {| c_fd := c_fd c; c_ssl := c_ssl c; c_in := c_in c; c_out := c_out c; c_task := t; c_flags := c_flags c |}.
Definition set_cfd (c : connection_t) (fd : Z) (ssl : bool) : connection_t :=
  {| c_fd := fd; c_ssl := ssl; c_in := c_in c; c_out := c_out c; c_task := c_task c; c_flags := c_flags c |}.

Definition s_conn (s : session_t) (d : bool) : connection_t := if d then s_conns1 s else s_conns0 s.
Definition s_set_conn (s : session_t) (d : bool) (c : connection_t) : session_t :=
  {| s_conns0 := if d then s_conns0 s else c; s_conns1 := if d then c else s_conns1 s;
     s_nalloced := s_nalloced s; s_request := s_request s; s_response := s_response s;
     s_svrdata := s_svrdata s |}.
Definition s_set_nalloced (s : session_t) (n : Z) : session_t :=
  {| s_conns0 := s_conns0 s; s_conns1 := s_conns1 s; s_nalloced := n; s_request := s_request s;
     s_response := s_response s; s_svrdata := s_svrdata s |}.
Definition s_set_bodies (s : session_t) (rq rs : list obj) : session_t :=
  {| s_conns0 := s_conns0 s; s_conns1 := s_conns1 s; s_nalloced := s_nalloced s; s_request := rq;
     s_response := rs; s_svrdata := s_svrdata s |}.
Definition s_set_svrdata (s : session_t) (b : bool) : session_t :=
  {| s_conns0 := s_conns0 s; s_conns1 := s_conns1 s; s_nalloced := s_nalloced s; s_request := s_request s;
     s_response := s_response s; s_svrdata := b |}.

(** A session pointer: dangling once the session went back to its pool. *)
Definition get_sess (w : worker_t) (i : positive) : res session_t := deref (w_sess w !! i).
Definition put_sess (w : worker_t) (i : positive) (s : session_t) : worker_t := set_sess w (<[i := s]> (w_sess w)).
Definition get_conn (w : worker_t) (c : cid) : res connection_t :=
  do s <- get_sess w c.1; Ok (s_conn s c.2).
Definition upd_sess (w : worker_t) (i : positive) (f : session_t -> session_t) : res worker_t :=
  do s <- get_sess w i; Ok (put_sess w i (f s)).
Definition upd_conn (w : worker_t) (c : cid) (f : connection_t -> connection_t) : res worker_t :=
  upd_sess w c.1 (fun s => s_set_conn s c.2 (f (s_conn s c.2))).
Definition add_flags (w : worker_t) (c : cid) (f : Z) : res worker_t :=
  upd_conn w c (fun x => set_cflags x (Z.lor (c_flags x) f)).
Definition del_flags (w : worker_t) (c : cid) (f : Z) : res worker_t :=
  upd_conn w c (fun x => set_cflags x (Z.ldiff (c_flags x) f)).

(** ** The task queue *)
Definition task_in_queue (w : worker_t) (c : cid) : bool := bool_decide (c ∈ w_taskq w).

(** Linking a node that is already linked breaks the list. *)
Definition task_add_queue (w : worker_t) (c : cid) : res worker_t :=
  if task_in_queue w c then Fault ListCorrupt
  else Ok (set_taskq w (w_taskq w ++ [c]) (w_ntask w + 1)).
Definition task_del_queue (w : worker_t) (c : cid) : worker_t :=
  set_taskq w (filter (fun x => x <> c) (w_taskq w)) (w_ntask w - 1).

(** Setting the task and queueing it, as all handlers do: -1 when it is
    already queued. *)
Definition queue_task (w : worker_t) (c : cid) (t : task_e) (rc : Z) : res (worker_t * Z) :=
  do w <- upd_conn w c (fun x => set_ctask x t);
  if task_in_queue w c then Ok (w, -1) else
  do w <- task_add_queue w c; Ok (w, rc).

Definition add_event (w : worker_t) (fd events : Z) (cb : option fd_func) : res (worker_t * Z) :=
  do (fe, rc) <- fd_epoll_add_event (w_fe w) fd events cb; Ok (set_fe w fe, rc).
(** [fi->arg = c] on the item of [fd]. *)
Definition set_arg (w : worker_t) (fd : Z) (c : cid) : res worker_t :=
  do fi <- map_item (w_fe w) fd;
  do fe <- set_item (w_fe w) fd (fi_set_arg fi (fi_state fi) (Some c));
  Ok (set_fe w fe).

(** ** Raw I/O *)
Definition sk_recv (w : worker_t) (fd len : Z) : worker_t * (Z * list Z * bool) :=
  if (fd <? 0) || (len <? 1) then (w, (-1, [], false)) else
  let '(m, errno, bytes) := x_recv X (w_io w) fd len in
  let w := tick w in
  if m <? 0 then
    if (errno =? EINTR) || (errno =? EAGAIN) then (w, (0, [], false)) else (w, (-1, [], false))
  else (w, (m, bytes, m =? 0)).

(** The errno test [errno != EINTR || errno != EAGAIN] holds for every errno. *)
Definition sk_send (w : worker_t) (fd : Z) (bytes : list Z) : worker_t * Z :=
  if (fd <? 0) || (Z.of_nat (length bytes) <? 1) then (w, -1) else
  let (n, errno) := x_send X (w_io w) fd bytes in
  let w := tick w in
  if n <? 0 then
    if negb (errno =? EINTR) || negb (errno =? EAGAIN) then (w, -1) else (w, 0)
  else (w, n).

Definition conn_raw_recv (w : worker_t) (fd : Z) (ssl : bool) (len : Z)
    : worker_t * (Z * list Z * bool * bool) :=
  if len <? 1 then (w, (-1, [], false, false)) else
  if ssl then (tick w, x_ssl_recv X (w_io w) len) else
  let '(w, (n, bytes, closed)) := sk_recv w fd len in (w, (n, bytes, closed, false)).

Definition conn_raw_send (w : worker_t) (fd : Z) (ssl : bool) (bytes : list Z) : worker_t * Z :=
  if Z.of_nat (length bytes) <? 1 then (w, -1) else
  if ssl then (tick w, x_ssl_send X (w_io w) bytes) else sk_send w fd bytes.

(** ** Packets *)
Definition pkt_free (w : worker_t) (i : positive) (it : obj) : res worker_t :=
  do (p, _) <- pool_put (w_pktpool w) it;
  upd_sess (set_pkts w p (delete it (w_pkts w))) i (fun s => s_set_nalloced s (s_nalloced s - 1)).

(** The packet [conn_recv_data] receives into: CBLIST_GET_TAIL of the input
    queue, which is its first packet, or a new one at the tail. *)
Definition recv_packet (w : worker_t) (c : cid) : res (worker_t * option obj) :=
  do cn <- get_conn w c;
  do full <- match head (c_in cn) with
             | None => Ok true
             | Some it => do p <- deref (w_pkts w !! it); Ok (pk_max p <=? pk_len p)
             end;
  if full : bool then
    do (p, r) <- pool_get (w_pktpool w);
    let w := set_pkts w p (w_pkts w) in
    match r with
    | None => Ok (w, None)
    | Some it =>
        let w := set_pkts w p (<[it := PKT_INIT]> (w_pkts w)) in
        do w <- upd_conn w c (fun x => set_queues x (c_in x ++ [it]) (c_out x));
        do w <- upd_sess w c.1 (fun s => s_set_nalloced s (s_nalloced s + 1));
        Ok (w, Some it)
    end
  else Ok (w, head (c_in cn)).

Definition pkt_append (p : packet_t) (n : Z) (bytes : list Z) : packet_t :=
  {| pk_max := pk_max p; pk_recvpos := pk_recvpos p; pk_sendpos := pk_sendpos p;
     pk_len := u16 (pk_len p + n); pk_data := pk_data p ++ bytes |}.
Definition pkt_advance (p : packet_t) (n : Z) : packet_t :=
  {| pk_max := pk_max p; pk_recvpos := pk_recvpos p; pk_sendpos := u32 (pk_sendpos p + n);
     pk_len := pk_len p; pk_data := pk_data p |}.

(** ** Receiving *)
Inductive recv_out : Type := RErr | RAgain | RDone (n : Z).

(** One pass from the label [ssl_read] on. *)
Definition recv_pass (w : worker_t) (c : cid) (fd events : Z) : res (worker_t * recv_out) :=
  do (w, r) <- recv_packet w c;
  match r with
  | None => Ok (w, RErr)
  | Some it =>
      do p <- deref (w_pkts w !! it);
      do cn <- get_conn w c;
      let '(w, (n, bytes, closed, handshake)) :=
        conn_raw_recv w fd (c_ssl cn) (pk_max p - pk_len p) in
      if n <? 0 then do w <- add_flags w c CONN_F_ERROR; Ok (w, RErr) else
      let p := pkt_append p n bytes in
      let w := set_pkts w (w_pktpool w) (<[it := p]> (w_pkts w)) in
      do (w, e1) <- (if handshake : bool then
                       do w <- add_flags w c CONN_F_SSLHSK;
                       add_event w fd FD_OUT (Some cb_handshake)
                     else Ok (w, 0));
      if negb (e1 =? 0) then Ok (w, RErr) else
      do (w, e2) <- (if closed || has events EPOLLRDHUP then
                       do w <- add_flags w c CONN_F_SHUTRD;
                       do (w, e) <- (if c_ssl cn then
                                       do w <- add_flags w c CONN_F_SSLSHUT;
                                       add_event w fd FD_OUT (Some cb_shutdown)
                                     else add_event w fd 0 None);
                       if negb (e =? 0) then Ok (w, e) else
                       if pk_len p =? 0 then
                         do w <- upd_conn w c (fun x =>
                                   set_queues x (filter (fun y => y <> it) (c_in x)) (c_out x));
                         do w <- pkt_free w c.1 it; Ok (w, 0)
                       else Ok (w, 0)
                     else Ok (w, 0));
      if negb (e2 =? 0) then Ok (w, RErr) else
      if c_ssl cn then
        let again := x_ssl_pending X (w_io w) in
        Ok (tick w, if again then RAgain else RDone n)
      else Ok (w, RDone n)
  end.

(** [fuel] bounds how often SSL reports pending data. *)
Fixpoint recv_loop (fuel : nat) (w : worker_t) (c : cid) (fd events : Z) : res (worker_t * recv_out) :=
  match fuel with
  | O => Fault NoReturn
  | S fuel =>
      do (w, r) <- recv_pass w c fd events;
      match r with RAgain => recv_loop fuel w c fd events | _ => Ok (w, r) end
  end.

Definition conn_recv_data (fuel : nat) (w : worker_t) (fd events : Z) (c : cid) : res (worker_t * Z) :=
  if (fd <? 0) || (events =? 0) then Ok (w, -1) else
  do cn <- get_conn w c;
  assert! fd =? c_fd cn;
  if has events EPOLLERR then
    do w <- add_flags w c CONN_F_ERROR;
    queue_task w c TASK_DELETE (-1)
  else
    do (w, r) <- recv_loop fuel w c fd events;
    match r with
    | RDone n => queue_task w c TASK_PARSE n
    | _ => queue_task w c TASK_DELETE (-1)
    end.

(** ** Sending *)
Inductive send_out : Type := SErr | SBlocked | SDone.

(** What [conn_send_data] does when a send is short. *)
Definition send_blocked (w : worker_t) (c : cid) (fd : Z) : res (worker_t * send_out) :=
  do cn <- get_conn w c;
  if has (c_flags cn) CONN_F_BLOCKED then Ok (w, SBlocked) else
  do w <- set_arg w fd c;
  do (w, e) <- add_event w fd FD_OUT (Some cb_send);
  if negb (e =? 0) then Ok (w, SErr) else
  do pn <- get_conn w (peer_of c);
  do _ <- map_item (w_fe w) (c_fd pn);
  do (w, e) <- add_event w (c_fd pn) 0 None;
  if negb (e =? 0) then Ok (w, SErr) else
  do w <- add_flags w c CONN_F_BLOCKED;
  Ok (w, SBlocked).

(** The loop over the output queue. *)
Fixpoint send_loop (w : worker_t) (c : cid) (fd : Z) (items : list obj) : res (worker_t * send_out) :=
  match items with
  | [] => Ok (w, SDone)
  | it :: items =>
      do p <- deref (w_pkts w !! it);
      do cn <- get_conn w c;
      let bytes := drop (Z.to_nat (pk_sendpos p)) (pk_data p) in
      let (w, n) := conn_raw_send w fd (c_ssl cn) bytes in
      if n <? 0 then do w <- add_flags w c CONN_F_ERROR; Ok (w, SErr) else
      let w := emit w (ESend fd (take (Z.to_nat n) bytes)) in
      let w := set_pkts w (w_pktpool w) (<[it := pkt_advance p n]> (w_pkts w)) in
      if negb (n =? Z.of_nat (length bytes)) then send_blocked w c fd else
      do w <- upd_conn w c (fun x => set_queues x (c_in x) (filter (fun y => y <> it) (c_out x)));
      do w <- pkt_free w c.1 it;
      send_loop w c fd items
  end.

(** After the whole queue went out: reading resumes if sending was blocked. *)
Definition send_unblock (w : worker_t) (c : cid) (fd : Z) : res (worker_t * Z) :=
  do cn <- get_conn w c;
  if negb (has (c_flags cn) CONN_F_BLOCKED) then Ok (w, 0) else
  do w <- set_arg w fd c;
  do (w, e) <- add_event w fd FD_IN (Some cb_recv);
  if negb (e =? 0) then Ok (w, -1) else
  do pn <- get_conn w (peer_of c);
  do w <- set_arg w (c_fd pn) (peer_of c);
  do (w, e) <- add_event w (c_fd pn) FD_IN (Some cb_recv);
  if negb (e =? 0) then Ok (w, -1) else
  do w <- del_flags w c CONN_F_BLOCKED; Ok (w, 0).

(** ... and the end of the peer's data is passed on. *)
Definition send_shutdown (w : worker_t) (c : cid) (fd : Z) : res (worker_t * Z) :=
  do pn <- get_conn w (peer_of c);
  do cn <- get_conn w c;
  if negb (has (c_flags pn) CONN_F_SHUTRD) then Ok (w, 0) else
  if c_ssl cn then
    do w <- add_flags w c CONN_F_SSLSHUT;
    do (w, e) <- add_event w fd FD_OUT (Some cb_shutdown);
    Ok (w, if e =? 0 then 0 else -1)
  else
    do w <- add_flags (emit w (EShutWr fd)) c CONN_F_SHUTWR; Ok (w, 0).

(** The error exit: in a callback the session is queued for deletion, and the
    task is linked even when it is already queued. *)
Definition send_error (w : worker_t) (c : cid) (events : Z) : res (worker_t * Z) :=
  if events =? 0 then Ok (w, -1) else
  do w <- upd_conn w c (fun x => set_ctask x TASK_DELETE);
  do w <- task_add_queue w c; Ok (w, -1).

Definition conn_send_data (w : worker_t) (fd events : Z) (c : cid) : res (worker_t * Z) :=
  if fd <? 0 then Ok (w, -1) else
  do cn <- get_conn w c;
  assert! fd =? c_fd cn;
  if has (c_flags cn) CONN_F_HSK || has (c_flags cn) CONN_F_SSLHSK then Ok (w, 0) else
  do (w, r) <- send_loop w c fd (c_out cn);
  match r with
  | SBlocked => Ok (w, 0)
  | SErr => send_error w c events
  | SDone =>
      do (w, e) <- send_unblock w c fd;
      if negb (e =? 0) then send_error w c events else
      do (w, e) <- send_shutdown w c fd;
      if negb (e =? 0) then send_error w c events else Ok (w, 0)
  end.

(** ** Handshake and SSL shutdown *)
Definition SSL_WT_READ : Z := 1.
Definition SSL_WT_WRITE : Z := 2.

(** The event to wait for, 0 when the registered one already fits. *)
Definition wait_event (wait events : Z) : Z :=
  if (wait =? SSL_WT_READ) && has events EPOLLOUT then FD_IN
  else if (wait =? SSL_WT_WRITE) && has events EPOLLIN then FD_OUT else 0.

Definition conn_handshake (w : worker_t) (fd events : Z) (c : cid) : res (worker_t * Z) :=
  if (fd <? 0) || (events =? 0) then Ok (w, -1) else
  do cn <- get_conn w c;
  assert! fd =? c_fd cn;
  if has events (Z.lor EPOLLERR EPOLLRDHUP) then queue_task w c TASK_DELETE (-1) else
  do (w, e) <- (if has (c_flags cn) CONN_F_HSK then
                  let r := x_connected X (w_io w) in
                  let w := tick w in
                  if r <? 0 then do w <- add_flags w c CONN_F_ERROR; Ok (w, -1) else
                  do w <- del_flags w c CONN_F_HSK;
                  if c_ssl cn then do w <- add_flags w c CONN_F_SSLHSK; Ok (w, 0) else Ok (w, 0)
                else Ok (w, 0));
  if negb (e =? 0) then queue_task w c TASK_DELETE (-1) else
  do cn <- get_conn w c;
  do (w, st) <- (if has (c_flags cn) CONN_F_SSLHSK then
                   let (r, wait) := x_ssl_handshake X (w_io w) in
                   let w := tick w in
                   if negb (r =? 0) then Ok (w, -1) else
                   let e := wait_event wait events in
                   do (w, rc) <- (if e =? 0 then Ok (w, 0) else add_event w fd e (Some cb_handshake));
                   if negb (rc =? 0) then Ok (w, -1) else
                   if negb (wait =? 0) then Ok (w, 1) else
                   do w <- del_flags w c CONN_F_SSLHSK; Ok (w, 0)
                 else Ok (w, 0));
  if st =? -1 then queue_task w c TASK_DELETE (-1)
  else if st =? 1 then Ok (w, 0) else
  do (w, rc) <- add_event w fd FD_IN (Some cb_recv);
  if negb (rc =? 0) then queue_task w c TASK_DELETE (-1) else
  queue_task w c TASK_SEND 0.

(** While SSL waits, the registered callback is [conn_handshake]. *)
Definition conn_shutdown (w : worker_t) (fd events : Z) (c : cid) : res (worker_t * Z) :=
  if (fd <? 0) || (events =? 0) then Ok (w, -1) else
  do cn <- get_conn w c;
  assert! fd =? c_fd cn;
  if has events EPOLLERR then queue_task w c TASK_DELETE (-1) else
  do (w, st) <- (if has (c_flags cn) CONN_F_SSLSHUT then
                   let (r, wait) := x_ssl_shutdown X (w_io w) in
                   let w := tick w in
                   if negb (r =? 0) then Ok (w, -1) else
                   let e := wait_event wait events in
                   do (w, rc) <- (if e =? 0 then Ok (w, 0) else add_event w fd e (Some cb_handshake));
                   if negb (rc =? 0) then Ok (w, -1) else
                   if negb (wait =? 0) then Ok (w, 1) else
                   let r := x_ssl_free X (w_io w) in
                   let w := tick w in
                   if negb (r =? 0) then Ok (w, -1) else
                   do w <- upd_conn w c (fun x => set_cfd x (c_fd x) false); Ok (w, 0)
                 else Ok (w, 0));
  if st =? -1 then queue_task w c TASK_DELETE (-1)
  else if st =? 1 then Ok (w, 0) else
  do (w, rc) <- add_event w fd 0 None;
  if negb (rc =? 0) then queue_task w c TASK_DELETE (-1) else Ok (w, 0).

(** ** Connections and sessions *)
Definition conn_init : connection_t :=
  {| c_fd := -1; c_ssl := false; c_in := []; c_out := []; c_task := TASK_NONE; c_flags := 0 |}.

(** The packets of a queue go back to the pool, first to last. *)
Fixpoint free_queue (w : worker_t) (i : positive) (items : list obj) : res worker_t :=
  match items with
  | [] => Ok w
  | it :: items => do w <- pkt_free w i it; free_queue w i items
  end.

Definition conn_free (w : worker_t) (c : cid) : res worker_t :=
  do cn <- get_conn w c;
  do w <- free_queue w c.1 (c_in cn);
  do w <- upd_conn w c (fun x => set_queues x [] (c_out x));
  do w <- free_queue w c.1 (c_out cn);
  do w <- upd_conn w c (fun x => set_queues x (c_in x) []);
  do w <- (if 0 <? c_fd cn then
             do _ <- map_item (w_fe w) (c_fd cn);
             do fe <- set_item (w_fe w) (c_fd cn) zero_item;
             let w := emit (set_fe w fe) (EClose (c_fd cn)) in
             upd_conn w c (fun x => set_cfd x (-1) (c_ssl x))
           else Ok w);
  upd_conn w c (fun x => set_ctask x TASK_NONE).

(** [session_init] leaves [nalloced] as the pool object has it. *)
Definition session_init (s : session_t) : session_t :=
  {| s_conns0 := conn_init; s_conns1 := conn_init; s_nalloced := s_nalloced s;
     s_request := []; s_response := []; s_svrdata := false |}.

Definition session_free (w : worker_t) (c : cid) : res worker_t :=
  do w <- conn_free w c;
  let pc := peer_of c in
  if task_in_queue w pc then upd_conn w pc (fun x => set_ctask x TASK_DELETE) else
  do w <- conn_free w pc;
  do s <- get_sess w c.1;
  assert! s_nalloced s =? 0;
  let w := emit w (EPolicyFree c.1) in
  let w := if s_svrdata s then emit w (ESvrFree c.1) else w in
  Ok (set_sess w (delete c.1 (w_sess w))).

Definition session_fparse (w : worker_t) (c : cid) : res worker_t :=
  do s <- get_sess w c.1;
  let cn := s_conn s c.2 in
  let s := if c.2 then s_set_bodies s (s_request s) (s_response s ++ c_in cn)
           else s_set_bodies s (s_request s ++ c_in cn) (s_response s) in
  Ok (put_sess w c.1 (s_set_conn s c.2 (set_queues cn [] (c_out cn)))).

Definition session_get_server (w : worker_t) (c : cid) : res (worker_t * Z) :=
  let r := x_server X (w_io w) in
  let w := tick w in
  match r with
  | NoServer => Ok (w, -1)
  | SslFail => do w <- upd_sess w c.1 (fun s => s_set_svrdata s true); Ok (w, -1)
  | Server ssl =>
      do w <- upd_sess w c.1 (fun s => s_set_svrdata s true);
      if ssl then do w <- upd_conn w c (fun x => set_cfd x (c_fd x) true); Ok (w, 0) else Ok (w, 0)
  end.

(** The output queue takes over the request (towards the server) or the
    response (towards the client). *)
Definition session_join (w : worker_t) (c : cid) : res worker_t :=
  do s <- get_sess w c.1;
  let cn := s_conn s c.2 in
  let more := if c.2 then s_request s else s_response s in
  let s := if c.2 then s_set_bodies s [] (s_response s) else s_set_bodies s (s_request s) [] in
  Ok (put_sess w c.1 (s_set_conn s c.2 (set_queues cn (c_in cn) (c_out cn ++ more)))).

Definition session_forward (w : worker_t) (c : cid) : res (worker_t * Z) :=
  do w <- session_join w c;
  do cn <- get_conn w c;
  if 0 <? c_fd cn then Ok (w, 0) else
  do (w, e) <- session_get_server w c;
  if negb (e =? 0) then Ok (w, -1) else
  let (fd, wait) := x_connect X (w_io w) in
  let w := tick w in
  do w <- upd_conn w c (fun x => set_cfd x fd (c_ssl x));
  if fd <? 0 then Ok (w, -1) else
  do _ <- map_item (w_fe w) fd;
  do fe <- set_item (w_fe w) fd (fi_set_arg zero_item FD_READY (Some c));
  let w := set_fe w fe in
  do cn <- get_conn w c;
  do (w, rc) <- (if wait : bool then
                   do w <- add_flags w c CONN_F_HSK;
                   add_event w fd FD_OUT (Some cb_handshake)
                 else if c_ssl cn then
                   let r := x_ssl_set_fd X (w_io w) in
                   let w := tick w in
                   if negb (r =? 0) then Ok (w, -1) else
                   do w <- add_flags w c CONN_F_SSLHSK;
                   add_event w fd FD_OUT (Some cb_handshake)
                 else add_event w fd FD_IN (Some cb_recv));
  Ok (w, if rc =? 0 then 0 else -1).

Definition CONN_IS_CLOSED (cn : connection_t) : bool := Z.land (c_flags cn) CONN_F_CLOSED =? CONN_F_CLOSED.

(** The check at the end of [session_run_task]. *)
Definition close_if_done (w : worker_t) (c : cid) : res (worker_t * Z) :=
  do cn <- get_conn w c;
  do pn <- get_conn w (peer_of c);
  if CONN_IS_CLOSED cn && CONN_IS_CLOSED pn then do w <- session_free w c; Ok (w, 0) else Ok (w, 0).

Definition session_run_task (w : worker_t) (c : cid) : res (worker_t * Z) :=
  do cn <- get_conn w c;
  match c_task cn with
  | TASK_NONE => Ok (w, -1)
  | TASK_DELETE => do w <- session_free w c; Ok (w, 0)
  | TASK_PARSE =>
      do w <- session_fparse w c;
      do (w, e) <- session_forward w (peer_of c);
      if negb (e =? 0) then do w <- session_free w c; Ok (w, -1) else
      do pn <- get_conn w (peer_of c);
      do (w, e) <- conn_send_data w (c_fd pn) 0 (peer_of c);
      do w <- (if negb (e =? 0) then session_free w c else Ok w);
      close_if_done w c
  | TASK_SEND =>
      do (w, e) <- conn_send_data w (c_fd cn) 0 c;
      if negb (e =? 0) then do w <- session_free w c; Ok (w, -1) else
      close_if_done w c
  end.

(** ** Running the queue: CBLIST_FOR_EACH_SAFE with the task [b] saved before
    the body runs; [None] is the list header. *)
Fixpoint next_task (q : list cid) (c : cid) : option cid :=
  match q with
  | [] => None
  | x :: q => if decide (x = c) then head q else next_task q c
  end.

Fixpoint run_loop (fuel : nat) (w : worker_t) (e b : option cid) : res worker_t :=
  match fuel with
  | O => Fault NoReturn
  | S fuel =>
      match e with
      | None => Ok w
      | Some t =>
          let w := task_del_queue w t in
          do (w, _) <- session_run_task w t;
          run_loop fuel w b (match b with None => head (w_taskq w) | Some x => next_task (w_taskq w) x end)
      end
  end.

Definition task_run_queue (fuel : nat) (w : worker_t) : res worker_t :=
  run_loop fuel w (head (w_taskq w))
    (match head (w_taskq w) with None => None | Some x => next_task (w_taskq w) x end).
End Worker.
Arguments connection_t obj : clear implicits.
Arguments session_t obj : clear implicits.
Arguments worker_t P obj K {_ _}.
End Conn.
