(* ===== verification/ConnProofs.v ===== *)
(** * The data path of the proxy: the local invariant of a handler

    A handler of Conn.v works on one session.  [local] describes the worker
    from its point of view: the packets the session owns, the packets and
    sessions of the others, which it must leave alone, the room in the update
    array and the callback arguments.  The lemmas give, for each primitive
    operation, that it does not fault and what becomes of [local]. *)
From S2P Require Import Prelude ObjPool FdEpoll Conn.

Module ConnProofs.
Import FdEpoll Conn.

(** Total correctness: the code returns, and the result satisfies [Q]. *)
Definition wp {A} (r : res A) (Q : A -> Prop) : Prop :=
  match r with Ok x => Q x | Fault _ => False end.

Lemma wp_bind {A B} (m : res A) (f : A -> res B) (Q : A -> Prop) (Q' : B -> Prop) :
  wp m Q -> (forall x, Q x -> wp (f x) Q') -> wp (bind m f) Q'.
Proof. destruct m; simpl; [auto|done]. Qed.

Lemma wp_mono {A} (m : res A) (Q Q' : A -> Prop) : wp m Q -> (forall x, Q x -> Q' x) -> wp m Q'.
Proof. destruct m; simpl; auto. Qed.

Lemma wp_Ok {A} (m : res A) (Q : A -> Prop) : wp m Q -> exists x, m = Ok x /\ Q x.
Proof. destruct m; simpl; [eauto|done]. Qed.

(** The same with the faults that are not excluded. *)
Definition wpf {A} (F : fault -> Prop) (r : res A) (Q : A -> Prop) : Prop :=
  match r with Ok x => Q x | Fault f => F f end.

Lemma wpf_wp {A} (F : fault -> Prop) (m : res A) (Q : A -> Prop) : wp m Q -> wpf F m Q.
Proof. by destruct m. Qed.

Lemma wpf_bind {A B} (F : fault -> Prop) (m : res A) (f : A -> res B) (Q : A -> Prop) (Q' : B -> Prop) :
  wp m Q -> (forall x, Q x -> wpf F (f x) Q') -> wpf F (bind m f) Q'.
Proof. destruct m; simpl; [auto|done]. Qed.

Section Local.
Context {P obj K : Type} `{Countable obj} `{!ObjPoolSpec P obj}.
(** The number of descriptors the map has items for. *)
Context (M : Z).
Implicit Types (w : worker_t P obj K) (s : session_t obj) (cn : connection_t obj)
  (fe : fd_epoll_t cid fd_func K) (own : gset obj).

(** ** The invariant *)
Definition pkt_wf (p : packet_t) : Prop :=
  pk_max p = MAX_PKTLEN /\ 0 <= pk_sendpos p <= pk_len p /\ pk_len p <= pk_max p /\
  Z.of_nat (length (pk_data p)) = pk_len p.

(** The packets on the queues of a session. *)
Definition sess_pkts s : list obj :=
  c_in (s_conns0 s) ++ c_out (s_conns0 s) ++ c_in (s_conns1 s) ++ c_out (s_conns1 s) ++
  s_request s ++ s_response s.

(** Every packet the session owns is on exactly one queue. *)
Definition queued s own : Prop :=
  NoDup (sess_pkts s) /\ forall it, it ∈ sess_pkts s <-> it ∈ own.

(** The descriptor map has its arrays, and room for [k] more updates. *)
Record fe_ok (k : Z) fe : Prop := {
  fo_max : fe_maxfd fe = M;
  fo_maps : Z.of_nat (length (fe_maps fe)) = M;
  fo_updates : Z.of_nat (length (fe_updates fe)) = M;
  fo_nupdate : 0 <= fe_nupdate fe;
  fo_room : fe_nupdate fe + k <= M;
  fo_pending j fd : Z.of_nat j < fe_nupdate fe -> fe_updates fe !! j = Some fd -> 0 < fd < M
}.

(** A callback argument is a live connection, and it is the one that has the
    descriptor. *)
Definition args_ok fe (S : gmap positive (session_t obj)) : Prop :=
  forall fd fi c, 0 <= fd -> fe_maps fe !! Z.to_nat fd = Some fi -> fi_arg fi = Some c ->
    0 < fd /\ exists s, S !! c.1 = Some s /\ c_fd (s_conn s c.2) = fd.

Section Session.
(** [i]: the session; [R]: the packets of the others, which are as in [m0];
    [S0]: the sessions (entry [i] does not matter). *)
Context (R : gset obj) (m0 : gmap obj packet_t) (S0 : gmap positive (session_t obj)) (i : positive).

Record local own (k : Z) (q : list cid) w s : Prop := {
  l_sess : w_sess w = <[i := s]> S0;
  l_pool : pool_inv (w_pktpool w);
  l_live : pool_live (w_pktpool w) = R ∪ own;
  l_disj : R ## own;
  l_rest it : it ∈ R -> w_pkts w !! it = m0 !! it;
  l_count : s_nalloced s = Z.of_nat (size own);
  l_pkts it : it ∈ own -> exists p, w_pkts w !! it = Some p /\ pkt_wf p;
  l_fe : fe_ok k (w_fe w);
  l_args : args_ok (w_fe w) (w_sess w);
  l_taskq : w_taskq w = q
}.

Lemma get_sess_ok own k q w s : local own k q w s -> get_sess w i = Ok s.
Proof. intros HL. unfold get_sess. rewrite (l_sess _ _ _ _ _ HL), lookup_insert_eq. done. Qed.

Lemma get_conn_ok own k q w s d : local own k q w s -> get_conn w (i, d) = Ok (s_conn s d).
Proof. intros HL. unfold get_conn. simpl. by rewrite (get_sess_ok _ _ _ _ _ HL). Qed.

(** The session is rewritten, its descriptors and its count stay. *)
Lemma put_sess_ok own k q w s s' :
  local own k q w s -> s_nalloced s' = s_nalloced s ->
  (forall d, c_fd (s_conn s' d) = c_fd (s_conn s d)) ->
  local own k q (put_sess w i s') s'.
Proof.
  intros [L1 L2 L3 L4 L5 L6 L7 L8 L9 L10] Hn Hfd. constructor; simpl; [|done|done|done|done|congruence|done|done| |done].
  - rewrite L1. by rewrite insert_insert_eq.
  - intros fd fi c H1 H2 H3. destruct (L9 _ _ _ H1 H2 H3) as (Hp & t & Ht & Hc). split; [done|].
    rewrite L1 in Ht |- *. rewrite insert_insert_eq.
    apply lookup_insert_Some in Ht as [[<- <-]|[Hne Ht]].
    + exists s'. rewrite lookup_insert_eq. split; [done|]. by rewrite Hfd.
    + exists t. by rewrite lookup_insert_ne.
Qed.

Lemma upd_conn_ok own k q w s d f :
  local own k q w s -> (forall x, c_fd (f x) = c_fd x) ->
  let s' := s_set_conn s d (f (s_conn s d)) in
  upd_conn w (i, d) f = Ok (put_sess w i s') /\ local own k q (put_sess w i s') s'.
Proof.
  intros HL Hf s'. unfold upd_conn, upd_sess. simpl. rewrite (get_sess_ok _ _ _ _ _ HL). cbn [bind].
  split; [done|]. apply (put_sess_ok _ _ _ _ s); [done|done|]. intros []; destruct d; simpl; auto.
Qed.

(** Changes that [local] does not see. *)
Lemma tick_ok own k q w s : local own k q w s -> local own k q (tick w) s.
Proof. intros []. by constructor. Qed.
Lemma emit_ok own k q w s e : local own k q w s -> local own k q (emit w e) s.
Proof. intros []. by constructor. Qed.
Lemma local_room own k k' q w s : local own k q w s -> k' <= k -> local own k' q w s.
Proof. intros [L1 L2 L3 L4 L5 L6 L7 [] L9 L10] ?. constructor; try done. constructor; try done; lia. Qed.

(** ** The descriptor map *)
Lemma map_item_ok own k q w s fd :
  local own k q w s -> 0 < fd < M ->
  exists fi, map_item (w_fe w) fd = Ok fi /\ fe_maps (w_fe w) !! Z.to_nat fd = Some fi.
Proof.
  intros HL Hfd. destruct (l_fe _ _ _ _ _ HL) as [F1 F2 F3 F4 F5 F6]. unfold map_item, fd_epoll_map. rewrite F1.
  destruct (Z.ltb_spec fd 0); [lia|]. destruct (Z.ltb_spec M fd); [lia|]. simpl.
  destruct (lookup_lt_is_Some_2 (fe_maps (w_fe w)) (Z.to_nat fd)) as [fi Hi]; [lia|].
  exists fi. split; [|done]. apply arr_get_Ok. split; [lia|done].
Qed.

(** Writing an item whose argument is harmless. *)
Lemma args_ok_set fe S fd fi :
  args_ok fe S -> 0 < fd ->
  (forall c, fi_arg fi = Some c -> exists s, S !! c.1 = Some s /\ c_fd (s_conn s c.2) = fd) ->
  args_ok (fe_set_maps fe (<[Z.to_nat fd := fi]> (fe_maps fe))) S.
Proof.
  intros HA Hfd Hfi fd' fi' c H1 H2 H3. simpl in H2.
  destruct (decide (fd' = fd)) as [->|Hne].
  - assert (fi' = fi) as ->.
    { pose proof (lookup_lt_Some _ _ _ H2) as Hl. rewrite length_insert in Hl.
      rewrite list_lookup_insert_eq in H2 by done. by simplify_eq. }
    split; [done|]. by apply Hfi.
  - rewrite list_lookup_insert_ne in H2 by lia. by apply (HA _ fi').
Qed.

Lemma set_item_ok own k q w s fd fi :
  local own k q w s -> 0 < fd < M ->
  (forall c, fi_arg fi = Some c -> exists t, w_sess w !! c.1 = Some t /\ c_fd (s_conn t c.2) = fd) ->
  let fe' := fe_set_maps (w_fe w) (<[Z.to_nat fd := fi]> (fe_maps (w_fe w))) in
  set_item (w_fe w) fd fi = Ok fe' /\ local own k q (set_fe w fe') s.
Proof.
  intros [L1 L2 L3 L4 L5 L6 L7 [F1 F2 F3 F4 F5 F6] L9 L10] Hfd Hfi fe'. unfold set_item, fd_epoll_map. rewrite F1.
  destruct (Z.ltb_spec fd 0); [lia|]. destruct (Z.ltb_spec M fd); [lia|]. simpl. unfold arr_set.
  rewrite (proj2 (Z.ltb_ge fd 0)), (proj2 (Z.leb_gt (Z.of_nat (length (fe_maps (w_fe w)))) fd)) by lia.
  split; [done|]. constructor; try done.
  - constructor; simpl; try done. by rewrite length_insert.
  - apply args_ok_set; [done|lia|done].
Qed.

Lemma set_arg_ok own k q w s fd d :
  local own k q w s -> 0 < fd < M -> c_fd (s_conn s d) = fd ->
  exists fe', set_arg w fd (i, d) = Ok (set_fe w fe') /\ local own k q (set_fe w fe') s.
Proof.
  intros HL Hfd Hc. unfold set_arg. destruct (map_item_ok _ _ _ _ _ fd HL Hfd) as (fi & -> & Hi). cbn [bind].
  destruct (set_item_ok _ _ _ _ _ fd (fi_set_arg fi (fi_state fi) (Some (i, d))) HL Hfd) as [-> HL'].
  - simpl. intros c [= <-]. exists s. simpl. by rewrite (l_sess _ _ _ _ _ HL), lookup_insert_eq.
  - eauto.
Qed.

Lemma add_event_ok own k q w s fd ev cb :
  local own (k + 1) q w s -> 0 < fd < M -> 0 <= k ->
  exists fe', add_event w fd ev cb = Ok (set_fe w fe', 0) /\ local own k q (set_fe w fe') s.
Proof.
  intros HL Hfd Hk. pose proof (l_fe _ _ _ _ _ HL) as [F1 F2 F3 F4 F5 F6]. unfold add_event, fd_epoll_add_event.
  rewrite F1, (proj2 (Z.ltb_ge fd 0)), (proj2 (Z.leb_gt M fd)) by lia.
  destruct (lookup_lt_is_Some_2 (fe_maps (w_fe w)) (Z.to_nat fd)) as [fi Hi]; [lia|].
  rewrite (proj2 (arr_get_Ok _ fd fi)) by (split; [lia|done]). cbn [bind].
  pose proof (l_args _ _ _ _ _ HL) as HA.
  assert (Hold : forall b c, fi_arg (fi_set_updated (fi_set_events fi ev cb) b) = Some c ->
            exists t, w_sess w !! c.1 = Some t /\ c_fd (s_conn t c.2) = fd).
  { intros b c Hc. by apply (HA fd fi c) in Hi as [_ Hi]; [|lia|]. }
  destruct HL as [L1 L2 L3 L4 L5 L6 L7 _ L9 L10]. unfold arr_set.
  rewrite (proj2 (Z.ltb_ge fd 0)), (proj2 (Z.leb_gt (Z.of_nat (length (fe_maps (w_fe w)))) fd)) by lia.
  destruct (fi_is_updated _); cbn [bind orb].
  - eexists. split; [done|]. constructor; try done.
    + constructor; simpl; try done; [by rewrite length_insert|lia].
    + apply args_ok_set; [done|lia|]. apply (Hold (fi_is_updated fi)).
  - rewrite (proj2 (Z.ltb_ge (fe_nupdate (w_fe w) + 1 - 1) 0)),
      (proj2 (Z.leb_gt (Z.of_nat (length (fe_updates (w_fe w)))) (fe_nupdate (w_fe w) + 1 - 1))) by lia.
    cbn [bind orb]. eexists. split; [done|]. constructor; try done.
    + constructor; simpl; rewrite ?length_insert; try done; try lia. intros j x Hj Hx.
      destruct (decide (j = Z.to_nat (fe_nupdate (w_fe w) + 1 - 1))) as [->|Hne].
      * rewrite list_lookup_insert_eq in Hx by lia. by simplify_eq.
      * rewrite list_lookup_insert_ne in Hx by done. apply (F6 j); [lia|done].
    + intros fd' fi' c H1 H2 H3. simpl in H2.
      refine (args_ok_set (w_fe w) _ fd _ L9 _ (Hold true) fd' fi' c H1 H2 H3). lia.
Qed.

(** ** Packets *)
Lemma pkt_free_ok own k q w s it :
  local own k q w s -> it ∈ own ->
  exists p, let s' := s_set_nalloced s (s_nalloced s - 1) in
    let w' := put_sess (set_pkts w p (delete it (w_pkts w))) i s' in
    pkt_free w i it = Ok w' /\ local (own ∖ {[it]}) k q w' s'.
Proof.
  intros HL Hit. pose proof HL as [L1 L2 L3 L4 L5 L6 L7 L8 L9 L10]. unfold pkt_free.
  destruct (pool_put_law (w_pktpool w) it L2) as (p & -> & Hinv & Hlive); [set_solver|]. cbn [bind].
  exists p. unfold upd_sess, get_sess. simpl. rewrite L1, lookup_insert_eq. cbn [bind deref].
  split; [done|]. constructor; simpl; try done.
  - by rewrite L1, insert_insert_eq.
  - rewrite Hlive, L3. set_solver.
  - set_solver.
  - intros x Hx. rewrite lookup_delete_ne; [by apply L5|set_solver].
  - rewrite L6, size_difference, size_singleton by set_solver.
    assert (size own <> 0)%nat; [|lia]. intros E%size_empty_iff. set_solver.
  - intros x [Hx Hne]%elem_of_difference. rewrite lookup_delete_ne; [by apply L7|set_solver].
  - intros fd fi c H1 H2 H3. destruct (L9 _ _ _ H1 H2 H3) as (Hp & t & Ht & Hc). split; [done|].
    rewrite L1 in Ht |- *. rewrite insert_insert_eq.
    apply lookup_insert_Some in Ht as [[<- <-]|[Hne Ht]];
      [exists (s_set_nalloced s (s_nalloced s - 1)); rewrite lookup_insert_eq|exists t; by rewrite lookup_insert_ne].
    split; [done|]. by destruct c.2.
Qed.

(** The content of a packet changes. *)
Lemma pkt_set_ok own k q w s it p :
  local own k q w s -> it ∈ own -> pkt_wf p ->
  local own k q (set_pkts w (w_pktpool w) (<[it := p]> (w_pkts w))) s.
Proof.
  intros [L1 L2 L3 L4 L5 L6 L7 L8 L9 L10] Hit Hp. constructor; simpl; try done.
  - intros x Hx. rewrite lookup_insert_ne; [by apply L5|set_solver].
  - intros x Hx. destruct (decide (x = it)) as [->|Hne]; [rewrite lookup_insert_eq; eauto|].
    rewrite lookup_insert_ne by done. by apply L7.
Qed.

(** The pool hands out a packet, or nothing. *)
Lemma pkt_get_ok own k q w s :
  local own k q w s ->
  exists p r, pool_get (w_pktpool w) = Ok (p, r) /\
    match r with
    | None => local own k q (set_pkts w p (w_pkts w)) s
    | Some it => it ∉ own /\ let s' := s_set_nalloced s (s_nalloced s + 1) in
        local ({[it]} ∪ own) k q (put_sess (set_pkts w p (<[it := PKT_INIT]> (w_pkts w))) i s') s'
    end.
Proof.
  intros [L1 L2 L3 L4 L5 L6 L7 L8 L9 L10]. destruct (pool_get_law (w_pktpool w) L2) as (p & r & -> & Hinv & Hr).
  exists p, r. split; [done|]. destruct r as [it|].
  - destruct Hr as (_ & Hni & Hlive). split; [set_solver|]. constructor; simpl; try done.
    + by rewrite L1, insert_insert_eq.
    + rewrite Hlive, L3. set_solver.
    + set_solver.
    + intros x Hx. rewrite lookup_insert_ne; [by apply L5|set_solver].
    + rewrite L6, size_union, size_singleton by set_solver. lia.
    + intros x Hx. destruct (decide (x = it)) as [->|Hne].
      * rewrite lookup_insert_eq. exists PKT_INIT. split; [done|]. unfold pkt_wf, PKT_INIT, MAX_PKTLEN. simpl. lia.
      * rewrite lookup_insert_ne by done. apply L7. set_solver.
    + intros fd fi c H1 H2 H3. destruct (L9 _ _ _ H1 H2 H3) as (Hp & t & Ht & Hc). split; [done|].
      rewrite L1 in Ht |- *. rewrite insert_insert_eq.
      apply lookup_insert_Some in Ht as [[<- <-]|[Hne Ht]];
        [exists (s_set_nalloced s (s_nalloced s + 1)); rewrite lookup_insert_eq|exists t; by rewrite lookup_insert_ne].
      split; [done|]. by destruct c.2.
  - destruct Hr as [_ Hr]. constructor; simpl; try done. by rewrite Hr.
Qed.
End Session.
End Local.
End ConnProofs.
