(* ===== verification/ConnSafe.v ===== *)
(** * The handlers of a session keep the local invariant

    conn_send_data, conn_recv_data, conn_free, session_free and the steps of
    session_run_task, each shown to return and to keep [local]. *)
From S2P Require Import Prelude ObjPool FdEpoll Conn ConnProofs.

Module ConnSafe.
Import FdEpoll Conn ConnProofs.

(** What the manual pages promise about the system calls: at most the bytes
    asked for are transferred, and a descriptor that [connect] returns is
    positive and below the limit [M] of the process. *)
Record env_ok (M : Z) (X : externals) : Prop := {
  env_recv k fd len n errno bytes : x_recv X k fd len = (n, errno, bytes) -> 0 <= n ->
    n <= len /\ Z.of_nat (length bytes) = n;
  env_ssl_recv k len n bytes closed hsk : x_ssl_recv X k len = (n, bytes, closed, hsk) -> 0 <= n ->
    n <= len /\ Z.of_nat (length bytes) = n;
  env_send k fd bytes : (x_send X k fd bytes).1 <= Z.of_nat (length bytes);
  env_ssl_send k bytes : x_ssl_send X k bytes <= Z.of_nat (length bytes);
  env_connect k : (x_connect X k).1 < 0 \/ 0 < (x_connect X k).1 < M
}.

#[global] Instance send_out_eq_dec : EqDecision send_out.
Proof. solve_decision. Defined.

Section Handlers.
Context {P obj K : Type} `{Countable obj} `{!ObjPoolSpec P obj}.
Context (M : Z) (X : externals) (HX : env_ok M X).
Context (R : gset obj) (m0 : gmap obj packet_t) (S0 : gmap positive (session_t obj)) (i : positive).
Implicit Types (w : worker_t P obj K) (s : session_t obj) (cn : connection_t obj) (own : gset obj).

Abbreviation local := (local M R m0 S0 i).

(** ** The primitive operations, as steps *)
Lemma upd_conn_wp own k q w s d f :
  local own k q w s -> (forall x, c_fd (f x) = c_fd x) ->
  wp (upd_conn w (i, d) f) (fun w' => local own k q w' (s_set_conn s d (f (s_conn s d)))).
Proof. intros HL Hf. by destruct (upd_conn_ok _ _ _ _ _ _ _ _ _ _ d f HL Hf) as [-> HL']. Qed.

Lemma add_flags_wp own k q w s d f :
  local own k q w s ->
  wp (add_flags w (i, d) f) (fun w' => local own k q w' (s_set_conn s d (set_cflags (s_conn s d) (Z.lor (c_flags (s_conn s d)) f)))).
Proof. intros HL. by apply (upd_conn_wp _ _ _ _ s). Qed.

Lemma del_flags_wp own k q w s d f :
  local own k q w s ->
  wp (del_flags w (i, d) f) (fun w' => local own k q w' (s_set_conn s d (set_cflags (s_conn s d) (Z.ldiff (c_flags (s_conn s d)) f)))).
Proof. intros HL. by apply (upd_conn_wp _ _ _ _ s). Qed.

Lemma add_event_wp own k q w s fd ev cb :
  local own k q w s -> 0 < fd < M -> 1 <= k ->
  wp (add_event w fd ev cb) (fun '(w', rc) => rc = 0 /\ local own (k - 1) q w' s).
Proof.
  intros HL Hfd Hk. replace k with (k - 1 + 1) in HL by lia. assert (0 <= k - 1) as Hk' by lia. clear Hk. by destruct (add_event_ok _ _ _ _ _ _ _ _ _ _ fd ev cb HL Hfd Hk') as (fe' & -> & HL').
Qed.

Lemma set_arg_wp own k q w s fd d :
  local own k q w s -> 0 < fd < M -> c_fd (s_conn s d) = fd ->
  wp (set_arg w fd (i, d)) (fun w' => local own k q w' s).
Proof. intros HL Hfd Hc. by destruct (set_arg_ok _ _ _ _ _ _ _ _ _ _ fd d HL Hfd Hc) as (fe' & -> & HL'). Qed.

Lemma map_item_wp own k q w s fd :
  local own k q w s -> 0 < fd < M -> wp (map_item (w_fe w) fd) (fun _ => True).
Proof. intros HL Hfd. by destruct (map_item_ok _ _ _ _ _ _ _ _ _ _ fd HL Hfd) as (fi & -> & _). Qed.

Lemma pkt_free_wp own k q w s it :
  local own k q w s -> it ∈ own ->
  wp (pkt_free w i it) (fun w' => local (own ∖ {[it]}) k q w' (s_set_nalloced s (s_nalloced s - 1))).
Proof. intros HL Hit. by destruct (pkt_free_ok _ _ _ _ _ _ _ _ _ _ it HL Hit) as (p & -> & HL'). Qed.

(** ** Sending *)
Definition peer_needed s d : Prop :=
  c_out (s_conn s d) <> [] \/ has (c_flags (s_conn s d)) CONN_F_BLOCKED = true.

(** What the handlers that send on [d] leave alone. *)
Record sent s s' (d : bool) : Prop := {
  st_fd d' : c_fd (s_conn s' d') = c_fd (s_conn s d');
  st_task d' : c_task (s_conn s' d') = c_task (s_conn s d');
  st_in d' : c_in (s_conn s' d') = c_in (s_conn s d');
  st_ssl d' : c_ssl (s_conn s' d') = c_ssl (s_conn s d');
  st_peer : s_conn s' (negb d) = s_conn s (negb d);
  st_bodies : s_request s' = s_request s /\ s_response s' = s_response s;
  st_needed : peer_needed s' d -> peer_needed s d
}.

Lemma sent_refl s d : sent s s d.
Proof. by constructor. Qed.
Lemma sent_trans s1 s2 s3 d : sent s1 s2 d -> sent s2 s3 d -> sent s1 s3 d.
Proof.
  intros [A1 A2 A3 A4 A5 A6 A7] [B1 B2 B3 B4 B5 B6 B7].
  constructor; try (intros d'; congruence); [congruence|intuition congruence|auto].
Qed.

Lemma s_conn_set s d d' cn :
  s_conn (s_set_conn s d cn) d' = if decide (d' = d) then cn else s_conn s d'.
Proof. by destruct d, d'. Qed.

(** A connection whose descriptor, task, input queue and SSL object stay. *)
Lemma sent_set s d cn :
  c_fd cn = c_fd (s_conn s d) -> c_task cn = c_task (s_conn s d) -> c_in cn = c_in (s_conn s d) ->
  c_ssl cn = c_ssl (s_conn s d) ->
  (c_out cn <> [] \/ has (c_flags cn) CONN_F_BLOCKED = true -> peer_needed s d) ->
  sent s (s_set_conn s d cn) d.
Proof.
  intros H1 H2 H3 H4 H5.
  assert (Hne : forall d', s_conn (s_set_conn s d cn) d' = s_conn s d' \/ d' = d /\ s_conn (s_set_conn s d cn) d' = cn)
    by (intros d'; destruct d, d'; simpl; auto).
  constructor; try (intros d'; destruct (Hne d') as [->|[-> ->]]; congruence); [|done|].
  - destruct d; done.
  - unfold peer_needed. destruct d; exact H5.
Qed.

Lemma raw_send_ok own k q w s fd ssl bytes w' n :
  local own k q w s -> conn_raw_send X w fd ssl bytes = (w', n) ->
  local own k q w' s /\ n <= Z.of_nat (length bytes) /\ (0 <= n -> 0 < Z.of_nat (length bytes)).
Proof.
  intros HL. unfold conn_raw_send, sk_send. destruct (Z.ltb_spec (Z.of_nat (length bytes)) 1) as [Hl|Hl].
  - intros [= <- <-]. split_and!; [done|lia|lia].
  - destruct ssl.
    + intros [= <- <-]. split_and!; [by apply tick_ok|apply HX|lia].
    + destruct (fd <? 0); [intros [= <- <-]; split_and!; [done|lia|lia]|]. cbn [orb].
      pose proof (env_send _ _ HX (w_io w) fd bytes) as He.
      destruct (x_send X (w_io w) fd bytes) as [m errno]. simpl in He.
      destruct (Z.ltb_spec m 0).
      * destruct (_ || _); intros [= <- <-]; split_and!; (by apply tick_ok) || lia.
      * intros [= <- <-]. split_and!; [by apply tick_ok|lia|lia].
Qed.

(** The packets of a queue, with one of them taken off. *)
Lemma queued_out_tail s own d it items :
  queued s own -> c_out (s_conn s d) = it :: items ->
  let s' := s_set_nalloced (s_set_conn s d (set_queues (s_conn s d) (c_in (s_conn s d))
              (filter (fun y => y <> it) (c_out (s_conn s d))))) (s_nalloced s - 1) in
  it ∈ own /\ c_out (s_conn s' d) = items /\ queued s' (own ∖ {[it]}) /\ sent s s' d.
Proof.
  intros [Hnd Hq] Ho s'.
  assert (Hp : sess_pkts s ≡ₚ it :: sess_pkts (s_set_conn s d (set_queues (s_conn s d) (c_in (s_conn s d)) items))).
  { unfold sess_pkts. destruct d; simpl in *; rewrite Ho; solve_Permutation. }
  assert (Hf : filter (fun y => y <> it) (c_out (s_conn s d)) = items).
  { rewrite Ho, filter_cons_False by naive_solver. apply filter_all. intros x Hx ->.
    rewrite Hp in Hnd. apply NoDup_cons in Hnd as [Hni _]. apply Hni. unfold sess_pkts.
    destruct d; simpl; rewrite !elem_of_app; auto. }
  assert (Hs : s' = s_set_nalloced (s_set_conn s d (set_queues (s_conn s d) (c_in (s_conn s d)) items)) (s_nalloced s - 1)).
  { unfold s'. by rewrite Hf. }
  rewrite Hs. clear s' Hs Hf. split_and!.
  - apply Hq. rewrite Hp. left.
  - by destruct d.
  - change (queued (s_set_conn s d (set_queues (s_conn s d) (c_in (s_conn s d)) items)) (own ∖ {[it]})).
    rewrite Hp in Hnd. apply NoDup_cons in Hnd as [Hni Hnd]. split; [done|]. intros x.
    rewrite elem_of_difference, <- Hq, Hp, elem_of_cons, elem_of_singleton. naive_solver.
  - apply (sent_trans _ (s_set_conn s d (set_queues (s_conn s d) (c_in (s_conn s d)) items))).
    + apply sent_set; try done. simpl. unfold peer_needed. rewrite Ho. naive_solver.
    + constructor; try (by intros []); by destruct d.
Qed.

Lemma send_blocked_wp own k q w s d fd :
  0 <= k -> local own (k + 2) q w s -> 0 < fd < M -> c_fd (s_conn s d) = fd ->
  0 < c_fd (s_conn s (negb d)) < M -> queued s own -> c_out (s_conn s d) <> [] ->
  wp (send_blocked w (i, d) fd) (fun '(w', r) => exists s', local own k q w' s' /\ queued s' own /\
    sent s s' d /\ r <> SDone).
Proof.
  intros Hk HL Hfd Hc Hp Hq Hne. unfold send_blocked. rewrite (get_conn_ok _ _ _ _ _ _ _ _ _ _ d HL). cbn [bind].
  destruct (has _ _).
  { exists s. split_and!; [eapply local_room; [exact HL|lia]|done|apply sent_refl|done]. }
  eapply wp_bind; [by eapply set_arg_wp|]. intros w1 HL1. simpl in HL1.
  eapply wp_bind; [eapply add_event_wp; [exact HL1|done|lia]|].
  intros [w2 e] [-> HL2]. cbn. unfold peer_of. cbn [fst snd].
  rewrite (get_conn_ok _ _ _ _ _ _ _ _ _ _ (negb d) HL2). cbn [bind].
  eapply wp_bind; [by eapply map_item_wp|]. intros fi _.
  eapply wp_bind; [eapply add_event_wp; [exact HL2|done|lia]|]. intros [w3 e] [-> HL3]. cbn.
  eapply wp_bind; [by eapply add_flags_wp|]. intros w4 HL4. simpl.
  eexists. split_and!; [eapply local_room; [exact HL4|lia]| | |done].
  - destruct Hq. by destruct d.
  - apply sent_set; try done. intros _. by left.
Qed.

Lemma pkt_advance_wf p n bytes :
  pkt_wf p -> bytes = drop (Z.to_nat (pk_sendpos p)) (pk_data p) -> 0 <= n <= Z.of_nat (length bytes) ->
  pkt_wf (pkt_advance p n).
Proof.
  intros (H1 & H2 & H3 & H4) -> Hn. rewrite length_drop in Hn. unfold pkt_wf, pkt_advance, MAX_PKTLEN in *. simpl.
  rewrite u32_small by lia. split_and!; lia.
Qed.

Lemma send_loop_wp k q d fd items own w s :
  0 <= k -> local own (k + 2) q w s -> 0 < fd < M -> c_fd (s_conn s d) = fd ->
  (peer_needed s d -> 0 < c_fd (s_conn s (negb d)) < M) -> queued s own -> c_out (s_conn s d) = items ->
  wp (send_loop X w (i, d) fd items) (fun '(w', r) => exists own' s',
    local own' (if decide (r = SDone) then k + 2 else k) q w' s' /\ queued s' own' /\ sent s s' d /\
    (r = SDone -> c_out (s_conn s' d) = [])).
Proof.
  intros Hk. revert own w s. induction items as [|it items IH]; intros own w s HL Hfd Hc Hpn Hq Ho.
  { exists own, s. rewrite decide_True by done. split_and!; [done|done|apply sent_refl|done]. }
  simpl. destruct (queued_out_tail s own d it items Hq Ho) as (Hit & Ho' & Hq' & Hs').
  destruct (l_pkts _ _ _ _ _ _ _ _ _ _ HL it Hit) as (p & Hp & Hwf). rewrite Hp. cbn [bind deref].
  rewrite (get_conn_ok _ _ _ _ _ _ _ _ _ _ d HL). cbn [bind].
  destruct (conn_raw_send X w fd _ _) as [w1 n] eqn:E.
  destruct (raw_send_ok _ _ _ _ _ _ _ _ _ _ HL E) as (HL1 & Hn & _).
  destruct (Z.ltb_spec n 0) as [Hn0|Hn0].
  { eapply wp_bind; [by eapply add_flags_wp|]. intros w2 HL2. exists own. eexists.
    rewrite decide_False by done. split_and!; [eapply local_room; [exact HL2|lia]| | |done].
    - destruct Hq. by destruct d.
    - apply sent_set; try done. unfold peer_needed. rewrite Ho. naive_solver. }
  pose proof (pkt_advance_wf p n _ Hwf eq_refl ltac:(lia)) as Hwf'.
  apply (emit_ok _ _ _ _ _ _ _ _ _ _ (ESend fd (take (Z.to_nat n) (drop (Z.to_nat (pk_sendpos p)) (pk_data p))))) in HL1.
  apply (pkt_set_ok _ _ _ _ _ _ _ _ _ _ it _) with (2 := Hit) (3 := Hwf') in HL1. simpl in HL1.
  assert (Hpeer : 0 < c_fd (s_conn s (negb d)) < M) by (apply Hpn; left; by rewrite Ho).
  destruct (negb (n =? _)).
  - eapply wp_mono; [eapply (send_blocked_wp own k q); try done; by rewrite Ho|].
    intros [w2 r] (s' & HL2 & Hq2 & Hs2 & Hr). exists own, s'. rewrite decide_False by done. naive_solver.
  - eapply wp_bind; [eapply upd_conn_wp; [exact HL1|done]|]. intros w2 HL2.
    eapply wp_bind; [eapply pkt_free_wp; [exact HL2|done]|]. intros w3 HL3.
    eapply wp_mono.
    + eapply IH; [exact HL3|done|by rewrite (st_fd _ _ _ Hs')| |exact Hq'|exact Ho'].
      intros _. by rewrite (st_fd _ _ _ Hs').
    + intros [w4 r] (own' & s' & HL4 & Hq4 & Hs4 & Hr). exists own', s'. split_and!; [done|done| |done].
      by eapply sent_trans.
Qed.

(** The connection [d] of the session has flags changed only. *)
Lemma queued_set_conn s own d cn :
  c_in cn = c_in (s_conn s d) -> c_out cn = c_out (s_conn s d) -> queued s own -> queued (s_set_conn s d cn) own.
Proof.
  intros H1 H2 [Hnd Hq]. unfold queued, sess_pkts in *. destruct d; simpl in *; rewrite H1, H2; by split.
Qed.

Lemma has_ldiff_le f x : has (Z.ldiff f x) CONN_F_BLOCKED = true -> has f CONN_F_BLOCKED = true.
Proof.
  unfold has. rewrite !negb_true_iff, !Z.eqb_neq. intros Hne E. apply Hne.
  apply Z.bits_inj'. intros n Hn. apply (f_equal (fun z => Z.testbit z n)) in E.
  rewrite Z.land_spec, Z.ldiff_spec in *. rewrite Z.bits_0 in *.
  destruct (Z.testbit f n), (Z.testbit CONN_F_BLOCKED n); simpl in *; done || by rewrite andb_false_r.
Qed.

Lemma has_lor_ne f x : Z.land x CONN_F_BLOCKED = 0 -> has (Z.lor f x) CONN_F_BLOCKED = has f CONN_F_BLOCKED.
Proof. intros E. unfold has. by rewrite Z.land_lor_distr_l, E, Z.lor_0_r. Qed.

Lemma send_unblock_wp own k q w s d :
  2 <= k -> local own k q w s -> 0 < c_fd (s_conn s d) < M ->
  (peer_needed s d -> 0 < c_fd (s_conn s (negb d)) < M) -> queued s own ->
  wp (send_unblock w (i, d) (c_fd (s_conn s d))) (fun '(w', e) => e = 0 /\ exists s', local own (k - 2) q w' s' /\
    queued s' own /\ sent s s' d).
Proof.
  intros Hk HL Hfd Hp Hq. unfold send_unblock, peer_of. cbn [fst snd].
  rewrite (get_conn_ok _ _ _ _ _ _ _ _ _ _ d HL). cbn [bind].
  destruct (has _ _) eqn:Eb; cbn [negb].
  2:{ split; [done|]. exists s. split_and!; [eapply local_room; [exact HL|lia]|done|apply sent_refl]. }
  assert (Hpeer : 0 < c_fd (s_conn s (negb d)) < M) by (apply Hp; by right).
  eapply wp_bind; [by eapply set_arg_wp|]. intros w1 HL1. simpl in HL1.
  eapply wp_bind; [eapply add_event_wp; [exact HL1|done|lia]|]. intros [w2 e] [-> HL2]. cbn.
  rewrite (get_conn_ok _ _ _ _ _ _ _ _ _ _ (negb d) HL2). cbn [bind].
  eapply wp_bind; [by eapply set_arg_wp|]. intros w3 HL3. simpl in HL3.
  eapply wp_bind; [eapply add_event_wp; [exact HL3|done|lia]|]. intros [w4 e] [-> HL4]. cbn.
  eapply wp_bind; [by eapply del_flags_wp|]. intros w5 HL5. simpl. split; [done|].
  eexists. split_and!; [eapply local_room; [exact HL5|lia]|by apply queued_set_conn|].
  apply sent_set; try done. intros _. by right.
Qed.

Lemma send_shutdown_wp own k q w s d :
  1 <= k -> local own k q w s -> 0 < c_fd (s_conn s d) < M -> queued s own ->
  wp (send_shutdown w (i, d) (c_fd (s_conn s d))) (fun '(w', e) => e = 0 /\ exists s', local own (k - 1) q w' s' /\
    queued s' own /\ sent s s' d).
Proof.
  intros Hk HL Hfd Hq. unfold send_shutdown, peer_of. cbn [fst snd].
  rewrite (get_conn_ok _ _ _ _ _ _ _ _ _ _ (negb d) HL), (get_conn_ok _ _ _ _ _ _ _ _ _ _ d HL). cbn [bind].
  destruct (has (c_flags (s_conn s (negb d))) _) eqn:Eb; cbn [negb].
  2:{ split; [done|]. exists s. split_and!; [eapply local_room; [exact HL|lia]|done|apply sent_refl]. }
  assert (Hs : forall x, Z.land x CONN_F_BLOCKED = 0 ->
    sent s (s_set_conn s d (set_cflags (s_conn s d) (Z.lor (c_flags (s_conn s d)) x))) d).
  { intros x Hx. apply sent_set; try done. simpl. by rewrite has_lor_ne. }
  destruct (c_ssl _).
  - eapply wp_bind; [by eapply add_flags_wp|]. intros w1 HL1.
    eapply wp_bind; [eapply add_event_wp; [exact HL1|done|lia]|]. intros [w2 e] [-> HL2]. simpl. split; [done|].
    eexists. split_and!; [exact HL2|by apply queued_set_conn|by apply Hs].
  - apply (emit_ok _ _ _ _ _ _ _ _ _ _ (EShutWr (c_fd (s_conn s d)))) in HL.
    eapply wp_bind; [by eapply add_flags_wp|]. intros w1 HL1. simpl. split; [done|].
    eexists. split_and!; [eapply local_room; [exact HL1|lia]|by apply queued_set_conn|by apply Hs].
Qed.

(** The error exit of [conn_send_data]. *)
Definition sent_or_deleted s s' (d : bool) (events : Z) (q q' : list cid) : Prop :=
  (q' = q /\ sent s s' d) \/
  (events <> 0 /\ q' = q ++ [(i, d)] /\ exists s1, sent s s1 d /\ s' = s_set_conn s1 d (set_ctask (s_conn s1 d) TASK_DELETE)).

Lemma local_push own k q w s c n :
  local own k q w s -> local own k (q ++ [c]) (set_taskq w (w_taskq w ++ [c]) n) s.
Proof. intros []. constructor; simpl; try done. congruence. Qed.

Lemma send_error_wp own k q w s s1 d events :
  local own k q w s1 -> queued s1 own -> sent s s1 d -> (events <> 0 -> (i, d) ∉ q) ->
  wp (send_error w (i, d) events) (fun '(w', e) => exists own' s' q', local own' k q' w' s' /\ queued s' own' /\
    sent_or_deleted s s' d events q q').
Proof.
  intros HL Hq Hs Hni. unfold send_error. destruct (Z.eqb_spec events 0) as [->|He].
  - exists own, s1, q. split_and!; [done|done|]. by left.
  - eapply wp_bind; [by eapply upd_conn_wp|]. intros w1 HL1. unfold task_add_queue, task_in_queue.
    rewrite (l_taskq _ _ _ _ _ _ _ _ _ _ HL1), bool_decide_false by auto. simpl.
    eapply local_push in HL1. rewrite (l_taskq _ _ _ _ _ _ _ _ _ _ HL1) in HL1.
    exists own. eexists _, _. split_and!; [exact HL1|by apply queued_set_conn|].
    right. split_and!; [done| |eauto].
    apply (l_taskq _ _ _ _ _ _ _ _ _ _) in HL1. simpl in HL1. done.
Qed.

Lemma conn_send_data_wp own k q w s d events :
  0 <= k -> local own (k + 3) q w s -> c_fd (s_conn s d) < 0 \/ 0 < c_fd (s_conn s d) < M ->
  (peer_needed s d -> 0 < c_fd (s_conn s (negb d)) < M) -> queued s own -> (events <> 0 -> (i, d) ∉ q) ->
  wp (conn_send_data X w (c_fd (s_conn s d)) events (i, d)) (fun '(w', e) => exists own' s' q',
    local own' k q' w' s' /\ queued s' own' /\ sent_or_deleted s s' d events q q').
Proof.
  intros Hk HL Hfd Hp Hq Hni. unfold conn_send_data.
  assert (Hsame : exists own' s' q', local own' k q' w s' /\ queued s' own' /\ sent_or_deleted s s' d events q q').
  { exists own, s, q. split_and!; [eapply local_room; [exact HL|lia]|done|]. left. split; [done|apply sent_refl]. }
  destruct (Z.ltb_spec (c_fd (s_conn s d)) 0); [done|]. destruct Hfd as [?|Hfd]; [lia|].
  rewrite (get_conn_ok _ _ _ _ _ _ _ _ _ _ d HL). cbn [bind]. rewrite Z.eqb_refl.
  destruct (_ || _); [done|]. clear Hsame.
  eapply wp_bind.
  { apply (send_loop_wp (k + 1) q d _ _ own w s); try done; [lia|]. by replace (k + 1 + 2) with (k + 3) by lia. }
  intros [w1 r] (own1 & s1 & HL1 & Hq1 & Hs1 & Hr).
  pose proof (st_fd _ _ _ Hs1) as Hf.
  destruct r; [rewrite decide_False in HL1 by done ..|rewrite decide_True in HL1 by done].
  - eapply (send_error_wp _ k); [|done|done|done]. eapply local_room; [exact HL1|lia].
  - exists own1, s1, q. split_and!; [eapply local_room; [exact HL1|lia]|done|by left].
  - eapply wp_bind.
    { rewrite <- (Hf d). eapply send_unblock_wp; [|exact HL1|by rewrite Hf| |done]; [lia|].
      rewrite Hf. intros Hpn. apply Hp. by eapply st_needed. }
    intros [w2 e] [-> (s2 & HL2 & Hq2 & Hs2)]. cbn [Z.eqb negb].
    pose proof (st_fd _ _ _ Hs2) as Hf2.
    eapply wp_bind.
    { rewrite <- (Hf d), <- (Hf2 d). eapply send_shutdown_wp; [|exact HL2|by rewrite Hf2, Hf|done]. lia. }
    intros [w3 e] [-> (s3 & HL3 & Hq3 & Hs3)]. cbn [Z.eqb negb].
    exists own1, s3, q. split_and!; [eapply local_room; [exact HL3|lia]|done|].
    left. split; [done|]. eapply sent_trans; [done|]. by eapply sent_trans.
Qed.

(** ** Releasing a connection and a session *)
Lemma free_queue_wp k q items own w s :
  local own k q w s -> NoDup items -> (forall x, x ∈ items -> x ∈ own) ->
  wp (free_queue w i items) (fun w' => exists n,
    local (own ∖ list_to_set items) k q w' (s_set_nalloced s n)).
Proof.
  revert own w s. induction items as [|it items IH]; intros own w s HL Hnd Hin; simpl.
  - exists (s_nalloced s). rewrite difference_empty_L. by destruct s.
  - apply NoDup_cons in Hnd as [Hni Hnd].
    eapply wp_bind; [eapply pkt_free_wp; [exact HL|apply Hin; left]|]. intros w1 HL1.
    eapply wp_mono; [eapply IH; [exact HL1|done|]|].
    + intros x Hx. apply elem_of_difference. split; [apply Hin; by right|]. rewrite elem_of_singleton. by intros ->.
    + intros w2 [n HL2]. exists n. by rewrite difference_difference_l_L in HL2.
Qed.

(** The descriptor of [d] is closed: no item keeps the connection as its
    argument. *)
Definition unmapped w d : Prop :=
  forall fd fi, 0 <= fd -> fe_maps (w_fe w) !! Z.to_nat fd = Some fi -> fi_arg fi <> Some (i, d).

(** What [conn_free] leaves: the connection without packets and descriptor. *)
Record freed s s' (d : bool) : Prop := {
  fr_in : c_in (s_conn s' d) = [];
  fr_out : c_out (s_conn s' d) = [];
  fr_fd : c_fd (s_conn s' d) < 0;
  fr_peer : s_conn s' (negb d) = s_conn s (negb d);
  fr_bodies : s_request s' = s_request s /\ s_response s' = s_response s
}.

Lemma sess_pkts_split s d :
  sess_pkts s ≡ₚ c_in (s_conn s d) ++ c_out (s_conn s d) ++ c_in (s_conn s (negb d)) ++ c_out (s_conn s (negb d)) ++
                 s_request s ++ s_response s.
Proof. unfold sess_pkts. destruct d; simpl; solve_Permutation. Qed.

(** A new descriptor for a connection that no item names. *)
Lemma refd_ok own k q w s d fd ssl :
  local own k q w s -> unmapped w d ->
  let s' := s_set_conn s d (set_cfd (s_conn s d) fd ssl) in
  local own k q (put_sess w i s') s'.
Proof.
  intros [L1 L2 L3 L4 L5 L6 L7 L8 L9 L10] Hu s'. constructor; simpl; try done.
  - by rewrite L1, insert_insert_eq.
  - intros fd' fi c H1 H2 H3. destruct (L9 _ _ _ H1 H2 H3) as (Hp & t & Ht & Hc). split; [done|].
    rewrite L1 in Ht |- *. rewrite insert_insert_eq.
    apply lookup_insert_Some in Ht as [[Hi <-]|[Hne Ht]]; [|exists t; by rewrite lookup_insert_ne].
    exists s'. rewrite <- Hi, lookup_insert_eq. split; [done|]. unfold s'. rewrite s_conn_set.
    rewrite decide_False; [done|]. intros Hd. destruct (Hu fd' fi H1 H2). rewrite H3. destruct c; simpl in *; congruence.
Qed.

Lemma refd_wp own k q w s d fd :
  local own k q w s -> unmapped w d ->
  wp (upd_conn w (i, d) (fun x => set_cfd x fd (c_ssl x)))
    (fun w' => local own k q w' (s_set_conn s d (set_cfd (s_conn s d) fd (c_ssl (s_conn s d))))).
Proof.
  intros HL Hu. unfold upd_conn, upd_sess. simpl. rewrite (get_sess_ok _ _ _ _ _ _ _ _ _ _ HL). by apply refd_ok.
Qed.

(** A connection without a descriptor is nobody's callback argument. *)
Lemma closed_unmapped own k q w s d :
  local own k q w s -> c_fd (s_conn s d) < 0 -> unmapped w d.
Proof.
  intros HL Hc fd fi H1 H2 H3. destruct (l_args _ _ _ _ _ _ _ _ _ _ HL _ _ _ H1 H2 H3) as (Hp & t & Ht & Hf).
  rewrite (l_sess _ _ _ _ _ _ _ _ _ _ HL) in Ht. simpl in *. rewrite lookup_insert_eq in Ht. simplify_eq. lia.
Qed.

Lemma zero_unmapped own k q w s d :
  local own k q w s -> fe_maps (w_fe w) !! Z.to_nat (c_fd (s_conn s d)) = Some zero_item -> unmapped w d.
Proof.
  intros HL Hz fd fi H1 H2 H3. destruct (l_args _ _ _ _ _ _ _ _ _ _ HL _ _ _ H1 H2 H3) as (Hp & t & Ht & Hf).
  rewrite (l_sess _ _ _ _ _ _ _ _ _ _ HL) in Ht. simpl in *. rewrite lookup_insert_eq in Ht. simplify_eq.
Qed.

(** The close part of [conn_free]. *)
Definition conn_close (w : worker_t P obj K) (d : bool) (fd : Z) : res (worker_t P obj K) :=
  if 0 <? fd then
    do _ <- map_item (w_fe w) fd;
    do fe <- set_item (w_fe w) fd zero_item;
    upd_conn (emit (set_fe w fe) (EClose fd)) (i, d) (fun x => set_cfd x (-1) (c_ssl x))
  else Ok w.

Lemma conn_close_wp own k q w s d :
  local own k q w s -> c_fd (s_conn s d) < 0 \/ 0 < c_fd (s_conn s d) < M ->
  wp (conn_close w d (c_fd (s_conn s d))) (fun w' => exists fd, fd < 0 /\
    local own k q w' (s_set_conn s d (set_cfd (s_conn s d) fd (c_ssl (s_conn s d))))).
Proof.
  intros HL Hfd. unfold conn_close. destruct (Z.ltb_spec 0 (c_fd (s_conn s d))) as [Hpos|Hneg].
  - destruct Hfd as [?|Hfd]; [lia|].
    eapply wp_bind; [by eapply map_item_wp|]. intros fi _.
    destruct (set_item_ok _ _ _ _ _ _ _ _ _ _ _ zero_item HL Hfd) as [-> HL1]; [done|]. cbn [bind].
    assert (Hu : unmapped (set_fe w (fe_set_maps (w_fe w) (<[Z.to_nat (c_fd (s_conn s d)) := zero_item]> (fe_maps (w_fe w))))) d).
    { eapply zero_unmapped; [exact HL1|]. simpl. apply list_lookup_insert_eq.
      destruct (l_fe _ _ _ _ _ _ _ _ _ _ HL). lia. }
    eapply (emit_ok _ _ _ _ _ _ _ _ _ _ (EClose (c_fd (s_conn s d)))) in HL1.
    eapply wp_mono; [eapply (refd_wp _ _ _ _ _ d (-1) HL1 Hu)|]. intros w' HL'. exists (-1). split; [lia|]. exact HL'.
  - exists (c_fd (s_conn s d)). split; [lia|].
    replace (s_set_conn _ _ _) with s; [done|]. destruct s as [[] [] ? ? ? ?], d; reflexivity.
Qed.

Lemma conn_free_wp own k q w s d :
  local own k q w s -> queued s own -> c_fd (s_conn s d) < 0 \/ 0 < c_fd (s_conn s d) < M ->
  wp (conn_free w (i, d)) (fun w' => exists own' s', local own' k q w' s' /\ queued s' own' /\ freed s s' d).
Proof.
  intros HL [Hnd Hq] Hfd. pose proof (sess_pkts_split s d) as Hsp.
  assert (Hnd' := Hnd). rewrite Hsp in Hnd'. apply NoDup_app in Hnd' as (Hn1 & Hd1 & Hnd').
  apply NoDup_app in Hnd' as (Hn2 & Hd2 & Hn3).
  unfold conn_free. simpl. rewrite (get_conn_ok _ _ _ _ _ _ _ _ _ _ d HL). cbn [bind].
  eapply wp_bind; [eapply free_queue_wp; [exact HL|done|]|].
  { intros x Hx. apply Hq. rewrite Hsp, elem_of_app. by left. }
  intros w1 [n1 HL1].
  eapply wp_bind; [eapply upd_conn_wp; [exact HL1|done]|]. intros w2 HL2. cbv beta in HL2.
  eapply wp_bind; [eapply free_queue_wp; [exact HL2|done|]|].
  { intros x Hx. apply elem_of_difference. split.
    - apply Hq. rewrite Hsp, !elem_of_app. by right; left.
    - rewrite elem_of_list_to_set. intros Hx'. apply (Hd1 x Hx'). rewrite !elem_of_app. by left. }
  intros w3 [n3 HL3].
  eapply wp_bind; [eapply upd_conn_wp; [exact HL3|done]|]. intros w4 HL4. cbv beta in HL4.
  match type of HL4 with local _ _ _ _ ?t => set (s4 := t) in HL4 end.
  assert (Hf4 : c_fd (s_conn s4 d) = c_fd (s_conn s d)) by (unfold s4; by destruct d).
  change (wp (do w' <- conn_close w4 d (c_fd (s_conn s d)); upd_conn w' (i, d) (fun x => set_ctask x TASK_NONE))
    (fun w' => exists own' s', local own' k q w' s' /\ queued s' own' /\ freed s s' d)).
  eapply wp_bind; [rewrite <- Hf4; eapply conn_close_wp; [exact HL4|by rewrite Hf4]|].
  intros w5 (fd & Hneg & HL5).
  eapply wp_mono; [eapply upd_conn_wp; [exact HL5|done]|]. intros w6 HL6. cbv beta in HL6.
  eexists _, _. split_and!; [exact HL6| |].
  - split.
    + rewrite (sess_pkts_split _ d). by destruct d.
    + intros x. rewrite !elem_of_difference, <- Hq, !elem_of_list_to_set, Hsp.
      rewrite (sess_pkts_split _ d). rewrite !elem_of_app.
      pose proof (Hd1 x) as D1. pose proof (Hd2 x) as D2. rewrite !elem_of_app in D1. rewrite !elem_of_app in D2.
      destruct d; simpl in *; rewrite ?elem_of_nil; tauto.
  - constructor; by destruct d.
Qed.

(** The worker once the session is gone. *)
Record gone (k : Z) (q : list cid) w : Prop := {
  g_sess : w_sess w = delete i S0;
  g_pool : pool_inv (w_pktpool w);
  g_live : pool_live (w_pktpool w) = R;
  g_rest it : it ∈ R -> w_pkts w !! it = m0 !! it;
  g_fe : fe_ok M k (w_fe w);
  g_args : args_ok (w_fe w) (w_sess w);
  g_taskq : w_taskq w = q
}.

Lemma delete_gone own k q w s :
  local own k q w s -> own = ∅ -> (forall d, c_fd (s_conn s d) < 0) ->
  gone k q (set_sess w (delete i (w_sess w))).
Proof.
  intros HL -> Hfd. pose proof HL as [L1 L2 L3 L4 L5 L6 L7 L8 L9 L10]. constructor; simpl; try done.
  - by rewrite L1, delete_insert_eq.
  - rewrite L3. by rewrite union_empty_r_L.
  - intros fd fi [j d] H1 H2 H3. destruct (L9 _ _ _ H1 H2 H3) as (Hp & t & Ht & Hc). split; [done|].
    simpl in *. exists t. split; [|done]. apply lookup_delete_Some. split; [|done]. intros <-.
    by destruct (closed_unmapped _ _ _ _ _ d HL (Hfd d) fd fi H1 H2).
Qed.

Lemma session_free_wp own k q w s d :
  local own k q w s -> queued s own -> (forall d', c_fd (s_conn s d') < 0 \/ 0 < c_fd (s_conn s d') < M) ->
  s_request s = [] -> s_response s = [] ->
  wp (session_free w (i, d)) (fun w' =>
    if bool_decide ((i, negb d) ∈ q) then exists own' s', local own' k q w' s' /\ queued s' own' /\
      c_fd (s_conn s' d) < 0 /\ c_in (s_conn s' d) = [] /\ c_out (s_conn s' d) = [] /\
      s_conn s' (negb d) = set_ctask (s_conn s (negb d)) TASK_DELETE /\ s_request s' = [] /\ s_response s' = []
    else gone k q w').
Proof.
  intros HL Hq Hfd Hrq Hrs. unfold session_free.
  eapply wp_bind; [eapply conn_free_wp; [exact HL|done|apply Hfd]|]. intros w1 (own1 & s1 & HL1 & Hq1 & [F1 F2 F3 F4 [F5 F6]]).
  unfold task_in_queue, peer_of. cbn [fst snd]. rewrite (l_taskq _ _ _ _ _ _ _ _ _ _ HL1).
  case_bool_decide as Hin.
  - eapply wp_mono; [eapply upd_conn_wp; [exact HL1|done]|]. intros w2 HL2. cbv beta in HL2.
    eexists own1, _. split_and!; [exact HL2|by apply queued_set_conn| | | | | | ].
    1-3: rewrite s_conn_set, decide_False by (by destruct d); done.
    + rewrite s_conn_set, decide_True by done. by rewrite F4.
    + simpl. congruence.
    + simpl. congruence.
  - eapply wp_bind; [eapply conn_free_wp; [exact HL1|done|rewrite F4; apply Hfd]|].
    intros w2 (own2 & s2 & HL2 & [Hnd2 Hq2] & [G1 G2 G3 G4 [G5 G6]]). rewrite negb_involutive in G4.
    rewrite (get_sess_ok _ _ _ _ _ _ _ _ _ _ HL2). cbn [bind].
    assert (own2 = ∅) as ->.
    { apply set_eq. intros x. rewrite <- Hq2, (sess_pkts_split _ d), G1, G2, G4, F1, F2, G5, G6, F5, F6, Hrq, Hrs. set_solver. }
    pose proof (l_count _ _ _ _ _ _ _ _ _ _ HL2) as Hn. rewrite size_empty in Hn. rewrite Hn. cbn [Z.eqb Z.of_nat].
    cbv zeta. cbn [wp].
    apply (emit_ok _ _ _ _ _ _ _ _ _ _ (EPolicyFree i)) in HL2.
    assert (Hcl : forall d', c_fd (s_conn s2 d') < 0).
    { intros d'. destruct (decide (d' = d)) as [->|]; [by rewrite G4|]. by replace d' with (negb d) by (by destruct d, d'). }
    destruct (s_svrdata s2).
    + apply (emit_ok _ _ _ _ _ _ _ _ _ _ (ESvrFree i)) in HL2. by eapply delete_gone.
    + by eapply delete_gone.
Qed.

(** ** The steps of [session_run_task] *)
Lemma has_blocked_lor s d f :
  Z.land f CONN_F_BLOCKED = 0 ->
  has (Z.lor (c_flags (s_conn s d)) f) CONN_F_BLOCKED = has (c_flags (s_conn s d)) CONN_F_BLOCKED.
Proof. apply has_lor_ne. Qed.

(** [session_forward] towards [d]. *)
Record forwarded s s' (d : bool) : Prop := {
  fw_peer : s_conn s' (negb d) = s_conn s (negb d);
  fw_task : c_task (s_conn s' d) = c_task (s_conn s d);
  fw_in : c_in (s_conn s' d) = c_in (s_conn s d);
  fw_out : c_out (s_conn s' d) = c_out (s_conn s d) ++ (if d then s_request s else s_response s);
  fw_blocked : has (c_flags (s_conn s' d)) CONN_F_BLOCKED = has (c_flags (s_conn s d)) CONN_F_BLOCKED;
  fw_fd : 0 < c_fd (s_conn s d) -> c_fd (s_conn s' d) = c_fd (s_conn s d);
  fw_bodies : s_request s' = (if d then [] else s_request s) /\ s_response s' = (if d then s_response s else [])
}.

Lemma session_join_wp own k q w s d :
  local own k q w s -> queued s own ->
  wp (session_join w (i, d)) (fun w' => exists s', local own k q w' s' /\ queued s' own /\ forwarded s s' d /\
    c_fd (s_conn s' d) = c_fd (s_conn s d)).
Proof.
  intros HL [Hnd Hq]. unfold session_join. simpl. rewrite (get_sess_ok _ _ _ _ _ _ _ _ _ _ HL). cbn [bind wp].
  eexists. split_and!.
  - eapply put_sess_ok; [exact HL| |]; [by destruct d|by destruct d; intros []].
  - set (s' := s_set_conn _ _ _).
    assert (Hp : sess_pkts s' ≡ₚ sess_pkts s) by (unfold sess_pkts, s'; destruct d; simpl; solve_Permutation).
    split; [by rewrite Hp|]. intros x. by rewrite Hp.
  - constructor; by destruct d.
  - by destruct d.
Qed.

Lemma session_fparse_wp own k q w s d :
  local own k q w s -> queued s own ->
  wp (session_fparse w (i, d)) (fun w' => exists s', local own k q w' s' /\ queued s' own /\
    s_conn s' (negb d) = s_conn s (negb d) /\ s_conn s' d = set_queues (s_conn s d) [] (c_out (s_conn s d)) /\
    s_request s' = (if d then s_request s else s_request s ++ c_in (s_conn s d)) /\
    s_response s' = (if d then s_response s ++ c_in (s_conn s d) else s_response s)).
Proof.
  intros HL [Hnd Hq]. unfold session_fparse. simpl. rewrite (get_sess_ok _ _ _ _ _ _ _ _ _ _ HL). cbn [bind wp].
  eexists. split_and!.
  - eapply put_sess_ok; [exact HL| |]; [by destruct d|by destruct d; intros []].
  - set (s' := s_set_conn _ _ _).
    assert (Hp : sess_pkts s' ≡ₚ sess_pkts s) by (unfold sess_pkts, s'; destruct d; simpl; solve_Permutation).
    split; [by rewrite Hp|]. intros x. by rewrite Hp.
  - by destruct d.
  - by destruct d.
  - by destruct d.
  - by destruct d.
Qed.

Lemma session_get_server_wp own k q w s d :
  local own k q w s -> queued s own ->
  wp (session_get_server X w (i, d)) (fun '(w', e) => exists s', local own k q w' s' /\ queued s' own /\
    c_fd (s_conn s' d) = c_fd (s_conn s d) /\ c_in (s_conn s' d) = c_in (s_conn s d) /\
    c_out (s_conn s' d) = c_out (s_conn s d) /\ c_flags (s_conn s' d) = c_flags (s_conn s d) /\
    c_task (s_conn s' d) = c_task (s_conn s d) /\
    s_conn s' (negb d) = s_conn s (negb d) /\ s_request s' = s_request s /\ s_response s' = s_response s).
Proof.
  intros HL Hq. unfold session_get_server. simpl. apply tick_ok in HL.
  destruct (x_server X (w_io w)) as [| |ssl].
  - exists s. split_and!; done.
  - unfold upd_sess. rewrite (get_sess_ok _ _ _ _ _ _ _ _ _ _ HL). cbn [bind wp].
    eexists. split_and!; [eapply put_sess_ok; [exact HL|done|by intros []]|exact Hq|..]; by destruct d.
  - unfold upd_sess. rewrite (get_sess_ok _ _ _ _ _ _ _ _ _ _ HL). cbn [bind].
    eapply (put_sess_ok _ _ _ _ _ _ _ _ _ _ (s_set_svrdata s true)) in HL; [|done|by intros []].
    destruct ssl.
    + eapply wp_bind; [eapply upd_conn_wp; [exact HL|done]|]. intros w1 HL1. cbv beta in HL1.
      eexists. split_and!; [exact HL1|apply queued_set_conn; [by destruct d|by destruct d|exact Hq]|..]; by destruct d.
    + eexists. split_and!; [exact HL|exact Hq|..]; by destruct d.
Qed.

Lemma forwarded_trans s s1 s2 d :
  forwarded s s1 d -> s_conn s2 (negb d) = s_conn s1 (negb d) -> c_task (s_conn s2 d) = c_task (s_conn s1 d) ->
  c_in (s_conn s2 d) = c_in (s_conn s1 d) -> c_out (s_conn s2 d) = c_out (s_conn s1 d) ->
  has (c_flags (s_conn s2 d)) CONN_F_BLOCKED = has (c_flags (s_conn s1 d)) CONN_F_BLOCKED ->
  (0 < c_fd (s_conn s1 d) -> c_fd (s_conn s2 d) = c_fd (s_conn s1 d)) ->
  s_request s2 = s_request s1 -> s_response s2 = s_response s1 -> forwarded s s2 d.
Proof.
  intros [F1 F2 F3 F4 F5 F6 [F7 F8]] G1 G2 G3 G4 G5 G6 G7 G8.
  constructor; try congruence; [|split; congruence].
  intros Hp. rewrite <- F6 by done. apply G6. by rewrite F6.
Qed.

(** The event a new connection waits for first. *)
Lemma first_event_wp own k q w s d fd (wait : bool) :
  1 <= k -> local own k q w s -> queued s own -> 0 < fd < M ->
  wp (if wait then do w <- add_flags w (i, d) CONN_F_HSK; add_event w fd FD_OUT (Some cb_handshake)
      else if c_ssl (s_conn s d) then
        let r := x_ssl_set_fd X (w_io w) in
        let w := tick w in
        if negb (r =? 0) then Ok (w, -1) else
        do w <- add_flags w (i, d) CONN_F_SSLHSK; add_event w fd FD_OUT (Some cb_handshake)
      else add_event w fd FD_IN (Some cb_recv))
    (fun '(w', rc) => exists f, let s' := s_set_conn s d (set_cflags (s_conn s d) f) in
       local own (k - 1) q w' s' /\ queued s' own /\
       has f CONN_F_BLOCKED = has (c_flags (s_conn s d)) CONN_F_BLOCKED).
Proof.
  intros Hk HL Hq Hfd.
  assert (Hid : s_set_conn s d (set_cflags (s_conn s d) (c_flags (s_conn s d))) = s)
    by (destruct s as [[] [] ? ? ? ?], d; reflexivity).
  assert (Hflag : forall f w1, Z.land f CONN_F_BLOCKED = 0 -> local own k q w1 s ->
    wp (do w <- add_flags w1 (i, d) f; add_event w fd FD_OUT (Some cb_handshake))
      (fun '(w', rc) => exists f, let s' := s_set_conn s d (set_cflags (s_conn s d) f) in
       local own (k - 1) q w' s' /\ queued s' own /\
       has f CONN_F_BLOCKED = has (c_flags (s_conn s d)) CONN_F_BLOCKED)).
  { intros f w1 Hf HL1. eapply wp_bind; [by eapply add_flags_wp|]. intros w2 HL2. cbv beta in HL2.
    eapply wp_mono; [eapply add_event_wp; [exact HL2|done|lia]|]. intros [w3 rc] [_ HL3].
    eexists. split_and!; [exact HL3|by apply queued_set_conn|by apply has_lor_ne]. }
  destruct wait; [by apply Hflag|]. destruct (c_ssl _).
  - cbv zeta. destruct (negb (x_ssl_set_fd X (w_io w) =? 0)).
    + exists (c_flags (s_conn s d)). cbv zeta. rewrite Hid. split_and!; [|done|done].
      eapply local_room; [by apply tick_ok|lia].
    + apply Hflag; [done|by apply tick_ok].
  - eapply wp_mono; [eapply add_event_wp; [exact HL|done|lia]|]. intros [w3 rc] [_ HL3].
    exists (c_flags (s_conn s d)). cbv zeta. rewrite Hid. done.
Qed.

Lemma session_forward_wp own k q w s d :
  1 <= k -> local own k q w s -> queued s own -> c_fd (s_conn s d) < 0 \/ 0 < c_fd (s_conn s d) < M ->
  wp (session_forward X w (i, d)) (fun '(w', e) => exists s', local own (k - 1) q w' s' /\ queued s' own /\
    forwarded s s' d /\ (c_fd (s_conn s' d) < 0 \/ 0 < c_fd (s_conn s' d) < M) /\
    (e = 0 -> 0 < c_fd (s_conn s' d))).
Proof.
  intros Hk HL Hq Hfd. unfold session_forward.
  eapply wp_bind; [by eapply session_join_wp|]. intros w1 (s1 & HL1 & Hq1 & Hf1 & Hfd1).
  rewrite (get_conn_ok _ _ _ _ _ _ _ _ _ _ d HL1). cbn [bind]. rewrite Hfd1.
  destruct (Z.ltb_spec 0 (c_fd (s_conn s d))) as [Hpos|Hneg].
  { exists s1. rewrite Hfd1. split_and!; [eapply local_room; [exact HL1|lia]|done|done|done|lia]. }
  eapply wp_bind; [by eapply session_get_server_wp|].
  intros [w2 e] (s2 & HL2 & Hq2 & E1 & E2 & E3 & E4 & E5 & E6 & E7 & E8).
  assert (Hf2 : forwarded s s2 d) by (eapply forwarded_trans; [exact Hf1|congruence..]).
  destruct (Z.eqb_spec e 0) as [->|He]; cbn [negb].
  2:{ exists s2. rewrite E1, Hfd1. split_and!; [eapply local_room; [exact HL2|lia]|done|done|lia|done]. }
  pose proof (env_connect _ _ HX (w_io w2)) as Hc. destruct (x_connect X (w_io w2)) as [fd wait]. simpl in Hc.
  apply tick_ok in HL2. cbv zeta.
  assert (Hu : unmapped (tick w2) d) by (eapply closed_unmapped; [exact HL2|lia]).
  eapply wp_bind; [by eapply refd_wp|]. intros w3 HL3. cbv beta in HL3.
  set (s3 := s_set_conn s2 d _) in HL3.
  assert (Hc3 : c_fd (s_conn s3 d) = fd) by (unfold s3; by destruct d).
  assert (Hq3 : queued s3 own) by (by apply queued_set_conn).
  assert (Hf3 : forwarded s s3 d).
  { eapply forwarded_trans; [exact Hf2|..]; unfold s3; destruct d; try done; simpl in *; lia. }
  destruct (Z.ltb_spec fd 0) as [Hlt|Hge].
  { exists s3. rewrite Hc3. split_and!; [eapply local_room; [exact HL3|lia]|done|done|lia|done]. }
  destruct Hc as [?|Hc]; [lia|].
  eapply wp_bind; [by eapply map_item_wp|]. intros fi _.
  destruct (set_item_ok _ _ _ _ _ _ _ _ _ _ _ (fi_set_arg zero_item FD_READY (Some (i, d))) HL3 Hc) as [-> HL4].
  { intros c [= <-]. exists s3. simpl. rewrite (l_sess _ _ _ _ _ _ _ _ _ _ HL3), lookup_insert_eq. done. }
  cbn [bind]. rewrite (get_conn_ok _ _ _ _ _ _ _ _ _ _ d HL4). cbn [bind].
  eapply wp_bind; [by eapply (first_event_wp _ k)|]. intros [w5 rc] (f & HL5 & Hq5 & Hb5).
  eexists. split_and!; [exact HL5|exact Hq5| | |].
  - eapply forwarded_trans; [exact Hf3|..]; destruct d; done.
  - right. by destruct d; simpl; rewrite <- Hc3.
  - intros _. replace (c_fd _) with fd; [lia|]. by destruct d; simpl; rewrite <- Hc3.
Qed.
End Handlers.
End ConnSafe.
