(* ===== verification/ConnCallbacks.v ===== *)
(** * The callbacks of a connection keep the local invariant

    conn_recv_data, conn_handshake, conn_shutdown and conn_send_data as the
    descriptor map calls them: each returns, and either leaves the task queue
    alone or appends its connection. *)
From S2P Require Import Prelude ObjPool FdEpoll Conn ConnProofs ConnSafe.

Module ConnCallbacks.
Import FdEpoll Conn ConnProofs ConnSafe.

Section Callbacks.
Context {P obj K : Type} `{Countable obj} `{!ObjPoolSpec P obj}.
Context (M : Z) (X : externals) (HX : env_ok M X).
Context (R : gset obj) (m0 : gmap obj packet_t) (S0 : gmap positive (session_t obj)) (i : positive).
Implicit Types (w : worker_t P obj K) (s : session_t obj) (cn : connection_t obj) (own : gset obj).

Abbreviation local := (local M R m0 S0 i).

(** What a handler of connection [d] leaves alone. *)
Record handled s s' (d : bool) : Prop := {
  h_fd d' : c_fd (s_conn s' d') = c_fd (s_conn s d');
  h_task d' : c_task (s_conn s' d') = c_task (s_conn s d');
  h_peer : s_conn s' (negb d) = s_conn s (negb d);
  h_bodies : s_request s' = s_request s /\ s_response s' = s_response s;
  h_needed : peer_needed s' d -> peer_needed s d
}.

Lemma sent_handled s s' d : sent s s' d -> handled s s' d.
Proof. by intros []. Qed.
Lemma handled_refl s d : handled s s d.
Proof. by constructor. Qed.
Lemma handled_trans s1 s2 s3 d : handled s1 s2 d -> handled s2 s3 d -> handled s1 s3 d.
Proof.
  intros [A1 A2 A3 A4 A5] [B1 B2 B3 B4 B5].
  constructor; try (intros d'; congruence); [congruence|intuition congruence|auto].
Qed.

Lemma handled_set s d cn :
  c_fd cn = c_fd (s_conn s d) -> c_task cn = c_task (s_conn s d) -> c_out cn = c_out (s_conn s d) ->
  (has (c_flags cn) CONN_F_BLOCKED = true -> has (c_flags (s_conn s d)) CONN_F_BLOCKED = true) ->
  handled s (s_set_conn s d cn) d.
Proof.
  intros H1 H2 H3 H4. constructor.
  1,2: intros d'; rewrite s_conn_set; case_decide; congruence.
  - rewrite s_conn_set, decide_False; [done|by destruct d].
  - done.
  - unfold peer_needed. rewrite s_conn_set, decide_True, H3 by done. naive_solver.
Qed.

Lemma handled_nalloced s n d : handled s (s_set_nalloced s n) d.
Proof. constructor; try (by intros []); by destruct d. Qed.

Definition flags_set s d f := s_set_conn s d (set_cflags (s_conn s d) f).

Lemma add_flags_handled own k q w s d f :
  local own k q w s -> queued s own -> Z.land f CONN_F_BLOCKED = 0 ->
  wp (add_flags w (i, d) f) (fun w' => exists s', local own k q w' s' /\ queued s' own /\ handled s s' d /\
    c_in (s_conn s' d) = c_in (s_conn s d)).
Proof.
  intros HL Hq Hf. eapply wp_mono; [by eapply add_flags_wp|]. intros w' HL'. eexists.
  split_and!; [exact HL'|by apply queued_set_conn| |by destruct d].
  apply handled_set; try done. simpl. by rewrite has_lor_ne.
Qed.

Lemma del_flags_handled own k q w s d f :
  local own k q w s -> queued s own ->
  wp (del_flags w (i, d) f) (fun w' => exists s', local own k q w' s' /\ queued s' own /\ handled s s' d).
Proof.
  intros HL Hq. eapply wp_mono; [by eapply del_flags_wp|]. intros w' HL'. eexists.
  split_and!; [exact HL'|by apply queued_set_conn|]. apply handled_set; try done. apply has_ldiff_le.
Qed.

(** A callback leaves the queue alone, or queues its own connection. *)
Definition called s s' (d : bool) (q q' : list cid) : Prop :=
  (q' = q /\ handled s s' d) \/
  (q' = q ++ [(i, d)] /\ exists s1 t, handled s s1 d /\ s' = s_set_conn s1 d (set_ctask (s_conn s1 d) t)).

Lemma sent_called s s' d events q q' : sent_or_deleted i s s' d events q q' -> called s s' d q q'.
Proof.
  intros [[-> Hs]|(_ & -> & s1 & Hs & ->)]; [left|right].
  - split; [done|by apply sent_handled].
  - split; [done|]. exists s1, TASK_DELETE. split; [by apply sent_handled|done].
Qed.

Lemma queue_task_wp own k q w s s1 d t rc :
  local own k q w s1 -> queued s1 own -> handled s s1 d -> (i, d) ∉ q ->
  wp (queue_task w (i, d) t rc) (fun '(w', _) => exists own' s' q', local own' k q' w' s' /\ queued s' own' /\ called s s' d q q').
Proof.
  intros HL Hq Hh Hni. unfold queue_task.
  eapply wp_bind; [eapply upd_conn_wp; [exact HL|done]|]. intros w1 HL1. cbv beta in HL1.
  unfold task_in_queue, task_add_queue, task_in_queue. rewrite (l_taskq _ _ _ _ _ _ _ _ _ _ HL1), bool_decide_false by done.
  cbn [bind wp]. pose proof (l_taskq _ _ _ _ _ _ _ _ _ _ HL1) as Hw. rewrite <- Hw.
  apply (local_push _ _ _ _ _ _ _ _ _ _ (i, d) (w_ntask w1 + 1)) in HL1.
  eexists own, _, _. split_and!; [exact HL1|by apply queued_set_conn|].
  right. rewrite Hw. split; [done|]. eauto.
Qed.

(** ** Receiving *)
Lemma filter_remove_perm {A} `{EqDecision A} (l : list A) x :
  NoDup l -> x ∈ l -> l ≡ₚ x :: filter (fun y => y <> x) l.
Proof.
  induction 1 as [|y l Hy Hl IH]; [by intros ?%elem_of_nil|].
  intros [->|Hx]%elem_of_cons.
  - rewrite filter_cons_False by naive_solver. rewrite filter_all; [done|]. intros z Hz ->. done.
  - assert (y <> x) by (by intros ->). rewrite filter_cons_True by done. rewrite (IH Hx) at 1. constructor.
Qed.

Lemma queued_in_remove s own d it :
  queued s own -> it ∈ c_in (s_conn s d) ->
  let s' := s_set_conn s d (set_queues (s_conn s d) (filter (fun y => y <> it) (c_in (s_conn s d))) (c_out (s_conn s d))) in
  it ∈ own /\ queued s' (own ∖ {[it]}).
Proof.
  intros [Hnd Hq] Hit s'.
  assert (Hni : NoDup (c_in (s_conn s d))).
  { rewrite (sess_pkts_split s d) in Hnd. by apply NoDup_app in Hnd as (? & _). }
  assert (Hp : sess_pkts s ≡ₚ it :: sess_pkts s').
  { rewrite (sess_pkts_split s d), (sess_pkts_split s' d), (filter_remove_perm _ it Hni Hit) at 1.
    destruct d; simpl; done. }
  rewrite Hp in Hnd. apply NoDup_cons in Hnd as [Hn' Hnd]. split.
  - apply Hq. rewrite Hp. left.
  - split; [done|]. intros x. rewrite elem_of_difference, <- Hq, Hp, elem_of_cons, elem_of_singleton. naive_solver.
Qed.

Lemma recv_packet_wp own k q w s d :
  local own k q w s -> queued s own ->
  wp (recv_packet w (i, d)) (fun '(w', r) => exists own' s', local own' k q w' s' /\ queued s' own' /\ handled s s' d /\
    match r with
    | None => True
    | Some it => it ∈ c_in (s_conn s' d) /\ exists p, w_pkts w' !! it = Some p /\ pkt_wf p /\ pk_len p < pk_max p
    end).
Proof.
  intros HL Hq. unfold recv_packet. rewrite (get_conn_ok _ _ _ _ _ _ _ _ _ _ d HL). cbn [bind].
  assert (Halloc : wp (do (p, r) <- pool_get (w_pktpool w);
    let w := set_pkts w p (w_pkts w) in
    match r with
    | None => Ok (w, None)
    | Some it =>
        let w := set_pkts w p (<[it := PKT_INIT]> (w_pkts w)) in
        do w <- upd_conn w (i, d) (fun x => set_queues x (c_in x ++ [it]) (c_out x));
        do w <- upd_sess w (i, d).1 (fun s => s_set_nalloced s (s_nalloced s + 1));
        Ok (w, Some it)
    end) (fun '(w', r) => exists own' s', local own' k q w' s' /\ queued s' own' /\ handled s s' d /\
    match r with
    | None => True
    | Some it => it ∈ c_in (s_conn s' d) /\ exists p, w_pkts w' !! it = Some p /\ pkt_wf p /\ pk_len p < pk_max p
    end)).
  { destruct (pkt_get_ok _ _ _ _ _ _ _ _ _ _ HL) as (p & [it|] & -> & Hr); cbn [bind]; cbv zeta.
    2:{ exists own, s. split_and!; [done|done|apply handled_refl|done]. }
    destruct Hr as [Hni HL1]. simpl in HL1.
    unfold upd_conn, upd_sess, get_sess. simpl. rewrite (l_sess _ _ _ _ _ _ _ _ _ _ HL), lookup_insert_eq. cbn [bind deref].
    unfold get_sess, put_sess. simpl. rewrite lookup_insert_eq. cbn [bind deref wp].
    set (s1 := s_set_conn s d (set_queues (s_conn s d) (c_in (s_conn s d) ++ [it]) (c_out (s_conn s d)))).
    exists ({[it]} ∪ own), (s_set_nalloced s1 (s_nalloced s + 1)). split_and!.
    - eapply (put_sess_ok _ _ _ _ _ _ _ _ _ _ (s_set_nalloced s1 (s_nalloced s + 1))) in HL1; [|done|by destruct d; intros []].
      unfold put_sess in HL1. simpl in HL1. simpl. rewrite !insert_insert_eq in HL1 |- *. exact HL1.
    - destruct Hq as [Hnd Hq].
      assert (Hp : sess_pkts (s_set_nalloced s1 (s_nalloced s + 1)) ≡ₚ it :: sess_pkts s).
      { unfold sess_pkts, s1. destruct d; simpl; solve_Permutation. }
      split; [rewrite Hp; apply NoDup_cons; split; [by rewrite Hq|done]|].
      intros x. rewrite Hp, elem_of_union, elem_of_singleton, elem_of_cons, Hq. done.
    - eapply handled_trans; [|apply handled_nalloced]. by apply handled_set.
    - unfold s1. destruct d; simpl; rewrite elem_of_app; right; by left.
    - exists PKT_INIT. simpl. rewrite lookup_insert_eq. split; [done|]. unfold pkt_wf, PKT_INIT, MAX_PKTLEN. simpl. lia. }
  destruct (head (c_in (s_conn s d))) as [it|] eqn:Ehd; [|exact Halloc].
  assert (Hit : it ∈ c_in (s_conn s d)) by (destruct (c_in (s_conn s d)); simplify_eq/=; left).
  destruct (queued_in_remove s own d it Hq Hit) as [Hown _].
  destruct (l_pkts _ _ _ _ _ _ _ _ _ _ HL it Hown) as (p & Hp & Hwf). rewrite Hp. cbn [bind deref].
  destruct (Z.leb_spec (pk_max p) (pk_len p)); [exact Halloc|].
  exists own, s. split_and!; [done|done|apply handled_refl|done|]. eauto.
Qed.

Lemma raw_recv_ok own k q w s fd ssl len w' n bytes closed hsk :
  local own k q w s -> conn_raw_recv X w fd ssl len = (w', (n, bytes, closed, hsk)) ->
  local own k q w' s /\ w_pkts w' = w_pkts w /\ w_pktpool w' = w_pktpool w /\
  (0 <= n -> n <= len /\ Z.of_nat (length bytes) = n) /\
  (1 <= len -> ssl = true -> w_io w' = S (w_io w)).
Proof.
  intros HL. unfold conn_raw_recv, sk_recv. destruct (Z.ltb_spec len 1).
  { intros [= <- <- <- <- <-]. split_and!; try done; lia. }
  destruct ssl.
  { intros [= <- E]. split_and!; [by apply tick_ok|done|done| |done]. by eapply env_ssl_recv. }
  destruct (fd <? 0); cbn [orb]; [intros [= <- <- <- <- <-]; split_and!; try done; lia|].
  destruct (x_recv X (w_io w) fd len) as [[m errno] bs] eqn:E. pose proof (env_recv _ _ HX _ _ _ _ _ _ E) as Hr.
  destruct (Z.ltb_spec m 0); [destruct (_ || _)|]; intros [= <- <- <- <- <-];
    (split_and!; [by apply tick_ok|done|done| |done]); [simpl|..]; lia || by intros.
Qed.

Lemma pkt_append_wf p n bytes :
  pkt_wf p -> 0 <= n <= pk_max p - pk_len p -> Z.of_nat (length bytes) = n -> pkt_wf (pkt_append p n bytes).
Proof.
  intros (H1 & H2 & H3 & H4) Hn Hb. unfold pkt_wf, pkt_append, MAX_PKTLEN in *. simpl. rewrite length_app.
  rewrite u16_small by lia. split_and!; lia.
Qed.

(** The two optional steps of a pass: a new handshake, and the end of the
    peer's data. *)
Lemma recv_handshake_wp own k q w s d fd (hsk : bool) :
  1 <= k -> local own k q w s -> queued s own -> 0 < fd < M ->
  wp (if hsk then do w <- add_flags w (i, d) CONN_F_SSLHSK; add_event w fd FD_OUT (Some cb_handshake) else Ok (w, 0))
    (fun '(w', e) => e = 0 /\ exists s', local own (k - 1) q w' s' /\ queued s' own /\ handled s s' d /\
       c_in (s_conn s' d) = c_in (s_conn s d)).
Proof.
  intros Hk HL Hq Hfd. destruct hsk.
  - eapply wp_bind; [by eapply add_flags_handled|]. intros w1 (s1 & HL1 & Hq1 & Hh1 & Hi1).
    eapply wp_mono; [eapply add_event_wp; [exact HL1|done|lia]|]. intros [w2 e] [-> HL2]. split; [done|]. eauto.
  - split; [done|]. exists s. split_and!; [eapply local_room; [exact HL|lia]|done|apply handled_refl|done].
Qed.

Lemma recv_closed_wp own k q w s d fd (ssl b : bool) len it :
  1 <= k -> local own k q w s -> queued s own -> 0 < fd < M -> it ∈ c_in (s_conn s d) ->
  wp (if b then
        do w <- add_flags w (i, d) CONN_F_SHUTRD;
        do (w, e) <- (if ssl then
                        do w <- add_flags w (i, d) CONN_F_SSLSHUT;
                        add_event w fd FD_OUT (Some cb_shutdown)
                      else add_event w fd 0 None);
        if negb (e =? 0) then Ok (w, e) else
        if len =? 0 then
          do w <- upd_conn w (i, d) (fun x => set_queues x (filter (fun y => y <> it) (c_in x)) (c_out x));
          do w <- pkt_free w (i, d).1 it; Ok (w, 0)
        else Ok (w, 0)
      else Ok (w, 0))
    (fun '(w', e) => e = 0 /\ exists own' s', local own' (k - 1) q w' s' /\ queued s' own' /\ handled s s' d).
Proof.
  intros Hk HL Hq Hfd Hit. destruct b.
  2:{ split; [done|]. exists own, s. split_and!; [eapply local_room; [exact HL|lia]|done|apply handled_refl]. }
  eapply wp_bind; [by eapply add_flags_handled|]. intros w1 (s1 & HL1 & Hq1 & Hh1 & Hi1).
  eapply (wp_bind _ _ (fun '(w', e) => e = 0 /\ exists s', local own (k - 1) q w' s' /\ queued s' own /\ handled s s' d /\
    c_in (s_conn s' d) = c_in (s_conn s d))).
  { destruct ssl.
    - eapply wp_bind; [by eapply add_flags_handled|]. intros w2 (s2 & HL2 & Hq2 & Hh2 & Hi2).
      eapply wp_mono; [eapply add_event_wp; [exact HL2|done|lia]|]. intros [w3 e] [-> HL3]. split; [done|].
      exists s2. split_and!; [done|done|by eapply handled_trans|congruence].
    - eapply wp_mono; [eapply add_event_wp; [exact HL1|done|lia]|]. intros [w3 e] [-> HL3]. split; [done|]. eauto. }
  intros [w2 e] [-> (s2 & HL2 & Hq2 & Hh2 & Hi2)]. cbn [Z.eqb negb].
  destruct (len =? 0); [|split; [done|]; eauto].
  destruct (queued_in_remove s2 own d it Hq2) as [Hown Hq3]; [congruence|].
  eapply wp_bind; [eapply upd_conn_wp; [exact HL2|done]|]. intros w3 HL3. cbv beta in HL3.
  eapply wp_bind; [eapply pkt_free_wp; [exact HL3|done]|]. intros w4 HL4. cbv beta in HL4. split; [done|].
  eexists _, _. split_and!; [exact HL4|exact Hq3|].
  eapply handled_trans; [exact Hh2|]. eapply handled_trans; [|apply handled_nalloced]. by apply handled_set.
Qed.

Lemma recv_pass_wp own k q w s d fd events :
  2 <= k -> local own k q w s -> queued s own -> 0 < fd < M ->
  wp (recv_pass X w (i, d) fd events) (fun '(w', r) => exists own' s',
    local own' (k - 2) q w' s' /\ queued s' own' /\ handled s s' d).
Proof.
  intros Hk HL Hq Hfd. unfold recv_pass.
  eapply wp_bind; [by eapply recv_packet_wp|]. intros [w1 r] (own1 & s1 & HL1 & Hq1 & Hh1 & Hr).
  destruct r as [it|].
  2:{ exists own1, s1. split_and!; [eapply local_room; [exact HL1|lia]|done|done]. }
  destruct Hr as (Hit & p & Hp & Hwf & Hlt). rewrite Hp. cbn [bind deref].
  rewrite (get_conn_ok _ _ _ _ _ _ _ _ _ _ d HL1). cbn [bind].
  destruct (conn_raw_recv _ _ _ _ _) as [w2 [[[n bytes] closed] hsk]] eqn:E.
  destruct (raw_recv_ok _ _ _ _ _ _ _ _ _ _ _ _ _ HL1 E) as (HL2 & Ep & Epp & Hn & _).
  destruct (Z.ltb_spec n 0) as [Hn0|Hn0].
  { eapply wp_bind; [by eapply add_flags_handled|]. intros w3 (s3 & HL3 & Hq3 & Hh3 & _).
    exists own1, s3. split_and!; [eapply local_room; [exact HL3|lia]|done|by eapply handled_trans]. }
  destruct (Hn Hn0) as [Hle Hlen]. cbv zeta.
  destruct (queued_in_remove s1 own1 d it Hq1 Hit) as [Hown _].
  eapply (pkt_set_ok _ _ _ _ _ _ _ _ _ _ it (pkt_append p n bytes)) in HL2; [|done|by apply pkt_append_wf].
  eapply wp_bind; [eapply recv_handshake_wp; [|exact HL2|done|done]; lia|].
  intros [w4 e] [-> (s4 & HL4 & Hq4 & Hh4 & Hi4)]. cbn [Z.eqb negb].
  eapply wp_bind; [eapply recv_closed_wp; [|exact HL4|done|done|]; [lia|congruence]|].
  intros [w5 e] [-> (own5 & s5 & HL5 & Hq5 & Hh5)]. cbn [Z.eqb negb].
  assert (Hh : handled s s5 d) by (eapply handled_trans; [done|]; by eapply handled_trans).
  replace (k - 1 - 1) with (k - 2) in HL5 by lia.
  destruct (c_ssl _).
  - exists own5, s5. split_and!; [by apply tick_ok|done|done].
  - exists own5, s5. split_and!; done.
Qed.

(** ** External calls of one pass *)
Lemma upd_conn_io w c f w' : upd_conn w c f = Ok w' -> w_io w' = w_io w.
Proof. unfold upd_conn, upd_sess. intros (s & _ & [= <-])%bind_Ok. done. Qed.
Lemma add_event_io w fd ev cb w' e : add_event w fd ev cb = Ok (w', e) -> w_io w' = w_io w.
Proof. unfold add_event. intros ([fe rc] & _ & [= <- <-])%bind_Ok. done. Qed.
Lemma pkt_free_io w j it w' : pkt_free w j it = Ok w' -> w_io w' = w_io w.
Proof. unfold pkt_free, upd_sess. intros ([p z] & _ & (s & _ & [= <-])%bind_Ok)%bind_Ok. done. Qed.
Lemma recv_packet_io w c w' r : recv_packet w c = Ok (w', r) -> w_io w' = w_io w.
Proof.
  unfold recv_packet. intros (cn & _ & (full & _ & E)%bind_Ok)%bind_Ok. destruct full; [|by simplify_eq].
  apply bind_Ok in E as ([p [it|]] & _ & E); [|by simplify_eq].
  apply bind_Ok in E as (w1 & E1%upd_conn_io & E). unfold upd_sess in E.
  apply bind_Ok in E as (w2 & (s & _ & [= <-])%bind_Ok & [= <- <-]). done.
Qed.

(** A pass that is repeated made two external calls, and the second one
    reported pending data. *)
Lemma recv_pass_again w c fd events w' :
  recv_pass X w c fd events = Ok (w', RAgain) ->
  w_io w' = S (S (w_io w)) /\ x_ssl_pending X (S (w_io w)) = true.
Proof.
  unfold recv_pass. intros ([w1 [it|]] & E1%recv_packet_io & E)%bind_Ok; [|done].
  apply bind_Ok in E as (p & _ & E). apply bind_Ok in E as (cn & _ & E).
  unfold conn_raw_recv in E. destruct (pk_max p - pk_len p <? 1).
  { simpl in E. apply bind_Ok in E as (w2 & _ & [=]). }
  destruct (c_ssl cn) eqn:Es.
  2:{ destruct (sk_recv X w1 fd (pk_max p - pk_len p)) as [w2 [[n bytes] closed]].
      destruct (n <? 0); [apply bind_Ok in E as (w3 & _ & [=])|].
      apply bind_Ok in E as ([w3 e] & _ & E). destruct (negb _); [done|].
      apply bind_Ok in E as ([w4 e'] & _ & E). destruct (negb _); done. }
  destruct (x_ssl_recv X (w_io w1) (pk_max p - pk_len p)) as [[[n bytes] closed] hsk].
  destruct (n <? 0); [apply bind_Ok in E as (w3 & _ & [=])|]. cbv zeta in E.
  apply bind_Ok in E as ([w3 e] & E3 & E). destruct (negb (e =? 0)); [done|].
  apply bind_Ok in E as ([w4 e'] & E4 & E). destruct (negb (e' =? 0)); [done|].
  assert (Hio3 : w_io w3 = S (w_io w1)).
  { destruct hsk; [|by simplify_eq/=]. apply bind_Ok in E3 as (w5 & E5%upd_conn_io & E6%add_event_io).
    rewrite E6, E5. done. }
  assert (Hio4 : w_io w4 = w_io w3).
  { destruct (_ || _); [|by simplify_eq/=].
    apply bind_Ok in E4 as (w5 & E5%upd_conn_io & E6). apply bind_Ok in E6 as ([w6 e6] & E6 & E7).
    apply bind_Ok in E6 as (w8 & E8%upd_conn_io & E9%add_event_io).
    destruct (negb _); [simplify_eq/=; congruence|]. destruct (_ =? 0); [|simplify_eq/=; congruence].
    apply bind_Ok in E7 as (w9 & E10%upd_conn_io & E11). apply bind_Ok in E11 as (w10 & E12%pkt_free_io & E13).
    simplify_eq/=. congruence. }
  destruct (x_ssl_pending X (w_io w4)) eqn:Ep; simplify_eq/=. rewrite Hio4, Hio3, E1 in *. done.
Qed.

Lemma recv_loop_wp B own k q w s d fd events :
  (exists j, (j < B)%nat /\ x_ssl_pending X (S (w_io w) + 2 * j) = false) ->
  2 * Z.of_nat B <= k -> local own k q w s -> queued s own -> 0 < fd < M ->
  wp (recv_loop X B w (i, d) fd events) (fun '(w', r) => exists own' s',
    local own' (k - 2 * Z.of_nat B) q w' s' /\ queued s' own' /\ handled s s' d).
Proof.
  revert own k w s. induction B as [|B IH]; intros own k w s (j & Hj & Hpend) Hk HL Hq Hfd; [lia|].
  cbn [recv_loop]. pose proof (recv_pass_wp own k q w s d fd events ltac:(lia) HL Hq Hfd) as Hw.
  destruct (recv_pass X w (i, d) fd events) as [[w1 r]|] eqn:E; [|done]. cbn [bind wp] in *.
  destruct Hw as (own1 & s1 & HL1 & Hq1 & Hh1).
  destruct r; [exists own1, s1; split_and!; [eapply local_room; [exact HL1|lia]|done|done]| |
               exists own1, s1; split_and!; [eapply local_room; [exact HL1|lia]|done|done]].
  apply recv_pass_again in E as [Hio Hp]. eapply wp_mono.
  - eapply IH; [|shelve|exact HL1|done|done]. exists (j - 1)%nat.
    destruct j as [|j]; [rewrite Nat.add_0_r in Hpend; simpl in Hpend; congruence|].
    split; [lia|]. rewrite Hio. rewrite <- Hpend. f_equal. lia.
  - intros [w2 r] (own2 & s2 & HL2 & Hq2 & Hh2). exists own2, s2.
    split_and!; [eapply local_room; [exact HL2|lia]|done|by eapply handled_trans].
  Unshelve. lia.
Qed.

Definition callback_post (k : Z) (q : list cid) s d : (worker_t P obj K * Z) -> Prop :=
  fun '(w', _) => exists own' s' q', local own' k q' w' s' /\ queued s' own' /\ called s s' d q q'.

Lemma callback_same own k k' q w s s' d rc :
  local own k q w s' -> queued s' own -> handled s s' d -> k' <= k -> callback_post k' q s d (w, rc).
Proof. intros HL Hq Hh Hk. exists own, s', q. split_and!; [eapply local_room; [exact HL|lia]|done|]. by left. Qed.

Lemma queue_callback own k k' q w s s1 d t rc :
  local own k q w s1 -> queued s1 own -> handled s s1 d -> (i, d) ∉ q -> k' <= k ->
  wp (queue_task w (i, d) t rc) (callback_post k' q s d).
Proof. intros HL Hq Hh Hni Hk. eapply queue_task_wp; try done. eapply local_room; [exact HL|lia]. Qed.

Lemma conn_recv_data_wp B own k q w s d events :
  (forall n, exists j, (j < B)%nat /\ x_ssl_pending X (n + 2 * j) = false) ->
  2 * Z.of_nat B <= k -> local own k q w s -> queued s own -> 0 < c_fd (s_conn s d) < M -> (i, d) ∉ q ->
  wp (conn_recv_data X B w (c_fd (s_conn s d)) events (i, d)) (callback_post (k - 2 * Z.of_nat B) q s d).
Proof.
  intros HB Hk HL Hq Hfd Hni. unfold conn_recv_data. destruct (_ || _).
  { by eapply callback_same; [exact HL|done|apply handled_refl|lia]. }
  rewrite (get_conn_ok _ _ _ _ _ _ _ _ _ _ d HL). cbn [bind]. rewrite Z.eqb_refl.
  destruct (has _ _).
  { eapply wp_bind; [by eapply add_flags_handled|]. intros w1 (s1 & HL1 & Hq1 & Hh1 & _).
    eapply queue_callback; try done. lia. }
  eapply wp_bind; [by eapply recv_loop_wp|]. intros [w1 r] (own1 & s1 & HL1 & Hq1 & Hh1).
  destruct r; by eapply queue_callback.
Qed.

Lemma conn_send_callback own k q w s d events :
  3 <= k -> local own k q w s -> queued s own -> 0 < c_fd (s_conn s d) < M ->
  (peer_needed s d -> 0 < c_fd (s_conn s (negb d)) < M) -> (i, d) ∉ q ->
  wp (conn_send_data X w (c_fd (s_conn s d)) events (i, d)) (callback_post (k - 3) q s d).
Proof.
  intros Hk HL Hq Hfd Hp Hni. eapply wp_mono.
  - eapply (conn_send_data_wp _ _ HX _ _ _ _ own (k - 3)); try done; [lia| |by right].
    by replace (k - 3 + 3) with k by lia.
  - intros [w' e] (own' & s' & q' & HL' & Hq' & Hs). exists own', s', q'. split_and!; try done. by eapply sent_called.
Qed.

(** The wait of a handshake or a shutdown. *)
Lemma wait_wp own k q w s fd wait events :
  1 <= k -> local own k q w s -> 0 < fd < M ->
  wp (if wait_event wait events =? 0 then Ok (w, 0) else add_event w fd (wait_event wait events) (Some cb_handshake))
    (fun '(w', rc) => rc = 0 /\ local own (k - 1) q w' s).
Proof.
  intros Hk HL Hfd. destruct (_ =? 0); [|eapply add_event_wp; [exact HL|done|lia]].
  split; [done|]. eapply local_room; [exact HL|lia].
Qed.

Lemma conn_handshake_wp own k q w s d events :
  2 <= k -> local own k q w s -> queued s own -> 0 < c_fd (s_conn s d) < M -> (i, d) ∉ q ->
  wp (conn_handshake X w (c_fd (s_conn s d)) events (i, d)) (callback_post (k - 2) q s d).
Proof.
  intros Hk HL Hq Hfd Hni. unfold conn_handshake. destruct (_ || _).
  { by eapply callback_same; [exact HL|done|apply handled_refl|lia]. }
  rewrite (get_conn_ok _ _ _ _ _ _ _ _ _ _ d HL). cbn [bind]. rewrite Z.eqb_refl.
  destruct (has _ _).
  { eapply queue_callback; try done. lia. }
  eapply (wp_bind _ _ (fun '(w', e) => exists s', local own k q w' s' /\ queued s' own /\ handled s s' d)).
  { destruct (has _ _).
    2:{ exists s. split_and!; [done|done|apply handled_refl]. }
    apply tick_ok in HL. cbv zeta. destruct (_ <? 0).
    { eapply wp_bind; [by eapply add_flags_handled|]. intros w1 (s1 & HL1 & Hq1 & Hh1 & _). exists s1. done. }
    eapply wp_bind; [by eapply del_flags_handled|]. intros w1 (s1 & HL1 & Hq1 & Hh1).
    destruct (c_ssl _); [|exists s1; done].
    eapply wp_bind; [by eapply add_flags_handled|]. intros w2 (s2 & HL2 & Hq2 & Hh2 & _). exists s2.
    split_and!; [done|done|by eapply handled_trans]. }
  intros [w1 e] (s1 & HL1 & Hq1 & Hh1). destruct (negb (e =? 0)).
  { eapply queue_callback; try done. lia. }
  rewrite (get_conn_ok _ _ _ _ _ _ _ _ _ _ d HL1). cbn [bind].
  eapply (wp_bind _ _ (fun '(w', e) => exists s', local own (k - 1) q w' s' /\ queued s' own /\ handled s s' d)).
  { destruct (has _ _).
    2:{ exists s1. split_and!; [eapply local_room; [exact HL1|lia]|done|done]. }
    destruct (x_ssl_handshake _ _) as [r wait]. apply tick_ok in HL1. cbv zeta. destruct (negb (r =? 0)).
    { exists s1. split_and!; [eapply local_room; [exact HL1|lia]|done|done]. }
    eapply wp_bind; [eapply wait_wp; [|exact HL1|done]; lia|]. intros [w2 rc] [-> HL2]. cbn [Z.eqb negb].
    destruct (negb _); [exists s1; done|].
    eapply wp_bind; [by eapply del_flags_handled|]. intros w3 (s3 & HL3 & Hq3 & Hh3). exists s3.
    split_and!; [done|done|by eapply handled_trans]. }
  intros [w2 st] (s2 & HL2 & Hq2 & Hh2).
  destruct (st =? -1); [eapply queue_callback; try done; lia|].
  destruct (st =? 1); [eapply callback_same; try done; lia|].
  eapply wp_bind; [eapply add_event_wp; [exact HL2|done|lia]|]. intros [w3 rc] [-> HL3]. cbn [Z.eqb negb].
  eapply queue_callback; try done. lia.
Qed.

Lemma conn_shutdown_wp own k q w s d events :
  2 <= k -> local own k q w s -> queued s own -> 0 < c_fd (s_conn s d) < M -> (i, d) ∉ q ->
  wp (conn_shutdown X w (c_fd (s_conn s d)) events (i, d)) (callback_post (k - 2) q s d).
Proof.
  intros Hk HL Hq Hfd Hni. unfold conn_shutdown. destruct (_ || _).
  { by eapply callback_same; [exact HL|done|apply handled_refl|lia]. }
  rewrite (get_conn_ok _ _ _ _ _ _ _ _ _ _ d HL). cbn [bind]. rewrite Z.eqb_refl.
  destruct (has _ _).
  { eapply queue_callback; try done. lia. }
  eapply (wp_bind _ _ (fun '(w', e) => exists s', local own (k - 1) q w' s' /\ queued s' own /\ handled s s' d)).
  { destruct (has _ _).
    2:{ exists s. split_and!; [eapply local_room; [exact HL|lia]|done|apply handled_refl]. }
    destruct (x_ssl_shutdown _ _) as [r wait]. apply tick_ok in HL. cbv zeta. destruct (negb (r =? 0)).
    { exists s. split_and!; [eapply local_room; [exact HL|lia]|done|apply handled_refl]. }
    eapply wp_bind; [eapply wait_wp; [|exact HL|done]; lia|]. intros [w2 rc] [-> HL2]. cbn [Z.eqb negb].
    destruct (negb _); [exists s; split_and!; [done|done|apply handled_refl]|].
    apply tick_ok in HL2. destruct (negb _); [exists s; split_and!; [done|done|apply handled_refl]|].
    eapply wp_bind; [eapply upd_conn_wp; [exact HL2|done]|]. intros w3 HL3. cbv beta in HL3. eexists.
    split_and!; [exact HL3|by apply queued_set_conn|by apply handled_set]. }
  intros [w2 st] (s2 & HL2 & Hq2 & Hh2).
  destruct (st =? -1); [eapply queue_callback; try done; lia|].
  destruct (st =? 1); [eapply callback_same; try done; lia|].
  eapply wp_bind; [eapply add_event_wp; [exact HL2|done|lia]|]. intros [w3 rc] [-> HL3]. cbn [Z.eqb negb].
  eapply callback_same; try done; lia.
Qed.
End Callbacks.
End ConnCallbacks.
