(* ===== verification/Worker.v ===== *)
(** * The worker loop of the proxy

    Model of [_worker_loop] (src/code/network/proxy/tproxy/worker.c): flush
    the pending event updates, dispatch what epoll reports, run the task
    queue; and of the acceptance of a client (utils/listener.c).  The
    invariant [winv] of a worker, and that no handler leaves it. *)
From S2P Require Import Prelude ObjPool FdEpoll Conn ConnProofs ConnSafe ConnCallbacks.

Module Worker.
Import FdEpoll Conn ConnProofs ConnSafe ConnCallbacks.

Section Loop.
Context {P obj K : Type} `{Countable obj} `{!ObjPoolSpec P obj}.
Context (epoll_ctl : K -> epoll_op -> Z -> Z -> K * Z) (X : externals).
Implicit Types (w : worker_t P obj K) (s : session_t obj).

(** ** Definitions *)
Definition call (fuel : nat) (cb : fd_func) (fd events : Z) (c : cid) (w : worker_t P obj K) : res (worker_t P obj K) :=
  do (w, _) <- match cb with
               | cb_recv => conn_recv_data X fuel w fd events c
               | cb_send => conn_send_data X w fd events c
               | cb_handshake => conn_handshake X w fd events c
               | cb_shutdown => conn_shutdown X w fd events c
               end;
  Ok w.

(** One turn of the loop; [evs] is what [epoll_wait] returned, [rf] and [tf]
    bound the SSL reads and the task queue.  The boolean says that the process
    exited: a ready item has no callback. *)
Definition worker_turn (rf tf : nat) (w : worker_t P obj K) (evs : option (list (Z * Z))) : res (worker_t P obj K * bool) :=
  do (fe, _) <- fd_epoll_flush_events epoll_ctl (w_fe w);
  do (w, ex, _) <- fd_epoll_poll w_fe (call rf) (set_fe w fe) evs;
  if ex : bool then Ok (w, true) else
  do w <- task_run_queue X tf w; Ok (w, false).

(** [_ltn_accept]: [clifd] and [errno] are what accept returns, [mem] the
    session the pool hands out, [nalloced] what its memory holds, [ssl]: the
    listener has an SSL context; [sslok]: the SSL object was made and bound;
    [dst]: the policy does not ask for the original destination, or it was
    found. *)
Definition ltn_accept (w : worker_t P obj K) (clifd errno : Z) (mem : option positive) (nalloced : Z)
    (ssl sslok dst : bool) : res (worker_t P obj K * Z) :=
  if clifd <? 0 then Ok (w, if errno =? EAGAIN then 0 else -1) else
  match mem with
  | None => Ok (emit w (EClose clifd), -1)
  | Some i =>
      if ssl && negb sslok then Ok (emit w (EClose clifd), -1) else
      do fi <- map_item (w_fe w) clifd;
      do fe <- set_item (w_fe w) clifd (fi_set_arg fi FD_READY (Some (i, false)));
      let w := set_fe w fe in
      do (w, e) <- add_event w clifd FD_IN (Some (if ssl then cb_handshake else cb_recv));
      if negb (e =? 0) then Ok (emit w (EClose clifd), -1) else
      if negb dst then Ok (emit w (EClose clifd), -1) else
      let s := {| s_conns0 := {| c_fd := clifd; c_ssl := ssl; c_in := []; c_out := []; c_task := TASK_NONE;
                                 c_flags := if ssl then CONN_F_SSLHSK else 0 |};
                  s_conns1 := conn_init; s_nalloced := nalloced; s_request := []; s_response := [];
                  s_svrdata := false |} in
      Ok (put_sess w i s, 0)
  end.

(** ** The invariant *)
Context (M : Z).

Record sess_ok (q : list cid) (i : positive) s : Prop := {
  so_fd d : c_fd (s_conn s d) < 0 \/ 0 < c_fd (s_conn s d) < M;
  so_bodies : s_request s = [] /\ s_response s = [];
  (** a client without a descriptor was freed, and its session is about to go *)
  so_live : 0 < c_fd (s_conn s false) \/ ((i, true) ∈ q /\ c_task (s_conn s true) = TASK_DELETE);
  so_queued d : (i, d) ∈ q -> 0 < c_fd (s_conn s d);
  so_needed : peer_needed s false ->
    0 < c_fd (s_conn s true) \/ ((i, false) ∈ q /\ c_task (s_conn s false) = TASK_DELETE)
}.

Definition sess_own s : gset obj := list_to_set (sess_pkts s).

Record winv (k : Z) w : Prop := {
  wi_pool : pool_inv (w_pktpool w);
  wi_nodup i s : w_sess w !! i = Some s -> NoDup (sess_pkts s);
  wi_count i s : w_sess w !! i = Some s -> s_nalloced s = Z.of_nat (length (sess_pkts s));
  wi_pkts i s it : w_sess w !! i = Some s -> it ∈ sess_pkts s -> exists p, w_pkts w !! it = Some p /\ pkt_wf p;
  wi_disj i j s t it : w_sess w !! i = Some s -> w_sess w !! j = Some t ->
    it ∈ sess_pkts s -> it ∈ sess_pkts t -> i = j;
  wi_live it : it ∈ pool_live (w_pktpool w) <-> exists i s, w_sess w !! i = Some s /\ it ∈ sess_pkts s;
  wi_fe : fe_ok M k (w_fe w);
  wi_args : args_ok (w_fe w) (w_sess w);
  wi_taskq : NoDup (w_taskq w);
  wi_queued c : c ∈ w_taskq w -> is_Some (w_sess w !! c.1);
  wi_sess i s : w_sess w !! i = Some s -> sess_ok (w_taskq w) i s
}.

Definition others w s : gset obj := pool_live (w_pktpool w) ∖ sess_own s.

Lemma size_sess_own s : NoDup (sess_pkts s) -> size (sess_own s) = length (sess_pkts s).
Proof. intros Hnd. unfold sess_own. by rewrite size_list_to_set. Qed.

Lemma winv_local k w i s :
  winv k w -> w_sess w !! i = Some s ->
  local M (others w s) (w_pkts w) (w_sess w) i (sess_own s) k (w_taskq w) w s /\ queued s (sess_own s).
Proof.
  intros HW Hi. pose proof HW as [W1 W2 W3 W4 W5 W6 W7 W8 W9 W10 W11]. split.
  - constructor; try done.
    + by rewrite insert_id.
    + unfold others. apply set_eq. intros x. rewrite elem_of_union, elem_of_difference.
      destruct (decide (x ∈ sess_own s)) as [Hx|]; [|tauto]. split; [tauto|]. intros _. apply W6.
      unfold sess_own in Hx. rewrite elem_of_list_to_set in Hx. eauto.
    + unfold others. set_solver.
    + rewrite size_sess_own by (by eapply W2). by eapply W3.
    + intros x Hx. unfold sess_own in Hx. rewrite elem_of_list_to_set in Hx. by eapply W4.
  - split; [by eapply W2|]. intros x. unfold sess_own. by rewrite elem_of_list_to_set.
Qed.

Lemma queued_own s own : queued s own -> own = sess_own s.
Proof. intros [_ Hq]. apply set_eq. intros x. unfold sess_own. rewrite elem_of_list_to_set. symmetry. apply Hq. Qed.

(** What the other sessions see of a change of the queue. *)
Definition same_others (i : positive) (q q' : list cid) : Prop := forall j d, j <> i -> (j, d) ∈ q' <-> (j, d) ∈ q.

Lemma sess_ok_others i j q q' s : same_others i q q' -> j <> i -> sess_ok q j s -> sess_ok q' j s.
Proof.
  intros Hq Hj [S1 S2 S3 S4 S5]. constructor; [done|done| | |].
  - rewrite (Hq j true Hj). done.
  - intros d. rewrite (Hq j d Hj). apply S4.
  - rewrite (Hq j false Hj). done.
Qed.

(** The packets of another session are among [others]. *)
Lemma others_pkts k w i s j t it :
  winv k w -> w_sess w !! i = Some s -> j <> i -> w_sess w !! j = Some t -> it ∈ sess_pkts t -> it ∈ others w s.
Proof.
  intros HW Hi Hj Ht Hit. unfold others. apply elem_of_difference. split; [apply (wi_live _ _ HW); eauto|].
  unfold sess_own. rewrite elem_of_list_to_set. intros Hs. apply Hj. by eapply (wi_disj _ _ HW).
Qed.

Lemma local_winv k w0 i s0 own k' q' w s :
  winv k w0 -> w_sess w0 !! i = Some s0 ->
  local M (others w0 s0) (w_pkts w0) (w_sess w0) i own k' q' w s -> queued s own ->
  same_others i (w_taskq w0) q' -> NoDup q' -> sess_ok q' i s -> winv k' w.
Proof.
  intros HW Hi [L1 L2 L3 L4 L5 L6 L7 L8 L9 L10] Hq Hsame Hnd Hs.
  pose proof (fun j t it => others_pkts k w0 i s0 j t it HW Hi) as HR.
  pose proof (queued_own _ _ Hq) as ->. destruct Hq as [Hndp Hq]. rewrite size_sess_own in L6 by done.
  constructor; try done.
  - intros j t. rewrite L1. intros [[<- <-]|[Hne Ht]]%lookup_insert_Some; [done|]. by eapply (wi_nodup _ _ HW).
  - intros j t. rewrite L1. intros [[<- <-]|[Hne Ht]]%lookup_insert_Some; [done|]. by eapply (wi_count _ _ HW).
  - intros j t it. rewrite L1. intros [[<- <-]|[Hne Ht]]%lookup_insert_Some Hit; [by apply L7, Hq|].
    rewrite L5; [by eapply (wi_pkts _ _ HW)|]. eapply HR; [|done|done]. done.
  - intros j j' t t' it. rewrite L1.
    intros [[<- <-]|[Hj Ht]]%lookup_insert_Some [[<- <-]|[Hk Hu]]%lookup_insert_Some Hit1 Hit2; [done| | |].
    + exfalso. eapply L4; [eapply HR; [|exact Hu|exact Hit2]; done|by apply Hq].
    + exfalso. eapply L4; [eapply HR; [|exact Ht|exact Hit1]; done|by apply Hq].
    + by eapply (wi_disj _ _ HW).
  - intros it. rewrite L3, elem_of_union. unfold others. rewrite elem_of_difference, <- Hq. split.
    + intros [[Hl Hn]|Hin]; [|exists i, s; by rewrite L1, lookup_insert_eq].
      apply (wi_live _ _ HW) in Hl as (j & t & Ht & Hit). exists j, t. rewrite L1, lookup_insert_ne; [done|].
      intros <-. rewrite Hi in Ht. simplify_eq. apply Hn. unfold sess_own. by rewrite elem_of_list_to_set.
    + intros (j & t & Ht & Hit). rewrite L1 in Ht. apply lookup_insert_Some in Ht as [[<- <-]|[Hne Ht]]; [by right|left].
      pose proof (HR j t it ltac:(done) Ht Hit) as Ho. unfold others in Ho. by apply elem_of_difference in Ho.
  - by rewrite L10.
  - intros [j d] Hc. rewrite L10 in Hc. rewrite L1. simpl. destruct (decide (j = i)) as [->|Hne]; [by rewrite lookup_insert_eq|].
    rewrite lookup_insert_ne by done. apply (wi_queued _ _ HW (j, d)). by apply (Hsame j d).
  - intros j t. rewrite L1, L10. intros [[<- <-]|[Hne Ht]]%lookup_insert_Some; [done|].
    eapply sess_ok_others; [done|done|]. by apply (wi_sess _ _ HW).
Qed.

Lemma gone_winv k w0 i s0 k' q' w :
  winv k w0 -> w_sess w0 !! i = Some s0 ->
  gone M (others w0 s0) (w_pkts w0) (w_sess w0) i k' q' w ->
  same_others i (w_taskq w0) q' -> NoDup q' -> (forall d, (i, d) ∉ q') -> winv k' w.
Proof.
  intros HW Hi [G1 G2 G3 G4 G5 G6 G7] Hsame Hnd Hni.
  pose proof (fun j t it => others_pkts k w0 i s0 j t it HW Hi) as HR.
  constructor; try done.
  - intros j t. rewrite G1. intros [Hne Ht]%lookup_delete_Some. by eapply (wi_nodup _ _ HW).
  - intros j t. rewrite G1. intros [Hne Ht]%lookup_delete_Some. by eapply (wi_count _ _ HW).
  - intros j t it. rewrite G1. intros [Hne Ht]%lookup_delete_Some Hit.
    rewrite G4; [by eapply (wi_pkts _ _ HW)|]. eapply HR; [|done|done]. done.
  - intros j j' t t' it. rewrite G1. intros [_ Ht]%lookup_delete_Some [_ Ht']%lookup_delete_Some.
    by eapply (wi_disj _ _ HW).
  - intros it. rewrite G3. unfold others. rewrite elem_of_difference. split.
    + intros [Hl Hn]. apply (wi_live _ _ HW) in Hl as (j & t & Ht & Hit). exists j, t. rewrite G1.
      split; [|done]. apply lookup_delete_Some. split; [|done]. intros <-. rewrite Hi in Ht. simplify_eq.
      apply Hn. unfold sess_own. by rewrite elem_of_list_to_set.
    + intros (j & t & Ht & Hit). rewrite G1 in Ht. apply lookup_delete_Some in Ht as [Hne Ht].
      pose proof (HR j t it ltac:(done) Ht Hit) as Ho. unfold others in Ho. by apply elem_of_difference in Ho.
  - by rewrite G7.
  - intros [j d] Hc. rewrite G7 in Hc. rewrite G1. simpl.
    assert (j <> i) by (intros ->; by apply (Hni d)). rewrite lookup_delete_ne by done.
    apply (wi_queued _ _ HW (j, d)). by apply (Hsame j d).
  - intros j t. rewrite G1, G7. intros [Hne Ht]%lookup_delete_Some.
    eapply sess_ok_others; [done|done|]. by apply (wi_sess _ _ HW).
Qed.
End Loop.
End Worker.
