(* ===== verification/WorkerSafe.v ===== *)
(** * The worker loop never goes wrong, except in one place

    session_run_task, task_run_queue and the dispatch of events keep the
    invariant [winv] of Worker.v; the only fault a turn can run into is the
    access to a session that [session_run_task] itself released. *)
From S2P Require Import Prelude ObjPool FdEpoll FdEpollProofs Conn ConnProofs ConnSafe ConnCallbacks Worker.

Module WorkerSafe.
Import FdEpoll Conn ConnProofs ConnSafe ConnCallbacks Worker.

Section Safe.
Context {P obj K : Type} `{Countable obj} `{!ObjPoolSpec P obj}.
Context (epoll_ctl : K -> epoll_op -> Z -> Z -> K * Z).
Context (M : Z) (X : externals) (HX : env_ok M X).
Implicit Types (w : worker_t P obj K) (s : session_t obj) (own : gset obj).

Section Task.
Context (R : gset obj) (m0 : gmap obj packet_t) (S0 : gmap positive (session_t obj)) (i : positive).
Abbreviation local := (local M R m0 S0 i).

(** How a task can leave its session. *)
Definition outcome (k : Z) (q : list cid) w : Prop :=
  gone M R m0 S0 i k q w /\ (forall d, (i, d) ∉ q) \/
  exists own s, local own k q w s /\ queued s own /\ sess_ok M q i s.

(** What [session_free] needs of a session. *)
Record freeable (q : list cid) (d : bool) s : Prop := {
  fa_fd d' : c_fd (s_conn s d') < 0 \/ 0 < c_fd (s_conn s d') < M;
  fa_bodies : s_request s = [] /\ s_response s = [];
  fa_self : (i, d) ∉ q;
  fa_peer : (i, negb d) ∈ q -> 0 < c_fd (s_conn s (negb d))
}.

Lemma sess_freeable q d s : sess_ok M q i s -> (i, d) ∉ q -> freeable q d s.
Proof. intros [S1 S2 S3 S4 S5] Hd. constructor; try done. apply S4. Qed.

Lemma session_free_outcome own k q w s d :
  local own k q w s -> queued s own -> freeable q d s ->
  wp (session_free w (i, d)) (fun w' =>
    if bool_decide ((i, negb d) ∈ q) then exists own' s', local own' k q w' s' /\ queued s' own' /\ sess_ok M q i s'
    else gone M R m0 S0 i k q w' /\ forall d', (i, d') ∉ q).
Proof.
  intros HL Hq [A1 [A2 A2'] A3 A4].
  eapply wp_mono; [by eapply session_free_wp|]. intros w' Hw'. case_bool_decide as Hin.
  - destruct Hw' as (own' & s' & HL' & Hq' & F1 & F2 & F3 & F4 & F5 & F6). exists own', s'. split_and!; [done|done|].
    specialize (A4 Hin).
    assert (Hp : c_fd (s_conn s' (negb d)) = c_fd (s_conn s (negb d))) by (by rewrite F4).
    constructor.
    + intros d'. destruct (decide (d' = d)) as [->|]; [by left|]. replace d' with (negb d) by (by destruct d, d').
      rewrite Hp. apply A1.
    + done.
    + destruct d; simpl in *; [left; lia|right]. by rewrite F4.
    + intros d' Hd'. destruct (decide (d' = d)) as [->|]; [done|]. replace d' with (negb d) by (by destruct d, d').
      by rewrite Hp.
    + intros _. destruct d; simpl in *; [right|left; lia]. by rewrite F4.
  - split; [done|]. intros d'. destruct (decide (d' = d)) as [->|]; [done|]. by replace d' with (negb d) by (by destruct d, d').
Qed.

Lemma free_outcome own k q w s d :
  local own k q w s -> queued s own -> freeable q d s -> wp (session_free w (i, d)) (outcome k q).
Proof.
  intros HL Hq Hf. eapply wp_mono; [by eapply session_free_outcome|]. intros w' Hw'.
  destruct (bool_decide _); [right|left]; done.
Qed.

Lemma free_rc_outcome own k q w s d (rc : Z) :
  local own k q w s -> queued s own -> freeable q d s ->
  wp (do w <- session_free w (i, d); Ok (w, rc)) (fun '(w', _) => outcome k q w').
Proof. intros HL Hq Hf. eapply wp_bind; [by eapply free_outcome|]. done. Qed.

Lemma close_if_done_wp own k q w s d :
  local own k q w s -> queued s own -> sess_ok M q i s -> (i, d) ∉ q ->
  wp (close_if_done w (i, d)) (fun '(w', _) => outcome k q w').
Proof.
  intros HL Hq Hs Hd. unfold close_if_done, peer_of. cbn [fst snd].
  rewrite (get_conn_ok _ _ _ _ _ _ _ _ _ _ d HL), (get_conn_ok _ _ _ _ _ _ _ _ _ _ (negb d) HL). cbn [bind].
  destruct (_ && _).
  - eapply free_rc_outcome; [done|done|by apply sess_freeable].
  - right. eauto.
Qed.

(** A session whose task of connection [d] is about to run; [q] is the queue
    without it. *)
Record runnable (q : list cid) (d : bool) s : Prop := {
  ra_free : freeable q d s;
  ra_self : 0 < c_fd (s_conn s d);
  ra_live : c_task (s_conn s d) <> TASK_DELETE -> 0 < c_fd (s_conn s false);
  ra_needed : c_task (s_conn s d) <> TASK_DELETE -> peer_needed s false -> 0 < c_fd (s_conn s true)
}.

Lemma fd_pos (x : Z) : x < 0 \/ 0 < x < M -> 0 < x -> 0 < x < M.
Proof. lia. Qed.

(** The state after the data of [d] went to the peer's output queue. *)
Lemma parse_forward_ok own k q w s d :
  1 <= k -> local own k q w s -> queued s own -> runnable q d s -> c_task (s_conn s d) <> TASK_DELETE ->
  wp (do w <- session_fparse w (i, d); session_forward X w (i, negb d))
    (fun '(w', e) => exists s', local own (k - 1) q w' s' /\ queued s' own /\ freeable q d s' /\
       c_fd (s_conn s' d) = c_fd (s_conn s d) /\
       (e = 0 -> 0 < c_fd (s_conn s' (negb d)) < M /\ sess_ok M q i s')).
Proof.
  intros Hk HL Hq [[A1 [A2 A2'] A3 A4] A5 A6 A7] Ht. specialize (A6 Ht). specialize (A7 Ht).
  eapply wp_bind; [by eapply session_fparse_wp|].
  intros w1 (s1 & HL1 & Hq1 & E1 & E2 & E3 & E4).
  assert (Hf1 : forall d', c_fd (s_conn s1 d') = c_fd (s_conn s d')).
  { intros d'. destruct (decide (d' = d)) as [->|]; [by rewrite E2|]. replace d' with (negb d) by (by destruct d, d'). by rewrite E1. }
  eapply wp_mono; [eapply session_forward_wp; [done|done|exact HL1|done|rewrite Hf1; apply A1]|].
  intros [w2 e] (s2 & HL2 & Hq2 & [F1 F2 F3 F4 F5 F6 [F7 F8]] & Hfd2 & He). rewrite negb_involutive in F1.
  assert (Hfd : c_fd (s_conn s2 d) = c_fd (s_conn s d)) by (by rewrite F1, Hf1).
  assert (Hp : 0 < c_fd (s_conn s (negb d)) -> c_fd (s_conn s2 (negb d)) = c_fd (s_conn s (negb d)))
    by (rewrite <- (Hf1 (negb d)); apply F6).
  assert (Hfree : freeable q d s2).
  { constructor; [|destruct d; simpl in *; split; congruence|done|].
    - intros d'. destruct (decide (d' = d)) as [->|]; [rewrite Hfd; apply A1|].
      by replace d' with (negb d) by (by destruct d, d').
    - intros Hin. rewrite Hp by auto. auto. }
  exists s2. split_and!; [done|done|done|done|]. intros ->. specialize (He eq_refl).
  split; [by apply fd_pos|]. destruct Hfree as [B1 B2 B3 B4]. constructor; [done|done| | |].
  - left. destruct d; simpl in *; [rewrite Hp by done; done|by rewrite Hfd].
  - intros d' Hd'. destruct (decide (d' = d)) as [->|]; [done|].
    replace d' with (negb d) in * by (by destruct d, d'). by apply B4.
  - intros Hn. left. destruct d; simpl in *; [by rewrite Hfd|done].
Qed.

Lemma sent_sess_ok q s s' d : sent s s' d -> sess_ok M q i s -> sess_ok M q i s'.
Proof.
  intros [T1 T2 T3 T4 T5 [T6 T6'] T7] [S1 [S2 S2'] S3 S4 S5]. constructor.
  - intros d'. rewrite T1. apply S1.
  - split; congruence.
  - rewrite T1, T2. done.
  - intros d'. rewrite T1. apply S4.
  - rewrite T1, T2. intros Hn. apply S5. destruct d; [|by apply T7].
    unfold peer_needed in *. simpl in *. by rewrite T5 in Hn.
Qed.

Lemma sent_freeable q s s' d d' : sent s s' d' -> freeable q d s -> freeable q d s'.
Proof.
  intros [T1 T2 T3 T4 T5 [T6 T6'] T7] [B1 [B2 B2'] B3 B4].
  constructor; [intros e; rewrite T1; apply B1|split; congruence|done|by rewrite T1].
Qed.

Lemma runnable_sess_ok q d s : runnable q d s -> c_task (s_conn s d) <> TASK_DELETE -> sess_ok M q i s.
Proof.
  intros [[A1 A2 A3 A4] A5 A6 A7] Ht. constructor; [done|done|left; by apply A6| |intros Hn; left; by apply A7].
  intros d' Hd'. destruct (decide (d' = d)) as [->|]; [done|]. replace d' with (negb d) in * by (by destruct d, d'). auto.
Qed.

Lemma sess_ok_peer q d s :
  sess_ok M q i s -> (i, d) ∉ q -> peer_needed s d -> 0 < c_fd (s_conn s (negb d)) < M.
Proof.
  intros [S1 S2 S3 S4 S5] Hd Hn. apply fd_pos; [apply S1|].
  destruct d; simpl; [destruct S3 as [?|[? _]]|destruct (S5 Hn) as [?|[? _]]]; done.
Qed.

(** The send of TASK_PARSE to the peer [c] fails. *)
Definition send_fails w (c : cid) : Prop :=
  exists pn w' e, get_conn w c = Ok pn /\ conn_send_data X w (c_fd pn) 0 c = Ok (w', e) /\ e <> 0.
(** The data of [c] was handed to the peer, and the send then failed. *)
Definition parse_send_fails w (c : cid) : Prop :=
  exists w1 w2, session_fparse w c = Ok w1 /\ session_forward X w1 (peer_of c) = Ok (w2, 0) /\ send_fails w2 (peer_of c).

(** The tail of TASK_PARSE: send, and look at the connection again. *)
Lemma parse_send_ok own k q w s d :
  3 <= k -> local own k q w s -> queued s own -> sess_ok M q i s -> (i, d) ∉ q ->
  0 < c_fd (s_conn s d) < M -> 0 < c_fd (s_conn s (negb d)) < M ->
  wpf (fun f => f = UseAfterFree /\ (i, negb d) ∉ q /\ send_fails w (i, negb d))
    (do pn <- get_conn w (i, negb d);
     do (w, e) <- conn_send_data X w (c_fd pn) 0 (i, negb d);
     do w <- (if negb (e =? 0) then session_free w (i, d) else Ok w);
     close_if_done w (i, d))
    (fun '(w', _) => outcome (k - 3) q w').
Proof.
  intros Hk HL Hq Hs Hd Hfd Hpfd. pose proof (get_conn_ok _ _ _ _ _ _ _ _ _ _ (negb d) HL) as Epn. rewrite Epn. cbn [bind].
  assert (Hsend : wp (conn_send_data X w (c_fd (s_conn s (negb d))) 0 (i, negb d)) (fun '(w', e) => exists own' s' q',
    local own' (k - 3) q' w' s' /\ queued s' own' /\ sent_or_deleted i s s' (negb d) 0 q q')).
  { eapply (conn_send_data_wp _ _ HX _ _ _ _ own (k - 3) q _ s (negb d) 0); try done; [lia| |by right|by rewrite negb_involutive].
    by replace (k - 3 + 3) with k by lia. }
  destruct (conn_send_data X w _ 0 (i, negb d)) as [[w1 e]|] eqn:Esend; [|done]. cbn [bind wp] in *.
  destruct Hsend as (own1 & s1 & q1 & HL1 & Hq1 & [[-> Hsent]|[? _]]); [|done].
  pose proof (sent_sess_ok _ _ _ _ Hsent Hs) as Hs1.
  destruct (Z.eqb_spec e 0) as [He|He]; cbn [negb]; [|
    assert (Hfail : send_fails w (i, negb d)) by (eexists _, w1, e; split_and!; [exact Epn|exact Esend|exact He])].
  { cbn [bind]. apply wpf_wp. by eapply close_if_done_wp. }
  - pose proof (session_free_outcome own1 (k - 3) q w1 s1 d HL1 Hq1 (sess_freeable _ _ _ Hs1 Hd)) as Hfo.
    destruct (session_free w1 (i, d)) as [w2|]; [|done]. cbn [bind wp] in *.
    case_bool_decide as Hin.
    + destruct Hfo as (own2 & s2 & HL2 & Hq2 & Hs2). apply wpf_wp. by eapply close_if_done_wp.
    + destruct Hfo as [Hg _]. unfold close_if_done, get_conn, get_sess. simpl.
      by rewrite (g_sess _ _ _ _ _ _ _ _ Hg), lookup_delete_eq.
Qed.

(** [session_run_task] on a dequeued task. *)
Lemma run_task_local own k q w s d :
  4 <= k -> local own k q w s -> queued s own -> runnable q d s ->
  wpf (fun f => f = UseAfterFree /\ c_task (s_conn s d) = TASK_PARSE /\ (i, negb d) ∉ q /\ parse_send_fails w (i, d))
    (session_run_task X w (i, d)) (fun '(w', _) => outcome (k - 4) q w').
Proof.
  intros Hk HL Hq Hr. pose proof (ra_free _ _ _ Hr) as Hf. pose proof (runnable_sess_ok _ _ _ Hr) as Hs.
  pose proof (fa_self _ _ _ Hf) as Hself. pose proof (fd_pos _ (fa_fd _ _ _ Hf d) (ra_self _ _ _ Hr)) as Hfd.
  assert (HL4 : local own (k - 4) q w s) by (eapply local_room; [exact HL|lia]).
  unfold session_run_task. rewrite (get_conn_ok _ _ _ _ _ _ _ _ _ _ d HL). cbn [bind].
  destruct (c_task (s_conn s d)) eqn:Et.
  - right. exists own, s. split_and!; [done|done|by apply Hs].
  - (* parse *)
    pose proof (parse_forward_ok own k q w s d ltac:(lia) HL Hq Hr ltac:(congruence)) as Hpf.
    destruct (session_fparse w (i, d)) as [w1|] eqn:E1; [|done]. cbn [bind] in *. unfold peer_of. cbn [fst snd].
    destruct (session_forward X w1 (i, negb d)) as [[w2 e]|] eqn:E2; [|done]. cbn [bind wp] in *. destruct Hpf as (s2 & HL2 & Hq2 & Hf2 & Hfd2 & He).
    destruct (Z.eqb_spec e 0) as [->|Hne]; cbn [negb].
    + destruct (He eq_refl) as [Hp2 Hs2].
      pose proof (parse_send_ok own (k - 1) q w2 s2 d ltac:(lia) HL2 Hq2 Hs2 Hself ltac:(by rewrite Hfd2) Hp2) as Hps.
      replace (k - 1 - 3) with (k - 4) in Hps by lia. unfold wpf in *. destruct (bind _ _) as [[]|]; [done|].
      destruct Hps as (-> & Hni & Hsf). split_and!; [done|done|done|]. by exists w1, w2.
    + apply wpf_wp. eapply free_rc_outcome; [eapply local_room; [exact HL2|lia]|done|done].
  - (* send *)
    specialize (Hs ltac:(done)). eapply wpf_bind.
    { eapply (conn_send_data_wp _ _ HX _ _ _ _ own (k - 3) q _ s d 0); try done; [lia| |by right|].
      - by replace (k - 3 + 3) with k by lia.
      - by apply (sess_ok_peer q). }
    intros [w1 e] (own1 & s1 & q1 & HL1 & Hq1 & [[-> Hsent]|[? _]]); [|done].
    eapply (local_room _ _ _ _ _ _ _ (k - 4)) in HL1; [|lia].
    pose proof (sent_sess_ok _ _ _ _ Hsent Hs) as Hs1. apply wpf_wp. destruct (negb (e =? 0)).
    + eapply free_rc_outcome; [done|done|by apply sess_freeable].
    + by eapply close_if_done_wp.
  - apply wpf_wp. by eapply free_rc_outcome.
Qed.
End Task.

(** ** The task queue *)
Lemma local_setq R m0 S0 i own k q q' n w s :
  local M R m0 S0 i own k q w s -> local M R m0 S0 i own k q' (set_taskq w q' n) s.
Proof. intros []. by constructor. Qed.

Lemma dequeued k w c s q :
  winv M k w -> w_taskq w = c :: q -> w_sess w !! c.1 = Some s -> runnable c.1 q c.2 s.
Proof.
  intros HW Hq Hs. pose proof (wi_sess _ _ _ HW _ _ Hs) as [S1 S2 S3 S4 S5].
  pose proof (wi_taskq _ _ _ HW) as Hnd. rewrite Hq in *. apply NoDup_cons in Hnd as [Hni Hnd].
  destruct c as [i d]. simpl in *. constructor; [constructor; try done| | |].
  - intros Hin. apply S4. by right.
  - apply S4. left.
  - intros Ht. destruct S3 as [?|[Hin E]]; [done|]. destruct d; [by destruct (Ht E)|]. apply S4. left.
  - intros Ht Hn. destruct (S5 Hn) as [?|[Hin E]]; [done|]. destruct d; [apply S4; left|by destruct (Ht E)].
Qed.

Lemma outcome_winv k k' w i s q q' w' :
  winv M k w -> w_sess w !! i = Some s -> outcome (others w s) (w_pkts w) (w_sess w) i k' q' w' ->
  same_others i (w_taskq w) q' -> NoDup q' -> q = q' -> winv M k' w' /\ w_taskq w' = q.
Proof.
  intros HW Hs [[Hg Hni]|(own & s' & HL & Hq & Hok)] Hsame Hnd ->.
  - split; [by eapply gone_winv|by apply Hg].
  - split; [by eapply local_winv|by apply (l_taskq _ _ _ _ _ _ _ _ _ _ HL)].
Qed.

(** The task of [c] is next in the queue; its data goes to the peer, whose task is
    not queued; the send fails. *)
Definition fatal_task w (c : cid) : Prop :=
  exists q s, w_taskq w = c :: q /\ w_sess w !! c.1 = Some s /\ c_task (s_conn s c.2) = TASK_PARSE /\ peer_of c ∉ q /\
    parse_send_fails (task_del_queue w c) c.

(** The first [n] tasks of the queue. *)
Fixpoint run_tasks (n : nat) w : res (worker_t P obj K) :=
  match n, w_taskq w with
  | S n, c :: _ => do (w, _) <- session_run_task X (task_del_queue w c) c; run_tasks n w
  | _, _ => Ok w
  end.
Definition fatal_queue w : Prop := exists n w' c, run_tasks n w = Ok w' /\ fatal_task w' c.

Lemma fatal_queue_S w c q w1 rc :
  w_taskq w = c :: q -> session_run_task X (task_del_queue w c) c = Ok (w1, rc) -> fatal_queue w1 -> fatal_queue w.
Proof. intros Hq Hr (n & w' & c' & Hn & Hf). exists (S n), w', c'. split; [|done]. cbn [run_tasks]. rewrite Hq, Hr. done. Qed.

Lemma run_task_winv k w c q :
  4 <= k -> winv M k w -> w_taskq w = c :: q ->
  wpf (fun f => f = UseAfterFree /\ fatal_task w c) (session_run_task X (task_del_queue w c) c)
    (fun '(w', _) => winv M (k - 4) w' /\ w_taskq w' = q).
Proof.
  intros Hk HW Hq. destruct (wi_queued _ _ _ HW c) as [s Hs]; [rewrite Hq; left|].
  pose proof (dequeued _ _ _ _ _ HW Hq Hs) as Hr. pose proof (wi_taskq _ _ _ HW) as Hnd.
  destruct (winv_local _ _ _ _ _ HW Hs) as [HL Hqd].
  assert (Hf : filter (fun x => x <> c) (w_taskq w) = q).
  { rewrite Hq in *. apply NoDup_cons in Hnd as [Hni Hnd]. rewrite filter_cons_False by naive_solver.
    apply filter_all. by intros x Hx ->. }
  assert (Hdel : task_del_queue w c = set_taskq w q (w_ntask w - 1)) by (unfold task_del_queue; by rewrite Hf).
  rewrite Hdel. apply (local_setq _ _ _ _ _ _ _ q (w_ntask w - 1)) in HL.
  destruct c as [i d]. simpl in *.
  pose proof (run_task_local _ _ _ i _ k q _ s d Hk HL Hqd Hr) as Ht.
  unfold wpf in *. destruct (session_run_task _ _ _) as [[w' rc]|f].
  2: { destruct Ht as (-> & Htask & Hni & Hsf). split; [done|]. exists q, s. rewrite Hdel. split_and!; done. }
  rewrite Hq in Hnd. apply NoDup_cons in Hnd as [Hni Hnd]. eapply outcome_winv; try done.
  intros j d' Hj. rewrite Hq, elem_of_cons. naive_solver.
Qed.

Definition second (q : list cid) : option cid := head (tail q).

Lemma run_loop_winv fuel q k w :
  4 * Z.of_nat (length q) <= k -> winv M k w -> w_taskq w = q -> (length q < fuel)%nat ->
  wpf (fun f => f = UseAfterFree /\ fatal_queue w) (run_loop X fuel w (head q) (second q))
    (fun w' => winv M (k - 4 * Z.of_nat (length q)) w' /\ w_taskq w' = []).
Proof.
  revert q k w. induction fuel as [|fuel IH]; intros q k w Hk HW Hq Hfuel; [lia|].
  destruct q as [|c q]; cbn [run_loop head hd_error].
  { split; [|done]. simpl. by rewrite Z.sub_0_r. }
  simpl length in *. pose proof (run_task_winv k w c q ltac:(lia) HW Hq) as Ht. unfold wpf in Ht.
  destruct (session_run_task _ _ _) as [[w' rc]|f] eqn:Er; [|destruct Ht as [-> Hf]; split; [done|]; by exists 0%nat, w, c]. cbn [bind]. destruct Ht as [HW' Hq'].
  change (second (c :: q)) with (head q). rewrite Hq'.
  replace (k - 4 * Z.of_nat (S (length q))) with (k - 4 - 4 * Z.of_nat (length q)) by lia.
  replace (match head q with Some x => next_task q x | None => head q end) with (second q).
  - pose proof (IH q (k - 4) w' ltac:(lia) HW' Hq' ltac:(lia)) as Hl. unfold wpf in *. destruct (run_loop X fuel w' _ _) as [|f]; [done|].
    destruct Hl as [-> Hl]. split; [done|]. by eapply fatal_queue_S.
  - destruct q as [|x q]; simpl; [done|]. by rewrite decide_True.
Qed.

Lemma task_run_queue_winv fuel k w :
  4 * Z.of_nat (length (w_taskq w)) <= k -> winv M k w -> (length (w_taskq w) < fuel)%nat ->
  wpf (fun f => f = UseAfterFree /\ fatal_queue w) (task_run_queue X fuel w)
    (fun w' => winv M (k - 4 * Z.of_nat (length (w_taskq w))) w' /\ w_taskq w' = []).
Proof.
  intros Hk HW Hf. unfold task_run_queue.
  replace (match head (w_taskq w) with Some x => next_task (w_taskq w) x | None => None end) with (second (w_taskq w)).
  - by apply run_loop_winv.
  - destruct (w_taskq w) as [|x q]; simpl; [done|]. by rewrite decide_True.
Qed.

(** ** The dispatch of events *)
Context (B : nat) (HB : forall n, exists j, (j < B)%nat /\ x_ssl_pending X (n + 2 * j) = false).

(** The updates one callback can add. *)
Definition cost : Z := 2 * Z.of_nat B + 3.

Lemma called_sess_ok q q' i s s' d :
  called i s s' d q q' -> sess_ok M q i s -> (i, d) ∉ q -> 0 < c_fd (s_conn s d) -> sess_ok M q' i s'.
Proof.
  intros Hc [S1 [S2 S2'] S3 S4 S5] Hd Hpos.
  assert (Hh : forall s1, handled s s1 d -> sess_ok M q i s1).
  { intros s1 [A1 A2 A3 [A4 A4'] A5]. constructor.
    - intros d'. rewrite A1. apply S1.
    - split; congruence.
    - rewrite A1, A2. done.
    - intros d'. rewrite A1. apply S4.
    - rewrite A1, A2. intros Hn. apply S5. destruct d; [|by apply A5].
      unfold peer_needed in *. simpl in *. by rewrite A3 in Hn. }
  destruct Hc as [[-> Hh1]|(-> & s1 & t & Hh1 & ->)]; [by apply Hh|].
  pose proof (h_fd _ _ _ Hh1 d) as Hfd1. destruct (Hh s1 Hh1) as [T1 [T2 T2'] T3 T4 T5].
  assert (Hne : forall d', c_fd (s_conn (s_set_conn s1 d (set_ctask (s_conn s1 d) t)) d') = c_fd (s_conn s1 d'))
    by (intros d'; rewrite s_conn_set; case_decide; by subst).
  constructor.
  - intros d'. rewrite Hne. apply T1.
  - done.
  - rewrite Hne. destruct T3 as [?|[Hin E]]; [by left|right]. split; [rewrite elem_of_app; by left|].
    rewrite s_conn_set, decide_False; [done|]. intros <-. done.
  - intros d'. rewrite Hne, elem_of_app, list_elem_of_singleton. intros [Hin|[= ->]]; [by apply T4|by rewrite Hfd1].
  - rewrite Hne. intros Hn. assert (Hn1 : peer_needed s1 false).
    { unfold peer_needed in *. rewrite s_conn_set in Hn. case_decide; by subst. }
    destruct (T5 Hn1) as [?|[Hin E]]; [by left|right]. split; [rewrite elem_of_app; by left|].
    rewrite s_conn_set, decide_False; [done|]. intros <-. done.
Qed.

(** The connections that are queued have had their event. *)
Definition seen (fds : list Z) w : Prop :=
  forall c s, c ∈ w_taskq w -> w_sess w !! c.1 = Some s -> c_fd (s_conn s c.2) ∈ fds.

Lemma call_winv k w cb fd events c s fds :
  cost <= k -> winv M k w -> w_sess w !! c.1 = Some s -> c_fd (s_conn s c.2) = fd -> 0 < fd < M -> seen fds w -> fd ∉ fds ->
  wp (call X B cb fd events c w) (fun w' => winv M (k - cost) w' /\ seen (fd :: fds) w' /\
    (length (w_taskq w') <= S (length (w_taskq w)))%nat).
Proof.
  intros Hk HW Hs Hfd Hfdr Hseen Hnew. destruct c as [i d]. simpl in Hs, Hfd.
  destruct (winv_local _ _ _ _ _ HW Hs) as [HL Hqd]. pose proof (wi_sess _ _ _ HW _ _ Hs) as Hok.
  assert (Hni : (i, d) ∉ w_taskq w).
  { intros Hin. apply Hnew. rewrite <- Hfd. by apply (Hseen (i, d) s). }
  pose proof (fun H1 => sess_ok_peer i _ d s Hok Hni H1) as Hpeer.
  unfold call. eapply (wp_bind _ _ (callback_post M (others w s) (w_pkts w) (w_sess w) i (k - cost) (w_taskq w) s d)).
  { unfold cost in *. rewrite <- Hfd in *. assert (Hpost : forall k' (r : res (worker_t P obj K * Z)), k - cost <= k' ->
      wp r (callback_post M (others w s) (w_pkts w) (w_sess w) i k' (w_taskq w) s d) ->
      wp r (callback_post M (others w s) (w_pkts w) (w_sess w) i (k - cost) (w_taskq w) s d)).
    { intros k' r Hk' Hr. eapply wp_mono; [exact Hr|]. intros [w' e] (own' & s' & q' & HL' & Hq' & Hc').
      exists own', s', q'. split_and!; [eapply local_room; [exact HL'|lia]|done|done]. }
    unfold cost in *. destruct cb.
    - eapply (Hpost (k - 2 * Z.of_nat B)); [lia|]. eapply conn_recv_data_wp; try done; lia.
    - eapply (Hpost (k - 3)); [lia|]. eapply conn_send_callback; try done; lia.
    - eapply (Hpost (k - 2)); [lia|]. eapply conn_handshake_wp; try done; lia.
    - eapply (Hpost (k - 2)); [lia|]. eapply conn_shutdown_wp; try done; lia. }
  intros [w' e] (own' & s' & q' & HL' & Hq' & Hc). cbn [wp].
  assert (Hq'' : q' = w_taskq w \/ q' = w_taskq w ++ [(i, d)]) by (destruct Hc as [[-> _]|[-> _]]; auto).
  assert (Hfd' : forall d', c_fd (s_conn s' d') = c_fd (s_conn s d')).
  { destruct Hc as [[_ Hh]|(_ & s1 & t & Hh & ->)]; intros d'; [by apply Hh|].
    rewrite s_conn_set. case_decide as Hd'; [rewrite Hd'; simpl|]; apply Hh. }
  split_and!.
  - eapply local_winv; [exact HW|exact Hs|exact HL'|done| | |].
    + intros j d' Hj. destruct Hq'' as [->| ->]; [done|]. rewrite elem_of_app, list_elem_of_singleton. naive_solver.
    + destruct Hq'' as [->| ->]; [apply (wi_taskq _ _ _ HW)|]. apply NoDup_app. split_and!.
      * apply (wi_taskq _ _ _ HW).
      * intros x Hx. rewrite list_elem_of_singleton. by intros ->.
      * apply NoDup_singleton.
    + eapply called_sess_ok; [exact Hc|done|done|lia].
  - intros [j d'] t. rewrite (l_taskq _ _ _ _ _ _ _ _ _ _ HL'), (l_sess _ _ _ _ _ _ _ _ _ _ HL'). simpl.
    intros Hin [[<- <-]|[Hne Ht]]%lookup_insert_Some.
    + rewrite Hfd'. destruct Hq'' as [->| ->]; [right; by apply (Hseen (i, d') s)|].
      apply elem_of_app in Hin as [Hin|Hin]; [right; by apply (Hseen (i, d') s)|].
      apply list_elem_of_singleton in Hin. simplify_eq. left.
    + right. apply (Hseen (j, d') t); [|done]. destruct Hq'' as [->| ->]; [done|].
      apply elem_of_app in Hin as [Hin|Hin]; [done|]. apply list_elem_of_singleton in Hin. simplify_eq.
  - rewrite (l_taskq _ _ _ _ _ _ _ _ _ _ HL'). destruct Hq'' as [->| ->]; [lia|]. rewrite length_app. simpl. lia.
Qed.

Lemma winv_room k k' w : winv M k w -> k' <= k -> winv M k' w.
Proof. intros [W1 W2 W3 W4 W5 W6 [] W8 W9 W10 W11] Hk. constructor; try done. constructor; try done. lia. Qed.

Lemma poll_loop_winv evs k w fds :
  cost * Z.of_nat (length evs) <= k -> winv M k w -> seen fds w ->
  NoDup (evs.*1) -> (forall fd, fd ∈ evs.*1 -> 0 < fd < M /\ fd ∉ fds) ->
  wp (poll_loop w_fe (call X B) w evs) (fun '(w', ex) => winv M (k - cost * Z.of_nat (length evs)) w' /\
    (length (w_taskq w') <= length (w_taskq w) + length evs)%nat).
Proof.
  revert k w fds. induction evs as [|[fd events] evs IH]; intros k w fds Hk HW Hseen Hnd Hfds; cbn [poll_loop].
  { cbn [length wp]. split; [|lia]. by replace (k - cost * Z.of_nat 0) with k by lia. }
  assert (Hc : 0 <= cost) by (unfold cost; lia). cbn [length] in *.
  apply NoDup_cons in Hnd as [Hni Hnd].
  assert (Hskip : wp (poll_loop w_fe (call X B) w evs) (fun '(w', ex) => winv M (k - cost * Z.of_nat (S (length evs))) w' /\
    (length (w_taskq w') <= length (w_taskq w) + S (length evs))%nat)).
  { eapply wp_mono; [apply (IH k w fds); [lia|done|done|done|]|].
    - intros x Hx. apply Hfds. by right.
    - intros [w' ex] [HW' Hl]. split; [eapply winv_room; [exact HW'|lia]|lia]. }
  destruct (events =? 0); [done|].
  destruct (Hfds fd ltac:(left)) as [Hfd Hnew].
  assert (Hm : exists fi, map_item (w_fe w) fd = Ok fi /\ fe_maps (w_fe w) !! Z.to_nat fd = Some fi).
  { destruct (wi_fe _ _ _ HW) as [F1 F2 F3 F4 F5 F6]. unfold map_item, fd_epoll_map. rewrite F1.
    rewrite (proj2 (Z.ltb_ge fd 0)), (proj2 (Z.ltb_ge M fd)) by lia. simpl.
    destruct (lookup_lt_is_Some_2 (fe_maps (w_fe w)) (Z.to_nat fd)) as [fi Hi]; [lia|].
    exists fi. split; [|done]. apply arr_get_Ok. split; [lia|done]. }
  destruct Hm as (fi & -> & Hi). cbn [bind].
  destruct (negb _); [done|]. destruct (fi_iocb fi) as [cb|].
  2:{ split; [eapply winv_room; [exact HW|lia]|lia]. }
  destruct (fi_arg fi) as [c|] eqn:Ea; [|done].
  destruct (wi_args _ _ _ HW fd fi c ltac:(lia) Hi Ea) as (_ & s & Hs & Hcfd).
  eapply wp_bind; [eapply (call_winv k _ _ _ _ _ s fds); try done; lia|].
  intros w1 (HW1 & Hseen1 & Hl1).
  eapply wp_mono; [eapply IH; [|exact HW1|exact Hseen1|done|]|].
  - lia.
  - intros x Hx. split; [apply Hfds; by right|]. rewrite not_elem_of_cons. split; [by intros ->|]. apply Hfds. by right.
  - intros [w' ex] [HW' Hl]. split; [eapply winv_room; [exact HW'|lia]|lia].
Qed.

(** ** The flush *)
Lemma flush_one_args (fe : fd_epoll_t cid fd_func K) i :
  0 <= i < fe_nupdate fe -> Z.of_nat (length (fe_maps fe)) = M -> Z.of_nat (length (fe_updates fe)) = M ->
  fe_nupdate fe <= M ->
  (forall j fd, Z.of_nat j < fe_nupdate fe -> fe_updates fe !! j = Some fd -> 0 < fd < M) ->
  exists fe', flush_one epoll_ctl fe i = Ok fe' /\ fe_maxfd fe' = fe_maxfd fe /\ fe_updates fe' = fe_updates fe /\
    fe_nupdate fe' = fe_nupdate fe /\ fi_arg <$> fe_maps fe' = fi_arg <$> fe_maps fe.
Proof.
  intros Hi Hm Hu Hn Hp. unfold flush_one.
  destruct (lookup_lt_is_Some_2 (fe_updates fe) (Z.to_nat i)) as [fd Hfd]; [lia|].
  rewrite (proj2 (arr_get_Ok _ i fd)) by (split; [lia|done]). cbn [bind].
  specialize (Hp (Z.to_nat i) fd ltac:(lia) Hfd). rewrite (proj2 (Z.leb_gt fd 0)) by lia.
  destruct (lookup_lt_is_Some_2 (fe_maps fe) (Z.to_nat fd)) as [fi Hfi]; [lia|].
  rewrite (proj2 (arr_get_Ok _ fd fi)) by (split; [lia|done]). cbn [bind].
  assert (Hset : forall fi', fi_arg fi' = fi_arg fi ->
    arr_set (fe_maps fe) fd fi' = Ok (<[Z.to_nat fd := fi']> (fe_maps fe)) /\
    fi_arg <$> <[Z.to_nat fd := fi']> (fe_maps fe) = fi_arg <$> fe_maps fe).
  { intros fi' Ha. split; [apply arr_set_Ok; split; [lia|done]|].
    rewrite list_fmap_insert. apply list_insert_id. rewrite list_lookup_fmap, Hfi. simpl. by rewrite Ha. }
  destruct (fi_arg fi) as [c|] eqn:Ea; [|by exists fe].
  destruct (negb (fi_is_updated fi)); [by exists fe|].
  destruct (_ || _).
  - destruct (Hset (fi_set_updated fi false)) as [-> Hf]; [done|]. cbn [bind]. eexists. split_and!; [done|done|done|done|exact Hf].
  - destruct (epoll_ctl _ _ _ _) as [kk rc]. destruct (negb _); [by eexists|].
    destruct (Hset (fi_set_pevents fi (fi_events fi))) as [Hs Hf]; [done|]. simpl. rewrite Hs. cbn [bind].
    eexists. split_and!; [done|done|done|done|exact Hf].
Qed.

Lemma flush_loop_args n i (fe : fd_epoll_t cid fd_func K) :
  0 <= i -> i + Z.of_nat n <= fe_nupdate fe -> Z.of_nat (length (fe_maps fe)) = M -> Z.of_nat (length (fe_updates fe)) = M ->
  fe_nupdate fe <= M ->
  (forall j fd, Z.of_nat j < fe_nupdate fe -> fe_updates fe !! j = Some fd -> 0 < fd < M) ->
  exists fe', flush_loop epoll_ctl fe i n = Ok fe' /\ fe_maxfd fe' = fe_maxfd fe /\ fe_updates fe' = fe_updates fe /\
    fe_nupdate fe' = fe_nupdate fe /\ fi_arg <$> fe_maps fe' = fi_arg <$> fe_maps fe.
Proof.
  revert i fe. induction n as [|n IH]; intros i fe Hi Hle Hm Hu Hn Hp; cbn [flush_loop]; [by exists fe|].
  destruct (flush_one_args fe i) as (fe1 & -> & E1 & E2 & E3 & E4); try done; [lia|]. cbn [bind].
  apply (f_equal length) in E4 as E5. rewrite !length_fmap in E5.
  destruct (IH (i + 1) fe1) as (fe2 & -> & F1 & F2 & F3 & F4); try (rewrite ?E2, ?E3, ?E5; done || lia).
  exists fe2. split_and!; congruence.
Qed.

Lemma flush_winv k w :
  winv M k w -> 0 <= k ->
  wp (fd_epoll_flush_events epoll_ctl (w_fe w)) (fun '(fe, _) => winv M M (set_fe w fe) /\ fe_nupdate fe = 0).
Proof.
  intros HW Hk. pose proof HW as [W1 W2 W3 W4 W5 W6 [F1 F2 F3 F4 F5 F6] W8 W9 W10 W11]. unfold fd_epoll_flush_events.
  destruct (Z.ltb_spec (fe_nupdate (w_fe w)) 1).
  { split; [|lia]. constructor; try done. constructor; try done; simpl; lia. }
  destruct (flush_loop_args (Z.to_nat (fe_nupdate (w_fe w))) 0 (w_fe w)) as (fe & -> & E1 & E2 & E3 & E4); try done; [lia..|].
  cbn [bind wp]. apply (f_equal length) in E4 as E5. rewrite !length_fmap in E5. split; [|done].
  constructor; try done.
  - constructor; simpl; try (congruence || lia).
  - intros fd fi c H1 H2 H3. simpl in H2.
    assert (Hl : (fi_arg <$> fe_maps fe) !! Z.to_nat fd = Some (Some c)) by (rewrite list_lookup_fmap, H2; simpl; by rewrite H3).
    rewrite E4, list_lookup_fmap in Hl. destruct (fe_maps (w_fe w) !! Z.to_nat fd) as [fi'|] eqn:E; [|done].
    simpl in Hl. simplify_eq. by apply (W8 fd fi').
Qed.

(** ** Turns of the loop, and accepted clients *)
Definition legal_events (evs : option (list (Z * Z))) : Prop :=
  match evs with
  | None => True
  | Some evs => NoDup (evs.*1) /\ (forall fd, fd ∈ evs.*1 -> 0 < fd < M) /\ (cost + 4) * Z.of_nat (length evs) <= M
  end.

(** The events of the turn are dispatched, and one of the tasks they queue is
    fatal. *)
Definition fatal_turn w (evs : option (list (Z * Z))) : Prop :=
  exists fe rc w' e, fd_epoll_flush_events epoll_ctl (w_fe w) = Ok (fe, rc) /\
    fd_epoll_poll w_fe (call X B) (set_fe w fe) evs = Ok (w', false, e) /\ fatal_queue w'.

Lemma worker_turn_winv tf k w evs :
  0 <= k -> winv M k w -> w_taskq w = [] -> legal_events evs ->
  (match evs with None => 0 | Some evs => length evs end < tf)%nat ->
  wpf (fun f => f = UseAfterFree /\ fatal_turn w evs) (worker_turn epoll_ctl X B tf w evs)
    (fun '(w', ex) => winv M 0 w' /\ (ex = false -> w_taskq w' = [])).
Proof.
  intros Hk HW Hq Hl Htf. unfold worker_turn.
  pose proof (flush_winv k w HW Hk) as Hfl. destruct (fd_epoll_flush_events epoll_ctl (w_fe w)) as [[fe rc]|] eqn:Efl; [|done]. cbn [bind wp] in *. destruct Hfl as [HW1 Hn].
  assert (Hmax : 0 <= M) by (destruct (wi_fe _ _ _ HW); lia).
  set (n := match evs with None => 0%nat | Some evs => length evs end) in *.
  assert (Hpoll : wp (fd_epoll_poll w_fe (call X B) (set_fe w fe) evs) (fun '(w', ex, _) => winv M (4 * Z.of_nat n) w' /\ (length (w_taskq w') <= n)%nat)).
  { unfold fd_epoll_poll. destruct evs as [evs|].
    2:{ split; [eapply winv_room; [exact HW1|]; unfold n; lia|]. simpl. by rewrite Hq. }
    destruct Hl as (Hnd & Hfd & Hc). destruct (length evs =? 0)%nat eqn:E.
    { apply Nat.eqb_eq in E. split; [eapply winv_room; [exact HW1|]; unfold n; lia|]. simpl. rewrite Hq. simpl. lia. }
    eapply wp_bind.
    - apply (poll_loop_winv evs M _ []); [|exact HW1| |done|].
      + unfold cost in *. lia.
      + intros c s. simpl. rewrite Hq. by intros ?%elem_of_nil.
      + intros fd Hin. split; [by apply Hfd|apply not_elem_of_nil].
    - intros [w' ex] [HW' Hlen]. simpl in Hlen. rewrite Hq in Hlen. simpl in Hlen. split; [|done].
      eapply winv_room; [exact HW'|]. unfold n. lia. }
  destruct (fd_epoll_poll _ _ _ _) as [[[w1 ex] e]|] eqn:Epoll; [|done]. cbn [bind wp] in *. destruct Hpoll as [HW2 Hlen]. destruct ex.
  { split; [eapply winv_room; [exact HW2|lia]|done]. }
  pose proof (task_run_queue_winv tf (4 * Z.of_nat n) w1 ltac:(lia) HW2 ltac:(lia)) as Ht. unfold wpf in *.
  destruct (task_run_queue X tf w1) as [w2|]; [|destruct Ht as [-> Hfq]; split; [done|]; by exists fe, rc, w1, e]. cbn [bind]. destruct Ht as [HW3 Hq3]. split; [|done].
  eapply winv_room; [exact HW3|lia].
Qed.

Definition new_session (clifd : Z) (ssl : bool) : session_t obj :=
  {| s_conns0 := {| c_fd := clifd; c_ssl := ssl; c_in := []; c_out := []; c_task := TASK_NONE;
                    c_flags := if ssl then CONN_F_SSLHSK else 0 |};
     s_conns1 := conn_init; s_nalloced := 0; s_request := []; s_response := []; s_svrdata := false |}.

(** A session that is not in the table yet. *)
Lemma add_session_winv k w i clifd ssl :
  winv M k w -> w_sess w !! i = None -> 0 < clifd < M -> (forall d, (i, d) ∉ w_taskq w) ->
  winv M k (put_sess w i (new_session clifd ssl)).
Proof.
  intros [W1 W2 W3 W4 W5 W6 W7 W8 W9 W10 W11] Hi Hfd Hq. constructor; simpl; try done.
  - intros j t [[<- <-]|[_ Ht]]%lookup_insert_Some; [apply NoDup_nil_2|by eapply W2].
  - intros j t [[<- <-]|[_ Ht]]%lookup_insert_Some; [done|by eapply W3].
  - intros j t it [[<- <-]|[_ Ht]]%lookup_insert_Some Hit; [by apply elem_of_nil in Hit|by eapply W4].
  - intros j j' t t' it [[<- <-]|[_ Ht]]%lookup_insert_Some [[<- <-]|[_ Ht']]%lookup_insert_Some H1 H2;
      try by apply elem_of_nil in H1. by apply elem_of_nil in H2. by eapply W5.
  - intros it. rewrite W6. split; intros (j & t & Ht & Hit); exists j, t.
    + rewrite lookup_insert_ne; [done|]. intros <-. congruence.
    + apply lookup_insert_Some in Ht as [[<- <-]|[_ Ht]]; [by apply elem_of_nil in Hit|done].
  - intros fd fi c H1 H2 H3. destruct (W8 fd fi c H1 H2 H3) as (Hp & t & Ht & Hc). split; [done|].
    exists t. rewrite lookup_insert_ne; [done|]. intros E. rewrite <- E in Ht. congruence.
  - intros c Hc. destruct (W10 c Hc) as [t Ht]. rewrite lookup_insert_ne; [by eexists|]. intros E. rewrite <- E in Ht. congruence.
  - intros j t [[<- <-]|[_ Ht]]%lookup_insert_Some; [|by apply W11]. constructor.
    + intros []; simpl; lia.
    + done.
    + left. simpl. lia.
    + intros d Hd. by destruct (Hq d).
    + intros [Hn|Hn]; [done|]. simpl in Hn. by destruct ssl.
Qed.

Lemma args_ok_fe k w fe' : winv M k w -> fe_ok M k fe' -> args_ok fe' (w_sess w) -> winv M k (set_fe w fe').
Proof. intros [] ? ?. by constructor. Qed.

(** The steps of [_ltn_accept] on the descriptor map, the session being
    entered only at the end: the same as entering it first. *)
Lemma ltn_accept_winv k w clifd errno mem ssl sslok :
  1 <= k -> winv M k w -> w_taskq w = [] -> clifd < 0 \/ 0 < clifd < M ->
  (forall i, mem = Some i -> w_sess w !! i = None) ->
  wp (ltn_accept w clifd errno mem 0 ssl sslok true) (fun '(w', rc) => winv M (k - 1) w' /\ w_taskq w' = []).
Proof.
  intros Hk HW Hq Hfd Hmem. unfold ltn_accept.
  assert (HWk : winv M (k - 1) w) by (eapply winv_room; [exact HW|lia]).
  assert (Hemit : forall e, winv M (k - 1) (emit w e)) by (intros e; destruct HWk; by constructor).
  destruct (Z.ltb_spec clifd 0); [done|]. destruct mem as [i|]; [|split; [apply Hemit|done]].
  destruct (_ && _); [split; [apply Hemit|done]|]. specialize (Hmem i eq_refl).
  assert (HW1 : winv M k (put_sess w i (new_session clifd ssl))).
  { apply add_session_winv; [done|done|lia|]. intros d. rewrite Hq. apply not_elem_of_nil. }
  assert (Hs1 : w_sess (put_sess w i (new_session clifd ssl)) !! i = Some (new_session clifd ssl)) by (simpl; apply lookup_insert_eq).
  destruct (winv_local _ _ _ _ _ HW1 Hs1) as [HL Hqd].
  destruct (map_item_ok _ _ _ _ _ _ _ _ _ _ clifd HL ltac:(lia)) as (fi & Em & _). simpl in Em. rewrite Em. cbn [bind].
  destruct (set_item_ok _ _ _ _ _ _ _ _ _ _ clifd (fi_set_arg fi FD_READY (Some (i, false))) HL ltac:(lia)) as [Es HL1].
  { intros c [= <-]. exists (new_session clifd ssl). split; [exact Hs1|done]. }
  simpl in Es. rewrite Es. cbn [bind].
  eapply (local_room _ _ _ _ _ _ _ (k - 1 + 1)) in HL1; [|lia].
  destruct (add_event_ok _ _ _ _ _ _ _ _ _ _ clifd FD_IN (Some (if ssl then cb_handshake else cb_recv)) HL1 ltac:(lia) ltac:(lia))
    as (fe' & Ea & HL2).
  unfold add_event in *. simpl in Ea |- *. apply bind_Ok in Ea as ([fe2 e2] & -> & [= -> ->]). cbn [bind Z.eqb negb wp].
  split; [|done].
  change (winv M (k - 1) (put_sess (set_fe w fe') i (new_session clifd ssl))).
  destruct HL2 as [L1 L2 L3 L4 L5 L6 L7 L8 L9 L10].
  apply (args_ok_fe (k - 1) (put_sess w i (new_session clifd ssl)) fe'); [eapply winv_room; [exact HW1|lia]|exact L8|exact L9].
Qed.

Inductive action : Type :=
  | ATurn (evs : option (list (Z * Z)))
  | AAccept (clifd errno : Z) (mem : option positive) (nalloced : Z) (ssl sslok dst : bool).

Definition turns (evs : option (list (Z * Z))) : nat := S (match evs with None => 0 | Some evs => length evs end).

Definition act w (a : action) : res (worker_t P obj K * bool) :=
  match a with
  | ATurn evs => worker_turn epoll_ctl X B (turns evs) w evs
  | AAccept clifd errno mem nalloced ssl sslok dst => do (w, _) <- ltn_accept w clifd errno mem nalloced ssl sslok dst; Ok (w, false)
  end.

Fixpoint worker_run w (acts : list action) : res (worker_t P obj K) :=
  match acts with
  | [] => Ok w
  | a :: acts => do (w, ex) <- act w a; if ex : bool then Ok w else worker_run w acts
  end.

(** epoll reports each registered descriptor once and only so many; accept
    returns a descriptor below the limit, the array of pending updates has room,
    the session pool gives an unused session whose counter is 0, and the address the
    client connected to is found (without it the descriptor keeps a dangling
    argument). *)
Definition legal w (a : action) : Prop :=
  match a with
  | ATurn evs => legal_events evs
  | AAccept clifd _ mem nalloced _ _ dst => (clifd < 0 \/ 0 < clifd < M) /\ fe_nupdate (w_fe w) < M /\ nalloced = 0 /\ dst = true /\
      forall i, mem = Some i -> w_sess w !! i = None
  end.

Fixpoint legal_run w (acts : list action) : Prop :=
  match acts with
  | [] => True
  | a :: acts => legal w a /\ match act w a with Ok (w', false) => legal_run w' acts | _ => True end
  end.

Definition worker_start (p : P) (fe : fd_epoll_t cid fd_func K) : worker_t P obj K :=
  {| w_fe := fe; w_taskq := []; w_ntask := 0; w_pktpool := p; w_pkts := ∅; w_sess := ∅; w_io := 0; w_log := [] |}.

Lemma start_winv p fe mem epfd kk wt :
  pool_inv p -> pool_live p = ∅ -> fd_epoll_alloc mem epfd kk M wt = Some fe -> winv M M (worker_start p fe).
Proof.
  clear HX HB. intros Hp Hl Hfe. unfold fd_epoll_alloc in Hfe.
  destruct (Z.ltb_spec M 1); simpl in Hfe; [done|]. repeat case_match; try done. simplify_eq.
  constructor; simpl; try done.
  - intros it. rewrite Hl. split; [set_solver|]. by intros (i & s & ? & _).
  - constructor; simpl; rewrite ?length_replicate; try lia.
  - intros fd fi c _ Hfi%lookup_replicate. by destruct Hfi as [-> _].
  - apply NoDup_nil_2.
  - by intros c ?%elem_of_nil.
Qed.

Lemma act_winv w a :
  winv M 0 w -> w_taskq w = [] -> legal w a ->
  wpf (fun f => f = UseAfterFree /\ exists evs, a = ATurn evs /\ fatal_turn w evs) (act w a) (fun '(w', ex) => winv M 0 w' /\ (ex = false -> w_taskq w' = [])).
Proof.
  intros HW Hq Hl. destruct a as [evs|clifd errno mem nalloced ssl sslok dst]; simpl in *.
  - pose proof (worker_turn_winv (turns evs) 0 w evs ltac:(done) HW Hq Hl ltac:(unfold turns; lia)) as Ht. unfold wpf in *.
    destruct (worker_turn _ _ _ _ _ _) as [[w' ex]|]; [done|]. destruct Ht as [-> Ht]. eauto.
  - destruct Hl as (Hfd & Hn & -> & -> & Hmem). apply wpf_wp.
    assert (HW1 : winv M 1 w).
    { destruct HW as [W1 W2 W3 W4 W5 W6 [] W8 W9 W10 W11]. constructor; try done. constructor; try done. lia. }
    eapply wp_bind; [by apply (ltn_accept_winv 1)|]. intros [w' rc] [HW' Hq']. done.
Qed.

(** The run stopped in a turn with a fatal task. *)
Definition fatal_run w (acts : list action) : Prop :=
  exists pre evs post w', acts = pre ++ ATurn evs :: post /\ worker_run w pre = Ok w' /\ fatal_turn w' evs.

Lemma worker_run_winv acts w :
  winv M 0 w -> w_taskq w = [] -> legal_run w acts ->
  wpf (fun f => f = UseAfterFree /\ fatal_run w acts) (worker_run w acts) (winv M 0).
Proof.
  revert w. induction acts as [|a acts IH]; intros w HW Hq Hl; cbn [worker_run legal_run] in *; [done|].
  destruct Hl as [Hl Hn]. pose proof (act_winv w a HW Hq Hl) as Ha. unfold wpf in *.
  destruct (act w a) as [[w' ex]|] eqn:Ea.
  2: { destruct Ha as (-> & evs & -> & Ht). split; [done|]. by exists [], evs, acts, w. }
  cbn [bind]. destruct Ha as [HW' Hq'], ex; [done|]. specialize (IH w' HW' (Hq' eq_refl) Hn).
  destruct (worker_run w' acts) as [|f]; [done|]. destruct IH as (-> & pre & evs & post & w1 & -> & Hr & Ht). split; [done|].
  exists (a :: pre), evs, post, w1. split_and!; [done| |done]. cbn [worker_run]. by rewrite Ea.
Qed.
End Safe.
End WorkerSafe.
