(* ===== verification/WorkerDemo.v ===== *)
(** * A worker to try the model on

    A worker whose packet pool is a real object pool of ObjPool.v: a client
    on descriptor 4 sends three bytes per read, the server is reached on
    descriptor 5, and the kernel takes at most two bytes per send, or refuses
    every send. *)
From S2P Require Import Prelude ObjPool ObjPoolProofs FdEpoll Conn ConnProofs ConnSafe ConnCallbacks Worker WorkerSafe.

Module WorkerDemo.
Import ObjPool ObjPoolProofs FdEpoll Conn ConnProofs ConnSafe ConnCallbacks Worker WorkerSafe.

Definition demo_M : Z := 64.

Definition demo_X (broken : bool) : externals := {|
  x_recv k fd len := if len <? 3 then (-1, EAGAIN, []) else (3, 0, [97; 98; 99]);
  x_send k fd bytes := if broken then (-1, 32) else (Z.min 2 (Z.of_nat (length bytes)), 0);
  x_ssl_recv k len := (-1, [], false, false);
  x_ssl_send k bytes := -1;
  x_ssl_handshake k := (-1, 0);
  x_ssl_shutdown k := (-1, 0);
  x_ssl_pending k := false;
  x_ssl_free k := 0;
  x_ssl_set_fd k := 0;
  x_connected k := 0;
  x_server k := Server false;
  x_connect k := (5, false) |}.

Lemma demo_env broken : env_ok demo_M (demo_X broken).
Proof.
  constructor; simpl.
  - intros k fd len n errno bytes. destruct (Z.ltb_spec len 3); intros [= <- <- <-]; simpl; lia.
  - intros k len n bytes closed hsk [= <- <- <- <-]. lia.
  - intros k fd bytes. destruct broken; simpl; lia.
  - intros k bytes. lia.
  - intros k. unfold demo_M. lia.
Qed.

Lemma demo_pending broken : forall n, exists j, (j < 1)%nat /\ x_ssl_pending (demo_X broken) (n + 2 * j) = false.
Proof. intros n. exists 0%nat. split; [lia|done]. Qed.

Definition demo_ctl (k : unit) (op : epoll_op) (fd ev : Z) : unit * Z := (k, 0).

Definition no_pool : pool_st := {|
  st_al := demo_al; st_self := 1;
  st_op := {| op_magic := 0; op_need_lock := false; op_objsize := 0; op_incsize := 0; op_nodesize := 0;
              op_nalloced := 0; op_nfreed := 0; op_node_list := []; op_cache_list := []; op_locked := false |};
  st_caches := ∅; st_nodes := ∅ |}.

Definition demo_pkts : pool_st :=
  match objpool_alloc demo_al 7 4056 2 false with Ok (_, Some s) => s | _ => no_pool end.

Lemma demo_pkts_ok : pool_inv demo_pkts /\ pool_live demo_pkts = ∅.
Proof.
  unfold demo_pkts. destruct (objpool_alloc_spec demo_al 7 4056 2 false) as (a' & r & E & Hs);
    [intros b Hb; set_solver|lia|done|done|].
  rewrite E. assert (is_Some r) as [s ->].
  { assert (Hv : (match objpool_alloc demo_al 7 4056 2 false with Ok (_, Some _) => true | _ => false end) = true)
      by (vm_compute; reflexivity).
    rewrite E in Hv. destruct r; [by eexists|done]. }
  by destruct Hs as (? & ? & _).
Qed.

Definition demo_mem (k : nat) : bool := true.
Definition no_fe : fd_epoll_t cid fd_func unit := {|
  fe_kernel := tt; fe_maxfd := 0; fe_maxwait := 0; fe_waittime := 0; fe_maps := []; fe_updates := []; fe_nupdate := 0 |}.
Definition demo_fe : fd_epoll_t cid fd_func unit := default no_fe (fd_epoll_alloc demo_mem 3 tt demo_M 1).

Lemma demo_fe_ok : fd_epoll_alloc demo_mem 3 tt demo_M 1 = Some demo_fe.
Proof. reflexivity. Qed.

Abbreviation demo_worker := (worker_t pool_st nid unit).
Definition demo_start : demo_worker := worker_start demo_pkts demo_fe.

Definition ok_of {A} (d : A) (r : res A) : A := match r with Ok a => a | Fault _ => d end.
Definition is_ok {A} (r : res A) : bool := match r with Ok _ => true | Fault _ => false end.
Lemma ok_of_ok {A} (d : A) r : is_ok r = true -> r = Ok (ok_of d r).
Proof. by destruct r. Qed.

(** A client is accepted; its first bytes arrive; the task runs. *)
Definition demo_accept : action := AAccept 4 0 (Some 1%positive) 0 false true true.
Definition demo_turn : action := ATurn (Some [(4, EPOLLIN)]).
Definition demo_accepted : demo_worker :=
  ok_of demo_start (worker_run demo_ctl (demo_X false) 1 demo_start [demo_accept]).
Definition demo_queued : demo_worker :=
  ok_of demo_start (call (demo_X false) 1 cb_recv 4 EPOLLIN (1%positive, false) demo_accepted).
Definition demo_blocked : demo_worker :=
  ok_of demo_start (worker_run demo_ctl (demo_X false) 1 demo_start [demo_accept; demo_turn]).

Lemma legal_cons broken w a acts :
  legal demo_M 1 w a -> (forall w' : demo_worker, legal_run demo_ctl demo_M (demo_X broken) 1 w' acts) ->
  legal_run demo_ctl demo_M (demo_X broken) 1 w (a :: acts).
Proof. intros H1 H2. cbn [legal_run]. split; [done|]. destruct (act demo_ctl (demo_X broken) 1 w a) as [[w' []]|]; done || apply H2. Qed.

Lemma demo_legal broken acts :
  acts = [demo_accept] \/ acts = [demo_accept; demo_turn] ->
  legal_run demo_ctl demo_M (demo_X broken) 1 demo_start acts.
Proof.
  assert (H1 : legal demo_M 1 demo_start demo_accept).
  { split_and!; [right; unfold demo_M; lia|vm_compute; reflexivity|done..]. }
  assert (H2 : forall w : demo_worker, legal demo_M 1 w demo_turn).
  { intros w. split_and!; [by apply NoDup_singleton| |].
    - intros fd Hfd. simpl in Hfd. apply list_elem_of_singleton in Hfd as ->. unfold demo_M. lia.
    - vm_compute. discriminate. }
  intros [->| ->]; (apply legal_cons; [exact H1|]); [done|]. intros w. apply legal_cons; [apply H2|done].
Qed.

Lemma demo_winv acts :
  acts = [demo_accept] \/ acts = [demo_accept; demo_turn] ->
  is_ok (worker_run demo_ctl (demo_X false) 1 demo_start acts) = true ->
  winv demo_M 0 (ok_of demo_start (worker_run demo_ctl (demo_X false) 1 demo_start acts)).
Proof.
  intros Ha Hok. destruct demo_pkts_ok as [Hp Hl].
  pose proof (worker_run_winv demo_ctl demo_M _ (demo_env false) 1 (demo_pending false) acts demo_start) as Hr.
  rewrite (ok_of_ok demo_start _ Hok) in Hr. apply Hr; [|done|by apply demo_legal].
  apply (winv_room demo_M demo_M 0); [exact (start_winv demo_M _ _ _ _ _ _ Hp Hl demo_fe_ok)|unfold demo_M; lia].
Qed.

Lemma winv_more {P obj K} `{Countable obj} `{!ObjPoolSpec P obj} M k k' (w : worker_t P obj K) :
  winv M k w -> fe_nupdate (w_fe w) + k' <= M -> winv M k' w.
Proof. intros [W1 W2 W3 W4 W5 W6 [] W8 W9 W10 W11] Hk. by constructor. Qed.

Lemma demo_accepted_winv : winv demo_M 32 demo_accepted.
Proof.
  assert (fe_nupdate (w_fe demo_accepted) = 1) as E by (vm_compute; reflexivity).
  apply (winv_more demo_M 0); [apply demo_winv; [by left|vm_compute; reflexivity]|]. rewrite E. unfold demo_M. lia.
Qed.

Lemma demo_blocked_winv : winv demo_M 32 demo_blocked.
Proof.
  assert (fe_nupdate (w_fe demo_blocked) = 2) as E by (vm_compute; reflexivity).
  apply (winv_more demo_M 0); [apply demo_winv; [by right|vm_compute; reflexivity]|]. rewrite E. unfold demo_M. lia.
Qed.

Lemma demo_queued_winv : winv demo_M 4 demo_queued /\ w_taskq demo_queued = [(1%positive, false)].
Proof.
  split; [|vm_compute; reflexivity].
  assert (Hc : exists s, w_sess demo_accepted !! 1%positive = Some s /\ c_fd (s_conn s false) = 4).
  { eexists. split; [vm_compute; reflexivity|reflexivity]. }
  destruct Hc as (s & Hs & Hfd).
  pose proof (call_winv demo_M _ (demo_env false) 1 (demo_pending false) 32 demo_accepted cb_recv 4 EPOLLIN (1%positive, false) s []) as Hw.
  assert (Hok : call (demo_X false) 1 cb_recv 4 EPOLLIN (1%positive, false) demo_accepted = Ok demo_queued)
    by (apply ok_of_ok; vm_compute; reflexivity).
  rewrite Hok in Hw. destruct Hw as (HW & _ & _); [vm_compute; discriminate|apply demo_accepted_winv|done|done| | | |].
  - unfold demo_M. lia.
  - intros c t Hc. assert (w_taskq demo_accepted = []) as E by (vm_compute; reflexivity). rewrite E in Hc. destruct (not_elem_of_nil _ Hc).
  - apply not_elem_of_nil.
  - eapply winv_room; [exact HW|]. vm_compute. discriminate.
Qed.
End WorkerDemo.
