(* ===== verification/WorkerClaims.v ===== *)
(** * What the worker loop guarantees, and where it does not

    The safety of every run of the worker loop from its start, and the two
    error paths that leave a dangling pointer. *)
From S2P Require Import Prelude ObjPool ObjPoolProofs FdEpoll Conn ConnProofs ConnSafe ConnCallbacks Worker WorkerSafe WorkerDemo.

Module WorkerClaims.
Import ObjPoolProofs FdEpoll Conn ConnProofs ConnSafe ConnCallbacks Worker WorkerSafe WorkerDemo.

Section Claims.
Context {P obj K : Type} `{Countable obj} `{!ObjPoolSpec P obj}.
Context (epoll_ctl : K -> epoll_op -> Z -> Z -> K * Z).
Context (M : Z) (X : externals).
Implicit Types (w : worker_t P obj K) (s : session_t obj).

(** C7: every run of the worker loop -- clients accepted and events dispatched
    in any order, with any outcome of the socket calls, of SSL and of the
    choice of servers -- keeps the worker's invariant: each packet is on
    exactly one queue of one session and the pool has handed out exactly
    those, [nalloced] counts them (so the assertion of session_free holds),
    every callback argument is the live connection that owns the descriptor,
    queued tasks belong to live sessions, and no array is overrun.  The run
    returns, or stops with a use after free in a turn in which the send of a
    TASK_PARSE failed while the peer's task was not queued: no other fault is
    possible.  Conditions of the run ([legal_run]): descriptors are below the
    limit, epoll reports each at most once and so few that the array of pending
    updates has room for what the callbacks add, that array has room for each accepted
    client, a new session's counter is 0, and the address a client
    connected to is found -- when it is not, _ltn_accept leaves a dangling
    argument (accept_error_dangles). *)
Theorem worker_run_safe (B : nat) (p : P) fe mem epfd kk wt acts :
  env_ok M X ->
  (forall n, exists j, (j < B)%nat /\ x_ssl_pending X (n + 2 * j) = false) ->
  pool_inv p -> pool_live p = ∅ -> fd_epoll_alloc mem epfd kk M wt = Some fe ->
  legal_run epoll_ctl M X B (worker_start p fe) acts ->
  match worker_run epoll_ctl X B (worker_start p fe) acts with
  | Ok w => winv M 0 w
  | Fault f => f = UseAfterFree /\ fatal_run epoll_ctl X B (worker_start p fe) acts
  end.
Proof.
  intros HX HB Hp Hl Hfe Hleg. assert (1 <= M).
  { unfold fd_epoll_alloc in Hfe. destruct (Z.ltb_spec M 1); [done|lia]. }
  apply (worker_run_winv epoll_ctl M X HX B HB); [|done|done].
  eapply winv_room; [by eapply start_winv|lia].
Qed.

(** C11: when the send of TASK_PARSE fails and the peer's task is not queued,
    session_run_task releases the session and then reads the connection's
    flags in the released memory. *)
Theorem run_task_parse_use_after_free k w c q s w1 w2 w3 pn e :
  env_ok M X -> 4 <= k -> winv M k w -> w_taskq w = c :: q -> w_sess w !! c.1 = Some s ->
  c_task (s_conn s c.2) = TASK_PARSE -> peer_of c ∉ q ->
  session_fparse (task_del_queue w c) c = Ok w1 -> session_forward X w1 (peer_of c) = Ok (w2, 0) ->
  get_conn w2 (peer_of c) = Ok pn -> conn_send_data X w2 (c_fd pn) 0 (peer_of c) = Ok (w3, e) -> e <> 0 ->
  session_run_task X (task_del_queue w c) c = Fault UseAfterFree.
Proof.
  intros HX Hk HW Hq Hs Ht Hpeer E1 E2 E3 E4 He.
  pose proof (dequeued _ _ _ _ _ _ HW Hq Hs) as Hr. pose proof (wi_taskq _ _ _ HW) as Hnd.
  destruct (winv_local _ _ _ _ _ HW Hs) as [HL Hqd].
  assert (Hf : filter (fun x => x <> c) (w_taskq w) = q).
  { rewrite Hq in *. apply NoDup_cons in Hnd as [Hni Hnd]. rewrite filter_cons_False by naive_solver.
    apply filter_all. by intros x Hx ->. }
  destruct c as [i d]. unfold peer_of in *. cbn [fst snd] in *.
  assert (HL' : local M (others w s) (w_pkts w) (w_sess w) i (sess_own s) k q (task_del_queue w (i, d)) s).
  { unfold task_del_queue. rewrite Hf. by apply (local_setq M _ _ _ _ _ _ (w_taskq w)). }
  pose proof (parse_forward_ok _ _ HX _ _ _ _ _ k q _ s d ltac:(lia) HL' Hqd Hr ltac:(by rewrite Ht)) as Hpf.
  rewrite E1 in Hpf. cbn [bind] in Hpf. rewrite E2 in Hpf. destruct Hpf as (s2 & HL2 & Hq2 & Hf2 & Hfd2 & Hok).
  destruct (Hok eq_refl) as [Hp2 Hs2].
  rewrite (get_conn_ok _ _ _ _ _ _ _ _ _ _ (negb d) HL2) in E3. injection E3 as <-.
  assert (Hsend : wp (conn_send_data X w2 (c_fd (s_conn s2 (negb d))) 0 (i, negb d)) (fun '(w', e) => exists own' s' q',
    local M (others w s) (w_pkts w) (w_sess w) i own' (k - 4) q' w' s' /\ queued s' own' /\
    sent_or_deleted i s2 s' (negb d) 0 q q')).
  { eapply conn_send_data_wp; [exact HX|lia| |by right| |exact Hq2|done].
    - by replace (k - 4 + 3) with (k - 1) by lia.
    - rewrite negb_involutive, Hfd2. intros _. apply fd_pos; apply Hr. }
  rewrite E4 in Hsend. destruct Hsend as (own3 & s3 & q3 & HL3 & Hq3 & [[-> Hsent]|[? _]]); [|done].
  unfold session_run_task. simpl. rewrite (get_conn_ok _ _ _ _ _ _ _ _ _ _ d HL'). cbn [bind]. rewrite Ht.
  rewrite E1. cbn [bind]. unfold peer_of. cbn [fst snd]. rewrite E2. cbn [bind Z.eqb negb].
  rewrite (get_conn_ok _ _ _ _ _ _ _ _ _ _ (negb d) HL2). cbn [bind]. rewrite E4. cbn [bind].
  rewrite (proj2 (Z.eqb_neq e 0)) by done. cbn [negb].
  assert (Hf3 : freeable M i q d s3) by (by eapply sent_freeable).
  pose proof HL3 as Hfo. eapply session_free_outcome in Hfo; [|exact HX|exact Hq3|exact Hf3].
  rewrite bool_decide_false in Hfo by done.
  destruct (session_free w3 (i, d)) as [w4|]; [|done]. cbn [bind wp] in *. destruct Hfo as [Hg _].
  unfold close_if_done, get_conn, get_sess. simpl. by rewrite (g_sess _ _ _ _ _ _ _ _ Hg), lookup_delete_eq.
Qed.

(** When the destination of an accepted connection cannot be found,
    _ltn_accept gives the session back to its pool and closes the descriptor,
    but the item of the descriptor keeps the connection as its argument: the
    next event that is dispatched to it runs the callback on the released
    session. *)
Theorem accept_error_dangles k w clifd errno i n (fuel : nat) :
  1 <= k -> winv M k w -> 0 < clifd < M -> w_sess w !! i = None -> w_taskq w = [] ->
  exists w', ltn_accept w clifd errno (Some i) n false true false = Ok (w', -1) /\ w_sess w' = w_sess w /\
    (exists fi, map_item (w_fe w') clifd = Ok fi /\ fi_state fi = FD_READY /\ fi_arg fi = Some (i, false) /\
       fi_iocb fi = Some cb_recv) /\
    call X fuel cb_recv clifd EPOLLIN (i, false) w' = Fault UseAfterFree.
Proof.
  intros Hk HW Hfd Hi Hq. destruct (wi_fe _ _ _ HW) as [F1 F2 F3 F4 F5 F6]. unfold ltn_accept.
  rewrite (proj2 (Z.ltb_ge clifd 0)) by lia. cbn [andb negb].
  destruct (lookup_lt_is_Some_2 (fe_maps (w_fe w)) (Z.to_nat clifd)) as [fi Hfi]; [lia|].
  unfold map_item, set_item, fd_epoll_map. rewrite F1, (proj2 (Z.ltb_ge clifd 0)), (proj2 (Z.ltb_ge M clifd)) by lia. cbn [orb].
  rewrite (proj2 (arr_get_Ok _ clifd fi)) by (split; [lia|done]). cbn [bind].
  erewrite (proj2 (arr_set_Ok _ clifd _ _)) by (split; [lia|done]). cbn [bind].
  unfold add_event, fd_epoll_add_event. simpl. rewrite F1, (proj2 (Z.ltb_ge clifd 0)), (proj2 (Z.leb_gt M clifd)) by lia.
  rewrite (proj2 (arr_get_Ok _ clifd (fi_set_arg fi FD_READY (Some (i, false)))))
    by (split; [lia|apply list_lookup_insert_eq; lia]). cbn [bind].
  assert (Hset : forall fi', arr_set (<[Z.to_nat clifd := fi_set_arg fi FD_READY (Some (i, false))]> (fe_maps (w_fe w))) clifd fi' =
    Ok (<[Z.to_nat clifd := fi']> (<[Z.to_nat clifd := fi_set_arg fi FD_READY (Some (i, false))]> (fe_maps (w_fe w))))).
  { intros fi'. apply arr_set_Ok. rewrite length_insert. split; [lia|done]. }
  assert (Hcall : forall w', w_sess w' = w_sess w -> call X fuel cb_recv clifd EPOLLIN (i, false) w' = Fault UseAfterFree).
  { intros w' Ew. unfold call, conn_recv_data. rewrite (proj2 (Z.ltb_ge clifd 0)) by lia. simpl.
    unfold get_conn, get_sess. simpl. by rewrite Ew, Hi. }
  simpl. destruct (fi_is_updated fi); rewrite Hset; cbn [bind].
  - eexists. split; [done|]. split_and!; [done| |by apply Hcall]. eexists.
    simpl. rewrite ?F1, ?(proj2 (Z.ltb_ge clifd 0)), ?(proj2 (Z.ltb_ge M clifd)) by lia. cbn [orb].
    split; [apply arr_get_Ok; split; [lia|]; apply list_lookup_insert_eq; rewrite length_insert; lia|done].
  - erewrite (proj2 (arr_set_Ok (fe_updates (w_fe w)) _ _ _)) by (split; [lia|done]). cbn [bind].
    eexists. split; [done|]. split_and!; [done| |by apply Hcall]. eexists.
    simpl. rewrite ?F1, ?(proj2 (Z.ltb_ge clifd 0)), ?(proj2 (Z.ltb_ge M clifd)) by lia. cbn [orb].
    split; [apply arr_get_Ok; split; [lia|]; apply list_lookup_insert_eq; rewrite length_insert; lia|done].
Qed.
End Claims.

(** ** Witnesses *)

(** A client's first bytes go to the server; with a server that breaks the
    connection the same run stops. *)
Lemma worker_run_safe_witness :
  (exists w : demo_worker, worker_run demo_ctl (demo_X false) 1 demo_start [demo_accept; demo_turn] = Ok w /\
    winv demo_M 0 w /\ w_log w = [ESend 5 [97; 98]]) /\
  worker_run demo_ctl (demo_X true) 1 demo_start [demo_accept; demo_turn] = Fault UseAfterFree /\
  fatal_run demo_ctl (demo_X true) 1 demo_start [demo_accept; demo_turn].
Proof.
  split; [|
    pose proof (worker_run_safe demo_ctl demo_M (demo_X true) 1 demo_pkts demo_fe demo_mem 3 tt 1 [demo_accept; demo_turn]
      (demo_env true) (demo_pending true) (proj1 demo_pkts_ok) (proj2 demo_pkts_ok) demo_fe_ok (demo_legal true _ (or_intror eq_refl))) as Hb;
    assert (Eb : match worker_run demo_ctl (demo_X true) 1 demo_start [demo_accept; demo_turn] with Ok _ => false | Fault _ => true end = true) by (vm_compute; reflexivity);
    change (worker_start demo_pkts demo_fe) with demo_start in Hb;
    destruct (worker_run demo_ctl (demo_X true) 1 demo_start [demo_accept; demo_turn]) as [|f]; [discriminate Eb|destruct Hb as [-> Hf]; split; [reflexivity|exact Hf]]].
  pose proof (worker_run_safe demo_ctl demo_M (demo_X false) 1 demo_pkts demo_fe demo_mem 3 tt 1 [demo_accept; demo_turn]
    (demo_env false) (demo_pending false) (proj1 demo_pkts_ok) (proj2 demo_pkts_ok) demo_fe_ok
    (demo_legal false _ (or_intror eq_refl))) as Hw.
  exists demo_blocked.
  assert (E : worker_run demo_ctl (demo_X false) 1 demo_start [demo_accept; demo_turn] = Ok demo_blocked)
    by (apply ok_of_ok; vm_compute; reflexivity).
  change (worker_start demo_pkts demo_fe) with demo_start in Hw. rewrite E in Hw.
  split; [exact E|]. split; [exact Hw|]. vm_compute. reflexivity.
Defined.

(** The states a broken send goes through. *)
Definition demo_uaf : res (demo_worker * demo_worker * connection_t ObjPool.nid * demo_worker * Z) :=
  do w1 <- session_fparse (task_del_queue demo_queued (1%positive, false)) (1%positive, false);
  do (w2, e) <- session_forward (demo_X true) w1 (1%positive, true);
  do pn <- get_conn w2 (1%positive, true);
  do (w3, e3) <- conn_send_data (demo_X true) w2 (c_fd pn) 0 (1%positive, true);
  if e =? 0 then Ok (w1, w2, pn, w3, e3) else Fault AssertFailed.

Lemma run_task_parse_use_after_free_witness :
  session_run_task (demo_X true) (task_del_queue demo_queued (1%positive, false)) (1%positive, false) = Fault UseAfterFree.
Proof.
  assert (Hs : exists s, w_sess demo_queued !! 1%positive = Some s /\ c_task (s_conn s false) = TASK_PARSE).
  { eexists. split; [vm_compute; reflexivity|reflexivity]. }
  destruct Hs as (s & Hs & Ht). destruct demo_queued_winv as [HW Hq].
  assert (Hr : match demo_uaf with Ok (_, _, _, _, e) => e =? -1 | Fault _ => false end = true) by (vm_compute; reflexivity).
  unfold demo_uaf in Hr.
  destruct (session_fparse (task_del_queue demo_queued (1%positive, false)) (1%positive, false)) as [w1|] eqn:E1; [|discriminate Hr].
  cbn [bind] in Hr. destruct (session_forward (demo_X true) w1 (1%positive, true)) as [[w2 e]|] eqn:E2; [|discriminate Hr].
  cbn [bind] in Hr. destruct (get_conn w2 (1%positive, true)) as [pn|] eqn:E3; [|discriminate Hr].
  cbn [bind] in Hr. destruct (conn_send_data (demo_X true) w2 (c_fd pn) 0 (1%positive, true)) as [[w3 e3]|] eqn:E4; [|discriminate Hr].
  cbn [bind] in Hr. destruct (Z.eqb_spec e 0) as [He|He]; [|discriminate Hr]. subst e.
  apply (run_task_parse_use_after_free demo_M (demo_X true) 4 demo_queued (1%positive, false) [] s w1 w2 w3 pn e3
    (demo_env true) (Z.le_refl 4) HW Hq Hs Ht (not_elem_of_nil _) E1 E2 E3 E4).
  intros Hz. rewrite Hz in Hr. discriminate Hr.
Defined.

Lemma accept_error_dangles_witness :
  exists w', ltn_accept demo_start 6 0 (Some 2%positive) 0 false true false = Ok (w', -1) /\
    call (demo_X false) 1 cb_recv 6 EPOLLIN (2%positive, false) w' = Fault UseAfterFree.
Proof.
  pose proof (start_winv demo_M _ _ _ _ _ _ (proj1 demo_pkts_ok) (proj2 demo_pkts_ok) demo_fe_ok) as HW.
  destruct (accept_error_dangles demo_M (demo_X false) demo_M demo_start 6 0 2%positive 0 1) as (w' & E & _ & _ & Hc).
  - unfold demo_M. lia.
  - exact HW.
  - unfold demo_M. lia.
  - reflexivity.
  - reflexivity.
  - exists w'. split; [exact E|exact Hc].
Defined.
End WorkerClaims.
