(* ===== verification/ConnStream.v ===== *)
(** * The byte streams of a session

    conn_send_data and conn_recv_data as operations on byte streams: what is
    sent is what the output queue held, in order, and what is received is
    appended to what the input queue holds, whatever the system calls do. *)
From S2P Require Import Prelude ObjPool FdEpoll Conn ConnProofs ConnSafe ConnCallbacks Worker WorkerSafe.

Module ConnStream.
Import FdEpoll Conn ConnProofs ConnSafe ConnCallbacks Worker WorkerSafe.

(** The bytes passed to the kernel for a descriptor. *)
Fixpoint sent_to (fd : Z) (log : list effect) : list Z :=
  match log with
  | [] => []
  | ESend fd' bytes :: log => if fd' =? fd then bytes ++ sent_to fd log else sent_to fd log
  | _ :: log => sent_to fd log
  end.

Lemma sent_to_app fd l1 l2 : sent_to fd (l1 ++ l2) = sent_to fd l1 ++ sent_to fd l2.
Proof. induction l1 as [|[] l1 IH]; simpl; try done. destruct (_ =? _); rewrite IH; by rewrite ?app_assoc. Qed.

Section Stream.
Context {P obj K : Type} `{Countable obj} `{!ObjPoolSpec P obj}.
Context (M : Z) (X : externals) (HX : env_ok M X).
Implicit Types (w : worker_t P obj K) (s : session_t obj) (m : gmap obj packet_t).

(** The bytes of a packet that are still to be sent, and of a queue. *)
Definition pkt_rest (p : packet_t) : list Z := drop (Z.to_nat (pk_sendpos p)) (pk_data p).
Definition pkt_bytes m (it : obj) : list Z := match m !! it with Some p => pkt_rest p | None => [] end.
Definition queue_bytes m (q : list obj) : list Z := q ≫= pkt_bytes m.

Lemma queue_bytes_ext m m' q : (forall it, it ∈ q -> m' !! it = m !! it) -> queue_bytes m' q = queue_bytes m q.
Proof.
  induction q as [|it q IH]; intros Hm; simpl; [done|]. unfold queue_bytes in *. simpl.
  f_equal; [|apply IH; intros x Hx; apply Hm; by right]. unfold pkt_bytes. by rewrite Hm by left.
Qed.

Lemma queue_bytes_app m q1 q2 : queue_bytes m (q1 ++ q2) = queue_bytes m q1 ++ queue_bytes m q2.
Proof. unfold queue_bytes. by rewrite bind_app. Qed.

(** ** Inversion of the primitive operations *)
Lemma upd_conn_inv w i d f w' :
  upd_conn w (i, d) f = Ok w' -> exists s, w_sess w !! i = Some s /\ w' = put_sess w i (s_set_conn s d (f (s_conn s d))).
Proof.
  unfold upd_conn, upd_sess, get_sess. simpl. intros (s & E%deref_Ok & [= <-])%bind_Ok. eauto.
Qed.

Lemma pkt_free_inv w i it w' :
  pkt_free w i it = Ok w' -> exists s p, w_sess w !! i = Some s /\
    w' = put_sess (set_pkts w p (delete it (w_pkts w))) i (s_set_nalloced s (s_nalloced s - 1)).
Proof.
  unfold pkt_free, upd_sess, get_sess. intros ([p z] & _ & (s & E%deref_Ok & [= <-])%bind_Ok)%bind_Ok. simpl in *. eauto.
Qed.

Lemma raw_send_inv w fd ssl bytes w' n :
  conn_raw_send X w fd ssl bytes = (w', n) ->
  (w' = w \/ w' = tick w) /\ n <= Z.of_nat (length bytes).
Proof.
  unfold conn_raw_send, sk_send. destruct (_ <? 1); [intros [= <- <-]; split; [auto|lia]|].
  destruct ssl; [intros [= <- <-]; split; [auto|apply HX]|].
  destruct (fd <? 0); cbn [orb]; [intros [= <- <-]; split; [auto|lia]|].
  pose proof (env_send _ _ HX (w_io w) fd bytes) as He. destruct (x_send X (w_io w) fd bytes) as [m errno]. simpl in He.
  destruct (Z.ltb_spec m 0); [destruct (_ || _)|]; intros [= <- <-]; split; auto; lia.
Qed.

(** What the steps around the loop do not change: packets, output queue and
    the bytes sent. *)
Record quiet w w' (i : positive) (d : bool) : Prop := {
  qt_pkts : w_pkts w' = w_pkts w;
  qt_sent fd : sent_to fd (w_log w') = sent_to fd (w_log w);
  qt_out s : w_sess w !! i = Some s -> exists s', w_sess w' !! i = Some s' /\
    c_out (s_conn s' d) = c_out (s_conn s d) /\ c_in (s_conn s' d) = c_in (s_conn s d)
}.

Lemma quiet_refl w i d : quiet w w i d.
Proof. constructor; eauto. Qed.
Lemma quiet_trans w1 w2 w3 i d : quiet w1 w2 i d -> quiet w2 w3 i d -> quiet w1 w3 i d.
Proof.
  intros [A1 A2 A3] [B1 B2 B3]. constructor; [congruence|intros fd; by rewrite B2|].
  intros s Hs. destruct (A3 s Hs) as (s2 & Hs2 & E1 & E2). destruct (B3 s2 Hs2) as (s3 & Hs3 & E3 & E4).
  exists s3. split_and!; congruence.
Qed.

Lemma quiet_upd w i d d' f w' :
  upd_conn w (i, d') f = Ok w' -> (forall x, c_out (f x) = c_out x /\ c_in (f x) = c_in x) -> quiet w w' i d.
Proof.
  intros (s & Hs & ->)%upd_conn_inv Hf. constructor; [done|done|].
  intros s' Hs'. rewrite Hs in Hs'. simplify_eq. eexists. simpl. rewrite lookup_insert_eq. split; [done|].
  rewrite s_conn_set. case_decide; subst; [apply Hf|done].
Qed.

Lemma quiet_fe w fe i d : quiet w (set_fe w fe) i d.
Proof. constructor; eauto. Qed.

Lemma quiet_event w fd ev cb w' e i d : add_event w fd ev cb = Ok (w', e) -> quiet w w' i d.
Proof. unfold add_event. intros ([fe rc] & _ & [= <- <-])%bind_Ok. apply quiet_fe. Qed.

Lemma quiet_arg w fd c w' i d : set_arg w fd c = Ok w' -> quiet w w' i d.
Proof. unfold set_arg. intros (fi & _ & (fe & _ & [= <-])%bind_Ok)%bind_Ok. apply quiet_fe. Qed.

Ltac flags := let x := fresh in intros x; destruct x; split; reflexivity.

(** ** The loop *)
Lemma send_blocked_quiet w i d fd w' r : send_blocked w (i, d) fd = Ok (w', r) -> quiet w w' i d /\ r <> SDone.
Proof.
  unfold send_blocked. intros (cn & _ & E)%bind_Ok. destruct (has _ _).
  { simplify_eq. split; [apply quiet_refl|done]. }
  apply bind_Ok in E as (w1 & E1%(quiet_arg _ _ _ _ i d) & E). apply bind_Ok in E as ([w2 e] & E2%(quiet_event _ _ _ _ _ _ i d) & E).
  destruct (negb _). { simplify_eq. split; [by eapply quiet_trans|done]. }
  apply bind_Ok in E as (pn & _ & E). apply bind_Ok in E as (fi & _ & E).
  apply bind_Ok in E as ([w3 e3] & E3%(quiet_event _ _ _ _ _ _ i d) & E).
  assert (Hq : quiet w w3 i d) by (eapply quiet_trans; [done|]; by eapply quiet_trans).
  destruct (negb _). { by simplify_eq. }
  apply bind_Ok in E as (w4 & E4 & E). simplify_eq. split; [|done]. eapply quiet_trans; [done|].
  by eapply quiet_upd.
Qed.

Definition pkts_wf m (q : list obj) : Prop := forall it, it ∈ q -> exists p, m !! it = Some p /\ pkt_wf p.

Lemma advance_rest p n :
  pkt_wf p -> 0 <= n <= Z.of_nat (length (pkt_rest p)) ->
  pkt_rest p = take (Z.to_nat n) (pkt_rest p) ++ pkt_rest (pkt_advance p n).
Proof.
  intros (H1 & H2 & H3 & H4) Hn. unfold pkt_rest, pkt_advance in *. simpl. rewrite length_drop in Hn. unfold MAX_PKTLEN in *.
  rewrite u32_small by lia. rewrite Z2Nat.inj_add, <- drop_drop by lia. symmetry. apply take_drop.
Qed.

Lemma send_loop_stream i d fd items w s w' r :
  w_sess w !! i = Some s -> c_out (s_conn s d) = items -> NoDup items -> pkts_wf (w_pkts w) items ->
  send_loop X w (i, d) fd items = Ok (w', r) ->
  exists s' x, w_sess w' !! i = Some s' /\ sent_to fd (w_log w') = sent_to fd (w_log w) ++ x /\
    queue_bytes (w_pkts w) items = x ++ queue_bytes (w_pkts w') (c_out (s_conn s' d)) /\
    (r = SDone -> c_out (s_conn s' d) = []).
Proof.
  revert w s. induction items as [|it items IH]; intros w s Hs Ho Hnd Hwf E; simpl in E.
  { simplify_eq. exists s, []. rewrite app_nil_r, Ho. done. }
  destruct (Hwf it ltac:(left)) as (p & Hp & Hpw). rewrite Hp in E. cbn [bind deref] in E.
  apply NoDup_cons in Hnd as [Hni Hnd].
  unfold get_conn, get_sess in E. simpl in E. rewrite Hs in E. cbn [bind deref] in E.
  fold (pkt_rest p) in E. destruct (conn_raw_send X w fd _ (pkt_rest p)) as [w1 n] eqn:Er.
  destruct (raw_send_inv _ _ _ _ _ _ Er) as [Hw1 Hn].
  assert (H1 : w_sess w1 = w_sess w /\ w_pkts w1 = w_pkts w /\ w_log w1 = w_log w) by (by destruct Hw1 as [->| ->]).
  destruct H1 as (Es & Ep & El).
  destruct (Z.ltb_spec n 0).
  { apply bind_Ok in E as (w2 & E2 & E). simplify_eq. apply (quiet_upd w1 i d) in E2 as [Q1 Q2 Q3]; [|done].
    rewrite <- Es in Hs. destruct (Q3 _ Hs) as (s' & Hs' & Eo & _). exists s', [].
    rewrite app_nil_r, Q2, El, Q1, Ep, Eo, Ho. done. }
  set (w2 := set_pkts (emit w1 (ESend fd (take (Z.to_nat n) (pkt_rest p)))) (w_pktpool w1) (<[it:=pkt_advance p n]> (w_pkts w1))) in *.
  assert (Hsent2 : sent_to fd (w_log w2) = sent_to fd (w_log w) ++ take (Z.to_nat n) (pkt_rest p)).
  { simpl. rewrite El, sent_to_app. simpl. by rewrite Z.eqb_refl, app_nil_r. }
  pose proof (advance_rest p n Hpw ltac:(lia)) as Hrest.
  assert (Hq : queue_bytes (w_pkts w) (it :: items) = take (Z.to_nat n) (pkt_rest p) ++
            (pkt_rest (pkt_advance p n) ++ queue_bytes (w_pkts w) items)).
  { unfold queue_bytes. simpl. unfold pkt_bytes at 1. rewrite Hp. rewrite Hrest at 1. by rewrite app_assoc. }
  assert (Hrest2 : queue_bytes (w_pkts w2) items = queue_bytes (w_pkts w) items).
  { apply queue_bytes_ext. intros x Hx. simpl. rewrite lookup_insert_ne, Ep by (by intros ->). done. }
  destruct (Z.eqb_spec n (Z.of_nat (length (pkt_rest p)))) as [Heq|Hne]; cbn [negb] in E.
  - apply bind_Ok in E as (w3 & E3 & E). apply bind_Ok in E as (w4 & E4 & E).
    apply upd_conn_inv in E3 as (s3 & Hs3 & ->). simpl in Hs3. rewrite Es, Hs in Hs3. injection Hs3 as <-.
    apply pkt_free_inv in E4 as (s4 & pp & Hs4 & ->). simpl in Hs4. rewrite lookup_insert_eq in Hs4. injection Hs4 as <-.
    assert (Hf : filter (fun y => y <> it) (c_out (s_conn s d)) = items).
    { rewrite Ho, filter_cons_False by naive_solver. apply filter_all. by intros x Hx ->. }
    rewrite Hf in E. eapply IH in E; [|simpl; by rewrite lookup_insert_eq|by destruct d|done|].
    2:{ intros x Hx. simpl. rewrite lookup_delete_ne, lookup_insert_ne, Ep by (by intros ->). apply Hwf. by right. }
    destruct E as (s' & x & Hs' & Hl & Hb & Hd). exists s', (take (Z.to_nat n) (pkt_rest p) ++ x).
    split_and!; [done| | |done].
    + rewrite Hl. simpl. change (w_log w1 ++ [ESend fd (take (Z.to_nat n) (pkt_rest p))]) with (w_log w2). rewrite Hsent2. by rewrite app_assoc.
    + rewrite Hq. assert (pkt_rest (pkt_advance p n) = []) as ->.
      { apply length_zero_iff_nil. apply (f_equal length) in Hrest. rewrite length_app, length_take in Hrest. lia. }
      simpl. rewrite <- app_assoc, <- Hb. f_equal. symmetry. apply queue_bytes_ext. intros y Hy. simpl.
      by rewrite lookup_delete_ne, lookup_insert_ne, Ep by (by intros ->).
  - apply send_blocked_quiet in E as [[Q1 Q2 Q3] Hr]. destruct (Q3 s) as (s' & Hs' & Eo & _); [simpl; by rewrite Es|].
    exists s', (take (Z.to_nat n) (pkt_rest p)). split_and!; [done|by rewrite Q2| |done].
    rewrite Q1, Eo, Ho, Hq. f_equal. unfold queue_bytes at 2. simpl. unfold pkt_bytes at 1. simpl.
    rewrite lookup_insert_eq. f_equal. symmetry. exact Hrest2.
Qed.

(** ** [conn_send_data] *)
Lemma send_unblock_quiet w i d fd w' e : send_unblock w (i, d) fd = Ok (w', e) -> quiet w w' i d.
Proof.
  unfold send_unblock. intros (cn & _ & E)%bind_Ok. destruct (negb _); [simplify_eq; apply quiet_refl|].
  apply bind_Ok in E as (w1 & E1%(quiet_arg _ _ _ _ i d) & E). apply bind_Ok in E as ([w2 e2] & E2%(quiet_event _ _ _ _ _ _ i d) & E).
  assert (Hq2 : quiet w w2 i d) by (by eapply quiet_trans). destruct (negb _); [by simplify_eq|].
  apply bind_Ok in E as (pn & _ & E). apply bind_Ok in E as (w3 & E3%(quiet_arg _ _ _ _ i d) & E).
  apply bind_Ok in E as ([w4 e4] & E4%(quiet_event _ _ _ _ _ _ i d) & E).
  assert (Hq4 : quiet w w4 i d) by (eapply quiet_trans; [done|]; by eapply quiet_trans). destruct (negb _); [by simplify_eq|].
  apply bind_Ok in E as (w5 & E5 & E). simplify_eq. eapply quiet_trans; [done|]. by eapply quiet_upd.
Qed.

Lemma quiet_shut w fd i d : quiet w (emit w (EShutWr fd)) i d.
Proof. constructor; [done| |eauto]. intros fd'. simpl. rewrite sent_to_app. simpl. by rewrite app_nil_r. Qed.

Lemma send_shutdown_quiet w i d fd w' e : send_shutdown w (i, d) fd = Ok (w', e) -> quiet w w' i d.
Proof.
  unfold send_shutdown. intros (pn & _ & E)%bind_Ok. apply bind_Ok in E as (cn & _ & E).
  destruct (negb _); [simplify_eq; apply quiet_refl|]. destruct (c_ssl cn).
  - apply bind_Ok in E as (w1 & E1 & E). apply bind_Ok in E as ([w2 e2] & E2%(quiet_event _ _ _ _ _ _ i d) & E). simplify_eq.
    eapply quiet_trans; [by eapply quiet_upd|done].
  - apply bind_Ok in E as (w1 & E1 & E). simplify_eq. eapply quiet_trans; [apply (quiet_shut _ fd)|]. by eapply quiet_upd.
Qed.

Lemma send_error_quiet w i d events w' e : send_error w (i, d) events = Ok (w', e) -> quiet w w' i d /\ e <> 0.
Proof.
  unfold send_error. destruct (events =? 0); [intros [= <- <-]; split; [apply quiet_refl|done]|].
  intros (w1 & E1 & E)%bind_Ok. apply bind_Ok in E as (w2 & E2 & E). simplify_eq. split; [|done].
  apply (quiet_upd w i d) in E1; [|done]. unfold task_add_queue in E2. destruct (task_in_queue _ _); [done|]. simplify_eq.
  eapply quiet_trans; [done|]. constructor; eauto.
Qed.

Lemma has_self f x : x <> 0 -> has (Z.lor f x) x = true.
Proof.
  intros Hx. unfold has. rewrite negb_true_iff, Z.eqb_neq. intros E. apply Hx.
  apply Z.bits_inj'. intros n Hn. apply (f_equal (fun z => Z.testbit z n)) in E.
  rewrite Z.land_spec, Z.lor_spec, Z.bits_0 in *. destruct (Z.testbit f n), (Z.testbit x n); done.
Qed.

(** A send is only given up for now when the connection is marked. *)
Lemma send_blocked_flag w i d fd w' :
  send_blocked w (i, d) fd = Ok (w', SBlocked) ->
  exists s', w_sess w' !! i = Some s' /\ has (c_flags (s_conn s' d)) CONN_F_BLOCKED = true.
Proof.
  unfold send_blocked, get_conn, get_sess. simpl. intros (cn & (s & Hs%deref_Ok & [= <-])%bind_Ok & E)%bind_Ok.
  destruct (has _ _) eqn:Eb; [simplify_eq; eauto|].
  apply bind_Ok in E as (w1 & _ & E). apply bind_Ok in E as ([w2 e] & _ & E). destruct (negb _); [done|].
  apply bind_Ok in E as (pn & _ & E). apply bind_Ok in E as (fi & _ & E). apply bind_Ok in E as ([w3 e3] & _ & E).
  destruct (negb _); [done|]. apply bind_Ok in E as (w4 & E4 & E). simplify_eq.
  apply upd_conn_inv in E4 as (s4 & Hs4 & ->). eexists. simpl. rewrite lookup_insert_eq. split; [done|].
  rewrite s_conn_set, decide_True by done. by apply has_self.
Qed.

Lemma send_loop_flag i d fd items w w' :
  send_loop X w (i, d) fd items = Ok (w', SBlocked) ->
  exists s', w_sess w' !! i = Some s' /\ has (c_flags (s_conn s' d)) CONN_F_BLOCKED = true.
Proof.
  revert w. induction items as [|it items IH]; intros w E; simpl in E; [done|].
  apply bind_Ok in E as (p & _ & E). apply bind_Ok in E as (cn & _ & E).
  destruct (conn_raw_send _ _ _ _ _) as [w1 n]. destruct (n <? 0); [by apply bind_Ok in E as (w2 & _ & [=])|].
  destruct (negb (n =? _)); [by eapply send_blocked_flag|].
  apply bind_Ok in E as (w2 & _ & E). apply bind_Ok in E as (w3 & _ & E). by eapply IH.
Qed.

Definition handshaking s d : bool := has (c_flags (s_conn s d)) CONN_F_HSK || has (c_flags (s_conn s d)) CONN_F_SSLHSK.

Lemma conn_send_data_inv w i d s events w' e :
  w_sess w !! i = Some s -> NoDup (c_out (s_conn s d)) -> pkts_wf (w_pkts w) (c_out (s_conn s d)) ->
  conn_send_data X w (c_fd (s_conn s d)) events (i, d) = Ok (w', e) ->
  exists s' x, w_sess w' !! i = Some s' /\
    sent_to (c_fd (s_conn s d)) (w_log w') = sent_to (c_fd (s_conn s d)) (w_log w) ++ x /\
    queue_bytes (w_pkts w) (c_out (s_conn s d)) = x ++ queue_bytes (w_pkts w') (c_out (s_conn s' d)) /\
    (e = 0 -> handshaking s d = false ->
      c_out (s_conn s' d) = [] \/ has (c_flags (s_conn s' d)) CONN_F_BLOCKED = true).
Proof.
  intros Hs Hnd Hwf. unfold conn_send_data. set (fd := c_fd (s_conn s d)).
  destruct (fd <? 0). { intros [= <- <-]. exists s, []. by rewrite app_nil_r. }
  intros (cn & (s1 & Hs1%deref_Ok & [= <-])%bind_Ok & E)%bind_Ok. simpl in *. rewrite Hs in Hs1. injection Hs1 as <-.
  rewrite Z.eqb_refl in E. change (has (c_flags (s_conn s d)) CONN_F_HSK || has (c_flags (s_conn s d)) CONN_F_SSLHSK) with (handshaking s d) in E.
  destruct (handshaking s d). { injection E as <- <-. exists s, []. by rewrite app_nil_r. }
  apply bind_Ok in E as ([w1 r] & E1 & E).
  pose proof E1 as Hst. eapply send_loop_stream in Hst as (s2 & x & Hs2 & Hl & Hb & Hd); [|done|done|done|done].
  assert (Hdone : forall w2, quiet w1 w2 i d -> exists s', w_sess w2 !! i = Some s' /\
    sent_to fd (w_log w2) = sent_to fd (w_log w) ++ x /\
    queue_bytes (w_pkts w) (c_out (s_conn s d)) = x ++ queue_bytes (w_pkts w2) (c_out (s_conn s' d)) /\
    c_out (s_conn s' d) = c_out (s_conn s2 d)).
  { intros w2 [Q1 Q2 Q3]. destruct (Q3 _ Hs2) as (s' & Hs' & Eo & _). exists s'. by rewrite Q1, Q2, Eo. }
  destruct r.
  - apply send_error_quiet in E as [Hq He]. destruct (Hdone _ Hq) as (s' & A1 & A2 & A3 & A4). exists s', x. split_and!; try done.
  - injection E as <- <-. exists s2, x. split_and!; try done. intros _ _. right.
    apply send_loop_flag in E1 as (s3 & Hs3 & Hf). by simplify_eq.
  - apply bind_Ok in E as ([w2 e2] & E2%send_unblock_quiet & E). destruct (negb _).
    { apply send_error_quiet in E as [Hq He]. destruct (Hdone w') as (s' & A1 & A2 & A3 & A4); [by eapply quiet_trans|].
      exists s', x. split_and!; try done. }
    apply bind_Ok in E as ([w3 e3] & E3%send_shutdown_quiet & E). destruct (negb _).
    { apply send_error_quiet in E as [Hq He]. destruct (Hdone w') as (s' & A1 & A2 & A3 & A4).
      { eapply quiet_trans; [done|]. by eapply quiet_trans. }
      exists s', x. split_and!; try done. }
    injection E as <- <-. destruct (Hdone w3) as (s' & A1 & A2 & A3 & A4); [by eapply quiet_trans|].
    exists s', x. split_and!; try done. intros _ _. left. rewrite A4. by apply Hd.
Qed.

(** ** [conn_recv_data] on a plain connection *)

(** The packet that is received into is found at the head of the input queue
    although it is the last one that may have room. *)
Definition in_ok m (q : list obj) : Prop :=
  match q with
  | it :: _ :: _ => exists p, m !! it = Some p /\ pk_max p <= pk_len p
  | _ => True
  end.

(** The input queue [q] has no packet with room: a new one is taken from the pool. *)
Definition needs_packet m (q : list obj) : bool :=
  match q with
  | it :: _ => match m !! it with Some p => pk_max p <=? pk_len p | None => true end
  | [] => true
  end.
(** How many bytes the packet to be filled has room for. *)
Definition recv_room m (q : list obj) : Z :=
  match q with
  | it :: _ => match m !! it with Some p => if pk_max p <=? pk_len p then MAX_PKTLEN else pk_max p - pk_len p | None => MAX_PKTLEN end
  | [] => MAX_PKTLEN
  end.

Lemma recv_packet_stream k w i d s w' r :
  winv M k w -> w_sess w !! i = Some s -> in_ok (w_pkts w) (c_in (s_conn s d)) ->
  recv_packet w (i, d) = Ok (w', r) ->
  exists s', w_sess w' !! i = Some s' /\ w_io w' = w_io w /\ c_ssl (s_conn s' d) = c_ssl (s_conn s d) /\ w_fe w' = w_fe w /\
    match r with
    | None => c_in (s_conn s' d) = c_in (s_conn s d) /\ w_pkts w' = w_pkts w /\ needs_packet (w_pkts w) (c_in (s_conn s d)) && pool_dry (w_pktpool w) = true
    | Some it => needs_packet (w_pkts w) (c_in (s_conn s d)) && pool_dry (w_pktpool w) = false /\ exists q0 p, pk_max p - pk_len p = recv_room (w_pkts w) (c_in (s_conn s d)) /\ c_in (s_conn s' d) = q0 ++ [it] /\ it ∉ q0 /\ w_pkts w' !! it = Some p /\
        pkt_wf p /\ pk_len p < pk_max p /\ in_ok (w_pkts w') (q0 ++ [it]) /\
        queue_bytes (w_pkts w') (q0 ++ [it]) = queue_bytes (w_pkts w) (c_in (s_conn s d))
    end.
Proof.
  intros HW Hs Hin E. pose proof (recv_packet_io _ _ _ _ E) as Hio. unfold recv_packet, get_conn, get_sess in E. simpl in E.
  rewrite Hs in E. cbn [bind deref] in E.
  apply bind_Ok in E as (full & Ef & E).
  assert (Hneed : needs_packet (w_pkts w) (c_in (s_conn s d)) = full /\ (full = true -> recv_room (w_pkts w) (c_in (s_conn s d)) = MAX_PKTLEN)).
  { destruct (c_in (s_conn s d)) as [|y q]; simpl in *; [by injection Ef as <-|]. apply bind_Ok in Ef as (py & Hy%deref_Ok & [= <-]). rewrite Hy. split; [done|]. by intros ->. }
  destruct Hneed as [Hneed Hroom]. rewrite Hneed. destruct full.
  - specialize (Hroom eq_refl). destruct (pool_get_law (w_pktpool w) (wi_pool _ _ _ HW)) as (p & ro & Eg & _ & Hro). rewrite Eg in E. cbn [bind] in E.
    destruct ro as [it|].
    2:{ injection E as <- <-. exists s. destruct Hro as [-> _]. done. }
    destruct Hro as (Hdry & Hni & _).
    assert (Hnew : it ∉ c_in (s_conn s d)).
    { intros Hx. apply Hni. apply (wi_live _ _ _ HW). exists i, s. split; [done|].
      rewrite (sess_pkts_split s d). rewrite !elem_of_app. by left. }
    apply bind_Ok in E as (w1 & (s1 & Hs1 & ->)%upd_conn_inv & E). simpl in Hs1. rewrite Hs in Hs1. injection Hs1 as <-.
    unfold upd_sess, get_sess, put_sess in E. simpl in E. rewrite lookup_insert_eq in E. cbn [bind deref] in E. injection E as <- <-.
    eexists. simpl. rewrite lookup_insert_eq. split_and!; [done|done|by destruct d|done|by rewrite Hdry|].
    assert (Hext : forall q, it ∉ q -> queue_bytes (<[it:=PKT_INIT]> (w_pkts w)) q = queue_bytes (w_pkts w) q).
    { intros q Hq. apply queue_bytes_ext. intros x Hx. rewrite lookup_insert_ne; [done|by intros ->]. }
    exists (c_in (s_conn s d)), PKT_INIT. split_and!.
    + rewrite Hroom. done.
    + by destruct d.
    + done.
    + by rewrite lookup_insert_eq.
    + unfold pkt_wf, PKT_INIT, MAX_PKTLEN; simpl; lia.
    + unfold PKT_INIT, MAX_PKTLEN; simpl; lia.
    + destruct (c_in (s_conn s d)) as [|y q] eqn:Ec; [done|]. simpl in Ef.
      apply bind_Ok in Ef as (py & Hy%deref_Ok & [= Hfull%Z.leb_le]).
      assert (Hy' : <[it:=PKT_INIT]> (w_pkts w) !! y = Some py).
      { rewrite lookup_insert_ne; [done|]. intros ->. apply Hnew. left. }
      simpl. destruct (q ++ [it]) eqn:Eq; [by destruct q|]. eauto.
    + rewrite queue_bytes_app, (Hext _ Hnew). unfold queue_bytes at 2. simpl. unfold pkt_bytes.
      rewrite lookup_insert_eq. unfold pkt_rest, PKT_INIT. simpl. by rewrite !app_nil_r.
  - injection E as <- <-. exists s. split_and!; [done..|].
    destruct (c_in (s_conn s d)) as [|it q] eqn:Ec; [done|]. simpl in Ef |- *.
    apply bind_Ok in Ef as (p & Hp%deref_Ok & [= Hle%Z.leb_gt]).
    assert (q = []) as ->. { destruct q; [done|]. destruct Hin as (p' & Hp' & Hge). rewrite Hp in Hp'. simplify_eq. lia. }
    split; [done|]. exists [], p. split_and!; try done; [by rewrite Hp, (proj2 (Z.leb_gt _ _)) by lia|apply not_elem_of_nil|].
    destruct (wi_pkts _ _ _ HW i s it Hs) as (p' & Hp' & Hw'); [|congruence].
    rewrite (sess_pkts_split s d), Ec. by left.
Qed.

Lemma append_rest p n bytes : pkt_wf p -> pkt_rest (pkt_append p n bytes) = pkt_rest p ++ bytes.
Proof.
  intros (H1 & H2 & H3 & H4). unfold pkt_rest, pkt_append. simpl. rewrite drop_app_le; [done|lia].
Qed.

(** What the kernel gave to the call number [k]. *)
Definition received (k : nat) (fd len : Z) : list Z :=
  let '(n, _, bytes) := x_recv X k fd len in if n <? 0 then [] else bytes.

Lemma filter_last (q0 : list obj) it : it ∉ q0 -> filter (fun y => y <> it) (q0 ++ [it]) = q0.
Proof.
  intros Hni. rewrite filter_app, filter_cons_False, filter_nil, app_nil_r by naive_solver.
  apply filter_all. by intros x Hx ->.
Qed.

Lemma queue_bytes_last m q0 it p : m !! it = Some p -> queue_bytes m (q0 ++ [it]) = queue_bytes m q0 ++ pkt_rest p.
Proof. intros Hp. rewrite queue_bytes_app. f_equal. unfold queue_bytes. simpl. unfold pkt_bytes. by rewrite Hp, app_nil_r. Qed.

Lemma in_ok_insert m q0 it p : it ∉ q0 -> in_ok m (q0 ++ [it]) -> in_ok (<[it := p]> m) (q0 ++ [it]).
Proof.
  intros Hni Hin. destruct q0 as [|y q0]; [done|]. simpl in *. destruct (q0 ++ [it]) eqn:E; [by destruct q0|].
  destruct Hin as (py & Hy & Hf). exists py. rewrite lookup_insert_ne; [done|]. intros ->. apply Hni. left.
Qed.

Lemma in_ok_prefix m q0 it : in_ok m (q0 ++ [it]) -> in_ok m q0.
Proof. destruct q0 as [|y [|z q0]]; done. Qed.

(** The call number [k] reports an error. *)
Definition recv_fails (k : nat) (fd len : Z) : bool :=
  let '(n, errno, _) := x_recv X k fd len in (n <? 0) && negb ((errno =? EINTR) || (errno =? EAGAIN)).

Lemma add_event_rc w fd ev cb w' e : 0 <= fd < fe_maxfd (w_fe w) -> add_event w fd ev cb = Ok (w', e) -> e = 0.
Proof.
  intros Hfd. unfold add_event, fd_epoll_add_event. rewrite (proj2 (Z.ltb_ge fd 0)), (proj2 (Z.leb_gt _ fd)) by lia.
  intros ([fe rc] & E & [= <- <-])%bind_Ok. apply bind_Ok in E as (fi & _ & E). destruct (fi_is_updated _).
  - by apply bind_Ok in E as (m & _ & [= <- <-]).
  - apply bind_Ok in E as (u & _ & E). by apply bind_Ok in E as (m & _ & [= <- <-]).
Qed.

(** The end of a pass: the peer has closed, and an empty packet goes back. *)
Lemma recv_close_stream w i d s fd (b : bool) q0 it p w' e :
  0 <= fd < fe_maxfd (w_fe w) ->
  w_sess w !! i = Some s -> c_in (s_conn s d) = q0 ++ [it] -> it ∉ q0 -> w_pkts w !! it = Some p -> pkt_wf p ->
  in_ok (w_pkts w) (q0 ++ [it]) ->
  (if b then
     do w <- add_flags w (i, d) CONN_F_SHUTRD;
     do (w, e) <- add_event w fd 0 None;
     if negb (e =? 0) then Ok (w, e) else
     if pk_len p =? 0 then
       do w <- upd_conn w (i, d) (fun x => set_queues x (filter (fun y => y <> it) (c_in x)) (c_out x));
       do w <- pkt_free w i it; Ok (w, 0)
     else Ok (w, 0)
   else Ok (w, 0)) = Ok (w', e) ->
  exists s', w_sess w' !! i = Some s' /\ in_ok (w_pkts w') (c_in (s_conn s' d)) /\
    queue_bytes (w_pkts w') (c_in (s_conn s' d)) = queue_bytes (w_pkts w) (q0 ++ [it]) /\ e = 0.
Proof.
  intros Hfd Hs Hc Hni Hp Hwf Hin E. destruct b.
  2:{ injection E as <- <-. exists s. by rewrite Hc. }
  apply bind_Ok in E as (w1 & E1 & E). assert (Hfe : w_fe w1 = w_fe w) by (unfold add_flags in E1; by apply upd_conn_inv in E1 as (? & _ & ->)).
  apply (quiet_upd w i d) in E1; [|done].
  apply bind_Ok in E as ([w2 e2] & E2 & E). assert (e2 = 0) as -> by (eapply add_event_rc; [|exact E2]; by rewrite Hfe).
  apply (quiet_event _ _ _ _ _ _ i d) in E2. cbn [Z.eqb negb] in E.
  assert (Hq : quiet w w2 i d) by (by eapply quiet_trans). clear E1 E2. destruct Hq as [Q1 Q2 Q3].
  destruct (Q3 _ Hs) as (s2 & Hs2 & _ & Ei). rewrite Hc in Ei.
  destruct (Z.eqb_spec (pk_len p) 0) as [Hz|_]; [|injection E as <- <-; exists s2; by rewrite Ei, Q1].
  apply bind_Ok in E as (w3 & (s3 & Hs3 & ->)%upd_conn_inv & E). rewrite Hs2 in Hs3. injection Hs3 as <-.
  apply bind_Ok in E as (w4 & (s4 & pp & Hs4 & ->)%pkt_free_inv & E). simpl in Hs4. rewrite lookup_insert_eq in Hs4. injection Hs4 as <-.
  injection E as <- <-. eexists. simpl. rewrite lookup_insert_eq. split; [done|].
  assert (Hc' : c_in (s_conn (s_set_nalloced (s_set_conn s2 d (set_queues (s_conn s2 d)
    (filter (fun y => y <> it) (c_in (s_conn s2 d))) (c_out (s_conn s2 d)))) (s_nalloced s2 - 1)) d) = q0).
  { transitivity (filter (fun y => y <> it) (c_in (s_conn s2 d))); [by destruct d|]. rewrite Ei. by apply filter_last. }
  simpl in Hc'. rewrite Hc', Q1. split_and!; [| |done].
  - apply in_ok_prefix in Hin. destruct q0 as [|y [|z q0]]; [done|done|]. destruct Hin as (py & Hy & Hf). exists py.
    rewrite lookup_delete_ne; [done|]. intros ->. apply Hni. left.
  - rewrite (queue_bytes_last _ _ _ _ Hp). unfold pkt_rest. destruct Hwf as (_ & _ & _ & Hl).
    rewrite (nil_length_inv (pk_data p)) by lia. rewrite drop_nil, app_nil_r. apply queue_bytes_ext.
    intros y Hy. rewrite lookup_delete_ne; [done|]. by intros ->.
Qed.

Lemma recv_pass_stream k w i d s fd events w' r :
  winv M k w -> w_sess w !! i = Some s -> in_ok (w_pkts w) (c_in (s_conn s d)) -> c_ssl (s_conn s d) = false -> 0 <= fd < M ->
  recv_pass X w (i, d) fd events = Ok (w', r) ->
  let q := c_in (s_conn s d) in
  let none := needs_packet (w_pkts w) q && pool_dry (w_pktpool w) in
  let got := if none then [] else received (w_io w) fd (recv_room (w_pkts w) q) in
  exists s', w_sess w' !! i = Some s' /\ in_ok (w_pkts w') (c_in (s_conn s' d)) /\
    queue_bytes (w_pkts w') (c_in (s_conn s' d)) = queue_bytes (w_pkts w) q ++ got /\
    r = if none || recv_fails (w_io w) fd (recv_room (w_pkts w) q) then RErr else RDone (Z.of_nat (length got)).
Proof.
  intros HW Hs Hin Hssl Hfd E. cbv zeta. unfold recv_pass in E. apply bind_Ok in E as ([w1 o] & E1 & E).
  eapply recv_packet_stream in E1 as (s1 & Hs1 & Hio & Hssl1 & Hfe1 & Ho); [|done|done|done].
  destruct o as [it|].
  2:{ injection E as <- <-. destruct Ho as (Ec & Ep & ->). exists s1. rewrite Ec, Ep, app_nil_r. done. }
  destruct Ho as (Hnone & q0 & p & Hroom & Hc & Hni & Hp & Hwf & Hlt & Hin1 & Hb). rewrite Hp in E. cbn [bind deref] in E.
  unfold get_conn, get_sess in E. simpl in E. rewrite Hs1 in E. cbn [bind deref] in E. rewrite Hssl1, Hssl in E.
  rewrite Hnone. cbn [orb]. rewrite <- Hroom. set (len := pk_max p - pk_len p) in *.
  assert (Hlen : 0 < len <= MAX_PKTLEN) by (unfold len; destruct Hwf as (? & ? & ? & ?); unfold MAX_PKTLEN in *; lia).
  unfold conn_raw_recv, sk_recv in E. rewrite (proj2 (Z.ltb_ge len 1)), (proj2 (Z.ltb_ge fd 0)), Hio in E by lia. cbn [orb] in E.
  assert (Hgot : exists n bytes closed, received (w_io w) fd len = bytes /\ recv_fails (w_io w) fd len = (n <? 0) /\ (n < 0 -> bytes = []) /\
    (0 <= n -> n <= len /\ Z.of_nat (length bytes) = n) /\
    (let '(m, errno, bytes) := x_recv X (w_io w) fd len in
     if m <? 0 then if (errno =? EINTR) || (errno =? EAGAIN) then (tick w1, (0, [], false)) else (tick w1, (-1, [], false))
     else (tick w1, (m, bytes, m =? 0))) = (tick w1, (n, bytes, closed))).
  { unfold received, recv_fails. destruct (x_recv X (w_io w) fd len) as [[m errno] bs] eqn:Er.
    pose proof (env_recv _ _ HX _ _ _ _ _ _ Er) as He. destruct (Z.ltb_spec m 0); [destruct (_ || _)|]; cbn [andb negb].
    - exists 0, [], false. split_and!; try done; simpl; lia.
    - exists (-1), [], false. split_and!; try done; lia.
    - exists m, bs, (m =? 0). split_and!; try done; [symmetry; apply Z.ltb_ge; lia|lia]. }
  destruct Hgot as (n & bytes & closed & Hrec & Hfail & Hneg & Hpos & Er).
  cbv zeta in E, Er. rewrite Er in E. clear Er. rewrite Hrec, Hfail.
  destruct (Z.ltb_spec n 0) as [Hn|Hn].
  { apply bind_Ok in E as (w2 & E2 & E). injection E as <- <-. apply (quiet_upd (tick w1) i d) in E2 as [Q1 Q2 Q3]; [|done].
    destruct (Q3 s1 Hs1) as (s2 & Hs2 & _ & Ei). exists s2. rewrite Ei, Hc, Q1, (Hneg Hn), app_nil_r. simpl.
    split_and!; done. }
  specialize (Hpos Hn) as [Hnl Hlb]. cbn [bind Z.eqb negb orb] in E.
  apply bind_Ok in E as ([w3 e] & E3 & E).
  pose proof (pkt_append_wf p n bytes Hwf ltac:(unfold len in *; lia) Hlb) as Hwf'.
  eapply (recv_close_stream _ i d s1 fd (closed || has events EPOLLRDHUP) q0 it (pkt_append p n bytes)) in E3 as (s3 & Hs3 & Hin3 & Hb3 & ->);
    [|simpl; rewrite Hfe1, (fo_max _ _ _ (wi_fe _ _ _ HW)); lia|done|done|done|simpl; by rewrite lookup_insert_eq|done|simpl; by apply in_ok_insert].
  assert (Hfin : queue_bytes (w_pkts w3) (c_in (s_conn s3 d)) = queue_bytes (w_pkts w) (c_in (s_conn s d)) ++ bytes).
  { rewrite Hb3. simpl. rewrite (queue_bytes_last _ _ _ (pkt_append p n bytes)) by (by rewrite lookup_insert_eq).
    rewrite (append_rest p n bytes Hwf), app_assoc. f_equal. rewrite <- Hb, (queue_bytes_last _ _ _ _ Hp). f_equal.
    apply queue_bytes_ext. intros x Hx. rewrite lookup_insert_ne; [done|]. by intros ->. }
  exists s3. injection E as <- <-. split_and!; [done|done|done|by rewrite Hlb].
Qed.
End Stream.
End ConnStream.
