(* ===== verification/StreamClaims.v ===== *)
(** * The proxy passes bytes on: nothing lost, nothing reordered

    The stream lemmas of ConnStream.v joined with the invariant of the worker:
    receiving appends to the input stream, a parse task moves the input stream
    behind the peer's output stream, sending takes bytes off its front. *)
From S2P Require Import Prelude ObjPool ObjPoolProofs FdEpoll Conn ConnProofs ConnSafe ConnCallbacks Worker WorkerSafe WorkerDemo ConnStream.

Module StreamClaims.
Import ObjPoolProofs FdEpoll Conn ConnProofs ConnSafe ConnCallbacks Worker WorkerSafe WorkerDemo ConnStream.

Section Streams.
Context {P obj K : Type} `{Countable obj} `{!ObjPoolSpec P obj}.
Context (M : Z) (X : externals).
Implicit Types (w : worker_t P obj K) (s : session_t obj).

Definition out_bytes w s d : list Z := queue_bytes (w_pkts w) (c_out (s_conn s d)).
Definition in_bytes w s d : list Z := queue_bytes (w_pkts w) (c_in (s_conn s d)).

Lemma winv_queue_wf k w i s q :
  winv M k w -> w_sess w !! i = Some s -> (forall it, it ∈ q -> it ∈ sess_pkts s) -> pkts_wf (w_pkts w) q.
Proof. intros HW Hs Hq it Hit. eapply (wi_pkts _ _ _ HW); [done|by apply Hq]. Qed.

Lemma queued_out_nodup s own d : queued s own -> NoDup (c_out (s_conn s d)).
Proof.
  intros [Hnd _]. rewrite (sess_pkts_split s d) in Hnd. apply NoDup_app in Hnd as (_ & _ & Hnd). by apply NoDup_app in Hnd as (? & _).
Qed.

Lemma local_queue_wf R m0 S0 i own k q w s l :
  local M R m0 S0 i own k q w s -> queued s own -> (forall it, it ∈ l -> it ∈ sess_pkts s) -> pkts_wf (w_pkts w) l.
Proof. intros HL [_ Hq] Hl it Hit. apply (l_pkts _ _ _ _ _ _ _ _ _ _ HL). by apply Hq, Hl. Qed.

Lemma out_in_pkts s d it : it ∈ c_out (s_conn s d) -> it ∈ sess_pkts s.
Proof. intros Hit. rewrite (sess_pkts_split s d), !elem_of_app. tauto. Qed.

(** C10: sending.  Whatever the kernel accepts, conn_send_data returns, the
    bytes handed to the kernel are a prefix of the output stream of the
    connection and the rest of the stream is still queued, in order; when it
    reports success (and no handshake is pending) the stream is empty or the
    connection is marked as blocked, so that the event loop resumes it. *)
Theorem conn_send_data_stream k w i d s events :
  env_ok M X -> 3 <= k -> winv M k w -> w_sess w !! i = Some s -> (i, d) ∉ w_taskq w ->
  exists w' e s' x, conn_send_data X w (c_fd (s_conn s d)) events (i, d) = Ok (w', e) /\
    w_sess w' !! i = Some s' /\
    sent_to (c_fd (s_conn s d)) (w_log w') = sent_to (c_fd (s_conn s d)) (w_log w) ++ x /\
    out_bytes w s d = x ++ out_bytes w' s' d /\
    (e = 0 -> handshaking s d = false ->
      c_out (s_conn s' d) = [] \/ has (c_flags (s_conn s' d)) CONN_F_BLOCKED = true).
Proof.
  intros HX Hk HW Hs Hni. destruct (winv_local _ _ _ _ _ HW Hs) as [HL Hq].
  pose proof (wi_sess _ _ _ HW _ _ Hs) as Hok.
  assert (Hr : wp (conn_send_data X w (c_fd (s_conn s d)) events (i, d)) (fun _ => True)).
  { eapply wp_mono; [eapply (conn_send_data_wp _ _ HX _ _ _ _ _ (k - 3)); [lia| |apply Hok| |exact Hq|done]|done].
    - replace (k - 3 + 3) with k by lia. exact HL.
    - by apply (sess_ok_peer M i (w_taskq w)). }
  apply wp_Ok in Hr as ([w' e] & E & _). exists w', e.
  pose proof E as E'. eapply conn_send_data_inv in E' as (s' & x & Hs' & Hl & Hb & Hd);
    [|exact HX|done|by eapply queued_out_nodup|eapply local_queue_wf; [exact HL|done|apply out_in_pkts]].
  exists s', x. done.
Qed.

(** C9: receiving, on a plain connection and for an event without EPOLLERR.
    conn_recv_data asks the kernel for as many bytes as the packet to be filled has
    room for, appends exactly the bytes the kernel gave to the input stream,
    queues the parse task and returns their number; the deletion is queued and -1
    returned exactly when a new packet is needed and the pool has none and no
    memory, or when the kernel reports an error other than EINTR and EAGAIN, and then
    the input stream is unchanged. *)
Theorem conn_recv_data_stream k w i d s (fuel : nat) events :
  env_ok M X -> 2 <= k -> winv M k w -> w_sess w !! i = Some s -> (i, d) ∉ w_taskq w ->
  0 < c_fd (s_conn s d) -> c_ssl (s_conn s d) = false -> in_ok (w_pkts w) (c_in (s_conn s d)) ->
  events <> 0 -> has events EPOLLERR = false ->
  let q := c_in (s_conn s d) in
  let fd := c_fd (s_conn s d) in
  let none := needs_packet (w_pkts w) q && pool_dry (w_pktpool w) in
  let room := recv_room (w_pkts w) q in
  let got := if none then [] else received X (w_io w) fd room in
  let failed := none || recv_fails X (w_io w) fd room in
  exists w' s', conn_recv_data X (S fuel) w fd events (i, d) = Ok (w', if failed then -1 else Z.of_nat (length got)) /\
    w_sess w' !! i = Some s' /\ (i, d) ∈ w_taskq w' /\ in_ok (w_pkts w') (c_in (s_conn s' d)) /\
    in_bytes w' s' d = in_bytes w s d ++ got /\
    c_task (s_conn s' d) = (if failed then TASK_DELETE else TASK_PARSE).
Proof.
  intros HX Hk HW Hs Hni Hfd Hssl Hin Hev Herr q fd none room got failed. destruct (winv_local _ _ _ _ _ HW Hs) as [HL Hq].
  pose proof (fd_pos M _ (so_fd _ _ _ _ (wi_sess _ _ _ HW _ _ Hs) d) Hfd) as Hfdr.
  unfold conn_recv_data. rewrite (proj2 (Z.ltb_ge _ 0)), (proj2 (Z.eqb_neq events 0)) by (unfold fd; lia). cbn [orb].
  rewrite (get_conn_ok _ _ _ _ _ _ _ _ _ _ d HL). cbn [bind]. unfold fd. rewrite Z.eqb_refl, Herr. cbn [recv_loop].
  pose proof (recv_pass_wp _ _ HX _ _ _ _ _ _ _ _ _ d _ events Hk HL Hq Hfdr) as Hp.
  destruct (recv_pass X w (i, d) (c_fd (s_conn s d)) events) as [[w1 r]|] eqn:Er; [|done]. cbn [bind wp] in *.
  destruct Hp as (own1 & s1 & HL1 & Hq1 & Hh1).
  eapply recv_pass_stream in Er as (s1' & Hs1' & Hin1 & Hb & Hr); [|exact HX|exact HW|done|done|done|lia].
  assert (s1' = s1) as ->. { rewrite (l_sess _ _ _ _ _ _ _ _ _ _ HL1), lookup_insert_eq in Hs1'. congruence. }
  assert (Hqt : forall t rc, exists w' s', queue_task w1 (i, d) t rc = Ok (w', rc) /\ w_sess w' !! i = Some s' /\
    (i, d) ∈ w_taskq w' /\ w_pkts w' = w_pkts w1 /\ c_in (s_conn s' d) = c_in (s_conn s1 d) /\ c_task (s_conn s' d) = t).
  { intros t rc. unfold queue_task. destruct (upd_conn_ok _ _ _ _ _ _ _ _ _ _ d (fun x => set_ctask x t) HL1) as [-> HL2]; [done|].
    cbn [bind]. unfold task_in_queue, task_add_queue, task_in_queue. simpl.
    rewrite (l_taskq _ _ _ _ _ _ _ _ _ _ HL1), bool_decide_false by done. cbn [bind].
    eexists _, _. split; [done|]. simpl. rewrite lookup_insert_eq. split_and!; [done| |done|by destruct d|by destruct d].
    apply elem_of_app. right. by left. }
  fold q room fd none got failed in Hr, Hb. subst r. destruct failed; cbn [bind].
  - destruct (Hqt TASK_DELETE (-1)) as (w' & s' & -> & A1 & A2 & A3 & A4 & A5). exists w', s'.
    unfold in_bytes. rewrite A3, A4. split_and!; done.
  - destruct (Hqt TASK_PARSE (Z.of_nat (length got))) as (w' & s' & -> & A1 & A2 & A3 & A4 & A5). exists w', s'.
    unfold in_bytes. rewrite A3, A4. split_and!; done.
Qed.

(** ** Forwarding *)
Lemma server_quiet w c w' e : session_get_server X w c = Ok (w', e) -> w_pkts w' = w_pkts w /\ w_log w' = w_log w.
Proof.
  unfold session_get_server, upd_conn, upd_sess. destruct (x_server X (w_io w)) as [| |[]]; intros E.
  - by simplify_eq.
  - apply bind_Ok in E as (w1 & (s1 & _ & [= <-])%bind_Ok & [= <- <-]). done.
  - apply bind_Ok in E as (w1 & (s1 & _ & [= <-])%bind_Ok & E).
    apply bind_Ok in E as (w2 & (s2 & _ & [= <-])%bind_Ok & [= <- <-]). done.
  - apply bind_Ok in E as (w1 & (s1 & _ & [= <-])%bind_Ok & [= <- <-]). done.
Qed.

Lemma upd_quiet w c f w' : upd_conn w c f = Ok w' -> w_pkts w' = w_pkts w /\ w_log w' = w_log w.
Proof. unfold upd_conn, upd_sess. by intros (s & _ & [= <-])%bind_Ok. Qed.

Lemma event_quiet w fd ev cb w' e : add_event w fd ev cb = Ok (w', e) -> w_pkts w' = w_pkts w /\ w_log w' = w_log w.
Proof. unfold add_event. by intros ([fe rc] & _ & [= <- <-])%bind_Ok. Qed.

Lemma forward_quiet w c w' e : session_forward X w c = Ok (w', e) -> w_pkts w' = w_pkts w /\ w_log w' = w_log w.
Proof.
  unfold session_forward, session_join. intros (w1 & (s & _ & [= <-])%bind_Ok & E)%bind_Ok.
  apply bind_Ok in E as (cn & _ & E). destruct (0 <? c_fd cn); [by simplify_eq|].
  apply bind_Ok in E as ([w2 e2] & [P2 L2]%server_quiet & E). simpl in P2, L2. rewrite <- P2, <- L2. clear P2 L2.
  destruct (negb _); [by simplify_eq|]. destruct (x_connect X (w_io w2)) as [fd wait].
  apply bind_Ok in E as (w3 & [P3 L3]%upd_quiet & E). simpl in P3, L3. rewrite <- P3, <- L3. clear P3 L3.
  destruct (fd <? 0); [by simplify_eq|].
  apply bind_Ok in E as (fi & _ & E). apply bind_Ok in E as (fe & _ & E). apply bind_Ok in E as (cn' & _ & E).
  apply bind_Ok in E as ([w5 rc] & E5 & [= <- _]).
  destruct wait; [|destruct (c_ssl cn')].
  - apply bind_Ok in E5 as (w6 & [P6 L6]%upd_quiet & [P7 L7]%event_quiet). simpl in *. split; congruence.
  - cbv zeta in E5. destruct (negb _); [by simplify_eq|].
    apply bind_Ok in E5 as (w6 & [P6 L6]%upd_quiet & [P7 L7]%event_quiet). simpl in *. split; congruence.
  - apply event_quiet in E5 as [P7 L7]. simpl in *. split; congruence.
Qed.

(** C8: a parse task, end to end.  The task of a connection takes the whole
    input stream of the connection and puts it behind the output stream of
    its peer; what is then sent to the peer is a prefix of that stream, and
    the rest stays queued for it. *)
Theorem parse_task_stream k w c q s :
  env_ok M X -> 4 <= k -> winv M k w -> w_taskq w = c :: q -> w_sess w !! c.1 = Some s ->
  c_task (s_conn s c.2) <> TASK_DELETE ->
  let p := negb c.2 in
  exists w1 w2 e s2, session_fparse (task_del_queue w c) c = Ok w1 /\ session_forward X w1 (peer_of c) = Ok (w2, e) /\
    w_sess w2 !! c.1 = Some s2 /\ c_in (s_conn s2 c.2) = [] /\
    out_bytes w2 s2 p = out_bytes w s p ++ in_bytes w s c.2 /\ w_log w2 = w_log w /\
    (e = 0 -> exists w3 e3 s3 x, conn_send_data X w2 (c_fd (s_conn s2 p)) 0 (peer_of c) = Ok (w3, e3) /\
      w_sess w3 !! c.1 = Some s3 /\
      sent_to (c_fd (s_conn s2 p)) (w_log w3) = sent_to (c_fd (s_conn s2 p)) (w_log w) ++ x /\
      out_bytes w s p ++ in_bytes w s c.2 = x ++ out_bytes w3 s3 p).
Proof.
  intros HX Hk HW Hq Hs Ht p.
  pose proof (dequeued _ _ _ _ _ _ HW Hq Hs) as Hr. pose proof (wi_taskq _ _ _ HW) as Hnd.
  destruct (winv_local _ _ _ _ _ HW Hs) as [HL Hqd].
  assert (Hf : filter (fun x => x <> c) (w_taskq w) = q).
  { rewrite Hq in *. apply NoDup_cons in Hnd as [Hni Hnd]. rewrite filter_cons_False by naive_solver.
    apply filter_all. by intros x Hx ->. }
  destruct c as [i d]. unfold peer_of. cbn [fst snd] in *.
  assert (HL' : local M (others w s) (w_pkts w) (w_sess w) i (sess_own s) k q (task_del_queue w (i, d)) s).
  { unfold task_del_queue. rewrite Hf. by apply (local_setq M _ _ _ _ _ _ (w_taskq w)). }
  pose proof (session_fparse_wp M _ _ _ _ _ _ _ _ _ d HL' Hqd) as Hfp.
  assert (Hfq : forall w1, session_fparse (task_del_queue w (i, d)) (i, d) = Ok w1 -> w_pkts w1 = w_pkts w /\ w_log w1 = w_log w).
  { unfold session_fparse, get_sess. intros w1 (t & _ & [= <-])%bind_Ok. done. }
  destruct (session_fparse (task_del_queue w (i, d)) (i, d)) as [w1|]; [|done]. cbn [wp] in Hfp.
  destruct (Hfq w1 eq_refl) as [P1 L1]. destruct Hfp as (s1 & HL1 & Hq1 & E1 & E2 & E3 & E4).
  destruct Hr as [[A1 [A2 A2'] A3 A4] A5 A6 A7].
  assert (Hfd1 : c_fd (s_conn s1 p) < 0 \/ 0 < c_fd (s_conn s1 p) < M) by (unfold p; rewrite E1; apply A1).
  pose proof (session_forward_wp M X HX _ _ _ _ _ k q w1 s1 p ltac:(lia) HL1 Hq1 Hfd1) as Hfw. unfold p in *.
  destruct (session_forward X w1 (i, negb d)) as [[w2 e]|] eqn:Ef; [|done]. cbn [wp] in Hfw.
  destruct (forward_quiet _ _ _ _ Ef) as [P2 L2].
  destruct Hfw as (s2 & HL2 & Hq2 & [F1 F2 F3 F4 F5 F6 [F7 F8]] & Hfd2 & He). rewrite negb_involutive in F1.
  assert (Hout : out_bytes w2 s2 (negb d) = out_bytes w s (negb d) ++ in_bytes w s d).
  { unfold out_bytes, in_bytes. rewrite F4, queue_bytes_app, E1, P2, P1. f_equal. f_equal.
    destruct d; simpl; [rewrite E4, A2'|rewrite E3, A2]; done. }
  exists w1, w2, e, s2. split_and!; [done|done| | |done|congruence|].
  - by rewrite (l_sess _ _ _ _ _ _ _ _ _ _ HL2), lookup_insert_eq.
  - by rewrite F1, E2.
  - intros ->. specialize (He eq_refl).
    assert (Hsd : wp (conn_send_data X w2 (c_fd (s_conn s2 (negb d))) 0 (i, negb d)) (fun _ => True)).
    { eapply wp_mono; [eapply (conn_send_data_wp _ _ HX _ _ _ _ _ (k - 4)); [lia| |exact Hfd2| |exact Hq2|done]|done].
      - replace (k - 4 + 3) with (k - 1) by lia. exact HL2.
      - rewrite negb_involutive, F1, E2. intros _. apply fd_pos; [apply A1|done]. }
    apply wp_Ok in Hsd as ([w3 e3] & E5 & _). exists w3, e3.
    pose proof E5 as E5'. eapply conn_send_data_inv in E5' as (s3 & x & Hs3 & Hl & Hb & _);
      [|exact HX| |by eapply queued_out_nodup|eapply local_queue_wf; [exact HL2|done|apply out_in_pkts]].
    2:{ by rewrite (l_sess _ _ _ _ _ _ _ _ _ _ HL2), lookup_insert_eq. }
    exists s3, x. split_and!; [done|done| |].
    + rewrite Hl. congruence.
    + rewrite <- Hout. exact Hb.
Qed.
End Streams.

(** ** Witnesses *)
Lemma demo_blocked_session :
  exists s, w_sess demo_blocked !! 1%positive = Some s /\ c_fd (s_conn s true) = 5 /\
    out_bytes demo_blocked s true = [99] /\ handshaking s true = false.
Proof. eexists. split; [vm_compute; reflexivity|]. vm_compute. done. Qed.

Lemma conn_send_data_stream_witness :
  exists s w' e s' x, conn_send_data (demo_X false) demo_blocked 5 EPOLLOUT (1%positive, true) = Ok (w', e) /\
    w_sess w' !! 1%positive = Some s' /\ sent_to 5 (w_log w') = sent_to 5 (w_log demo_blocked) ++ x /\
    out_bytes demo_blocked s true = [99] /\ [99] = x ++ out_bytes w' s' true.
Proof.
  destruct demo_blocked_session as (s & Hs & Hfd & Hb & _).
  destruct (conn_send_data_stream demo_M (demo_X false) 32 demo_blocked 1%positive true s EPOLLOUT)
    as (w' & e & s' & x & E & H1 & H2 & H3 & _).
  - exact (demo_env false).
  - lia.
  - exact demo_blocked_winv.
  - exact Hs.
  - assert (Eq : w_taskq demo_blocked = []) by (vm_compute; reflexivity). rewrite Eq. exact (not_elem_of_nil _).
  - rewrite Hfd in E, H2. exists s, w', e, s', x. split; [exact E|]. split; [exact H1|]. split; [exact H2|].
    split; [exact Hb|]. rewrite <- Hb. exact H3.
Defined.

Lemma demo_accepted_session :
  exists s, w_sess demo_accepted !! 1%positive = Some s /\ c_fd (s_conn s false) = 4 /\ c_ssl (s_conn s false) = false /\
    c_in (s_conn s false) = [].
Proof. eexists. split; [vm_compute; reflexivity|]. vm_compute. done. Qed.

(** Three bytes arrive on an empty connection. *)
Lemma conn_recv_data_stream_witness :
  exists w' s', conn_recv_data (demo_X false) 1 demo_accepted 4 EPOLLIN (1%positive, false) = Ok (w', 3) /\
    w_sess w' !! 1%positive = Some s' /\ in_bytes w' s' false = [97; 98; 99] /\ c_task (s_conn s' false) = TASK_PARSE.
Proof.
  destruct demo_accepted_session as (s & Hs & Hfd & Hssl & Hin).
  destruct (conn_recv_data_stream demo_M (demo_X false) 32 demo_accepted 1%positive false s 0 EPOLLIN)
    as (w' & s' & E & H1 & _ & _ & H3 & H4).
  - exact (demo_env false).
  - lia.
  - exact demo_accepted_winv.
  - exact Hs.
  - assert (Eq : w_taskq demo_accepted = []) by (vm_compute; reflexivity). rewrite Eq. exact (not_elem_of_nil _).
  - rewrite Hfd. lia.
  - exact Hssl.
  - rewrite Hin. exact I.
  - discriminate.
  - reflexivity.
  - rewrite Hfd, Hin in E, H3, H4. exists w', s'.
    assert (Ed : pool_dry (w_pktpool demo_accepted) = false) by (vm_compute; reflexivity). rewrite Ed in E, H3, H4. cbn [needs_packet andb orb] in E, H3, H4.
    assert (Eg : received (demo_X false) (w_io demo_accepted) 4 (recv_room (w_pkts demo_accepted) []) = [97; 98; 99]) by (vm_compute; reflexivity).
    assert (Ef : recv_fails (demo_X false) (w_io demo_accepted) 4 (recv_room (w_pkts demo_accepted) []) = false) by (vm_compute; reflexivity).
    rewrite Eg, Ef in E. rewrite Eg in H3. rewrite Ef in H4. split; [exact E|]. split; [exact H1|]. split; [|exact H4].
    rewrite H3. unfold in_bytes. rewrite Hin. reflexivity.
Defined.

Lemma demo_queued_session :
  exists s, w_sess demo_queued !! 1%positive = Some s /\ c_task (s_conn s false) = TASK_PARSE /\
    in_bytes demo_queued s false = [97; 98; 99] /\ out_bytes demo_queued s true = [].
Proof. eexists. split; [vm_compute; reflexivity|]. vm_compute. done. Qed.

Lemma parse_task_stream_witness :
  exists w1 w2 e s2, session_fparse (task_del_queue demo_queued (1%positive, false)) (1%positive, false) = Ok w1 /\
    session_forward (demo_X false) w1 (1%positive, true) = Ok (w2, e) /\ w_sess w2 !! 1%positive = Some s2 /\
    out_bytes w2 s2 true = [97; 98; 99].
Proof.
  destruct demo_queued_session as (s & Hs & Ht & Hi & Ho). destruct demo_queued_winv as [HW Hq].
  destruct (parse_task_stream demo_M (demo_X false) 4 demo_queued (1%positive, false) [] s)
    as (w1 & w2 & e & s2 & E1 & E2 & H2 & _ & Hb & _).
  - exact (demo_env false).
  - lia.
  - exact HW.
  - exact Hq.
  - exact Hs.
  - cbn [snd]. rewrite Ht. discriminate.
  - exists w1, w2, e, s2. split; [exact E1|]. split; [exact E2|]. split; [exact H2|].
    cbn [negb snd] in Hb. rewrite Hb, Hi, Ho. reflexivity.
Defined.
End StreamClaims.
