(* ===== verification/CLib.v ===== *)
(** * The parts of the C library the modelled code calls

    C strings are lists of non-zero bytes; the functions on them follow the
    C standard and glibc: strchr, strncpy, atoi, memcmp, the character
    classes, decimal printing, and the dotted-quad forms of inet_pton and
    inet_ntop.  The IPv6 forms are an interface with the documented laws. *)
From Stdlib Require Import String Ascii.
From S2P Require Import Prelude.

Abbreviation cstr := (list Z).

(** A string literal. *)
Definition str (s : string) : cstr := map (fun c => Z.of_N (N_of_ascii c)) (list_ascii_of_string s).

Definition cstr_wf (s : cstr) : Prop := Forall (fun c => 0 < c < 256) s.

Definition strchr (s : cstr) (c : Z) : option nat := find_first (fun x => x =? c) s.

(** [strncpy] into a buffer that is cleared afterwards at its last byte. *)
Definition strncpy (s : cstr) (n : nat) : cstr := take n s.

Definition isdigit (c : Z) : bool := (48 <=? c) && (c <=? 57).
Definition isspace (c : Z) : bool := (c =? 32) || ((9 <=? c) && (c <=? 13)).

Fixpoint digits_val (acc : Z) (s : cstr) : Z :=
  match s with
  | [] => acc
  | c :: s => if isdigit c then digits_val (10 * acc + (c - 48)) s else acc
  end.

Fixpoint skip_spaces (s : cstr) : cstr :=
  match s with
  | c :: s' => if isspace c then skip_spaces s' else s
  | [] => []
  end.

(** [(int)strtol(s, NULL, 10)]: saturated to long, truncated to int. *)
Definition atoi (s : cstr) : Z :=
  let s := skip_spaces s in
  let v := match s with
           | 45 :: s => - digits_val 0 s
           | 43 :: s => digits_val 0 s
           | _ => digits_val 0 s
           end in
  s32 (Z.max (- 2 ^ 63) (Z.min (2 ^ 63 - 1) v)).

Fixpoint memcmp (a b : list Z) : Z :=
  match a, b with
  | x :: a, y :: b => if x =? y then memcmp a b else x - y
  | _, _ => 0
  end.

(** Decimal output of an unsigned number; 20 digits are enough for 64 bits. *)
Fixpoint dec_loop (fuel : nat) (n : Z) (acc : cstr) : cstr :=
  match fuel with
  | O => acc
  | S fuel => let acc := (48 + n mod 10) :: acc in
      if n <? 10 then acc else dec_loop fuel (n / 10) acc
  end.
Definition print_u (n : Z) : cstr := dec_loop 20 n [].

(** ** Dotted quads *)
Fixpoint pton4_loop (s : cstr) (octets : list Z) (cur : Z) (saw : bool) : option (list Z) :=
  match s with
  | [] => if saw && (length octets =? 3)%nat then Some (octets ++ [cur]) else None
  | c :: s =>
      if isdigit c then
        let new := 10 * cur + (c - 48) in
        if saw && (cur =? 0) then None
        else if 255 <? new then None
        else if negb saw && (3 <? length octets)%nat then None
        else pton4_loop s octets new true
      else if (c =? 46) && saw then
        if (length octets =? 3)%nat then None else pton4_loop s (octets ++ [cur]) 0 false
      else None
  end.
Definition inet_pton4 (s : cstr) : option (list Z) := pton4_loop s [] 0 false.

Definition inet_ntop4 (a : list Z) : cstr :=
  match a with
  | [b0; b1; b2; b3] => print_u b0 ++ [46] ++ print_u b1 ++ [46] ++ print_u b2 ++ [46] ++ print_u b3
  | _ => []
  end.

(** ** IPv6 text: [inet_pton] and [inet_ntop] for AF_INET6 (RFC 4291, 5952) *)
Class Inet6 : Type := {
  inet_pton6 : cstr -> option (list Z);
  inet_ntop6 : list Z -> cstr;
  pton6_bytes s a : inet_pton6 s = Some a -> length a = 16%nat /\ Forall is_byte a;
  pton6_ntop6 a : length a = 16%nat -> Forall is_byte a -> inet_pton6 (inet_ntop6 a) = Some a;
  (** colons, and otherwise only hexadecimal digits and dots *)
  ntop6_colon a : length a = 16%nat -> Forall is_byte a -> 58 ∈ inet_ntop6 a;
  ntop6_chars a : length a = 16%nat -> Forall is_byte a ->
    Forall (fun c => c = 58 \/ c = 46 \/ 48 <= c <= 57 \/ 97 <= c <= 102) (inet_ntop6 a);
  ntop6_length a : length a = 16%nat -> Forall is_byte a -> (length (inet_ntop6 a) <= 45)%nat
}.

(** ** Lemmas *)
Lemma strchr_None s c : strchr s c = None <-> c ∉ s.
Proof.
  unfold strchr. induction s as [|x s IH]; simpl; [split; [intros _; apply not_elem_of_nil|done]|].
  rewrite not_elem_of_cons. destruct (Z.eqb_spec x c) as [->|Hne]; [naive_solver|].
  rewrite fmap_None, IH. naive_solver.
Qed.

Lemma strchr_app s c t : c ∉ s -> strchr (s ++ c :: t) c = Some (length s).
Proof.
  unfold strchr. induction s as [|x s IH]; intros Hn; simpl; [by rewrite Z.eqb_refl|].
  apply not_elem_of_cons in Hn as [Hx Hn]. rewrite (proj2 (Z.eqb_neq x c)) by done. by rewrite IH.
Qed.

Lemma strchr_app_ne s c t : c ∉ s -> strchr (s ++ t) c = (fun n => length s + n)%nat <$> strchr t c.
Proof.
  unfold strchr. induction s as [|x s IH]; intros Hn; simpl; [by destruct (find_first _ t)|].
  apply not_elem_of_cons in Hn as [Hx Hn]. rewrite (proj2 (Z.eqb_neq x c)) by done. rewrite IH by done.
  by destruct (find_first _ t).
Qed.

Lemma digits_val_app acc s t :
  Forall (fun c => isdigit c = true) s -> digits_val acc (s ++ t) = digits_val (digits_val acc s) t.
Proof. intros Hs. revert acc. induction Hs as [|c s Hc _ IH]; intros acc; simpl; [done|]. by rewrite Hc, IH. Qed.

Lemma isdigit_range c : isdigit c = true <-> 48 <= c <= 57.
Proof. unfold isdigit. rewrite andb_true_iff, !Z.leb_le. done. Qed.

(** Decimal output read back. *)
Lemma dec_loop_spec fuel n acc :
  0 <= n < 10 ^ Z.of_nat fuel ->
  exists d, dec_loop fuel n acc = d ++ acc /\ Forall (fun c => isdigit c = true) d /\
    digits_val 0 d = n /\ (0 < fuel -> 0 < length d <= fuel)%nat.
Proof.
  revert n acc. induction fuel as [|fuel IH]; intros n acc Hn.
  { simpl in Hn. exists []. simpl. split_and!; [done|constructor|lia|lia]. }
  rewrite Nat2Z.inj_succ, Z.pow_succ_r in Hn by lia. cbn [dec_loop]. cbv zeta.
  assert (Hd : isdigit (48 + n mod 10) = true) by (apply isdigit_range; pose proof (Z.mod_pos_bound n 10); lia).
  destruct (Z.ltb_spec n 10) as [Hlt|Hge].
  - exists [48 + n mod 10]. split_and!; [done|by repeat constructor| |simpl; lia].
    simpl. rewrite Hd, Z.mod_small by lia. lia.
  - destruct (IH (n / 10) ((48 + n mod 10) :: acc)) as (d & -> & Hds & Hv & Hl).
    { split; [apply Z.div_pos; lia|apply Z.div_lt_upper_bound; lia]. }
    assert (0 < fuel)%nat by (destruct fuel; [simpl in Hn; lia|lia]).
    exists (d ++ [48 + n mod 10]). rewrite <- app_assoc. split_and!; [done| | |rewrite length_app; simpl; lia].
    + apply Forall_app. split; [done|by repeat constructor].
    + rewrite digits_val_app, Hv by done. simpl. rewrite Hd. pose proof (Z.div_mod n 10). lia.
Qed.

Lemma print_u_spec n :
  0 <= n < 2 ^ 64 ->
  Forall (fun c => isdigit c = true) (print_u n) /\ digits_val 0 (print_u n) = n /\ (0 < length (print_u n) <= 20)%nat.
Proof.
  intros Hn. destruct (dec_loop_spec 20 n []) as (d & Hd & H1 & H2 & H3); [split; [lia|]; change (10 ^ Z.of_nat 20) with 100000000000000000000; lia|].
  unfold print_u. rewrite Hd, app_nil_r. split_and!; [done|done|lia|lia].
Qed.

Lemma digit_not_space c : isdigit c = true -> isspace c = false.
Proof.
  intros Hc%isdigit_range. unfold isspace.
  rewrite (proj2 (Z.eqb_neq c 32)), (proj2 (Z.leb_gt c 13)) by lia. by rewrite andb_false_r.
Qed.

(** [atoi] of printed digits that end the string. *)
Lemma atoi_digits s : Forall (fun c => isdigit c = true) s -> 0 <= digits_val 0 s < 2 ^ 31 -> atoi s = digits_val 0 s.
Proof.
  intros Hs Hv. unfold atoi.
  assert (Hsk : skip_spaces s = s).
  { destruct Hs as [|c s Hc]; [done|]. simpl. by rewrite digit_not_space. }
  rewrite Hsk. assert (E : match s with 45 :: s0 => - digits_val 0 s0 | 43 :: s0 => digits_val 0 s0 | _ => digits_val 0 s end = digits_val 0 s).
  { destruct Hs as [|c s Hc%isdigit_range]; [done|]. destruct c as [|p|p]; try lia.
    do 6 (destruct p as [p|p|]; try lia; try done). }
  rewrite E. rewrite s32_small; lia.
Qed.
