(* ===== verification/IpAddr.v ===== *)
(** * ip_addr: IPv4 and IPv6 addresses, masks and ports

    Model of src/code/network/netutil/ip_addr.c and ip_addr.h.  An address
    object holds its family and the 16 bytes of the union, an IPv4 address
    being the first four in network order; [s_addr] reads them as the machine
    does.  A NULL pointer is [None].  The functions that ask a socket or the
    DNS (ip_addr_from_socket, ip_addr_from_dns) are not modelled. *)
From Stdlib Require Import String.
From S2P Require Import Prelude CLib.

Module IpAddr.

(** ** Data *)
Definition IP_STR_LEN : Z := 128.
Definition INET_ADDRSTRLEN : Z := 16.
Definition INET6_ADDRSTRLEN : Z := 46.
Definition AF_INET : Z := 2.
Definition AF_INET6 : Z := 10.

Record ip_addr_t : Type := { ip_family : Z; ip_bytes : list Z }.
Record ip_mask_t : Type := { im_ip : ip_addr_t; im_cidr : Z }.
Record ip_port_t : Type := { ipp_ip : ip_addr_t; ipp_port : Z }.

Definition s_addr (ip : ip_addr_t) : Z := le_combine (take 4 (ip_bytes ip)).
Definition set_family (ip : ip_addr_t) (f : Z) : ip_addr_t := {| ip_family := f; ip_bytes := ip_bytes ip |}.
Definition set_v4 (ip : ip_addr_t) (a : list Z) : ip_addr_t :=
  {| ip_family := ip_family ip; ip_bytes := a ++ drop 4 (ip_bytes ip) |}.
Definition set_v6 (ip : ip_addr_t) (a : list Z) : ip_addr_t :=
  {| ip_family := ip_family ip; ip_bytes := a |}.

Definition IN6_IS_ADDR_V4MAPPED (a : list Z) : bool :=
  bool_decide (take 10 a = replicate 10 0 /\ take 2 (drop 10 a) = [255; 255]).
Definition IN6_IS_ADDR_V4COMPAT (a : list Z) : bool :=
  bool_decide (take 12 a = replicate 12 0) && (1 <? ntohl (le_combine (drop 12 a))).
Definition IP_ADDR_IS_V4MAPPED (ip : ip_addr_t) : bool :=
  (ip_family ip =? AF_INET6) && (IN6_IS_ADDR_V4MAPPED (ip_bytes ip) || IN6_IS_ADDR_V4COMPAT (ip_bytes ip)).
Definition IP_MASK_CIDR_IS_VALID (m : ip_mask_t) : bool :=
  (0 <=? im_cidr m) &&
  (((ip_family (im_ip m) =? AF_INET) && (im_cidr m <? 33)) ||
   ((ip_family (im_ip m) =? AF_INET6) && (im_cidr m <? 129))).

(** ** Netmasks on bytes *)
Definition s_mask_partial : list Z := [0x00; 0x80; 0xc0; 0xe0; 0xf0; 0xf8; 0xfc; 0xfe; 0xff].

(** [for (i = start; i < 16; ++i) ptr[i] = 0], [n] bytes left. *)
Fixpoint zero_loop (n : nat) (ptr : list Z) (i : Z) : res (list Z) :=
  match n with
  | O => Ok ptr
  | S n => do ptr <- arr_set ptr i 0; zero_loop n ptr (i + 1)
  end.

(** The common body: byte [whole + 1] is masked. *)
Definition mask_bytes (ptr : list Z) (cidr : Z) : res (list Z) :=
  let whole := cidr / 8 in
  let partial := cidr mod 8 in
  do (ptr, start) <- (if negb (partial =? 0) then
                        do m <- arr_get s_mask_partial partial;
                        do b <- arr_get ptr (whole + 1);
                        do ptr <- arr_set ptr (whole + 1) (Z.land b m);
                        Ok (ptr, whole + 1)
                      else Ok (ptr, whole));
  zero_loop (Z.to_nat (16 - start)) ptr start.

Definition ip4_apply_mask (ptr : list Z) (cidr : Z) : res (list Z * Z) :=
  if (cidr <? 1) || (31 <? cidr) then Ok (ptr, -1) else
  do ptr <- mask_bytes ptr cidr; Ok (ptr, 0).
Definition ip6_apply_mask (ptr : list Z) (cidr : Z) : res (list Z * Z) :=
  if (cidr <? 1) || (128 <? cidr) then Ok (ptr, -1) else
  do ptr <- mask_bytes ptr cidr; Ok (ptr, 0).

Definition ip_addr_apply_mask (ip : option ip_addr_t) (cidr : Z) : res (option ip_addr_t * Z) :=
  match ip with
  | None => Ok (None, -1)
  | Some ip =>
      if ip_family ip =? AF_INET then
        do (b, rc) <- ip4_apply_mask (ip_bytes ip) cidr; Ok (Some (set_v6 ip b), rc)
      else if ip_family ip =? AF_INET6 then
        do (b, rc) <- ip6_apply_mask (ip_bytes ip) cidr; Ok (Some (set_v6 ip b), rc)
      else Ok (Some ip, -1)
  end.

(** ** IPv4 numbers, in network order *)
Definition ip4_cidr_to_mask (cidr : Z) : Z :=
  if (cidr <=? 0) || (32 <? cidr) then 0
  else htonl (u32 (Z.lnot (Z.shiftl 1 (32 - cidr) - 1))).

(** The first set bit, from bit [i] on. *)
Fixpoint cidr_loop (n : nat) (mask i : Z) : Z :=
  match n with
  | O => i
  | S n => if Z.testbit mask i then i else cidr_loop n mask (i + 1)
  end.
Definition ip4_mask_to_cidr (mask : Z) : Z := 32 - cidr_loop 32 (ntohl mask) 0.

(** The new value of [*ip], and the result. *)
Definition ip4_from_str (ip : Z) (s : option cstr) : Z * Z :=
  match s with
  | None => (ip, -1)
  | Some s => match inet_pton4 s with Some a => (le_combine a, 0) | None => (ip, -1) end
  end.

Definition ip4_to_str (ip : Z) (len : Z) : option cstr :=
  if len <? INET_ADDRSTRLEN then None else Some (inet_ntop4 (le_bytes 4 ip)).

Definition ip4_in_range (ip begin end_ : Z) : bool :=
  let ip := ntohl ip in
  let begin := ntohl begin in
  let end_ := ntohl end_ in
  (begin <=? ip) && (ip <=? end_).

(** [while (cidr) end |= (1 << (--cidr))] *)
Fixpoint or_loop (n : nat) (e : Z) : Z :=
  match n with O => e | S n => or_loop n (Z.lor e (Z.shiftl 1 (Z.of_nat n))) end.

(** The subnet form, [value] in network order. *)
Definition match_subnet (ip value cidr : Z) : bool :=
  if (cidr <=? 0) || (32 <=? cidr) then value =? ip else
  let value := ntohl value in
  if negb (Z.shiftr (u32 (Z.shiftl value cidr)) cidr =? 0) then value =? ntohl ip else
  let c := 32 - cidr in
  let begin := htonl (u32 (Z.shiftl (Z.shiftr value c) c)) in
  let e := or_loop (Z.to_nat c) (htonl value) in
  ip4_in_range ip begin e.

Definition ip4_match_range (ip : Z) (ip_or_range : option cstr) : Z :=
  match ip_or_range with
  | None => 0
  | Some s =>
      let range := strncpy s 127 in
      match strchr range 45 with
      | None =>
          match strchr range 47 with
          | None =>
              let (value, rc) := ip4_from_str 0 (Some range) in
              if (rc =? 0) && (value =? ip) then 1 else 0
          | Some p =>
              let rest := drop (p + 1) range in
              let (value, _) := ip4_from_str 0 (Some (take p range)) in
              let cidr := match strchr rest 46 with
                          | None => atoi rest
                          | Some _ => ip4_mask_to_cidr (ip4_from_str 0 (Some rest)).1
                          end in
              if match_subnet ip value cidr then 1 else 0
          end
      | Some p =>
          let begin := if (p =? 0)%nat then 0 else (ip4_from_str 0 (Some (take p range))).1 in
          let rest := drop (p + 1) range in
          let e := match rest with [] => 0xffffffff | _ => (ip4_from_str 0 (Some rest)).1 end in
          if ip4_in_range ip begin e then 1 else 0
      end
  end.

Definition ip4_is_zero (ip : Z) : bool := ip =? 0.
Definition ip4_is_loopback (ip : Z) : Z := if Z.land ip 0x7f000000 =? 0x7f000000 then 1 else 0.
Definition ip4_is_multicast (ip : Z) : Z := ip4_match_range ip (Some (str "224.0.0.0-239.255.255.255")).
Definition ip4_is_linklocal (ip : Z) : Z := if Z.land ip 0xfe800000 =? 0xfe80000 then 1 else 0.
Definition ip4_is_sitelocal (ip : Z) : Z :=
  if negb (ip4_match_range ip (Some (str "10.0.0.0-10.255.255.255")) =? 0) then 1
  else if negb (ip4_match_range ip (Some (str "172.16.0.0-172.31.255.255")) =? 0) then 1
  else if negb (ip4_match_range ip (Some (str "192.168.0.0-192.168.255.255")) =? 0) then 1
  else 0.

Section Inet.
Context {I6 : Inet6}.

(** ** IPv6 *)
Definition ip6_from_str (ip6 : list Z) (s : option cstr) : list Z * Z :=
  match s with
  | None => (ip6, -1)
  | Some s => match inet_pton6 s with Some a => (a, 0) | None => (ip6, -1) end
  end.
Definition ip6_to_str (ip6 : list Z) (len : Z) : option cstr :=
  if len <? INET6_ADDRSTRLEN then None else Some (inet_ntop6 ip6).

Definition ip6_is_netaddr (ip6 : option (list Z)) (cidr : Z) : res Z :=
  match ip6 with
  | None => Ok 0
  | Some a =>
      if (cidr <? 0) || (128 <? cidr) then Ok 0 else
      if cidr =? 128 then Ok 1 else
      do (netaddr, rc) <- ip6_apply_mask a cidr;
      if negb (rc =? 0) then Ok 0 else
      if memcmp a netaddr =? 0 then Ok 1 else Ok 0
  end.

Definition ip6_is_zero (ip6 : option (list Z)) : Z :=
  match ip6 with
  | None => 0
  | Some a => if (le_combine (take 4 a) =? 0) && (le_combine (take 4 (drop 4 a)) =? 0) &&
                 (le_combine (take 4 (drop 8 a)) =? 0) && (le_combine (drop 12 a) =? 0) then 1 else 0
  end.

(** ** Addresses *)

(** [inet_pton] on the union: the IPv4 form writes four bytes of it. *)
Definition inet_pton (ip : ip_addr_t) (family : Z) (s : cstr) : ip_addr_t * Z :=
  if family =? AF_INET6 then
    match inet_pton6 s with Some a => (set_v6 ip a, 1) | None => (ip, 0) end
  else
    match inet_pton4 s with Some a => (set_v4 ip a, 1) | None => (ip, 0) end.

Definition inet_ntop (ip : ip_addr_t) : option cstr :=
  if ip_family ip =? AF_INET then Some (inet_ntop4 (take 4 (ip_bytes ip)))
  else if ip_family ip =? AF_INET6 then Some (inet_ntop6 (ip_bytes ip)) else None.

Definition ip_addr_str_is_valid (s : option cstr) : Z :=
  match s with
  | None => 0
  | Some s =>
      if existsb isspace s then 0 else
      let family := match strchr s 58 with Some _ => AF_INET6 | None => AF_INET end in
      let '(_, r) := inet_pton {| ip_family := family; ip_bytes := replicate 16 0 |} family s in
      if negb (r =? 0) then 1 else 0
  end.

Definition ip_addr_from_str (ip : option ip_addr_t) (s : option cstr) : option ip_addr_t * Z :=
  match ip, s with
  | Some ip, Some s =>
      let ip := set_family ip (match strchr s 58 with Some _ => AF_INET6 | None => AF_INET end) in
      let (ip, r) := inet_pton ip (ip_family ip) s in
      (Some ip, if 0 <? r then 0 else -1)
  | _, _ => (ip, -1)
  end.

Definition ip_addr_to_str (ip : option ip_addr_t) (len : Z) : option cstr :=
  match ip with
  | None => None
  | Some ip => if len <? IP_STR_LEN then None else inet_ntop ip
  end.

Definition ip_addr_v4_to_v6 (v4 v6 : option ip_addr_t) : option ip_addr_t * Z :=
  match v4, v6 with
  | Some a, Some b =>
      if negb (ip_family a =? AF_INET) then (v6, -1)
      else (Some {| ip_family := AF_INET6;
                    ip_bytes := replicate 10 0 ++ [255; 255] ++ take 4 (ip_bytes a) |}, 0)
  | _, _ => (v6, -1)
  end.

Definition ip_addr_v6_to_v4 (v6 v4 : option ip_addr_t) : option ip_addr_t * Z :=
  match v6, v4 with
  | Some a, Some b =>
      if IP_ADDR_IS_V4MAPPED a then (Some (set_v4 (set_family b AF_INET) (drop 12 (ip_bytes a))), 0)
      else (v4, -1)
  | _, _ => (v4, -1)
  end.

(** In the mixed case with an IPv4 address first, the IPv6 one is converted. *)
Definition ip_addr_compare (ip1 ip2 : option ip_addr_t) : Z :=
  match ip1, ip2 with
  | Some _, None => 1
  | None, Some _ => -1
  | None, None => 0
  | Some a, Some b =>
      let v6 := {| ip_family := 0; ip_bytes := replicate 16 0 |} in
      if ip_family a =? ip_family b then
        if ip_family a =? AF_INET then
          let lv := ntohl (s_addr a) in
          let rv := ntohl (s_addr b) in
          if lv =? rv then 0 else if lv <? rv then -1 else 1
        else memcmp (ip_bytes a) (ip_bytes b)
      else if ip_family a =? AF_INET then
        match ip_addr_v4_to_v6 (Some b) (Some v6) with
        | (Some v6, 0) => memcmp (ip_bytes v6) (ip_bytes b)
        | _ => -1
        end
      else if ip_family b =? AF_INET then
        match ip_addr_v4_to_v6 (Some b) (Some v6) with
        | (Some v6, 0) => memcmp (ip_bytes a) (ip_bytes v6)
        | _ => -1
        end
      else -1
  end.

(** ** Masks *)
Definition ip_get_cidr (s : option cstr) : Z :=
  match s with
  | None => -1
  | Some s =>
      match strchr s 46 with
      | Some _ =>
          match ip_addr_from_str (Some {| ip_family := 0; ip_bytes := replicate 16 0 |}) (Some s) with
          | (Some ip, 0) => if ip_family ip =? AF_INET then ip4_mask_to_cidr (s_addr ip) else -1
          | _ => -1
          end
      | None => atoi s
      end
  end.

Definition ip_mask_from_str (m : option ip_mask_t) (s : option cstr) : option ip_mask_t * Z :=
  match m, s with
  | Some m, Some s =>
      match strchr s 47 with
      | None => (Some m, -1)
      | Some sep =>
          match drop (sep + 1) s with
          | [] => (Some m, -1)
          | rest =>
              let m := {| im_ip := im_ip m; im_cidr := u32 (ip_get_cidr (Some rest)) |} in
              if INET6_ADDRSTRLEN <? Z.of_nat sep then (Some m, -1) else
              match ip_addr_from_str (Some (im_ip m)) (Some (take sep s)) with
              | (Some ip, rc) =>
                  let m := {| im_ip := ip; im_cidr := im_cidr m |} in
                  if negb (rc =? 0) then (Some m, -1)
                  else (Some m, if IP_MASK_CIDR_IS_VALID m then 0 else -1)
              | (None, _) => (Some m, -1)
              end
          end
      end
  | _, _ => (m, -1)
  end.

Definition ip_mask_to_str (m : option ip_mask_t) (len : Z) : option cstr :=
  match m with
  | None => None
  | Some m =>
      if len <? IP_STR_LEN then None else
      match ip_addr_to_str (Some (im_ip m)) IP_STR_LEN with
      | None => None
      | Some ip =>
          if negb (IP_MASK_CIDR_IS_VALID m) then None
          else Some (take (Z.to_nat (len - 1)) (ip ++ [47] ++ print_u (im_cidr m)))
      end
  end.

Definition ip_mask_compare (m1 m2 : option ip_mask_t) : Z :=
  match m1, m2 with
  | Some _, None => 1
  | None, Some _ => -1
  | None, None => 0
  | Some a, Some b =>
      let ret := ip_addr_compare (Some (im_ip a)) (Some (im_ip b)) in
      if negb (ret =? 0) then ret else s32 (im_cidr a - im_cidr b)
  end.

Definition ip_mask_is_wildcard (m : option ip_mask_t) : Z :=
  match m with
  | None => 0
  | Some m =>
      if negb (im_cidr m =? 0) then 0
      else if ip_family (im_ip m) =? AF_INET then (if s_addr (im_ip m) =? 0 then 1 else 0)
      else if ip_family (im_ip m) =? AF_INET6 then
        (if bool_decide (ip_bytes (im_ip m) = replicate 16 0) then 1 else 0)
      else 0
  end.

Definition ip_mask_match (m : option ip_mask_t) (ip : option ip_addr_t) : res Z :=
  match m, ip with
  | Some m, Some ip =>
      if negb (ip_family (im_ip m) =? ip_family ip) then Ok 0 else
      if im_cidr m =? 0 then Ok 1 else
      let whole := im_cidr m / 8 in
      let partial := im_cidr m mod 8 in
      if negb (memcmp (take (Z.to_nat whole) (ip_bytes (im_ip m))) (take (Z.to_nat whole) (ip_bytes ip)) =? 0) then Ok 0 else
      do partial_mask <- arr_get s_mask_partial partial;
      do x <- arr_get (ip_bytes (im_ip m)) whole;
      do y <- arr_get (ip_bytes ip) whole;
      Ok (if Z.land x partial_mask =? Z.land y partial_mask then 1 else 0)
  | _, _ => Ok 0
  end.

(** ** Ports *)

(** The check of the port in brackets form; [None] is the early return. *)
Fixpoint port_loop6 (s : cstr) : bool :=
  match s with
  | [] => true
  | c :: s => if isspace c then true else if negb (isdigit c) then false else port_loop6 s
  end.
(** ... and in the plain form, where the test for a space is inverted. *)
Fixpoint port_loop4 (s : cstr) : bool :=
  match s with
  | [] => true
  | c :: s => if negb (isspace c) then true else if negb (isdigit c) then false else port_loop4 s
  end.

Definition set_port (ip : ip_addr_t) (old : Z) (ok : bool) (s : cstr) : ip_port_t * Z :=
  if negb ok then ({| ipp_ip := ip; ipp_port := old |}, -1) else
  let port := atoi s in
  if (port <? 0) || (65535 <? port) then ({| ipp_ip := ip; ipp_port := old |}, -1)
  else ({| ipp_ip := ip; ipp_port := htons port |}, 0).

Definition ip_port_from_str (ip : option ip_port_t) (s : option cstr) : option ip_port_t * Z :=
  match ip, s with
  | Some ip, Some s =>
      let buf := strncpy s 127 in
      match head buf with
      | Some 91 =>
          match strchr buf 93 with
          | None => (Some ip, -1)
          | Some p =>
              match ip_addr_from_str (Some (ipp_ip ip)) (Some (drop 1 (take p buf))) with
              | (Some a, 0) =>
                  let rest := drop (p + 2) buf in
                  let (r, rc) := set_port a (ipp_port ip) (port_loop6 rest) rest in (Some r, rc)
              | (Some a, _) => (Some {| ipp_ip := a; ipp_port := ipp_port ip |}, -1)
              | (None, _) => (Some ip, -1)
              end
          end
      | _ =>
          match strchr buf 58 with
          | None => (Some ip, -1)
          | Some p =>
              match ip_addr_from_str (Some (ipp_ip ip)) (Some (take p buf)) with
              | (Some a, 0) =>
                  let rest := drop (p + 1) buf in
                  let (r, rc) := set_port a (ipp_port ip) (port_loop4 rest) rest in (Some r, rc)
              | (Some a, _) => (Some {| ipp_ip := a; ipp_port := ipp_port ip |}, -1)
              | (None, _) => (Some ip, -1)
              end
          end
      end
  | _, _ => (ip, -1)
  end.

Definition ip_port_to_str (ip : option ip_port_t) (len : Z) : option cstr :=
  match ip with
  | None => None
  | Some ip =>
      if len <? IP_STR_LEN then None else
      match ip_addr_to_str (Some (ipp_ip ip)) IP_STR_LEN with
      | None => None
      | Some s => Some (take (Z.to_nat (len - 2)) ([91] ++ s ++ [93; 58] ++ print_u (ntohs (ipp_port ip))))
      end
  end.

Definition ip_port_compare (p1 p2 : option ip_port_t) : Z :=
  match p1, p2 with
  | Some _, None => 1
  | None, Some _ => -1
  | None, None => 0
  | Some a, Some b =>
      let ret := ip_addr_compare (Some (ipp_ip a)) (Some (ipp_ip b)) in
      if negb (ret =? 0) then ret else ntohs (ipp_port a) - ntohs (ipp_port b)
  end.
End Inet.
End IpAddr.
