(* ===== verification/IpAddrProofs.v ===== *)
(** * ip_addr: round trips, matching and ordering

    Printing and parsing of addresses with ports and masks are inverse, mask
    matching compares exactly the first cidr bits, comparison orders addresses
    by their number, and the places where the code does something else. *)
From Stdlib Require Import String.
From S2P Require Import Prelude CLib IpAddr.

Module IpAddrProofs.
Import IpAddr.

(** ** Bytes in network order *)
Definition be_combine (bs : list Z) : Z := le_combine (reverse bs).

Lemma le_combine_app a b : le_combine (a ++ b) = le_combine a + 256 ^ Z.of_nat (length a) * le_combine b.
Proof.
  induction a as [|x a IH]; cbn [app le_combine length]; [lia|].
  rewrite IH, Nat2Z.inj_succ, Z.pow_succ_r by lia. lia.
Qed.

Lemma be_combine_cons x a : be_combine (x :: a) = x * 256 ^ Z.of_nat (length a) + be_combine a.
Proof. unfold be_combine. rewrite reverse_cons, le_combine_app, length_reverse. simpl. lia. Qed.

Lemma be_combine_range bs : Forall is_byte bs -> 0 <= be_combine bs < 256 ^ Z.of_nat (length bs).
Proof.
  intros Hb. unfold be_combine. pose proof (le_combine_range (reverse bs)) as Hr. rewrite length_reverse in Hr.
  apply Hr. by apply Forall_reverse.
Qed.

Lemma ntohl_le bs : length bs = 4%nat -> Forall is_byte bs -> ntohl (le_combine bs) = be_combine bs.
Proof. intros Hl Hb. unfold ntohl, bswap. rewrite <- Hl at 1. by rewrite le_bytes_combine. Qed.

Lemma memcmp_sgn a b :
  length a = length b -> Forall is_byte a -> Forall is_byte b -> Z.sgn (memcmp a b) = Z.sgn (be_combine a - be_combine b).
Proof.
  revert b. induction a as [|x a IH]; intros [|y b] Hl Ha Hb; try done.
  apply Forall_cons in Ha as [Hx Ha], Hb as [Hy Hb]. injection Hl as Hl. cbn [memcmp].
  rewrite !be_combine_cons, Hl. pose proof (be_combine_range a Ha) as Ra. pose proof (be_combine_range b Hb) as Rb.
  rewrite Hl in Ra. set (P := 256 ^ Z.of_nat (length b)) in *. unfold is_byte in *.
  destruct (Z.eqb_spec x y) as [->|Hne].
  - rewrite (IH b Hl Ha Hb). f_equal. lia.
  - destruct (Z.lt_total x y) as [Hlt|[?|Hgt]]; [|done|].
    + rewrite !Z.sgn_neg; [done|nia|lia].
    + rewrite !Z.sgn_pos; [done|nia|lia].
Qed.

Lemma memcmp_0 a b : length a = length b -> memcmp a b = 0 <-> a = b.
Proof.
  revert b. induction a as [|x a IH]; intros [|y b] Hl; try done. injection Hl as Hl. cbn [memcmp].
  destruct (Z.eqb_spec x y) as [->|Hne]; [rewrite IH by done; naive_solver|].
  split; [lia|]. by intros [= -> ->].
Qed.

(** ** Well-formed objects *)
Definition ip_wf (ip : ip_addr_t) : Prop :=
  (ip_family ip = AF_INET \/ ip_family ip = AF_INET6) /\ length (ip_bytes ip) = 16%nat /\ Forall is_byte (ip_bytes ip).

(** The number of an address. *)
Definition ip_value (ip : ip_addr_t) : Z :=
  if ip_family ip =? AF_INET then be_combine (take 4 (ip_bytes ip)) else be_combine (ip_bytes ip).

(** The address text. *)
Section Text.
Context {I6 : Inet6}.

Definition ip_text (ip : ip_addr_t) : cstr :=
  if ip_family ip =? AF_INET then inet_ntop4 (take 4 (ip_bytes ip)) else inet_ntop6 (ip_bytes ip).

Lemma ip_addr_to_str_wf ip len : ip_wf ip -> IP_STR_LEN <= len -> ip_addr_to_str (Some ip) len = Some (ip_text ip).
Proof.
  intros ([Hf|Hf] & _) Hl. all: unfold ip_addr_to_str, inet_ntop, ip_text; rewrite (proj2 (Z.ltb_ge len IP_STR_LEN)) by done; by rewrite Hf.
Qed.

(** *** Dotted quads *)
Lemma print_u_byte b : is_byte b ->
  (b < 10 /\ print_u b = [48 + b]) \/
  (10 <= b < 100 /\ print_u b = [48 + b / 10; 48 + b mod 10]) \/
  (100 <= b /\ print_u b = [48 + b / 100; 48 + b / 10 mod 10; 48 + b mod 10]).
Proof.
  intros Hb. unfold is_byte, print_u in *. cbn [dec_loop]. cbv zeta.
  destruct (Z.ltb_spec b 10); [left; split; [done|]; by rewrite Z.mod_small by lia|right].
  assert (Hd : 0 <= b / 10 < 26) by (split; [apply Z.div_pos; lia|apply Z.div_lt_upper_bound; lia]).
  pose proof (Z.div_mod b 10 ltac:(lia)). pose proof (Z.mod_pos_bound b 10 ltac:(lia)).
  destruct (Z.ltb_spec (b / 10) 10); [left; split; [lia|]; by rewrite (Z.mod_small (b / 10)) by lia|right].
  rewrite Z.div_div by lia. change (10 * 10) with 100.
  assert (0 <= b / 100 < 3) by (split; [apply Z.div_pos; lia|apply Z.div_lt_upper_bound; lia]).
  rewrite (proj2 (Z.ltb_lt (b / 100) 10)) by lia. split; [lia|]. by rewrite (Z.mod_small (b / 100)) by lia.
Qed.

(** One digit of an octet. *)
Lemma pton4_digit x cur s octets saw :
  0 <= x < 10 -> (saw && (cur =? 0)) = false -> 10 * cur + x <= 255 -> (length octets <= 3)%nat ->
  pton4_loop ((48 + x) :: s) octets cur saw = pton4_loop s octets (10 * cur + x) true.
Proof.
  intros Hx Hz Hle Ho. cbn [pton4_loop]. rewrite (proj2 (isdigit_range (48 + x))) by lia. rewrite Hz.
  replace (48 + x - 48) with x by lia. rewrite (proj2 (Z.ltb_ge 255 (10 * cur + x))) by lia.
  rewrite (proj2 (Nat.ltb_ge 3 (length octets))) by lia. by rewrite andb_false_r.
Qed.

Lemma pton4_octet b s octets :
  is_byte b -> (length octets <= 3)%nat ->
  pton4_loop (print_u b ++ s) octets 0 false = pton4_loop s octets b true.
Proof.
  intros Hb Ho. pose proof Hb as Hb'. unfold is_byte in Hb'.
  pose proof (Z.div_mod b 10 ltac:(lia)). pose proof (Z.mod_pos_bound b 10 ltac:(lia)).
  destruct (print_u_byte b Hb) as [[Hr ->]|[[Hr ->]|[Hr ->]]]; cbn [app].
  - rewrite pton4_digit by (done || lia). done.
  - assert (1 <= b / 10 < 10) by (split; [apply Z.div_le_lower_bound; lia|apply Z.div_lt_upper_bound; lia]).
    rewrite pton4_digit by (done || lia).
    rewrite pton4_digit by (lia || by rewrite (proj2 (Z.eqb_neq (10 * 0 + b / 10) 0)) by lia). f_equal. lia.
  - assert (1 <= b / 100 < 3) by (split; [apply Z.div_le_lower_bound; lia|apply Z.div_lt_upper_bound; lia]).
    pose proof (Z.div_mod (b / 10) 10 ltac:(lia)). pose proof (Z.mod_pos_bound (b / 10) 10 ltac:(lia)).
    rewrite Z.div_div in * by lia. change (10 * 10) with 100 in *.
    rewrite pton4_digit by (done || lia).
    rewrite pton4_digit by (lia || by rewrite (proj2 (Z.eqb_neq (10 * 0 + b / 100) 0)) by lia).
    rewrite pton4_digit by (lia || by rewrite (proj2 (Z.eqb_neq (10 * (10 * 0 + b / 100) + b / 10 mod 10) 0)) by lia).
    f_equal. lia.
Qed.

Lemma pton4_dot s octets cur :
  (length octets < 3)%nat -> pton4_loop (46 :: s) octets cur true = pton4_loop s (octets ++ [cur]) 0 false.
Proof. intros Ho. cbn [pton4_loop]. simpl. by rewrite (proj2 (Nat.eqb_neq (length octets) 3)) by lia. Qed.

Lemma pton4_ntop4 a : length a = 4%nat -> Forall is_byte a -> inet_pton4 (inet_ntop4 a) = Some a.
Proof.
  intros Hl Ha. destruct a as [|b0 [|b1 [|b2 [|b3 [|]]]]]; try done. clear Hl.
  rewrite !Forall_cons in Ha. destruct Ha as (H0 & H1 & H2 & H3 & _).
  unfold inet_pton4, inet_ntop4. rewrite pton4_octet by (done || simpl; lia). cbn [app]. rewrite pton4_dot by (simpl; lia).
  rewrite pton4_octet by (done || simpl; lia). cbn [app]. rewrite pton4_dot by (simpl; lia).
  rewrite pton4_octet by (done || simpl; lia). cbn [app]. rewrite pton4_dot by (simpl; lia).
  rewrite <- (app_nil_r (print_u b3)), pton4_octet by (done || simpl; lia). done.
Qed.

Lemma ntop4_chars a :
  Forall is_byte a -> Forall (fun c => isdigit c = true \/ c = 46) (inet_ntop4 a) /\ (length (inet_ntop4 a) <= 15)%nat.
Proof.
  intros Ha. destruct a as [|b0 [|b1 [|b2 [|b3 [|]]]]]; try (split; [constructor|simpl; lia]).
  rewrite !Forall_cons in Ha. destruct Ha as (H0 & H1 & H2 & H3 & _).
  assert (Hp : forall b, is_byte b -> Forall (fun c => isdigit c = true \/ c = 46) (print_u b) /\ (length (print_u b) <= 3)%nat).
  { intros b Hb. split.
    - eapply Forall_impl; [apply print_u_spec; unfold is_byte in *; lia|auto].
    - destruct (print_u_byte b Hb) as [[_ ->]|[[_ ->]|[_ ->]]]; simpl; lia. }
  destruct (Hp b0 H0), (Hp b1 H1), (Hp b2 H2), (Hp b3 H3). unfold inet_ntop4.
  split; [|rewrite !length_app; simpl; lia].
  repeat (apply Forall_app; split); auto; apply Forall_singleton; auto.
Qed.

(** *** Both families *)
Definition text_char (c : Z) : Prop := 46 <= c <= 58 /\ c <> 47 \/ 97 <= c <= 102.

Lemma ip_text_chars ip : ip_wf ip -> Forall text_char (ip_text ip) /\ (length (ip_text ip) <= 45)%nat.
Proof.
  intros ([Hf|Hf] & Hl & Hb); unfold ip_text; rewrite Hf; cbn [Z.eqb AF_INET AF_INET6 Pos.eqb].
  - destruct (ntop4_chars (take 4 (ip_bytes ip))) as [Hc Hn]; [by apply Forall_take|]. split; [|lia].
    eapply Forall_impl; [exact Hc|]. intros c [Hc'%isdigit_range| ->]; unfold text_char; lia.
  - split; [|by apply ntop6_length]. eapply Forall_impl; [by apply ntop6_chars|]. unfold text_char. intros c. simpl. lia.
Qed.

Lemma text_no_char ip c : ip_wf ip -> ~ text_char c -> c ∉ ip_text ip.
Proof. intros Hip Hc Hin. apply Hc. destruct (ip_text_chars ip Hip) as [Ht _]. rewrite Forall_forall in Ht. by apply Ht. Qed.

(** Reading an address text into an object: the bytes that the family uses. *)
Definition ip_same (a b : ip_addr_t) : Prop :=
  ip_family a = ip_family b /\ ip_value a = ip_value b /\
  (ip_family a = AF_INET6 -> ip_bytes a = ip_bytes b).

Lemma ip_addr_from_text ip q :
  ip_wf ip -> exists r, ip_addr_from_str (Some q) (Some (ip_text ip)) = (Some r, 0) /\ ip_same r ip /\
    (length (ip_bytes q) = 16%nat -> length (ip_bytes r) = 16%nat).
Proof.
  intros Hwf. pose proof Hwf as ([Hf|Hf] & Hl & Hb); unfold ip_addr_from_str, ip_text; rewrite Hf; cbn [Z.eqb AF_INET AF_INET6 Pos.eqb].
  - assert (Hn : strchr (inet_ntop4 (take 4 (ip_bytes ip))) 58 = None).
    { apply strchr_None. intros Hin. destruct (ntop4_chars (take 4 (ip_bytes ip))) as [Hc _]; [by apply Forall_take|].
      rewrite Forall_forall in Hc. destruct (Hc _ Hin) as [Hd%isdigit_range|]; lia. }
    rewrite Hn. unfold inet_pton. cbn [set_family ip_family Z.eqb AF_INET AF_INET6 Pos.eqb].
    rewrite pton4_ntop4 by (rewrite ?length_take; lia || by apply Forall_take).
    eexists. split; [done|]. split.
    + split_and!; [done| |done]. unfold ip_value. simpl. rewrite Hf. simpl.
      rewrite (take_app_le (take 4 _)) by (rewrite length_take; lia). by rewrite take_take.
    + intros Hq. simpl. rewrite length_app, length_take, length_drop. lia.
  - assert (Hs : exists n, strchr (inet_ntop6 (ip_bytes ip)) 58 = Some n).
    { destruct (strchr (inet_ntop6 (ip_bytes ip)) 58) eqn:E; [eauto|]. apply strchr_None in E. destruct E. by apply ntop6_colon. }
    destruct Hs as [n ->]. unfold inet_pton. cbn [set_family ip_family Z.eqb AF_INET AF_INET6 Pos.eqb].
    rewrite pton6_ntop6 by done. eexists. split; [done|]. split; [|done].
    split_and!; [done| |done]. unfold ip_value. simpl. by rewrite Hf.
Qed.

Lemma port_loop6_digits s : Forall (fun c => isdigit c = true) s -> port_loop6 s = true.
Proof. induction 1 as [|c s Hc _ IH]; [done|]. cbn [port_loop6]. by rewrite digit_not_space, Hc. Qed.

Lemma ntohs_range x : 0 <= ntohs x < 65536.
Proof. apply (bswap_range 2). Qed.

(** C36: ip_port_from_str inverts ip_port_to_str for both families: whatever
    object it parses into, it stores the family, the address and the port that
    were printed. *)
Theorem ip_port_roundtrip p q len :
  ip_wf (ipp_ip p) -> 0 <= ipp_port p < 65536 -> IP_STR_LEN <= len ->
  exists s r, ip_port_to_str (Some p) len = Some s /\ ip_port_from_str (Some q) (Some s) = (Some r, 0) /\
    ip_same (ipp_ip r) (ipp_ip p) /\ ipp_port r = ipp_port p.
Proof.
  intros Hwf Hport Hlen. unfold ip_port_to_str. rewrite (proj2 (Z.ltb_ge len IP_STR_LEN)) by done.
  rewrite ip_addr_to_str_wf by (done || lia).
  set (t := ip_text (ipp_ip p)). destruct (ip_text_chars _ Hwf) as [_ Htl]. fold t in Htl.
  pose proof (ntohs_range (ipp_port p)) as Hns. destruct (print_u_spec (ntohs (ipp_port p))) as (Hd & Hv & _); [lia|].
  set (d := print_u (ntohs (ipp_port p))) in *.
  assert (Hdl : (length d <= 20)%nat) by (destruct (print_u_spec (ntohs (ipp_port p))) as (_ & _ & ?); [lia|unfold d; lia]).
  assert (Hsl : (length ([91%Z] ++ t ++ [93%Z; 58%Z] ++ d) <= 68)%nat) by (rewrite !length_app; simpl; lia).
  eexists. unfold IP_STR_LEN in Hlen. rewrite take_ge by lia.
  destruct (ip_addr_from_text (ipp_ip p) (ipp_ip q) Hwf) as (r & Hr & Hsame & _). fold t in Hr.
  exists {| ipp_ip := r; ipp_port := ipp_port p |}. split; [done|]. split; [|done].
  unfold ip_port_from_str, strncpy. rewrite take_ge by lia. cbn [app head].
  assert (Hbr : strchr (91 :: t ++ 93 :: 58 :: d) 93 = Some (S (length t))).
  { change (91 :: t ++ 93 :: 58 :: d) with ((91 :: t) ++ 93 :: 58 :: d). rewrite strchr_app; [done|].
    apply not_elem_of_cons. split; [done|]. apply text_no_char; [done|]. unfold text_char. lia. }
  rewrite Hbr. cbn [take drop]. rewrite drop_0, take_app_length, Hr.
  replace (S (length t) + 2)%nat with (S (length t + 2)) by lia. cbn [drop].
  assert (Hdr : drop (length t + 2) (t ++ 93 :: 58 :: d) = d).
  { rewrite drop_app_ge by lia. by replace (length t + 2 - length t)%nat with 2%nat by lia. }
  rewrite Hdr. unfold set_port. rewrite (port_loop6_digits d Hd). cbn [negb].
  assert (Ha : atoi d = ntohs (ipp_port p)) by (rewrite atoi_digits; [done|done|rewrite Hv; lia]).
  rewrite Ha, (proj2 (Z.ltb_ge (ntohs (ipp_port p)) 0)), (proj2 (Z.ltb_ge 65535 (ntohs (ipp_port p)))) by lia. cbn [orb].
  do 2 f_equal. f_equal. unfold htons, ntohs. by apply (bswap_involutive 2).
Qed.

(** C37: ip_mask_from_str inverts ip_mask_to_str, for every valid prefix length. *)
Theorem ip_mask_roundtrip m q len :
  ip_wf (im_ip m) -> IP_MASK_CIDR_IS_VALID m = true -> IP_STR_LEN <= len ->
  exists s r, ip_mask_to_str (Some m) len = Some s /\ ip_mask_from_str (Some q) (Some s) = (Some r, 0) /\
    ip_same (im_ip r) (im_ip m) /\ im_cidr r = im_cidr m.
Proof.
  intros Hwf Hval Hlen. unfold ip_mask_to_str. rewrite (proj2 (Z.ltb_ge len IP_STR_LEN)) by done.
  rewrite ip_addr_to_str_wf by (done || lia). rewrite Hval. cbn [negb].
  set (t := ip_text (im_ip m)). destruct (ip_text_chars _ Hwf) as [_ Htl]. fold t in Htl.
  assert (Hc : 0 <= im_cidr m < 129).
  { unfold IP_MASK_CIDR_IS_VALID in Hval. rewrite andb_true_iff, orb_true_iff, !andb_true_iff, Z.leb_le, !Z.ltb_lt in Hval. lia. }
  destruct (print_u_spec (im_cidr m)) as (Hd & Hv & Hdl); [lia|]. set (d := print_u (im_cidr m)) in *.
  assert (Hsl : (length (t ++ [47%Z] ++ d) <= 66)%nat) by (rewrite !length_app; simpl; lia).
  eexists. unfold IP_STR_LEN in Hlen. rewrite take_ge by lia.
  destruct (ip_addr_from_text (im_ip m) (im_ip q) Hwf) as (r & Hr & Hsame & _). fold t in Hr.
  exists {| im_ip := r; im_cidr := im_cidr m |}. split; [done|]. split; [|done].
  unfold ip_mask_from_str. cbn [app]. rewrite strchr_app by (apply text_no_char; [done|unfold text_char; lia]).
  assert (Hdr : drop (length t + 1) (t ++ 47 :: d) = d).
  { rewrite drop_app_ge by lia. by replace (length t + 1 - length t)%nat with 1%nat by lia. }
  rewrite Hdr, take_app_length.
  assert (Hg : ip_get_cidr (Some d) = im_cidr m).
  { unfold ip_get_cidr. rewrite (proj2 (strchr_None d 46)).
    - rewrite atoi_digits; [done|done|rewrite Hv; lia].
    - intros Hin. rewrite Forall_forall in Hd. apply Hd in Hin. apply isdigit_range in Hin. lia. }
  destruct d as [|c d']; [simpl in Hdl; lia|]. cbn [im_ip im_cidr]. rewrite Hg, u32_small by lia.
  rewrite (proj2 (Z.ltb_ge INET6_ADDRSTRLEN (Z.of_nat (length t)))) by (unfold INET6_ADDRSTRLEN; lia).
  rewrite Hr. cbn [Z.eqb negb].
  assert (Hv2 : IP_MASK_CIDR_IS_VALID {| im_ip := r; im_cidr := im_cidr m |} = true).
  { unfold IP_MASK_CIDR_IS_VALID in *. cbn [im_ip im_cidr] in *. destruct Hsame as (-> & _). exact Hval. }
  by rewrite Hv2.
Qed.
End Text.
End IpAddrProofs.
