(* ===== verification/IpMatch.v ===== *)
(** * ip_addr: matching, masking and comparison

    What the network operations of ip_addr.c compute, as statements on the
    numbers of the addresses. *)
From Stdlib Require Import String.
From S2P Require Import Prelude CLib IpAddr IpAddrProofs.

Module IpMatch.
Import IpAddr IpAddrProofs.

(** ** Prefixes of byte strings *)
Lemma be_combine_app a b : be_combine (a ++ b) = be_combine a * 256 ^ Z.of_nat (length b) + be_combine b.
Proof. unfold be_combine. rewrite reverse_app, le_combine_app, length_reverse. lia. Qed.

Lemma be_combine_inj a b :
  length a = length b -> Forall is_byte a -> Forall is_byte b -> be_combine a = be_combine b -> a = b.
Proof.
  intros Hl Ha Hb He. apply memcmp_0; [done|]. pose proof (memcmp_sgn a b Hl Ha Hb) as Hs.
  rewrite He, Z.sub_diag in Hs. by apply Z.sgn_null_iff.
Qed.

Lemma mul_add_inj m a b x y : 0 <= x < m -> 0 <= y < m -> a * m + x = b * m + y -> a = b /\ x = y.
Proof. intros Hx Hy He. assert (a = b) by nia. subst. lia. Qed.

Lemma pow_256 n : 256 ^ Z.of_nat n = 2 ^ (8 * Z.of_nat n).
Proof. change 256 with (2 ^ 8). by rewrite <- Z.pow_mul_r by lia. Qed.

(** The first [8 w + p] bits of a byte string. *)
Lemma be_prefix pre b post p :
  0 <= p <= 8 -> is_byte b -> Forall is_byte post ->
  be_combine (pre ++ b :: post) / 2 ^ (8 * Z.of_nat (S (length post)) - p) = be_combine pre * 2 ^ p + b / 2 ^ (8 - p).
Proof.
  intros Hp Hb Hpost. rewrite be_combine_app, be_combine_cons. cbn [length]. pose proof (be_combine_range post Hpost) as Hr.
  rewrite !pow_256 in *. set (k := 8 * Z.of_nat (length post)) in *.
  replace (8 * Z.of_nat (S (length post))) with (k + 8) by lia. replace (k + 8 - p) with ((8 - p) + k) by lia.
  rewrite !Z.pow_add_r by lia.
  replace (2 ^ 8) with (2 ^ p * 2 ^ (8 - p)) by (rewrite <- Z.pow_add_r by lia; f_equal; lia).
  assert (0 < 2 ^ k) by (apply Z.pow_pos_nonneg; lia). assert (0 < 2 ^ (8 - p)) by (apply Z.pow_pos_nonneg; lia).
  rewrite (Z.mul_comm (2 ^ (8 - p)) (2 ^ k)), <- Z.div_div by lia.
  replace (be_combine pre * (2 ^ k * (2 ^ p * 2 ^ (8 - p))) + (b * 2 ^ k + be_combine post)) 
    with (be_combine post + (be_combine pre * 2 ^ p * 2 ^ (8 - p) + b) * 2 ^ k) by lia.
  rewrite Z.div_add, (Z.div_small (be_combine post)), Z.add_0_l by lia.
  rewrite (Z.add_comm _ b), Z.div_add by lia. lia.
Qed.

(** The mask table keeps the first bits of a byte. *)
Lemma partial_mask b p :
  is_byte b -> 0 <= p < 8 ->
  exists m, arr_get s_mask_partial p = Ok m /\ Z.land b m = b / 2 ^ (8 - p) * 2 ^ (8 - p).
Proof.
  intros Hb Hp. unfold is_byte in Hb.
  assert (Hall : forallb (fun b => forallb (fun p => match arr_get s_mask_partial p with
     | Ok m => Z.land b m =? b / 2 ^ (8 - p) * 2 ^ (8 - p) | Fault _ => false end) (seqZ 0 8)) (seqZ 0 256) = true).
  { vm_compute. done. }
  rewrite forallb_forall in Hall. specialize (Hall b ltac:(apply list_elem_of_In, elem_of_seqZ; lia)). cbv beta in Hall.
  rewrite forallb_forall in Hall. specialize (Hall p ltac:(apply list_elem_of_In, elem_of_seqZ; lia)). cbv beta in Hall.
  destruct (arr_get s_mask_partial p) as [m|]; [|done]. exists m. split; [done|]. by apply Z.eqb_eq.
Qed.


(** ** Mask matching *)
Definition ip_bits (ip : ip_addr_t) : Z := if ip_family ip =? AF_INET then 32 else 128.
(** The number of the first [cidr] bits. *)
Definition ip_net (ip : ip_addr_t) (cidr : Z) : Z := ip_value ip / 2 ^ (ip_bits ip - cidr).

Lemma split_bytes (l : list Z) (w : nat) :
  (w < length l)%nat -> exists b, l !! w = Some b /\ l = take w l ++ b :: drop (S w) l.
Proof.
  intros Hw. destruct (lookup_lt_is_Some_2 l w Hw) as [b Hb]. exists b. split; [done|].
  by rewrite (take_drop_middle l w b Hb).
Qed.

(** The comparison of [whole] bytes and of the masked byte after them is the
    comparison of the prefixes of any two strings of the same length. *)
Lemma prefix_bytes (x y : list Z) (w : nat) (p : Z) :
  length x = length y -> (w < length x)%nat -> 0 <= p < 8 -> Forall is_byte x -> Forall is_byte y ->
  exists m a b : Z, arr_get s_mask_partial p = Ok m /\ arr_get x (Z.of_nat w) = Ok a /\ arr_get y (Z.of_nat w) = Ok b /\
    (take w x = take w y /\ Z.land a m = Z.land b m <->
     be_combine x / 2 ^ (8 * Z.of_nat (length x) - (8 * Z.of_nat w + p)) =
     be_combine y / 2 ^ (8 * Z.of_nat (length x) - (8 * Z.of_nat w + p))).
Proof.
  intros Hl Hw Hp Hx Hy.
  destruct (split_bytes x w Hw) as (a & Ha & Ex), (split_bytes y w ltac:(lia)) as (b & Hb & Ey).
  assert (Ba : is_byte a) by (rewrite Forall_lookup in Hx; eauto). assert (Bb : is_byte b) by (rewrite Forall_lookup in Hy; eauto).
  destruct (partial_mask a p Ba Hp) as (m & Hm & La), (partial_mask b p Bb Hp) as (m' & Hm' & Lb).
  rewrite Hm in Hm'. injection Hm' as <-. exists m, a, b. split_and!; [done|by apply arr_get_nat..|].
  rewrite La, Lb. pose proof (be_prefix (take w x) a (drop (S w) x) p ltac:(lia) Ba (Forall_drop _ _ _ Hx)) as Px.
  pose proof (be_prefix (take w y) b (drop (S w) y) p ltac:(lia) Bb (Forall_drop _ _ _ Hy)) as Py.
  rewrite <- Ex, length_drop in Px. rewrite <- Ey, length_drop in Py. rewrite <- Hl in Py.
  replace (8 * Z.of_nat (S (length x - S w)) - p) with (8 * Z.of_nat (length x) - (8 * Z.of_nat w + p)) in Px, Py by lia.
  rewrite Px, Py. unfold is_byte in *. assert (0 < 2 ^ (8 - p)) by (apply Z.pow_pos_nonneg; lia).
  assert (H2 : 256 = 2 ^ (8 - p) * 2 ^ p) by (rewrite <- Z.pow_add_r by lia; by replace (8 - p + p) with 8 by lia).
  split.
  - intros [-> He]. f_equal. nia.
  - intros [He1 He2]%mul_add_inj.
    + rewrite He2. split; [|done]. apply be_combine_inj; [rewrite !length_take; lia|by apply Forall_take..|done].
    + split; [apply Z.div_pos; lia|apply Z.div_lt_upper_bound; lia].
    + split; [apply Z.div_pos; lia|apply Z.div_lt_upper_bound; lia].
Qed.

(** The prefix of an address is the prefix of the 16 bytes that hold it. *)
Lemma ip_net_full ip cidr : ip_wf ip -> 0 <= cidr <= ip_bits ip -> ip_net ip cidr = be_combine (ip_bytes ip) / 2 ^ (128 - cidr).
Proof.
  intros ([Hf|Hf] & Hl & Hb) Hc; unfold ip_net, ip_value, ip_bits in *; rewrite Hf in *; [|done].
  cbn [Z.eqb AF_INET Pos.eqb] in *. rewrite <- (take_drop 4 (ip_bytes ip)) at 2.
  rewrite be_combine_app, length_drop, Hl. pose proof (be_combine_range (drop 4 (ip_bytes ip)) (Forall_drop _ _ _ Hb)) as Hr.
  rewrite length_drop, Hl in Hr. change (256 ^ Z.of_nat (16 - 4)) with (2 ^ 96) in *.
  replace (128 - cidr) with (96 + (32 - cidr)) by lia. rewrite Z.pow_add_r, <- Z.div_div by lia.
  by rewrite Z.div_add_l, (Z.div_small (be_combine (drop 4 _))), Z.add_0_r by lia.
Qed.

Lemma ip_net_0 ip : ip_wf ip -> ip_net ip 0 = 0.
Proof.
  intros Hwf. pose proof Hwf as (_ & Hl & Hb). rewrite ip_net_full by (done || unfold ip_bits; by destruct (_ =? _)).
  apply Z.div_small. pose proof (be_combine_range _ Hb). by rewrite Hl in *.
Qed.

(** C38: ip_mask_match compares exactly the first cidr bits: it returns 1 when
    the families agree and the prefixes of that length are equal, 0 otherwise,
    without reading outside the objects, for every prefix length up to 32
    (IPv4) or 127 (IPv6).  With 128 bits it reads one byte after the address. *)
Theorem ip_mask_match_prefix m ip :
  ip_wf (im_ip m) -> ip_wf ip -> 0 <= im_cidr m <= ip_bits (im_ip m) ->
  ip_mask_match (Some m) (Some ip) =
    if negb (ip_family (im_ip m) =? ip_family ip) then Ok 0
    else if im_cidr m =? 128 then
      (if bool_decide (ip_bytes (im_ip m) = ip_bytes ip) then Fault OutOfBounds else Ok 0)
    else Ok (if ip_net (im_ip m) (im_cidr m) =? ip_net ip (im_cidr m) then 1 else 0).
Proof.
  intros Hm Hip Hc. unfold ip_mask_match. destruct (Z.eqb_spec (ip_family (im_ip m)) (ip_family ip)) as [Hf|]; [|done].
  cbn [negb]. assert (Hbits : ip_bits ip = ip_bits (im_ip m)) by (unfold ip_bits; by rewrite Hf).
  destruct (Z.eqb_spec (im_cidr m) 0) as [->|Hnz]; [by rewrite !ip_net_0|].
  pose proof Hm as (_ & Hml & Hmb). pose proof Hip as (_ & Hil & Hib).
  assert (im_cidr m <= 128) by (unfold ip_bits in Hc; destruct (_ =? _) in Hc; lia).
  set (w := Z.to_nat (im_cidr m / 8)). pose proof (Z.div_mod (im_cidr m) 8 ltac:(lia)) as Hdm.
  pose proof (Z.mod_pos_bound (im_cidr m) 8 ltac:(lia)) as Hp.
  assert (Hw : im_cidr m / 8 = Z.of_nat w) by (unfold w; rewrite Z2Nat.id; [done|apply Z.div_pos; lia]).
  assert (Hcmp : (memcmp (take w (ip_bytes (im_ip m))) (take w (ip_bytes ip)) =? 0) =
    bool_decide (take w (ip_bytes (im_ip m)) = take w (ip_bytes ip))).
  { apply eq_iff_eq_true. rewrite Z.eqb_eq, bool_decide_eq_true. apply memcmp_0. rewrite !length_take. lia. }
  rewrite Hcmp. destruct (Z.eqb_spec (im_cidr m) 128) as [E|Hne].
  - assert (w = 16%nat) as -> by (unfold w; by rewrite E). rewrite !take_ge by lia. rewrite E.
    destruct (decide (ip_bytes (im_ip m) = ip_bytes ip)) as [Hs|Hs]; [|by rewrite !bool_decide_eq_false_2].
    rewrite !bool_decide_eq_true_2 by done. cbn [negb]. change (arr_get s_mask_partial (128 mod 8)) with (Ok 0 : res Z).
    cbn [bind]. by rewrite (proj2 (arr_get_Fault (ip_bytes (im_ip m)) (128 / 8) OutOfBounds)) by (split; [done|rewrite Hml; right; done]).
  - destruct (prefix_bytes (ip_bytes (im_ip m)) (ip_bytes ip) w (im_cidr m mod 8)) as (k & a & b & Hk & Ha & Hb & Heq);
      [lia|lia|done..|].
    rewrite Hw, Hk, Ha, Hb. cbn [bind]. rewrite Hml, <- Hw, <- Hdm in Heq. change (8 * Z.of_nat 16) with 128 in Heq.
    rewrite !ip_net_full by (done || lia).
    destruct (bool_decide_reflect (take w (ip_bytes (im_ip m)) = take w (ip_bytes ip))) as [Ht|Ht]; cbn [negb];
      destruct (Z.eqb_spec (be_combine (ip_bytes (im_ip m)) / 2 ^ (128 - im_cidr m))
        (be_combine (ip_bytes ip) / 2 ^ (128 - im_cidr m))) as [He|He]; try (apply Heq in He as [??]).
    + by rewrite (proj2 (Z.eqb_eq _ _)).
    + destruct (Z.eqb_spec (Z.land a k) (Z.land b k)); [|done]. destruct He. by apply Heq.
    + done.
    + done.
Qed.

(** ** IPv4 ranges *)
Definition quad (a : list Z) : Prop := length a = 4%nat /\ Forall is_byte a.

Lemma quad4 b0 b1 b2 b3 : is_byte b0 -> is_byte b1 -> is_byte b2 -> is_byte b3 -> quad [b0; b1; b2; b3].
Proof. intros. split; [done|]. rewrite !Forall_cons. done. Qed.

Lemma quad_value a : quad a -> ntohl (le_combine a) = be_combine a /\ 0 <= be_combine a < 2 ^ 32.
Proof. intros [Hl Hb]. split; [by apply ntohl_le|]. pose proof (be_combine_range a Hb). by rewrite Hl in *. Qed.

Lemma ip4_from_quad ip a : quad a -> ip4_from_str ip (Some (inet_ntop4 a)) = (le_combine a, 0).
Proof. intros [Hl Hb]. unfold ip4_from_str. by rewrite pton4_ntop4. Qed.

Lemma quad_no_char a c : quad a -> ~ (48 <= c <= 57) -> c <> 46 -> c ∉ inet_ntop4 a.
Proof.
  intros [_ Hb] Hc Hd Hin. destruct (ntop4_chars a Hb) as [Ht _]. rewrite Forall_forall in Ht.
  destruct (Ht _ Hin) as [?%isdigit_range| ->]; tauto.
Qed.

Lemma quad_text_nonempty a : quad a -> exists c s, inet_ntop4 a = c :: s.
Proof. intros [Hl Hb]. destruct (inet_ntop4 a) as [|c s] eqn:E; [|eauto]. pose proof (pton4_ntop4 a Hl Hb) as H. by rewrite E in H. Qed.

(** A range with one or both ends left out. *)
Definition end_text (o : option (list Z)) : cstr := match o with Some a => inet_ntop4 a | None => [] end.
Definition end_ok (o : option (list Z)) : Prop := match o with Some a => quad a | None => True end.
Definition end_value (o : option (list Z)) (dflt : Z) : Z := match o with Some a => be_combine a | None => dflt end.

Lemma end_text_facts o : end_ok o -> 45 ∉ end_text o /\ (length (end_text o) <= 15)%nat.
Proof.
  destruct o as [a|]; simpl; [|intros _; split; [apply not_elem_of_nil|lia]].
  intros Hq. split; [apply quad_no_char; [done|lia..]|]. apply ntop4_chars, Hq.
Qed.

Lemma match_range_ends ip oa ob :
  end_ok oa -> end_ok ob ->
  ip4_match_range ip (Some (end_text oa ++ 45 :: end_text ob)) =
    if (end_value oa 0 <=? ntohl ip) && (ntohl ip <=? end_value ob (2 ^ 32 - 1)) then 1 else 0.
Proof.
  intros Ha Hb. destruct (end_text_facts oa Ha) as [Hna Hla], (end_text_facts ob Hb) as [_ Hlb].
  unfold ip4_match_range, strncpy. rewrite take_ge by (rewrite length_app; cbn [length]; lia).
  rewrite strchr_app by done. rewrite take_app_length.
  assert (Hd : drop (length (end_text oa) + 1) (end_text oa ++ 45 :: end_text ob) = end_text ob).
  { rewrite drop_app_ge by lia. by replace (length (end_text oa) + 1 - length (end_text oa))%nat with 1%nat by lia. }
  rewrite Hd. unfold ip4_in_range.
  assert (Eb : ntohl (if (length (end_text oa) =? 0)%nat then 0 else (ip4_from_str 0 (Some (end_text oa))).1) = end_value oa 0).
  { destruct oa as [a|]; [|done]. cbn [end_text end_ok end_value] in *. destruct (quad_text_nonempty a Ha) as (c & s & E).
    rewrite ip4_from_quad by done. rewrite E. cbn [length Nat.eqb fst]. by apply quad_value. }
  assert (Ee : ntohl (match end_text ob with [] => 0xffffffff | _ => (ip4_from_str 0 (Some (end_text ob))).1 end)
    = end_value ob (2 ^ 32 - 1)).
  { destruct ob as [b|]; [|done]. cbn [end_text end_ok end_value] in *. destruct (quad_text_nonempty b Hb) as (c & s & E).
    rewrite ip4_from_quad by done. rewrite E. cbn [fst]. by apply quad_value. }
  by rewrite Eb, Ee.
Qed.

(** Ip4_match_range on a range "a-b" decides membership in the closed
    interval, in host order; a missing first address means 0.0.0.0 and a missing
    second one 255.255.255.255. *)
Theorem ip4_match_range_interval n oa ob :
  end_ok oa -> end_ok ob -> 0 <= n < 2 ^ 32 ->
  ip4_match_range (htonl n) (Some (end_text oa ++ 45 :: end_text ob)) = 1 <->
  end_value oa 0 <= n <= end_value ob (2 ^ 32 - 1).
Proof.
  intros Ha Hb Hn. rewrite match_range_ends by done. unfold htonl, ntohl. rewrite bswap_involutive by done.
  destruct (_ && _) eqn:E; [rewrite andb_true_iff, !Z.leb_le in E; naive_solver|].
  rewrite andb_false_iff, !Z.leb_gt in E. split; [done|lia].
Qed.

Lemma ip4_match_range_interval_witness :
  ip4_match_range (htonl 167772165) (Some (str "10.0.0.0-")) = 1.
Proof. refine (proj2 (ip4_match_range_interval 167772165 (Some [10; 0; 0; 0]) None _ _ _) _); by repeat constructor. Defined.

(** The private-address test holds exactly for 10/8, 172.16/12 and
    192.168/16, and the multicast test exactly for 224/4. *)
Theorem ip4_classes_exact n :
  0 <= n < 2 ^ 32 ->
  (ip4_is_sitelocal (htonl n) = 1 <-> n / 2 ^ 24 = 10 \/ n / 2 ^ 20 = 172 * 16 + 1 \/ n / 2 ^ 16 = 192 * 256 + 168) /\
  (ip4_is_multicast (htonl n) = 1 <-> n / 2 ^ 28 = 14).
Proof.
  intros Hn.
  assert (Hr : forall a b, quad a -> quad b -> ip4_match_range (htonl n) (Some (inet_ntop4 a ++ 45 :: inet_ntop4 b)) =
    if (be_combine a <=? n) && (n <=? be_combine b) then 1 else 0).
  { intros a b Ha Hb. rewrite (match_range_ends _ (Some a) (Some b)) by done. unfold htonl, ntohl. by rewrite bswap_involutive. }
  unfold ip4_is_sitelocal, ip4_is_multicast.
  change (str "10.0.0.0-10.255.255.255") with (inet_ntop4 [10; 0; 0; 0] ++ 45 :: inet_ntop4 [10; 255; 255; 255]).
  change (str "172.16.0.0-172.31.255.255") with (inet_ntop4 [172; 16; 0; 0] ++ 45 :: inet_ntop4 [172; 31; 255; 255]).
  change (str "192.168.0.0-192.168.255.255") with (inet_ntop4 [192; 168; 0; 0] ++ 45 :: inet_ntop4 [192; 168; 255; 255]).
  change (str "224.0.0.0-239.255.255.255") with (inet_ntop4 [224; 0; 0; 0] ++ 45 :: inet_ntop4 [239; 255; 255; 255]).
  rewrite !Hr by (split; [done|by repeat constructor]).
  repeat match goal with |- context[be_combine ?l] => let v := eval vm_compute in (be_combine l) in change (be_combine l) with v end.
  assert (Hdiv : forall k c, 0 < k -> n / k = c <-> c * k <= n < (c + 1) * k).
  { intros k c Hk. pose proof (Z.div_mod n k ltac:(lia)). pose proof (Z.mod_pos_bound n k Hk). split; [intros <-; lia|].
    intros Hc. symmetry. apply (Z.div_unique n k c (n - c * k)); lia. }
  rewrite !Hdiv by lia. split.
  - repeat match goal with |- context[?a <=? ?b] => destruct (Z.leb_spec a b) end; simpl; lia.
  - repeat match goal with |- context[?a <=? ?b] => destruct (Z.leb_spec a b) end; simpl; lia.
Qed.

Lemma ip4_classes_exact_witness : ip4_is_sitelocal (htonl 3232235777) = 1.
Proof. refine (proj2 (proj1 (ip4_classes_exact 3232235777 _)) _); [lia|by right; right]. Defined.

(** ** Subnets *)
Lemma or_loop_ones n e : 0 <= e -> or_loop n e = Z.lor e (Z.ones (Z.of_nat n)).
Proof.
  revert e. induction n as [|n IH]; intros e He; cbn [or_loop]; [by rewrite Z.lor_0_r|].
  rewrite IH by (apply Z.lor_nonneg; split; [done|apply Z.shiftl_nonneg; lia]).
  rewrite <- Z.lor_assoc. f_equal. apply Z.bits_inj'. intros k Hk.
  rewrite Z.lor_spec, Z.shiftl_1_l, Z.pow2_bits_eqb, !Z.testbit_ones_nonneg by lia.
  destruct (Z.eqb_spec (Z.of_nat n) k), (Z.ltb_spec k (Z.of_nat n)), (Z.ltb_spec k (Z.of_nat (S n))); simpl; lia.
Qed.

Lemma lor_low_byte b x : is_byte b -> 0 <= x -> Z.lor (b + 256 * x) 255 = 255 + 256 * x.
Proof.
  intros Hb Hx. unfold is_byte in Hb. pose proof (Z.add_lor_land (b + 256 * x) 255) as H.
  change 255 with (Z.ones 8) in H at 2. rewrite Z.land_ones in H by lia. change (2 ^ 8) with 256 in H.
  rewrite <- (Z.mod_unique_pos (b + 256 * x) 256 x b) in H by lia. lia.
Qed.

Lemma match_subnet_24 ip b0 b1 b2 :
  is_byte b0 -> is_byte b1 -> is_byte b2 ->
  match_subnet ip (le_combine [b0; b1; b2; 0]) 24 =
    (be_combine [b0; b1; b2; 0] <=? ntohl ip) && (ntohl ip <=? be_combine [255; b1; b2; 0]).
Proof.
  intros H0 H1 H2. assert (Hq : forall b, is_byte b -> quad [b; b1; b2; 0]) by (intros b Hb; by apply quad4).
  destruct (quad_value _ (Hq b0 H0)) as [Hv Hr]. destruct (quad_value _ (Hq 255 ltac:(done))) as [Hv' _].
  assert (Hle : htonl (be_combine [b0; b1; b2; 0]) = le_combine [b0; b1; b2; 0]).
  { rewrite <- Hv. apply (bswap_involutive 4). apply (le_combine_range [b0; b1; b2; 0]), (Hq b0 H0). }
  unfold match_subnet. cbn [Z.leb Z.compare orb Pos.compare Pos.compare_cont]. rewrite Hv.
  set (v := be_combine [b0; b1; b2; 0]) in *.
  assert (Hmod : v = 256 * (v / 256)).
  { assert (v = (b0 * 65536 + b1 * 256 + b2) * 256) as -> by (unfold v, be_combine; simpl; lia). rewrite Z.div_mul by lia. lia. }
  assert (Hu : u32 (Z.shiftl v 24) = 0).
  { rewrite Z.shiftl_mul_pow2 by lia. replace (v * 2 ^ 24) with (v / 256 * 2 ^ 32) by lia. by apply Z.mod_mul. }
  assert (Hs : Z.shiftl (Z.shiftr v (32 - 24)) (32 - 24) = v).
  { rewrite Z.shiftr_div_pow2, Z.shiftl_mul_pow2 by lia. change (2 ^ (32 - 24)) with 256. lia. }
  rewrite Hu, Hs, u32_small, Hle by lia. change (negb (Z.shiftr 0 24 =? 0)) with false. cbn iota.
  rewrite or_loop_ones by (apply (le_combine_range [b0; b1; b2; 0]), (Hq b0 H0)).
  change (Z.ones (Z.of_nat (Z.to_nat (32 - 24)))) with 255. unfold ip4_in_range. rewrite Hv.
  assert (El : Z.lor (le_combine [b0; b1; b2; 0]) 255 = le_combine [255; b1; b2; 0]).
  { unfold is_byte in *. apply lor_low_byte; [done|simpl; lia]. }
  by rewrite El, Hv'.
Qed.

(** Ip4_match_range on a /24 network does not match the 256 addresses of the
    network but the interval up to 255.b1.b2.0: the host bits are set in the
    word in network order. *)
Theorem ip4_match_subnet_24 n b0 b1 b2 :
  is_byte b0 -> is_byte b1 -> is_byte b2 -> 0 <= n < 2 ^ 32 ->
  ip4_match_range (htonl n) (Some (inet_ntop4 [b0; b1; b2; 0] ++ str "/24")) = 1 <->
  be_combine [b0; b1; b2; 0] <= n <= be_combine [255; b1; b2; 0].
Proof.
  intros H0 H1 H2 Hn. assert (Hq : quad [b0; b1; b2; 0]) by (by apply quad4).
  unfold ip4_match_range, strncpy. pose proof (proj2 (ntop4_chars _ (proj2 Hq))) as Hlen.
  change (str "/24") with [47; 50; 52]. rewrite take_ge by (rewrite length_app; cbn [length]; lia).
  rewrite (proj2 (strchr_None _ 45)).
  2: { rewrite elem_of_app. intros [Hin|Hin]; [|set_solver]. apply (quad_no_char _ 45 Hq) in Hin; [done|lia|lia]. }
  rewrite strchr_app by (apply quad_no_char; [done|lia..]). rewrite take_app_length, ip4_from_quad by done.
  rewrite drop_app_ge by lia. replace (length _ + 1 - length _)%nat with 1%nat by lia. cbn [drop].
  change (strchr [50; 52] 46) with (@None nat). change (atoi [50; 52]) with 24. rewrite match_subnet_24 by done.
  unfold htonl, ntohl. rewrite bswap_involutive by done.
  destruct (_ && _) eqn:E; [rewrite andb_true_iff, !Z.leb_le in E; naive_solver|].
  rewrite andb_false_iff, !Z.leb_gt in E. split; [done|lia].
Qed.

(** 200.1.2.3 is "in" 192.168.1.0/24. *)
Lemma ip4_match_subnet_24_witness :
  ip4_match_range (htonl (be_combine [200; 1; 2; 3])) (Some (str "192.168.1.0/24")) = 1.
Proof.
  refine (proj2 (ip4_match_subnet_24 (be_combine [200; 1; 2; 3]) 192 168 1 _ _ _ _) _); unfold is_byte; vm_compute; intuition discriminate.
Defined.

(** ** Applying a mask *)
Lemma zero_loop_spec n (ptr : list Z) (i : nat) :
  (i + n)%nat = length ptr -> zero_loop n ptr (Z.of_nat i) = Ok (take i ptr ++ replicate n 0).
Proof.
  revert ptr i. induction n as [|n IH]; intros ptr i Hl; cbn [zero_loop].
  { by rewrite app_nil_r, take_ge by lia. }
  rewrite (proj2 (arr_set_Ok ptr (Z.of_nat i) 0 _)) by (split; [lia|done]). cbn [bind]. rewrite Nat2Z.id.
  replace (Z.of_nat i + 1) with (Z.of_nat (S i)) by lia. rewrite IH by (rewrite length_insert; lia). f_equal.
  rewrite (take_S_r _ i 0) by (apply list_lookup_insert_eq; lia). rewrite take_insert_ge by lia. by rewrite <- app_assoc.
Qed.

(** Whole bytes are kept, the byte with the partial bits among them. *)
Lemma mask_bytes_spec (ptr : list Z) cidr :
  length ptr = 16%nat -> 0 <= cidr <= 128 ->
  mask_bytes ptr cidr =
    if (120 <? cidr) && (cidr <? 128) then Fault OutOfBounds
    else Ok (take (Z.to_nat ((cidr + 7) / 8)) ptr ++ replicate (16 - Z.to_nat ((cidr + 7) / 8)) 0).
Proof.
  intros Hl Hc. unfold mask_bytes. pose proof (Z.div_mod cidr 8 ltac:(lia)) as Hdm.
  pose proof (Z.mod_pos_bound cidr 8 ltac:(lia)) as Hp. set (w := cidr / 8) in *. set (p := cidr mod 8) in *.
  assert (Hz : forall (q : list Z) k, 0 <= k <= 16 -> length q = 16%nat ->
    zero_loop (Z.to_nat (16 - k)) q k = Ok (take (Z.to_nat k) q ++ replicate (16 - Z.to_nat k) 0)).
  { intros q k Hk Hq. rewrite <- (Z2Nat.id k) at 2 by lia. rewrite zero_loop_spec by lia. do 3 f_equal. lia. }
  destruct (Z.eqb_spec p 0) as [Hp0|Hp0]; cbn [negb bind].
  - rewrite Hz by (done || lia).
    rewrite <- (Z.div_unique_pos (cidr + 7) 8 w 7) by lia.
    destruct (Z.ltb_spec 120 cidr), (Z.ltb_spec cidr 128); simpl; (done || lia).
  - destruct (partial_mask 0 p ltac:(done) ltac:(lia)) as (m & -> & _). cbn [bind].
    destruct (Z.ltb_spec 120 cidr) as [Hb|Hb]; cbn [andb].
    { rewrite (proj2 (Z.ltb_lt cidr 128)) by lia.
      by rewrite (proj2 (arr_get_Fault ptr (w + 1) OutOfBounds)) by (split; [done|lia]). }
    destruct (lookup_lt_is_Some_2 ptr (Z.to_nat (w + 1)) ltac:(lia)) as [b Hlb].
    rewrite (proj2 (arr_get_Ok ptr (w + 1) b)) by (split; [lia|done]). cbn [bind].
    rewrite (proj2 (arr_set_Ok ptr (w + 1) _ _)) by (split; [lia|done]). cbn [bind].
    rewrite Hz by (rewrite ?length_insert; lia). rewrite <- (Z.div_unique_pos (cidr + 7) 8 (w + 1) (p - 1)) by lia.
    by rewrite take_insert_ge by lia.
Qed.

(** Ip_addr_apply_mask does not compute the network address: it keeps
    the bits of the prefix rounded up to whole bytes and clears the rest.  For
    IPv6 prefixes of 121 to 127 bits it writes outside the address. *)
Theorem ip_addr_apply_mask_whole_bytes ip cidr :
  ip_wf ip -> 1 <= cidr < ip_bits ip ->
  ip_addr_apply_mask (Some ip) cidr =
    if (120 <? cidr) && (cidr <? 128) then Fault OutOfBounds
    else Ok (Some (set_v6 ip (take (Z.to_nat ((cidr + 7) / 8)) (ip_bytes ip) ++
                              replicate (16 - Z.to_nat ((cidr + 7) / 8)) 0)), 0).
Proof.
  intros ([Hf|Hf] & Hl & Hb) Hc; unfold ip_addr_apply_mask, ip_bits in *; rewrite Hf in *; cbn [Z.eqb AF_INET AF_INET6 Pos.eqb] in *.
  - unfold ip4_apply_mask. rewrite (proj2 (Z.ltb_ge cidr 1)), (proj2 (Z.ltb_ge 31 cidr)) by lia. cbn [orb].
    rewrite mask_bytes_spec by (done || lia). by destruct (_ && _).
  - unfold ip6_apply_mask. rewrite (proj2 (Z.ltb_ge cidr 1)), (proj2 (Z.ltb_ge 128 cidr)) by lia. cbn [orb].
    rewrite mask_bytes_spec by (done || lia). by destruct (_ && _).
Qed.

Definition v4 (b0 b1 b2 b3 : Z) : ip_addr_t := {| ip_family := AF_INET; ip_bytes := [b0; b1; b2; b3] ++ replicate 12 0 |}.
Definition v6_loop : ip_addr_t := {| ip_family := AF_INET6; ip_bytes := replicate 15 0 ++ [1] |}.
Lemma v4_wf b0 b1 b2 b3 : is_byte b0 -> is_byte b1 -> is_byte b2 -> is_byte b3 -> ip_wf (v4 b0 b1 b2 b3).
Proof. intros. split; [by left|]. split; [done|]. simpl. rewrite !Forall_cons. unfold is_byte in *. split_and!; (done || lia). Qed.
Lemma v6_loop_wf : ip_wf v6_loop.
Proof. split; [by right|]. split; [done|]. simpl. rewrite !Forall_cons. unfold is_byte. split_and!; (done || lia). Qed.

(** 10.255.0.0/9 keeps 10.255. *)
Lemma ip_addr_apply_mask_whole_bytes_witness :
  ip_addr_apply_mask (Some (v4 10 255 7 7)) 9 = Ok (Some (v4 10 255 0 0), 0).
Proof. refine (ip_addr_apply_mask_whole_bytes (v4 10 255 7 7) 9 _ _); [by apply v4_wf|vm_compute; intuition discriminate]. Defined.

Lemma ip_mask_match_prefix_witness :
  ip_mask_match (Some {| im_ip := v4 172 16 0 0; im_cidr := 12 |}) (Some (v4 172 31 2 3)) = Ok 1.
Proof. refine (ip_mask_match_prefix {| im_ip := v4 172 16 0 0; im_cidr := 12 |} (v4 172 31 2 3) _ _ _); [by apply v4_wf..|done]. Defined.

(** ** Comparison *)

(** Within a family ip_addr_compare orders the addresses by their number;
    an IPv6 address is compared with the mapped form of an IPv4 one, but an IPv4
    address always compares below an IPv6 one, because the code converts the
    wrong operand. *)
Theorem ip_addr_compare_order a b :
  ip_wf a -> ip_wf b ->
  Z.sgn (ip_addr_compare (Some a) (Some b)) =
    if ip_family a =? ip_family b then Z.sgn (ip_value a - ip_value b)
    else if ip_family a =? AF_INET then -1
    else Z.sgn (ip_value a - (0xffff * 2 ^ 32 + ip_value b)).
Proof.
  intros Ha Hb. pose proof Ha as (Hfa & Hla & Hba). pose proof Hb as (Hfb & Hlb & Hbb). unfold ip_addr_compare, ip_value.
  destruct Hfa as [Hfa|Hfa], Hfb as [Hfb|Hfb]; rewrite Hfa, Hfb; cbn [Z.eqb AF_INET AF_INET6 Pos.eqb].
  - assert (Hn : forall c, length (ip_bytes c) = 16%nat -> Forall is_byte (ip_bytes c) -> ntohl (s_addr c) = be_combine (take 4 (ip_bytes c))).
    { intros c Hl Hc. apply ntohl_le; [rewrite length_take; lia|by apply Forall_take]. }
    rewrite !Hn by done. destruct (Z.eqb_spec (be_combine (take 4 (ip_bytes a))) (be_combine (take 4 (ip_bytes b)))) as [->|Hne].
    { by rewrite Z.sub_diag. }
    destruct (Z.ltb_spec (be_combine (take 4 (ip_bytes a))) (be_combine (take 4 (ip_bytes b)))).
    + by rewrite !Z.sgn_neg by lia.
    + by rewrite !Z.sgn_pos by lia.
  - unfold ip_addr_v4_to_v6. by rewrite Hfb.
  - unfold ip_addr_v4_to_v6. rewrite Hfb. cbn [Z.eqb AF_INET Pos.eqb negb ip_bytes].
    rewrite memcmp_sgn; [|rewrite !length_app, length_take, length_replicate; cbn [length]; lia|done|].
    2: { rewrite !Forall_app. split; [by apply Forall_replicate|]. split; [by repeat constructor|by apply Forall_take]. }
    f_equal. f_equal. rewrite !be_combine_app, length_app, !length_take, Hlb.
    change (be_combine (replicate 10 0)) with 0. change (be_combine [255; 255]) with 65535. simpl. lia.
  - apply memcmp_sgn; [lia|done..].
Qed.

(** 1.2.3.4 is below ::1 although ::1 is below its mapped form. *)
Lemma ip_addr_compare_order_witness :
  Z.sgn (ip_addr_compare (Some (v4 1 2 3 4)) (Some v6_loop)) = -1 /\
  Z.sgn (ip_addr_compare (Some v6_loop) (Some (v4 1 2 3 4))) = -1.
Proof.
  split; [refine (ip_addr_compare_order (v4 1 2 3 4) v6_loop _ _)|refine (ip_addr_compare_order v6_loop (v4 1 2 3 4) _ _)];
    (apply v6_loop_wf || by apply v4_wf).
Defined.

End IpMatch.
