(* ===== verification/IpText.v ===== *)
(** * A concrete text form of IPv6 addresses

    The fully written form of RFC 4291 (eight groups of four hexadecimal
    digits) satisfies the laws the address code relies on; the round trips of
    ip_addr.c are shown on it. *)
From Stdlib Require Import String.
From S2P Require Import Prelude CLib IpAddr IpAddrProofs.

Module IpText.
Import IpAddr IpAddrProofs.

Definition hex (d : Z) : Z := if d <? 10 then 48 + d else 87 + d.
Definition unhex (c : Z) : Z := if c <=? 57 then c - 48 else c - 87.

Definition byte_text (b : Z) : cstr := [hex (b / 16); hex (b mod 16)].
Definition byte_read (h l : Z) : Z := 16 * unhex h + unhex l.

Fixpoint full6_text (a : list Z) : cstr :=
  match a with
  | [x; y] => byte_text x ++ byte_text y
  | x :: y :: a => byte_text x ++ byte_text y ++ [58] ++ full6_text a
  | _ => []
  end.

Fixpoint full6_read (n : nat) (s : cstr) : list Z :=
  match n, s with
  | S n, a :: b :: c :: d :: s => byte_read a b :: byte_read c d :: full6_read n (tail s)
  | _, _ => []
  end.

Definition full6_parse (s : cstr) : option (list Z) :=
  let a := full6_read 8 s in
  if bool_decide (length a = 16%nat /\ Forall (fun b => 0 <= b < 256) a) then Some a else None.

Lemma hex_spec d : 0 <= d < 16 -> unhex (hex d) = d /\ (48 <= hex d <= 57 \/ 97 <= hex d <= 102).
Proof.
  intros Hd. unfold hex, unhex. destruct (Z.ltb_spec d 10).
  - rewrite (proj2 (Z.leb_le (48 + d) 57)) by lia. lia.
  - rewrite (proj2 (Z.leb_gt (87 + d) 57)) by lia. lia.
Qed.

Lemma byte_hex b : is_byte b -> 0 <= b / 16 < 16 /\ 0 <= b mod 16 < 16 /\ 16 * (b / 16) + b mod 16 = b.
Proof.
  unfold is_byte. intros Hb. pose proof (Z.div_mod b 16). pose proof (Z.mod_pos_bound b 16).
  lia.
Qed.

Lemma byte_read_text b : is_byte b -> byte_read (hex (b / 16)) (hex (b mod 16)) = b.
Proof. intros (Hh & Hl & He)%byte_hex. unfold byte_read. by rewrite (proj1 (hex_spec _ Hh)), (proj1 (hex_spec _ Hl)). Qed.

Definition full6_char (c : Z) : Prop := c = 58 \/ c = 46 \/ 48 <= c <= 57 \/ 97 <= c <= 102.
Lemma byte_text_chars b : is_byte b -> Forall full6_char (byte_text b).
Proof.
  intros (Hh & Hl & _)%byte_hex. unfold byte_text, full6_char.
  pose proof (proj2 (hex_spec _ Hh)). pose proof (proj2 (hex_spec _ Hl)). rewrite !Forall_cons. split_and!; (done || lia).
Qed.

(** [n + 1] groups. *)
Lemma full6_facts n a :
  length a = (2 * S n)%nat -> Forall is_byte a ->
  full6_read (S n) (full6_text a) = a /\ Forall full6_char (full6_text a) /\ length (full6_text a) = (5 * n + 4)%nat.
Proof.
  revert a. induction n as [|n IH]; intros a Hl Ha; destruct a as [|x [|y a]]; try (simpl in Hl; lia);
    rewrite !Forall_cons in Ha; destruct Ha as (Hx & Hy & Ha).
  - destruct a; [|simpl in Hl; lia]. cbn [full6_text byte_text app full6_read tail length].
    rewrite !byte_read_text by done. split_and!; [done| |done]. apply (Forall_app_2 _ (byte_text x)); by apply byte_text_chars.
  - destruct a as [|z a]; [simpl in Hl; lia|]. destruct (IH (z :: a)) as (Hr & Hc & Hn); [simpl in *; lia|done|].
    set (w := z :: a) in *. assert (E : full6_text (x :: y :: w) = byte_text x ++ byte_text y ++ [58] ++ full6_text w) by done.
    rewrite E. split_and!.
    + cbn [byte_text app]. cbn [full6_read tail]. rewrite !byte_read_text by done. do 2 f_equal. exact Hr.
    + rewrite !Forall_app. split_and!; [by apply byte_text_chars..|by repeat constructor|done].
    + rewrite !length_app, Hn. cbn [length byte_text]. lia.
Qed.

#[export] Program Instance full6 : Inet6 := {| inet_pton6 := full6_parse; inet_ntop6 := full6_text |}.
Next Obligation.
  intros s a. unfold full6_parse. case_bool_decide as H; [|done]. by intros [= <-].
Qed.
Next Obligation.
  intros a Hl Ha. destruct (full6_facts 7 a Hl Ha) as (Hr & _). unfold full6_parse. rewrite Hr.
  by rewrite bool_decide_eq_true_2.
Qed.
Next Obligation.
  intros a Hl Ha. destruct a as [|x [|y [|z a]]]; try done.
  assert (E : full6_text (x :: y :: z :: a) = byte_text x ++ byte_text y ++ [58] ++ full6_text (z :: a)) by done.
  rewrite E, !elem_of_app. right; right; left. by apply list_elem_of_singleton.
Qed.
Next Obligation. intros a Hl Ha. by apply (full6_facts 7). Qed.
Next Obligation. intros a Hl Ha. destruct (full6_facts 7 a Hl Ha) as (_ & _ & ->). lia. Qed.

Definition demo6 : ip_addr_t := {| ip_family := AF_INET6; ip_bytes := [32; 1; 13; 184] ++ replicate 11 0 ++ [1] |}.
Lemma demo6_wf : ip_wf demo6.
Proof. split; [by right|]. split; [done|]. simpl. rewrite !Forall_cons. unfold is_byte. split_and!; (done || lia). Qed.

Lemma ip_port_roundtrip_witness :
  exists s r, ip_port_to_str (Some {| ipp_ip := demo6; ipp_port := htons 443 |}) 128 = Some s /\
    ip_port_from_str (Some {| ipp_ip := set_family demo6 0; ipp_port := 0 |}) (Some s) = (Some r, 0) /\
    ip_same (ipp_ip r) demo6 /\ ipp_port r = htons 443.
Proof.
  refine (ip_port_roundtrip {| ipp_ip := demo6; ipp_port := htons 443 |} {| ipp_ip := set_family demo6 0; ipp_port := 0 |} 128 _ _ _);
    [apply demo6_wf|vm_compute; intuition discriminate|done].
Defined.

Lemma ip_mask_roundtrip_witness :
  exists s r, ip_mask_to_str (Some {| im_ip := demo6; im_cidr := 64 |}) 128 = Some s /\
    ip_mask_from_str (Some {| im_ip := set_family demo6 0; im_cidr := 0 |}) (Some s) = (Some r, 0) /\
    ip_same (im_ip r) demo6 /\ im_cidr r = 64.
Proof.
  refine (ip_mask_roundtrip {| im_ip := demo6; im_cidr := 64 |} {| im_ip := set_family demo6 0; im_cidr := 0 |} 128 _ _ _);
    [apply demo6_wf|done|done].
Defined.

(** The text that is printed. *)
Example demo6_text : ip_port_to_str (Some {| ipp_ip := demo6; ipp_port := htons 443 |}) 128 =
  Some (str "[2001:0db8:0000:0000:0000:0000:0000:0001]:443").
Proof. reflexivity. Qed.

(** A port that is not a number is read as 0 in the plain form. *)
Example port_garbage :
  ip_port_from_str (Some {| ipp_ip := demo6; ipp_port := 5 |}) (Some (str "10.0.0.1:http")) =
  (Some {| ipp_ip := {| ip_family := AF_INET; ip_bytes := [10; 0; 0; 1] ++ drop 4 (ip_bytes demo6) |}; ipp_port := 0 |}, 0).
Proof. reflexivity. Qed.
End IpText.
