(* ===== verification/StrUtil.v ===== *)
(** * str_util: bounded string functions

    Model of src/code/basic/stdext/str_util.c.  A character buffer is the list
    of the bytes of its object, a pointer into it an offset; NULL is [None].
    Reads and writes outside the object are faults, whatever size argument the
    caller passes.  Plain [char] is signed: a byte is compared with an [int]
    through [schar].  A loop runs with the length of the object plus one as fuel:
    it leaves the object before that many steps. *)
From S2P Require Import Prelude CLib.

Module StrUtil.

(** [memcpy(dst + off, data, n)] *)
Definition write_at (dst : list Z) (off : Z) (data : list Z) : res (list Z) :=
  if (off <? 0) || (Z.of_nat (length dst) <? off + Z.of_nat (length data)) then Fault OutOfBounds
  else Ok (take (Z.to_nat off) dst ++ data ++ drop (Z.to_nat off + length data) dst).

(** The [n] bytes from [off] on, as a read. *)
Definition read_at (src : list Z) (off n : Z) : res (list Z) :=
  if (off <? 0) || (Z.of_nat (length src) <? off + n) then Fault OutOfBounds
  else Ok (take (Z.to_nat n) (drop (Z.to_nat off) src)).

(** ** STR_GET_TAIL: [*p] is read before [p] is compared with the end *)
Fixpoint get_tail_loop (fuel : nat) (str : list Z) (siz p : Z) : res Z :=
  match fuel with
  | O => Fault NoReturn
  | S fuel =>
      do c <- arr_get str p;
      if negb (c =? 0) && (p <? siz) then get_tail_loop fuel str siz (p + 1) else Ok p
  end.
Definition STR_GET_TAIL (str : list Z) (siz : Z) : res Z := get_tail_loop (S (length str)) str siz 0.

(** ** The search loops *)

(** [do { if (test( *p)) return p; p++; } while (p < end);] *)
Fixpoint do_up (fuel : nat) (test : Z -> bool) (str : list Z) (p e : Z) : res (option Z) :=
  match fuel with
  | O => Fault NoReturn
  | S fuel =>
      do c <- arr_get str p;
      if test c then Ok (Some p) else if p + 1 <? e then do_up fuel test str (p + 1) e else Ok None
  end.

(** [do { if (test( *p)) return p; p--; } while (p >= str);] *)
Fixpoint do_down (fuel : nat) (test : Z -> bool) (str : list Z) (p : Z) : res (option Z) :=
  match fuel with
  | O => Fault NoReturn
  | S fuel =>
      do c <- arr_get str p;
      if test c then Ok (Some p) else if 0 <=? p - 1 then do_down fuel test str (p - 1) else Ok None
  end.

(** [while (p < end) { if (test( *p)) return p; p++; }] *)
Fixpoint while_up (fuel : nat) (test : Z -> bool) (str : list Z) (p e : Z) : res (option Z) :=
  match fuel with
  | O => Fault NoReturn
  | S fuel =>
      if p <? e then do c <- arr_get str p; if test c then Ok (Some p) else while_up fuel test str (p + 1) e
      else Ok None
  end.

(** [while (p >= begin) { if (test( *p)) return p; p--; }] *)
Fixpoint while_down (fuel : nat) (test : Z -> bool) (str : list Z) (p : Z) : res (option Z) :=
  match fuel with
  | O => Fault NoReturn
  | S fuel =>
      if 0 <=? p then do c <- arr_get str p; if test c then Ok (Some p) else while_down fuel test str (p - 1)
      else Ok None
  end.

Definition fuel_of (s : list Z) : nat := S (length s).

(** ** Strings *)

(** [array] is a block of pointers, ended by NULL. *)
Fixpoint free_loop (fuel : nat) (al : allocator) (array : list (option positive)) (p : Z) : res allocator :=
  match fuel with
  | O => Fault NoReturn
  | S fuel =>
      do q <- arr_get array p;
      match q with
      | None => Ok al
      | Some b => do al <- mfree al b; free_loop fuel al array (p + 1)
      end
  end.
Definition str_array_free (al : allocator) (array : option (positive * list (option positive))) : res (allocator * Z) :=
  match array with
  | None => Ok (al, -1)
  | Some (blk, arr) =>
      do al <- free_loop (S (length arr)) al arr 0;
      do al <- mfree al blk;
      Ok (al, 0)
  end.

Definition str_len (str : option (list Z)) (siz : Z) : res Z :=
  match str with
  | None => Ok (-1)
  | Some str => if siz <? 1 then Ok (-1) else do p <- STR_GET_TAIL str siz; Ok (s32 p)
  end.

(** The new contents of [dst], and the result: a size_t returned as an int. *)
Definition str_copy (src : option (list Z)) (ssiz : Z) (dst : option (list Z)) (dsiz : Z) : res (option (list Z) * Z) :=
  match dst, src with
  | Some d, Some src =>
      if (dsiz <? 1) || (ssiz <? 1) then Ok (dst, -1) else
      do ssiz <- STR_GET_TAIL src ssiz;
      if dsiz <=? ssiz then Ok (dst, -1) else
      do data <- read_at src 0 ssiz;
      do d <- write_at d 0 data;
      do d <- arr_set d ssiz 0;
      Ok (Some d, s32 ssiz)
  | _, _ => Ok (dst, -1)
  end.

(** No argument is checked here. *)
Definition str_cat (src : option (list Z)) (ssiz : Z) (dst : option (list Z)) (dsiz : Z) : res (option (list Z) * Z) :=
  match dst, src with
  | Some d, _ =>
      do p <- STR_GET_TAIL d dsiz;
      if p =? dsiz then Ok (dst, -1) else
      let n := dsiz - (p + 1) in
      match src with
      | None => Fault NullDeref
      | Some src =>
          do ssiz <- STR_GET_TAIL src ssiz;
          if u64 n <? ssiz then Ok (dst, -1) else
          do data <- read_at src 0 ssiz;
          do d <- write_at d p data;
          do d <- arr_set d (p + ssiz) 0;
          Ok (Some d, s32 ssiz)
      end
  | None, _ => Fault NullDeref
  end.

(** [same] is the test str1 == str2 on the pointers. *)
Definition str_cmp (same : bool) (str1 : option (list Z)) (siz1 : Z) (str2 : option (list Z)) (siz2 : Z) : res Z :=
  match str1, str2 with
  | Some s1, Some s2 =>
      if (siz1 <? 1) || (siz2 <? 1) then Ok (-1) else
      if same && (siz1 =? siz2) then Ok 0 else
      do siz1 <- STR_GET_TAIL s1 siz1;
      do siz2 <- STR_GET_TAIL s2 siz2;
      let n := if siz2 <? siz1 then siz2 else siz1 in
      do a <- read_at s1 0 n;
      do b <- read_at s2 0 n;
      let ret := memcmp a b in
      Ok (if ret =? 0 then s32 (siz1 - siz2) else ret)
  | _, _ => Ok (-1)
  end.

Definition str_have_char (str : option (list Z)) (siz c : Z) : res Z :=
  match str with
  | None => Ok (-1)
  | Some str =>
      if siz <? 1 then Ok (-1) else
      do e <- STR_GET_TAIL str siz;
      do r <- do_up (fuel_of str) (fun x => schar x =? c) str 0 e;
      Ok (match r with Some _ => 1 | None => 0 end)
  end.

Definition str_chr (str : option (list Z)) (siz c : Z) : res (option Z) :=
  match str with
  | None => Ok None
  | Some str =>
      if siz <? 1 then Ok None else
      do e <- STR_GET_TAIL str siz;
      do_up (fuel_of str) (fun x => schar x =? c) str 0 e
  end.

Definition str_rchr (str : option (list Z)) (siz c : Z) : res (option Z) :=
  match str with
  | None => Ok None
  | Some str =>
      if siz <? 1 then Ok None else
      do p <- STR_GET_TAIL str siz;
      do_down (fuel_of str) (fun x => schar x =? c) str p
  end.

(** Predicates on characters, as C functions: NULL is [None]. *)
Abbreviation str_is_func := (Z -> Z).
Abbreviation str_in_func := (list Z -> Z -> Z -> Z).

Definition str_find1 (str : option (list Z)) (siz : Z) (func : option str_is_func) : res (option Z) :=
  match str, func with
  | Some str, Some func =>
      if siz <? 1 then Ok None else
      do e <- STR_GET_TAIL str siz;
      do_up (fuel_of str) (fun x => negb (func (schar x) =? 0)) str 0 e
  | _, _ => Ok None
  end.

Definition str_rfind1 (str : option (list Z)) (siz : Z) (func : option str_is_func) : res (option Z) :=
  match str, func with
  | Some str, Some func =>
      if siz <? 1 then Ok None else
      do p <- STR_GET_TAIL str siz;
      do_down (fuel_of str) (fun x => 0 <? func (schar x)) str p
  | _, _ => Ok None
  end.

Definition str_find3 (str : option (list Z)) (siz : Z) (chrs : option (list Z)) (nchr : Z) (func : option str_in_func) : res (option Z) :=
  match str, chrs, func with
  | Some str, Some chrs, Some func =>
      if (siz <? 1) || (nchr <? 1) then Ok None else
      do e <- STR_GET_TAIL str siz;
      do_up (fuel_of str) (fun x => 0 <? func chrs nchr (schar x)) str 0 e
  | _, _, _ => Ok None
  end.

Definition str_rfind3 (str : option (list Z)) (siz : Z) (chrs : option (list Z)) (nchr : Z) (func : option str_in_func) : res (option Z) :=
  match str, chrs, func with
  | Some str, Some chrs, Some func =>
      if (siz <? 1) || (nchr <? 1) then Ok None else
      do p <- STR_GET_TAIL str siz;
      do_down (fuel_of str) (fun x => negb (func chrs nchr (schar x) =? 0)) str p
  | _, _, _ => Ok None
  end.

(** ** Substrings *)
Definition tolower (c : Z) : Z := if (65 <=? c) && (c <=? 90) then c + 32 else c.

(** [strncmp] and [strncasecmp]: [n] characters from offset [p] of [a] and from
    the start of [b], with [fold] applied to both. *)
Fixpoint strn_cmp (fold : Z -> Z) (n : nat) (a : list Z) (p : Z) (b : list Z) (q : Z) : res Z :=
  match n with
  | O => Ok 0
  | S n =>
      do x <- arr_get a p;
      do y <- arr_get b q;
      if negb (fold x =? fold y) then Ok (fold x - fold y)
      else if x =? 0 then Ok 0 else strn_cmp fold n a (p + 1) b (q + 1)
  end.

Fixpoint str_up (fuel : nat) (fold : Z -> Z) (str pat : list Z) (psiz p e : Z) : res (option Z) :=
  match fuel with
  | O => Fault NoReturn
  | S fuel =>
      do r <- strn_cmp fold (Z.to_nat psiz) str p pat 0;
      if r =? 0 then Ok (Some p)
      else if p + 1 <=? e then str_up fuel fold str pat psiz (p + 1) e else Ok None
  end.
Fixpoint str_down (fuel : nat) (fold : Z -> Z) (str pat : list Z) (psiz p : Z) : res (option Z) :=
  match fuel with
  | O => Fault NoReturn
  | S fuel =>
      do r <- strn_cmp fold (Z.to_nat psiz) str p pat 0;
      if r =? 0 then Ok (Some p)
      else if 0 <=? p - 1 then str_down fuel fold str pat psiz (p - 1) else Ok None
  end.

Definition cmp_func (case_sens : Z) : Z -> Z := if negb (case_sens =? 0) then (fun c => c) else tolower.

Definition str_str (str : option (list Z)) (siz : Z) (pat : option (list Z)) (psiz : Z) (case_sens : Z) : res (option Z) :=
  match str, pat with
  | Some str, Some pat =>
      if (siz <? 1) || (psiz <? 1) then Ok None else
      do siz <- STR_GET_TAIL str siz;
      do psiz <- STR_GET_TAIL pat psiz;
      if siz <? psiz then Ok None else
      str_up (fuel_of str) (cmp_func case_sens) str pat psiz 0 (siz - psiz)
  | _, _ => Ok None
  end.

Definition str_rstr (str : option (list Z)) (siz : Z) (pat : option (list Z)) (psiz : Z) (case_sens : Z) : res (option Z) :=
  match str, pat with
  | Some str, Some pat =>
      if (siz <? 1) || (psiz <? 1) then Ok None else
      do siz <- STR_GET_TAIL str siz;
      do psiz <- STR_GET_TAIL pat psiz;
      if siz <? psiz then Ok None else
      str_down (fuel_of str) (cmp_func case_sens) str pat psiz (siz - psiz)
  | _, _ => Ok None
  end.

(** ** Tokens *)

(** [while ( *p1 && p1 < end1) if ( *p == *p1) ... p1++;]: is [c] a delimiter? *)
Fixpoint delim_loop (fuel : nat) (delim : list Z) (dsiz c p1 : Z) : res bool :=
  match fuel with
  | O => Fault NoReturn
  | S fuel =>
      do d <- arr_get delim p1;
      if negb (d =? 0) && (p1 <? dsiz) then
        if c =? d then Ok true else delim_loop fuel delim dsiz c (p1 + 1)
      else Ok false
  end.

(** The first delimiter from [p] on. *)
Fixpoint token_loop (fuel : nat) (buf delim : list Z) (dsiz p : Z) : res (option Z) :=
  match fuel with
  | O => Fault NoReturn
  | S fuel =>
      do c <- arr_get buf p;
      if c =? 0 then Ok None else
      do d <- delim_loop (S (length delim)) delim dsiz c 0;
      if d then Ok (Some p) else token_loop fuel buf delim dsiz (p + 1)
  end.

(** [buf] is the object [str] and [*off] point into; the result is its new
    contents, the new [*off] and the returned pointer. *)
Definition str_token (buf : list Z) (str : option Z) (siz : Z) (delim : option (list Z)) (dsiz : Z)
    (off : option (option Z)) : res (list Z * option (option Z) * option Z) :=
  match delim, off with
  | Some delim, Some o =>
      if (siz <? 1) || (dsiz <? 1) then Ok (buf, off, None) else
      do start <- match str with
                  | Some s =>
                      do p <- get_tail_loop (fuel_of buf) buf (s + siz) s;
                      if p =? s + siz then Ok None else Ok (Some (p, s))
                  | None => Ok (match o with None => None | Some o => Some (o, o) end)
                  end;
      match start with
      | None => Ok (buf, off, None)
      | Some (p, ptr) =>
          do r <- token_loop (fuel_of buf) buf delim dsiz p;
          match r with
          | Some p => do buf <- arr_set buf p 0; Ok (buf, Some (Some (p + 1)), Some ptr)
          | None => Ok (buf, Some None, str)
          end
      end
  | _, _ => Ok (buf, off, None)
  end.

Definition str_strip (src : option (list Z)) (ssiz : Z) (dst : option (list Z)) (dsiz : Z) (func : option str_is_func) : res (option (list Z) * Z) :=
  match dst, src, func with
  | Some d, Some s, Some _ =>
      if (dsiz <? 1) || (ssiz <? 1) then Ok (dst, -1) else
      do begin <- str_find1 src ssiz func;
      match begin with
      | None => Ok (dst, -1)
      | Some begin =>
          do e <- str_rfind1 src ssiz func;
          match e with
          | None => Ok (dst, -1)
          | Some e =>
              let n := u64 (e - begin + 1) in
              if dsiz <=? n then Ok (dst, -1) else
              do data <- read_at s begin n;
              do d <- write_at d 0 data;
              do d <- arr_set d n 0;
              Ok (Some d, 0)
          end
      end
  | _, _, _ => Ok (dst, -1)
  end.

(** ** Memory *)
Definition mem_chr (ptr : option (list Z)) (siz c : Z) : res (option Z) :=
  match ptr with
  | None => Ok None
  | Some m => if siz <? 1 then Ok None else while_up (fuel_of m) (fun x => schar x =? c) m 0 siz
  end.
Definition mem_rchr (ptr : option (list Z)) (siz c : Z) : res (option Z) :=
  match ptr with
  | None => Ok None
  | Some m => if siz <? 1 then Ok None else while_down (fuel_of m) (fun x => schar x =? c) m (siz - 1)
  end.
Definition mem_find1 (ptr : option (list Z)) (siz : Z) (func : option str_is_func) : res (option Z) :=
  match ptr, func with
  | Some m, Some func => if siz <? 1 then Ok None else while_up (fuel_of m) (fun x => 0 <? func (schar x)) m 0 siz
  | _, _ => Ok None
  end.
Definition mem_rfind1 (ptr : option (list Z)) (siz : Z) (func : option str_is_func) : res (option Z) :=
  match ptr, func with
  | Some m, Some func => if siz <? 1 then Ok None else while_down (fuel_of m) (fun x => 0 <? func (schar x)) m (siz - 1)
  | _, _ => Ok None
  end.
Definition mem_find3 (ptr : option (list Z)) (siz : Z) (chrs : option (list Z)) (nchr : Z) (func : option str_in_func) : res (option Z) :=
  match ptr, chrs, func with
  | Some m, Some chrs, Some func =>
      if (siz <? 1) || (nchr <? 1) then Ok None else while_up (fuel_of m) (fun x => 0 <? func chrs nchr (schar x)) m 0 siz
  | _, _, _ => Ok None
  end.
Definition mem_rfind3 (ptr : option (list Z)) (siz : Z) (chrs : option (list Z)) (nchr : Z) (func : option str_in_func) : res (option Z) :=
  match ptr, chrs, func with
  | Some m, Some chrs, Some func =>
      if (siz <? 1) || (nchr <? 1) then Ok None else while_down (fuel_of m) (fun x => 0 <? func chrs nchr (schar x)) m (siz - 1)
  | _, _, _ => Ok None
  end.
End StrUtil.
