(* ===== verification/StrUtilProofs.v ===== *)
(** * str_util: what the functions compute

    The end of a string is found exactly, up to one read past the bound; copy
    followed by append builds the concatenation or leaves the destination alone;
    the substring searches are the first and the last occurrence. *)
From Stdlib Require Import String.
From S2P Require Import Prelude CLib StrUtil.

Module StrUtilProofs.
Import StrUtil.

Definition no_nul (s : list Z) : Prop := Forall (fun c => c <> 0) s.
Definition len (s : list Z) : Z := Z.of_nat (length s).

(** ** The end of a string *)
Lemma arr_get_mid (pre : list Z) x l : arr_get (pre ++ x :: l) (len pre) = Ok x.
Proof. apply arr_get_nat. by rewrite lookup_app_r, Nat.sub_diag by lia. Qed.

Lemma arr_get_end (l : list Z) : arr_get l (len l) = Fault OutOfBounds.
Proof. apply arr_get_Fault. split; [done|]. unfold len. lia. Qed.

Lemma len_snoc pre (x : Z) : len pre + 1 = len (pre ++ [x]).
Proof. unfold len. rewrite length_app. simpl. lia. Qed.

Lemma get_tail_loop_spec l pre siz fuel :
  (length l < fuel)%nat -> len pre <= siz ->
  get_tail_loop fuel (pre ++ l) siz (len pre) =
    match find_first (fun c => c =? 0) l with
    | Some n => Ok (Z.min (len pre + Z.of_nat n) siz)
    | None => if siz <? len pre + len l then Ok siz else Fault OutOfBounds
    end.
Proof.
  revert pre fuel. induction l as [|x l IH]; intros pre fuel Hf Hp; (destruct fuel as [|fuel]; [simpl in Hf; lia|]);
    cbn [get_tail_loop find_first].
  - rewrite app_nil_r, arr_get_end. cbn [bind]. unfold len in *. by rewrite (proj2 (Z.ltb_ge _ _)) by (simpl; lia).
  - rewrite arr_get_mid. cbn [bind]. destruct (Z.eqb_spec x 0) as [Hx|Hx]; cbn [negb andb].
    { f_equal. lia. }
    destruct (Z.ltb_spec (len pre) siz).
    + replace (pre ++ x :: l) with ((pre ++ [x]) ++ l) by (by rewrite <- app_assoc).
      rewrite (len_snoc pre x), IH by (cbn [length] in *; rewrite <- ?len_snoc; lia).
      rewrite <- len_snoc. destruct (find_first _ l) as [n|]; cbn [fmap option_fmap option_map]; [f_equal; lia|].
      unfold len. cbn [length]. by replace (Z.of_nat (length pre) + 1 + Z.of_nat (length l)) with (Z.of_nat (length pre) + Z.of_nat (S (length l))) by lia.
    + destruct (find_first _ l) as [n|]; cbn [fmap option_fmap option_map]; [f_equal; lia|].
      rewrite (proj2 (Z.ltb_lt siz _)) by (unfold len in *; cbn [length]; lia). f_equal. lia.
Qed.

Lemma tail_spec b siz :
  0 <= siz ->
  STR_GET_TAIL b siz =
    match find_first (fun c => c =? 0) b with
    | Some n => Ok (Z.min (Z.of_nat n) siz)
    | None => if siz <? len b then Ok siz else Fault OutOfBounds
    end.
Proof.
  intros Hs. unfold STR_GET_TAIL. pose proof (get_tail_loop_spec b [] siz (S (length b))) as H.
  change ([] ++ b) with b in H. change (len []) with 0 in H. rewrite H by lia. by destruct (find_first _ b).
Qed.

Lemma find_nul s r : no_nul s -> find_first (fun c => c =? 0) (s ++ 0 :: r) = Some (length s).
Proof.
  intros Hs. induction Hs as [|c s Hc _ IH]; [done|]. cbn [app find_first].
  rewrite (proj2 (Z.eqb_neq c 0)) by done. by rewrite IH.
Qed.

Lemma tail_string s r siz : no_nul s -> len s <= siz -> STR_GET_TAIL (s ++ 0 :: r) siz = Ok (len s).
Proof. intros Hs Hl. unfold len in *. rewrite tail_spec by lia. rewrite find_nul by done. f_equal. lia. Qed.

(** Str_len is the position of the first NUL, cut at the size and converted to an
    int; without a
    NUL in the object it is the size when the object is larger, and when the size
    is the size of the object (or more) the read runs past its end. *)
Theorem str_len_exact b siz :
  1 <= siz ->
  str_len (Some b) siz =
    match find_first (fun c => c =? 0) b with
    | Some n => Ok (s32 (Z.min (Z.of_nat n) siz))
    | None => if siz <? Z.of_nat (length b) then Ok (s32 siz) else Fault OutOfBounds
    end.
Proof.
  intros Hs. unfold str_len. rewrite (proj2 (Z.ltb_ge siz 1)) by lia. rewrite tail_spec by lia. fold (len b).
  destruct (find_first _ b); [done|]. by destruct (siz <? len b).
Qed.

(** A four-byte buffer without a NUL. *)
Lemma str_len_exact_witness : str_len (Some (str "abcd")) 4 = Fault OutOfBounds.
Proof. refine (str_len_exact (str "abcd") 4 _). lia. Defined.

(** ** Copy and append *)
Lemma read_prefix s r : read_at (s ++ r) 0 (len s) = Ok s.
Proof.
  unfold read_at, len. cbn [Z.ltb Z.compare orb]. rewrite (proj2 (Z.ltb_ge _ _)) by (rewrite length_app; lia).
  rewrite drop_0, Nat2Z.id. by rewrite take_app_length.
Qed.

(** Writing [s] over the part [m] of a buffer, and a NUL after it. *)
Lemma write_string (pre s d : list Z) :
  (length s < length d)%nat ->
  (do b <- write_at (pre ++ d) (len pre) s; arr_set b (len pre + len s) 0) = Ok (pre ++ s ++ 0 :: drop (S (length s)) d).
Proof.
  intros Hl. unfold write_at, len in *. rewrite (proj2 (Z.ltb_ge (Z.of_nat (length pre)) 0)) by lia.
  rewrite (proj2 (Z.ltb_ge _ _)) by (rewrite length_app; lia). cbn [orb bind]. rewrite Nat2Z.id.
  rewrite take_app_length, drop_app_ge by lia. replace (length pre + length s - length pre)%nat with (length s) by lia.
  destruct (lookup_lt_is_Some_2 d (length s) Hl) as [x Hx].
  assert (Hd : drop (length s) d = x :: drop (S (length s)) d) by (by apply drop_S).
  apply arr_set_Ok. split; [rewrite !length_app, length_drop; lia|].
  replace (Z.to_nat (Z.of_nat (length pre) + Z.of_nat (length s))) with (length (pre ++ s) + 0)%nat by (rewrite length_app; lia).
  rewrite Hd, (app_assoc pre s (x :: _)), insert_app_r. cbn. by rewrite <- app_assoc.
Qed.

Lemma copy_string s r d n :
  no_nul s -> 1 <= n -> len s <= n -> d <> [] ->
  str_copy (Some (s ++ 0 :: r)) n (Some d) (len d) =
    if len d <=? len s then Ok (Some d, -1) else Ok (Some (s ++ 0 :: drop (S (length s)) d), s32 (len s)).
Proof.
  intros Hs Hn Hl Hd. assert (1 <= len d) by (destruct d; [done|unfold len; simpl; lia]). unfold str_copy.
  rewrite (proj2 (Z.ltb_ge (len d) 1)), (proj2 (Z.ltb_ge n 1)) by lia. cbn [orb]. rewrite tail_string by done. cbn [bind].
  destruct (Z.leb_spec (len d) (len s)) as [Hle|Hgt]; [done|]. rewrite read_prefix. cbn [bind].
  pose proof (write_string [] s d ltac:(unfold len in *; lia)) as Hw. change (len []) with 0 in Hw. cbn [app] in Hw.
  rewrite Z.add_0_l in Hw. apply bind_Ok in Hw as (b & -> & Hw). cbn [bind]. by rewrite Hw.
Qed.

Lemma cat_string s r t rt n :
  no_nul s -> no_nul t -> 0 <= n -> len t <= n -> len (s ++ 0 :: r) < 2 ^ 64 ->
  str_cat (Some (t ++ 0 :: rt)) n (Some (s ++ 0 :: r)) (len (s ++ 0 :: r)) =
    if len r <? len t then Ok (Some (s ++ 0 :: r), -1) else Ok (Some (s ++ t ++ 0 :: drop (S (length t)) (0 :: r)), s32 (len t)).
Proof.
  intros Hs Ht Hn Hl Hb. assert (Hlen : len (s ++ 0 :: r) = len s + 1 + len r) by (unfold len; rewrite length_app; simpl; lia).
  assert (0 <= len s /\ 0 <= len r) by (unfold len; lia). unfold str_cat.
  rewrite tail_string by (done || lia). cbn [bind]. rewrite (proj2 (Z.eqb_neq (len s) _)) by lia.
  rewrite (tail_string t rt n) by done. cbn [bind]. rewrite Hlen. replace (len s + 1 + len r - (len s + 1)) with (len r) by lia.
  unfold u64. rewrite Z.mod_small by lia. destruct (Z.ltb_spec (len r) (len t)); [done|]. rewrite read_prefix. cbn [bind].
  pose proof (write_string s t (0 :: r) ltac:(unfold len in *; simpl; lia)) as Hw. apply bind_Ok in Hw as (b & -> & Hw).
  cbn [bind]. by rewrite Hw.
Qed.

(** C39: str_copy followed by str_cat: the destination holds the concatenation of
    the two strings, ended by NUL, with the bytes after it unchanged, and the
    results are the two lengths converted to int, so the lengths themselves below
    2^31; when the strings do not fit, the call that finds too little room returns -1
    and changes nothing.  No byte outside the three objects is touched. *)
Theorem str_copy_cat s rs t rt (d : list Z) n m :
  no_nul s -> no_nul t -> 1 <= n -> len s <= n -> 0 <= m -> len t <= m -> 1 <= len d < 2 ^ 64 ->
  (do r1 <- str_copy (Some (s ++ 0 :: rs)) n (Some d) (len d);
   do r2 <- str_cat (Some (t ++ 0 :: rt)) m r1.1 (len d);
   Ok (r1.2, r2)) =
  (if len d <=? len s then do r2 <- str_cat (Some (t ++ 0 :: rt)) m (Some d) (len d); Ok (-1, r2)
   else if len d <=? len s + len t then Ok (s32 (len s), (Some (s ++ 0 :: drop (S (length s)) d), -1))
   else Ok (s32 (len s), (Some (s ++ t ++ 0 :: drop (S (length s + length t)) d), s32 (len t)))).
Proof.
  intros Hs Ht Hn Hls Hm Hlt Hd. rewrite copy_string by (done || (intros ->; unfold len in Hd; simpl in Hd; lia)). destruct (Z.leb_spec (len d) (len s)); [done|].
  cbn [bind fst snd].
  assert (Hld : len d = len (s ++ 0 :: drop (S (length s)) d)).
  { unfold len in *. rewrite length_app. cbn [length]. rewrite length_drop. lia. }
  rewrite Hld at 1. rewrite cat_string by (done || lia). unfold len in *. rewrite length_drop.
  destruct (Z.ltb_spec (Z.of_nat (length d - S (length s))) (Z.of_nat (length t))) as [Hlt'|Hge].
  - by rewrite (proj2 (Z.leb_le _ _)) by lia.
  - rewrite (proj2 (Z.leb_gt _ _)) by lia. cbn [bind drop]. by rewrite drop_drop, Nat.add_succ_l.
Qed.

Lemma str_copy_cat_witness :
  (do r1 <- str_copy (Some (str "ab" ++ [0; 7])) 4 (Some (replicate 6 9)) 6;
   do r2 <- str_cat (Some (str "cde" ++ [0])) 9 r1.1 6; Ok (r1.2, r2)) = Ok (2, (Some (str "abcde" ++ [0]), 3)).
Proof. refine (str_copy_cat (str "ab") [7] (str "cde") [] (replicate 6 9) 4 9 _ _ _ _ _ _ _); by repeat constructor. Defined.

(** ** Substrings *)
Definition occurs (fold : Z -> Z) (s t : list Z) (i : nat) : bool :=
  bool_decide (map fold (take (length t) (drop i s)) = map fold t).

Lemma strn_cmp_spec fold n (a b : list Z) (p q : nat) :
  (p + n <= length a)%nat -> (q + n <= length b)%nat -> no_nul (take n (drop p a)) ->
  exists r, strn_cmp fold n a (Z.of_nat p) b (Z.of_nat q) = Ok r /\
    (r = 0 <-> map fold (take n (drop p a)) = map fold (take n (drop q b))).
Proof.
  revert p q. induction n as [|n IH]; intros p q Ha Hb Hn; [by exists 0|].
  destruct (lookup_lt_is_Some_2 a p ltac:(lia)) as [x Hx]. destruct (lookup_lt_is_Some_2 b q ltac:(lia)) as [y Hy].
  rewrite (drop_S a x p Hx) in *. rewrite (drop_S b y q Hy). cbn [take] in *. apply Forall_cons in Hn as [Hx0 Hn].
  cbn [strn_cmp]. rewrite (arr_get_nat a p x Hx), (arr_get_nat b q y Hy). cbn [bind].
  destruct (Z.eqb_spec (fold x) (fold y)) as [He|Hne]; cbn [negb].
  - rewrite (proj2 (Z.eqb_neq x 0)) by done. replace (Z.of_nat p + 1) with (Z.of_nat (S p)) by lia.
    replace (Z.of_nat q + 1) with (Z.of_nat (S q)) by lia. destruct (IH (S p) (S q)) as (r & -> & Hr); [lia|lia|done|].
    exists r. split; [done|]. rewrite Hr. cbn [map]. rewrite He. split; [intros E; by rewrite E|by intros [= ->]].
  - exists (fold x - fold y). split; [done|]. cbn [map]. split; [lia|]. by intros [= ? _].
Qed.

Section Search.
Context (fold : Z -> Z) (s rs t rt : list Z) (Hs : no_nul s) (Ht : no_nul t).

(** One comparison of the search. *)
Lemma probe i :
  (i + length t <= length s)%nat ->
  exists r, strn_cmp fold (Z.to_nat (len t)) (s ++ 0 :: rs) (Z.of_nat i) (t ++ 0 :: rt) 0 = Ok r /\
    (r =? 0) = occurs fold s t i.
Proof.
  intros Hi. unfold len. rewrite Nat2Z.id.
  assert (E : take (length t) (drop i (s ++ 0 :: rs)) = take (length t) (drop i s)).
  { rewrite drop_app_le, take_app_le by (rewrite ?length_drop; lia). done. }
  destruct (strn_cmp_spec fold (length t) (s ++ 0 :: rs) (t ++ 0 :: rt) i 0) as (r & Hr & Hz);
    [rewrite length_app; simpl; lia|rewrite length_app; simpl; lia|rewrite E; by apply Forall_take, Forall_drop|].
  exists r. split; [exact Hr|]. rewrite E, drop_0, take_app_length in Hz. unfold occurs.
  apply eq_iff_eq_true. by rewrite Z.eqb_eq, bool_decide_eq_true.
Qed.

Lemma str_up_spec k i fuel :
  (i + k + length t = length s)%nat -> (k < fuel)%nat ->
  str_up fuel fold (s ++ 0 :: rs) (t ++ 0 :: rt) (len t) (Z.of_nat i) (Z.of_nat (i + k)) =
    Ok ((fun j => Z.of_nat (i + j)) <$> find_first (occurs fold s t) (seq i (S k))).
Proof.
  revert i fuel. induction k as [|k IH]; intros i fuel Hi Hf; (destruct fuel as [|fuel]; [lia|]); cbn [str_up];
    (destruct (probe i ltac:(lia)) as (r & -> & Hr)); cbn [bind]; rewrite Hr; cbn [seq find_first].
  - destruct (occurs fold s t i); cbn; [by rewrite Nat.add_0_r|]. by rewrite (proj2 (Z.leb_gt _ _)) by lia.
  - destruct (occurs fold s t i); cbn [fmap option_fmap option_map]; [by rewrite Nat.add_0_r|].
    rewrite (proj2 (Z.leb_le _ _)) by lia. replace (Z.of_nat i + 1) with (Z.of_nat (S i)) by lia.
    replace (i + S k)%nat with (S i + k)%nat by lia. rewrite IH by lia. f_equal. cbn [seq find_first].
    destruct (occurs fold s t (S i)); cbn; [f_equal; f_equal; lia|].
    destruct (find_first _ _); cbn; [f_equal; f_equal; lia|done].
Qed.

Lemma find_last_snoc {A} (P : A -> bool) l x : find_last P (l ++ [x]) = if P x then Some (length l) else find_last P l.
Proof.
  induction l as [|a l IH]; simpl; [by destruct (P x)|]. rewrite IH. destruct (P x); [done|]. by destruct (find_last P l).
Qed.

Lemma str_down_spec i fuel :
  (i + length t <= length s)%nat -> (i < fuel)%nat ->
  str_down fuel fold (s ++ 0 :: rs) (t ++ 0 :: rt) (len t) (Z.of_nat i) =
    Ok (Z.of_nat <$> find_last (occurs fold s t) (seq 0 (S i))).
Proof.
  revert fuel. induction i as [|i IH]; intros fuel Hi Hf; (destruct fuel as [|fuel]; [lia|]); cbn [str_down];
    (destruct (probe _ Hi) as (r & -> & Hr)); cbn [bind]; rewrite Hr.
  - cbn. by destruct (occurs fold s t 0).
  - rewrite (seq_S (S i)), find_last_snoc, length_seq. cbn [Nat.add]. destruct (occurs fold s t (S i)); [done|].
    rewrite (proj2 (Z.leb_le _ _)) by lia. replace (Z.of_nat (S i) - 1) with (Z.of_nat i) by lia. apply IH; lia.
Qed.
End Search.

(** C40: str_str and str_rstr return the first and the last position at which
    the pattern occurs, with or without regard to case, and NULL when there is
    none; an empty pattern occurs everywhere.  The size of the text may be its length
    without the NUL: the header documents NULL for such a text, the code returns the
    occurrence. *)
Theorem str_str_occurrence s rs t rt n m cs :
  no_nul s -> no_nul t -> 1 <= n -> len s <= n -> 1 <= m -> len t <= m ->
  str_str (Some (s ++ 0 :: rs)) n (Some (t ++ 0 :: rt)) m cs =
    Ok (if len s <? len t then None
        else Z.of_nat <$> find_first (occurs (cmp_func cs) s t) (seq 0 (S (length s - length t)))) /\
  str_rstr (Some (s ++ 0 :: rs)) n (Some (t ++ 0 :: rt)) m cs =
    Ok (if len s <? len t then None
        else Z.of_nat <$> find_last (occurs (cmp_func cs) s t) (seq 0 (S (length s - length t)))).
Proof.
  intros Hs Ht Hn Hls Hm Hlt. unfold str_str, str_rstr. rewrite (proj2 (Z.ltb_ge n 1)), (proj2 (Z.ltb_ge m 1)) by lia. cbn [orb].
  rewrite !tail_string by done. cbn [bind]. destruct (Z.ltb_spec (len s) (len t)) as [Hl|Hl]; [done|]. unfold len in Hl.
  assert (E : len s - len t = Z.of_nat (0 + (length s - length t))) by (unfold len; lia).
  assert (Hf : forall k, (k <= length s -> k < fuel_of (s ++ 0%Z :: rs))%nat) by (intros k; unfold fuel_of; rewrite length_app; lia).
  rewrite E. split.
  - apply (str_up_spec _ s rs t rt Hs (length s - length t) 0); [lia|apply Hf; lia].
  - apply (str_down_spec _ s rs t rt Hs); [lia|apply Hf; lia].
Qed.

Lemma str_str_occurrence_witness :
  str_str (Some (str "abcABCabc" ++ [0])) 10 (Some (str "Bc" ++ [0])) 3 0 = Ok (Some 1) /\
  str_rstr (Some (str "abcABCabc" ++ [0])) 10 (Some (str "Bc" ++ [0])) 3 0 = Ok (Some 7).
Proof. refine (str_str_occurrence (str "abcABCabc") [] (str "Bc") [] 10 3 0 _ _ _ _ _ _); by repeat constructor. Defined.

(** The header documents NULL when the siz bytes of the text hold no NUL: here the
    text of two bytes is followed by a NUL outside of its size. *)
Example str_str_not_zero_end :
  str_str (Some (str "ab" ++ [0])) 2 (Some (str "b" ++ [0])) 2 1 = Ok (Some 1) /\
  str_rstr (Some (str "ab" ++ [0])) 2 (Some (str "b" ++ [0])) 2 1 = Ok (Some 1).
Proof. split; vm_compute; reflexivity. Qed.
(** A length of 2^31 is returned as a negative number. *)
Lemma str_len_negative s r : no_nul s -> len s = 2 ^ 31 -> str_len (Some (s ++ 0 :: r)) (len s) = Ok (- 2 ^ 31).
Proof. intros Hs Hl. unfold str_len. rewrite Hl. rewrite (tail_string s r) by (done || lia). cbn [bind Z.ltb Z.compare]. by rewrite Hl. Qed.

(** ** Tokens *)

(** Str_token never splits: the scan starts at the end of the string, where
    STR_GET_TAIL left the pointer, so the first call returns the whole string for
    every set of delimiters, changes nothing, and the next call returns NULL. *)
Theorem str_token_never_splits s r siz delim dsiz o :
  no_nul s -> len s < siz -> 1 <= dsiz ->
  str_token (s ++ 0 :: r) (Some 0) siz (Some delim) dsiz (Some o) = Ok (s ++ 0 :: r, Some None, Some 0) /\
  str_token (s ++ 0 :: r) None siz (Some delim) dsiz (Some None) = Ok (s ++ 0 :: r, Some None, None).
Proof.
  intros Hs Hl Hd. assert (0 <= len s) by (unfold len; lia). unfold str_token.
  rewrite (proj2 (Z.ltb_ge siz 1)), (proj2 (Z.ltb_ge dsiz 1)) by lia. cbn [orb]. split; [|done].
  rewrite Z.add_0_l. pose proof (tail_string s r siz Hs ltac:(lia)) as Ht. unfold STR_GET_TAIL in Ht. unfold fuel_of.
  rewrite Ht. cbn [bind]. rewrite (proj2 (Z.eqb_neq (len s) siz)) by lia. cbn [bind token_loop].
  rewrite arr_get_mid. done.
Qed.

Lemma str_token_never_splits_witness :
  str_token (str "a,b" ++ [0]) (Some 0) 4 (Some (str "," ++ [0])) 2 (Some None) = Ok (str "a,b" ++ [0], Some None, Some 0).
Proof. refine (proj1 (str_token_never_splits (str "a,b") [] 4 (str "," ++ [0]) 2 None _ _ _)); by repeat constructor. Defined.
End StrUtilProofs.
