(* ===== verification/Algo.v ===== *)
(** * The stand-alone algorithms of basic/algorithm

    gcd.c, bsearch.c, kth.c, maxsubseqsum.c and BM_search.c.  An array of [nobj]
    objects of [objsize] bytes is the list of its objects, so that
    [array + i * objsize] is object [i]; the callbacks are functions, qsort is a
    parameter with its documented laws, and an int wraps at 32 bits. *)
From Stdlib Require Import String.
From S2P Require Import Prelude CLib.

Module Algo.

(** ** gcd.c *)
Fixpoint gcd_while (fuel : nat) (a b : Z) : res Z :=
  match fuel with
  | O => Fault NoReturn
  | S fuel => if 0 <? b then gcd_while fuel b (a mod b) else Ok a
  end.
(** The second argument decreases. *)
Definition gcd (a b : Z) : res Z := gcd_while (S (Z.to_nat b)) a b.

(** ** bsearch.c *)
Section bsearch.
Context {A : Type} (cmp : A -> A -> Z).

Fixpoint bin_loop (fuel : nat) (array : list A) (val : A) (low high : Z) : res (option Z) :=
  match fuel with
  | O => Fault NoReturn
  | S fuel =>
      if low <? high then
        let mid := Z.quot (s32 (high + low)) 2 in
        do x <- arr_get array mid;
        if cmp val x <? 0 then bin_loop fuel array val low (mid - 1)
        else if 0 <? cmp val x then bin_loop fuel array val (mid + 1) high
        else Ok (Some mid)
      else Ok None
  end.

(** The index of the object found. *)
Definition bin_search (array : option (list A)) (objsize nobj : Z) (val : option A) : res (option Z) :=
  match array, val with
  | Some array, Some val =>
      if (objsize <? 1) || (nobj <? 1) then Ok None
      else bin_loop (S (length array)) array val 0 (s32 (nobj - 1))
  | _, _ => Ok None
  end.
End bsearch.

(** ** kth.c *)
Section kth.
Context {A : Type} (cmp : A -> A -> Z) (qsort : list A -> list A).

(** [for (i = k; i < n; i++)] over the objects from k on. *)
Fixpoint kth_loop (karray : list A) (k : Z) (rest : list A) : res (list A) :=
  match rest with
  | [] => Ok karray
  | x :: rest =>
      do last <- arr_get karray (k - 1);
      if cmp x last <? 0 then
        do karray <- arr_set karray (k - 1) x;
        kth_loop (qsort karray) k rest
      else kth_loop karray k rest
  end.

(** The result and the object stored at [kth]; [mem] says whether malloc works. *)
Definition kth_array (array : option (list A)) (k : Z) (mem : bool) : res (Z * option A) :=
  match array with
  | None => Ok (-1, None)
  | Some array =>
      if (k <? 0) || (Z.of_nat (length array) <? k) then Ok (-1, None)
      else if negb mem then Ok (-1, None)
      else
        do karray <- kth_loop (qsort (take (Z.to_nat k) array)) k (drop (Z.to_nat k) array);
        do x <- arr_get karray (k - 1);
        Ok (0, Some x)
  end.

Definition kth_sort (array : option (list A)) (k : Z) (mem : bool) : res (Z * option A) :=
  match array with
  | None => Ok (-1, None)
  | Some array =>
      if (k <? 0) || (Z.of_nat (length array) <? k) then Ok (-1, None)
      else if negb mem then Ok (-1, None)
      else do x <- arr_get (qsort array) (k - 1); Ok (0, Some x)
  end.
End kth.

(** ** maxsubseqsum.c *)
Section maxsubseqsum.
Context {A : Type} (zero : A) (add : A -> A -> A) (cmp : A -> A -> Z).

(** [if (cmp(sum, ret) > 0) memcpy(ret, sum, objsize);] *)
Definition keep_max (sum ret : A) : A := if 0 <? cmp sum ret then sum else ret.

(** The loops over j and k of the cubic version: [seg] are the objects i .. j-1. *)
Fixpoint n3_inner (seg rest : list A) (ret : A) : A :=
  match rest with
  | [] => ret
  | x :: rest => let seg := seg ++ [x] in n3_inner seg rest (keep_max (fold_left add seg zero) ret)
  end.
Fixpoint n3_outer (arr : list A) (ret : A) : A :=
  match arr with [] => ret | x :: t => n3_outer t (n3_inner [] arr ret) end.

(** [ret] is what the caller's object holds afterwards.  sum has objsize bytes, and
    the first memset clears nobjs bytes of it. *)
Definition maxsubseqsum_n3 (arr : option (list A)) (objsize : Z) (ret : A) (mem : bool) : res (Z * A) :=
  match arr with
  | None => Ok (-1, ret)
  | Some arr =>
      match arr with
      | [] => Ok (-1, ret)
      | x :: _ =>
          if objsize <? 1 then Ok (-1, ret)
          else if negb mem then Ok (0, ret)
          else if objsize <? Z.of_nat (length arr) then Fault OutOfBounds
          else Ok (0, n3_outer arr x)
      end
  end.

Fixpoint n2_inner (rest : list A) (sum ret : A) : A :=
  match rest with
  | [] => ret
  | x :: rest => let sum := add sum x in n2_inner rest sum (keep_max sum ret)
  end.
Fixpoint n2_outer (arr : list A) (ret : A) : A :=
  match arr with [] => ret | x :: t => n2_outer t (n2_inner arr zero ret) end.

Definition maxsubseqsum_n2 (arr : option (list A)) (objsize : Z) (ret : A) (mem : bool) : res (Z * A) :=
  match arr with
  | None => Ok (-1, ret)
  | Some arr =>
      match arr with
      | [] => Ok (-1, ret)
      | x :: _ => if objsize <? 1 then Ok (-1, ret) else if negb mem then Ok (-1, ret) else Ok (0, n2_outer arr x)
      end
  end.

(** The border loops of the divide-and-conquer version; the left one keeps every
    sum that differs from the one kept before. *)
Fixpoint left_border (l : list A) (sum best : A) : A :=
  match l with
  | [] => best
  | x :: l => let sum := add sum x in left_border l sum (if negb (cmp sum best =? 0) then sum else best)
  end.
Fixpoint right_border (l : list A) (sum best : A) : A :=
  match l with
  | [] => best
  | x :: l => let sum := add sum x in right_border l sum (keep_max sum best)
  end.

(** malloc works. *)
Fixpoint div_loop (fuel : nat) (arr : list A) (ret : A) : res (Z * A) :=
  match fuel with
  | O => Fault NoReturn
  | S fuel =>
      match arr with
      | [] => Ok (-1, ret)
      | [x] => Ok (0, x)
      | x :: _ =>
          let left := Nat.div (length arr) 2 in
          do (_, maxleftsum) <- div_loop fuel (take left arr) zero;
          do (_, maxrightsum) <- div_loop fuel (drop left arr) zero;
          let maxleftbordersum := left_border (reverse (take left arr)) zero zero in
          let maxrightbordersum := right_border (drop left arr) zero zero in
          let both := add maxleftbordersum maxrightbordersum in
          Ok (0, keep_max both (keep_max maxrightsum (keep_max maxleftsum x)))
      end
  end.
Definition maxsubseqsum_div (arr : option (list A)) (objsize : Z) (ret : A) : res (Z * A) :=
  match arr with
  | None => Ok (-1, ret)
  | Some arr => if objsize <? 1 then Ok (-1, ret) else div_loop (S (length arr)) arr ret
  end.
End maxsubseqsum.

(** ** BM_search.c: characters are bytes; [pat[i]] is a signed char.  The indices,
    the skips and the offset are ints, the lengths are size_t: an int compared with a
    length is converted to an unsigned 64-bit number first. *)

(** [for (i = 0; i < plen - 1; i++) bc[(unsigned int)pat[i]] = plen - (i + 1);] *)
Fixpoint bc_loop (pat : list Z) (plen i : Z) (bc : list Z) : res (list Z) :=
  match pat with
  | [] => Ok bc
  | c :: pat =>
      if u64 i <? u64 (plen - 1) then
        do bc <- arr_set bc (u32 (schar c)) (s32 (plen - s32 (i + 1)));
        bc_loop pat plen (s32 (i + 1)) bc
      else Ok bc
  end.
(** For plen = 0 the bound plen - 1 is the largest size_t and the loop runs off
    the pattern. *)
Definition BM_get_bc (pat : option (list Z)) (bc : option (list Z)) : res (Z * list Z) :=
  match pat, bc with
  | Some pat, Some bc =>
      if Z.of_nat (length bc) <? 256 then Ok (-1, bc)
      else
        let plen := Z.of_nat (length pat) in
        let bc := replicate 256 (s32 plen) ++ drop 256 bc in
        match pat with
        | [] => Fault OutOfBounds
        | _ => do bc <- bc_loop pat plen 0 bc; Ok (0, bc)
        end
  | _, _ => Ok (-1, [])
  end.

(** [while (buf[--b_idx] == pat[--p_idx])]: the indices are those after the
    decrements; Some is the return inside the loop. *)
Fixpoint bm_match (fuel : nat) (buf pat : list Z) (b_idx p_idx : Z) : res (option (option Z) * Z * Z) :=
  match fuel with
  | O => Fault NoReturn
  | S fuel =>
      let b_idx := s32 (b_idx - 1) in
      let p_idx := s32 (p_idx - 1) in
      do b <- arr_get buf b_idx;
      do p <- arr_get pat p_idx;
      if b =? p then
        if b_idx <? 0 then Ok (Some None, b_idx, p_idx)
        else if p_idx =? 0 then Ok (Some (Some b_idx), b_idx, p_idx)
        else bm_match fuel buf pat b_idx p_idx
      else Ok (None, b_idx, p_idx)
  end.

Fixpoint bm_loop (fuel : nat) (buf pat bc gs : list Z) (b_idx : Z) : res (option Z) :=
  match fuel with
  | O => Fault NoReturn
  | S fuel =>
      let plen := Z.of_nat (length pat) in
      if u64 b_idx <=? Z.of_nat (length buf) then
        do (r, b_idx, p_idx) <- bm_match (S (length pat)) buf pat b_idx (s32 plen);
        match r with
        | Some r => Ok r
        | None =>
            do c <- arr_get buf b_idx;
            do skip <- arr_get bc (u8 c);
            do _ <- arr_get gs p_idx;
            let offset := s32 (plen - p_idx) in
            bm_loop fuel buf pat bc gs (s32 (s32 (b_idx + skip) + offset))
        end
      else Ok None
  end.

(** The index of the match. *)
Definition BM_search (buf pat bc gs : option (list Z)) : res (option Z) :=
  match buf, pat, bc, gs with
  | Some buf, Some pat, Some bc, Some gs =>
      if (Z.of_nat (length bc) <? 256) || (Z.of_nat (length gs) <? Z.of_nat (length pat)) then Ok None
      else match buf, pat with
           | [], _ | _, [] => Ok None
           | _, _ => bm_loop (S (length buf)) buf pat bc gs (s32 (Z.of_nat (length pat)))
           end
  | _, _, _, _ => Ok None
  end.
End Algo.
