(* ===== verification/AlgoProofs.v ===== *)
(** * Algorithms: selection, maximal sums, searches *)
From Stdlib Require Import String Sorting.Sorted.
From stdpp Require Import sorting.
From S2P Require Import Prelude CLib Algo.

Module AlgoProofs.
Import Algo.

(** ** gcd *)
Lemma gcd_while_ok fuel a b : 0 <= a -> 0 <= b -> (Z.to_nat b < fuel)%nat -> gcd_while fuel a b = Ok (Z.gcd a b).
Proof.
  revert a b. induction fuel as [|fuel IH]; intros a b Ha Hb Hf; [lia|]. cbn [gcd_while]. destruct (Z.ltb_spec 0 b) as [H|H].
  - pose proof (Z.mod_pos_bound a b H). rewrite IH by lia. rewrite (Z.gcd_comm b), Z.gcd_mod by lia. by rewrite Z.gcd_comm.
  - replace b with 0 by lia. rewrite Z.gcd_0_r. by rewrite Z.abs_eq.
Qed.

(** gcd returns, and returns the greatest common divisor. *)
Theorem gcd_correct a b : 0 <= a < 2 ^ 64 -> 0 <= b < 2 ^ 64 -> gcd a b = Ok (Z.gcd a b).
Proof. intros Ha Hb. apply gcd_while_ok; lia. Qed.

(** ** Selection *)
Section keys.
Context {A : Type} (key : A -> Z) (cmp : A -> A -> Z).
(** The callback orders objects by a key. *)
Hypothesis cmp_key : forall a b, Z.sgn (cmp a b) = Z.sgn (key a - key b).

Lemma cmp_lt a b : (cmp a b <? 0) = (key a <? key b).
Proof. pose proof (cmp_key a b). destruct (Z.ltb_spec (cmp a b) 0), (Z.ltb_spec (key a) (key b)); lia. Qed.
Lemma cmp_gt a b : (0 <? cmp a b) = (key b <? key a).
Proof. pose proof (cmp_key a b). destruct (Z.ltb_spec 0 (cmp a b)), (Z.ltb_spec (key b) (key a)); lia. Qed.

Definition below_key (v : Z) (l : list A) : nat := length (filter (fun x => key x < v) l).
Definition upto_key (v : Z) (l : list A) : nat := length (filter (fun x => key x <= v) l).

(** [r] is a k-th smallest object of [l]: fewer than k objects are smaller, and
    at least k are not larger. *)
Definition is_kth (l : list A) (k : nat) (r : A) : Prop := r ∈ l /\ (below_key (key r) l < k)%nat /\ (k <= upto_key (key r) l)%nat.

Definition ordered (l : list A) : Prop := StronglySorted (fun x y => key x <= key y) l.

Lemma below_app v a b : below_key v (a ++ b) = (below_key v a + below_key v b)%nat.
Proof. unfold below_key. by rewrite filter_app, length_app. Qed.
Lemma upto_app v a b : upto_key v (a ++ b) = (upto_key v a + upto_key v b)%nat.
Proof. unfold upto_key. by rewrite filter_app, length_app. Qed.
Lemma below_none v l : Forall (fun x => v <= key x) l -> below_key v l = 0%nat.
Proof. unfold below_key. induction 1 as [|x l Hx _ IH]; [done|]. rewrite filter_cons, decide_False by lia. done. Qed.
Lemma upto_all v l : Forall (fun x => key x <= v) l -> upto_key v l = length l.
Proof. unfold upto_key. induction 1 as [|x l Hx _ IH]; [done|]. rewrite filter_cons, decide_True by lia. simpl. by rewrite IH. Qed.
Lemma below_le v l : (below_key v l <= length l)%nat.
Proof. unfold below_key. apply length_filter. Qed.

Lemma ordered_snoc l r : ordered (l ++ [r]) -> Forall (fun x => key x <= key r) l.
Proof.
  unfold ordered. induction l as [|x l IH]; [constructor|]. intros H. apply StronglySorted_inv in H as [H Hx]. constructor; [|by apply IH].
  rewrite Forall_forall in Hx. apply Hx. set_solver.
Qed.

(** The last of the k smallest, in order, is the k-th. *)
Lemma last_is_kth a l r rest :
  l ++ [r] ++ rest ≡ₚ a -> ordered (l ++ [r]) -> Forall (fun z => key r <= key z) rest -> is_kth a (S (length l)) r.
Proof.
  intros Hp Ho Hr. split; [rewrite <- Hp; set_solver|]. apply ordered_snoc in Ho. unfold below_key, upto_key. rewrite <- Hp. fold (below_key (key r) (l ++ [r] ++ rest)) (upto_key (key r) (l ++ [r] ++ rest)).
  rewrite !below_app, !upto_app, (below_none _ rest Hr), (upto_all _ l Ho). pose proof (below_le (key r) l).
  assert (below_key (key r) [r] = 0%nat) as -> by (apply below_none; repeat constructor; lia).
  assert (upto_key (key r) [r] = 1%nat) as -> by (apply (upto_all (key r) [r]); repeat constructor; lia). lia.
Qed.

(** qsort permutes the array into order. *)
Context (qsort : list A -> list A).
Hypothesis qsort_perm : forall l, qsort l ≡ₚ l.
Hypothesis qsort_ordered : forall l, ordered (qsort l).

Lemma qsort_length l : length (qsort l) = length l.
Proof. by rewrite (qsort_perm l). Qed.

Lemma split_last {B} (l : list B) (k : nat) : length l = S k -> exists l' r, l = l' ++ [r] /\ length l' = k.
Proof. intros Hl. destruct l as [|x l _] using rev_ind; [done|]. rewrite length_app in Hl. simpl in Hl. exists l, x. split; [done|lia]. Qed.

Lemma get_last (l : list A) r (k : nat) : length l = k -> arr_get (l ++ [r]) (Z.of_nat (S k) - 1) = Ok r.
Proof. intros <-. apply arr_get_Ok. split; [lia|]. replace (Z.to_nat _) with (length l) by lia. by rewrite lookup_app_r, Nat.sub_diag by lia. Qed.

Lemma kth_loop_ok todo karray done a (k : nat) :
  length karray = S k -> ordered karray -> karray ++ done ++ todo ≡ₚ a -> (forall y z, y ∈ karray -> z ∈ done -> key y <= key z) ->
  exists karray' done', kth_loop cmp qsort karray (Z.of_nat (S k)) todo = Ok karray' /\ length karray' = S k /\ ordered karray' /\ karray' ++ done' ≡ₚ a /\
    (forall y z, y ∈ karray' -> z ∈ done' -> key y <= key z).
Proof.
  revert karray done. induction todo as [|x todo IH]; intros karray done Hl Ho Hp Hle; cbn [kth_loop].
  { exists karray, done. rewrite app_nil_r in Hp. done. }
  destruct (split_last karray k Hl) as (l & r & -> & Hlen). rewrite (get_last _ _ _ Hlen). cbn [bind]. rewrite cmp_lt.
  pose proof (ordered_snoc _ _ Ho) as Hr. rewrite Forall_forall in Hr. destruct (Z.ltb_spec (key x) (key r)) as [Hlt|Hge].
  - assert (Hset : arr_set (l ++ [r]) (Z.of_nat (S k) - 1) x = Ok (l ++ [x])).
    { apply arr_set_Ok. rewrite length_app. simpl. split; [lia|]. replace (Z.to_nat _) with (length l + 0)%nat by lia. by rewrite insert_app_r. }
    rewrite Hset. cbn [bind]. apply (IH (qsort (l ++ [x])) (r :: done)).
    + rewrite qsort_length, length_app. simpl. lia.
    + apply qsort_ordered.
    + rewrite (qsort_perm (l ++ [x])), <- Hp. solve_Permutation.
    + intros y z Hy Hz. rewrite (qsort_perm (l ++ [x])) in Hy. apply elem_of_app in Hy. apply elem_of_cons in Hz.
      assert (Hy' : key y <= key r) by (destruct Hy as [Hy|Hy%list_elem_of_singleton]; [by apply Hr|subst; lia]).
      destruct Hz as [->|Hz]; [done|]. specialize (Hle r z ltac:(set_solver) Hz). lia.
  - apply (IH (l ++ [r]) (done ++ [x])); [done|done| |].
    + rewrite <- Hp. solve_Permutation.
    + intros y z Hy [Hz|Hz%list_elem_of_singleton]%elem_of_app; [by apply Hle|]. subst z. apply elem_of_app in Hy as [Hy|Hy%list_elem_of_singleton]; [|subst; lia]. specialize (Hr y Hy). lia.
Qed.

(** Both routines find a k-th smallest object. *)
Lemma kth_array_ok a (k : nat) : (S k <= length a)%nat -> exists r, kth_array cmp qsort (Some a) (Z.of_nat (S k)) true = Ok (0, Some r) /\ is_kth a (S k) r.
Proof.
  intros Hk. unfold kth_array. rewrite (proj2 (Z.ltb_ge _ 0)) by lia. rewrite (proj2 (Z.ltb_ge _ (Z.of_nat (S k)))) by lia. cbn [orb negb]. rewrite !Nat2Z.id.
  destruct (kth_loop_ok (drop (S k) a) (qsort (take (S k) a)) [] a k) as (ka & rest & -> & Hl & Ho & Hp & Hle).
  { rewrite qsort_length, length_take. lia. } { apply qsort_ordered. } { rewrite (qsort_perm (take _ _)). simpl. by rewrite take_drop. } { by intros y z _ ?%elem_of_nil. }
  cbn [bind]. destruct (split_last ka k Hl) as (l & r & -> & Hlen). rewrite (get_last _ _ _ Hlen). cbn [bind]. exists r. split; [done|]. rewrite <- Hlen.
  apply (last_is_kth a l r rest); [by rewrite <- Hp, <- app_assoc|done|]. apply Forall_forall. intros z Hz. apply Hle; [set_solver|done].
Qed.

Lemma kth_sort_ok a (k : nat) : (S k <= length a)%nat -> exists r, kth_sort qsort (Some a) (Z.of_nat (S k)) true = Ok (0, Some r) /\ is_kth a (S k) r.
Proof.
  intros Hk. unfold kth_sort. rewrite (proj2 (Z.ltb_ge _ 0)) by lia. rewrite (proj2 (Z.ltb_ge _ (Z.of_nat (S k)))) by lia. cbn [orb negb].
  destruct (lookup_lt_is_Some_2 (qsort a) k) as [r Hr]; [rewrite qsort_length; lia|].
  replace (Z.of_nat (S k) - 1) with (Z.of_nat k) by lia. rewrite (arr_get_nat _ _ _ Hr). cbn [bind]. exists r. split; [done|].
  assert (Hlen : length (take k (qsort a)) = k) by (rewrite length_take, qsort_length; lia). rewrite <- Hlen at 1.
  pose proof (take_drop_middle _ _ _ Hr) as E. apply (last_is_kth a _ r (drop (S k) (qsort a))).
  - simpl. rewrite E. apply qsort_perm.
  - pose proof (qsort_ordered a) as Ho. rewrite <- E in Ho. change (r :: drop (S k) (qsort a)) with ([r] ++ drop (S k) (qsort a)) in Ho. rewrite app_assoc in Ho.
    clear -Ho. unfold ordered in *. induction (take k (qsort a) ++ [r]) as [|y l IH]; [constructor|]. apply StronglySorted_inv in Ho as [Ho Hy]. constructor; [by apply IH|]. by apply Forall_app in Hy as [? _].
  - pose proof (qsort_ordered a) as Ho. rewrite <- E in Ho. clear -Ho. unfold ordered in Ho. induction (take k (qsort a)) as [|y l IH]; simpl in Ho; apply StronglySorted_inv in Ho as [Ho Hy]; auto.
Qed.
End keys.

(** Selection.  For 1 <= k <= n, with a comparison that orders by a key and a
    qsort that permutes into order, kth_array (which keeps only k objects) and
    kth_sort (which sorts all) both return 0 with a k-th smallest object, so the two
    agree up to the key; for k = 0 both read the object before their array. *)
Theorem kth_selects {A} (key : A -> Z) (cmp : A -> A -> Z) (qsort : list A -> list A) a k :
  (forall x y, Z.sgn (cmp x y) = Z.sgn (key x - key y)) -> (forall l, qsort l ≡ₚ l) -> (forall l, ordered key (qsort l)) ->
  0 <= k <= Z.of_nat (length a) ->
  if k =? 0 then kth_array cmp qsort (Some a) k true = Fault OutOfBounds /\ kth_sort qsort (Some a) k true = Fault OutOfBounds
  else exists r r', kth_array cmp qsort (Some a) k true = Ok (0, Some r) /\ kth_sort qsort (Some a) k true = Ok (0, Some r') /\
         is_kth key a (Z.to_nat k) r /\ is_kth key a (Z.to_nat k) r'.
Proof.
  intros Hc Hp Ho Hk. destruct (Z.eqb_spec k 0) as [->|Hk0].
  - unfold kth_array, kth_sort. rewrite (proj2 (Z.ltb_ge (Z.of_nat (length a)) 0)) by lia. change (0 <? 0) with false. change (Z.to_nat 0) with 0%nat. cbn [orb negb].
    rewrite take_0, drop_0. split; [|reflexivity]. destruct a; reflexivity.
  - replace k with (Z.of_nat (S (Z.to_nat k - 1))) by lia. rewrite Nat2Z.id.
    destruct (kth_array_ok key cmp Hc qsort Hp Ho a (Z.to_nat k - 1)) as (r & -> & Hr); [lia|].
    destruct (kth_sort_ok key cmp Hc qsort Hp Ho a (Z.to_nat k - 1)) as (r' & -> & Hr'); [lia|]. by exists r, r'.
Qed.

Lemma kth_selects_witness :
  exists r r', kth_array Z.sub (merge_sort Z.le) (Some [5; 1; 4; 1; 3]) 3 true = Ok (0, Some r) /\ kth_sort (merge_sort Z.le) (Some [5; 1; 4; 1; 3]) 3 true = Ok (0, Some r') /\
    is_kth id [5; 1; 4; 1; 3] 3 r /\ is_kth id [5; 1; 4; 1; 3] 3 r'.
Proof.
  apply (kth_selects id Z.sub (merge_sort Z.le) [5; 1; 4; 1; 3] 3).
  - intros x y. reflexivity.
  - intros l. apply merge_sort_Permutation.
  - intros l. apply (StronglySorted_merge_sort Z.le).
  - vm_compute. split; discriminate.
Defined.

(** ** Maximal sums *)
Section sums.
Context {A : Type} (zero : A) (add : A -> A -> A) (cmp : A -> A -> Z) (val : A -> Z).
(** The callbacks add and compare values. *)
Hypothesis val_zero : val zero = 0.
Hypothesis val_add : forall a b, val (add a b) = val a + val b.
Hypothesis cmp_val : forall a b, Z.sgn (cmp a b) = Z.sgn (val a - val b).

Definition total (l : list A) : Z := fold_right (fun x n => val x + n) 0 l.
(** A non-empty run of consecutive objects. *)
Definition segment (l seg : list A) : Prop := seg <> [] /\ exists pre post, l = pre ++ seg ++ post.
Definition is_max_sum (l : list A) (r : A) : Prop := (exists seg, segment l seg /\ val r = total seg) /\ forall seg, segment l seg -> total seg <= val r.

Lemma seg_total_app a b : total (a ++ b) = total a + total b.
Proof. induction a as [|x a IH]; simpl; lia. Qed.
Lemma fold_add l s : val (fold_left add l s) = val s + total l.
Proof. revert s. induction l as [|x l IH]; intros s; simpl; [lia|]. rewrite IH, val_add. lia. Qed.
Lemma keep_max_val s r : val (keep_max cmp s r) = Z.max (val s) (val r).
Proof. unfold keep_max. pose proof (cmp_val s r). destruct (Z.ltb_spec 0 (cmp s r)); lia. Qed.

(** [r] is at least [lo] and the totals of all runs [P], and equal to one of them. *)
Definition best (lo : Z) (P : list A -> Prop) (r : A) : Prop :=
  (val r = lo \/ exists seg, P seg /\ val r = total seg) /\ lo <= val r /\ forall seg, P seg -> total seg <= val r.
Definition starts (l seg : list A) : Prop := seg <> [] /\ exists post, l = seg ++ post.

Lemma starts_cons x l seg : starts (x :: l) seg <-> seg = [x] \/ exists seg', seg = x :: seg' /\ starts l seg'.
Proof.
  split.
  - intros [Hn [post E]]. destruct seg as [|y seg]; [done|]. injection E as -> ->. destruct seg as [|z seg]; [by left|]. right. exists (z :: seg). split; [done|]. split; [done|]. by exists post.
  - intros [->|(seg' & -> & [Hn [post ->]])]; (split; [done|]); [by exists l|by exists post].
Qed.

(** The inner loop of the quadratic version: the runs that start at i. *)
Lemma n2_inner_best l sum ret : best (val ret) (fun seg => exists t, starts l t /\ total seg = val sum + total t) (n2_inner add cmp l sum ret).
Proof.
  revert sum ret. induction l as [|x l IH]; intros sum ret; cbn [n2_inner].
  { split; [by left|]. split; [lia|]. intros seg (t & [Ht [post E]] & _). by destruct t. }
  set (sum' := add sum x). specialize (IH sum' (keep_max cmp sum' ret)). pose proof (keep_max_val sum' ret) as Hk.
  destruct IH as (Heq & Hlo & Hall). assert (Hs : val sum' = val sum + val x) by apply val_add. split_and!.
  - assert (Hx : exists seg, (exists t, starts (x :: l) t /\ total seg = val sum + total t) /\ val sum' = total seg).
    { exists (x :: [sum]). split; [|simpl; lia]. exists [x]. split; [apply starts_cons; by left|]. simpl. lia. }
    destruct Heq as [->|(seg & (t & Ht & E1) & E2)].
    + rewrite Hk. destruct (Z.max_spec (val sum') (val ret)) as [[_ ->]|[_ ->]]; [by left|right]. destruct Hx as (seg & Hseg & E). by exists seg.
    + right. exists seg. split; [|done]. exists (x :: t). split; [apply starts_cons; right; by exists t|]. simpl. lia.
  - lia.
  - intros seg (t & [->|(t' & -> & Ht')]%starts_cons & E).
    + simpl in E. lia.
    + apply Hall. exists t'. split; [done|]. simpl in E. lia.
Qed.

Lemma n3_inner_best rest seg ret : best (val ret) (fun s => exists t, starts rest t /\ total s = total seg + total t) (n3_inner zero add cmp seg rest ret).
Proof.
  revert seg ret. induction rest as [|x rest IH]; intros seg ret; cbn [n3_inner].
  { split; [by left|]. split; [lia|]. intros s (t & [Ht [post E]] & _). by destruct t. }
  set (sum := fold_left add (seg ++ [x]) zero). specialize (IH (seg ++ [x]) (keep_max cmp sum ret)). pose proof (keep_max_val sum ret) as Hk.
  assert (Hs : val sum = total seg + val x) by (unfold sum; rewrite fold_add, seg_total_app; simpl; lia). rewrite seg_total_app in IH. simpl in IH.
  destruct IH as (Heq & Hlo & Hall). split_and!.
  - destruct Heq as [->|(s & (t & Ht & E1) & E2)].
    + rewrite Hk. destruct (Z.max_spec (val sum) (val ret)) as [[_ ->]|[_ ->]]; [by left|right]. exists (seg ++ [x]). rewrite seg_total_app. simpl. split; [|lia]. exists [x]. split; [apply starts_cons; by left|]. simpl. lia.
    + right. exists s. split; [|done]. exists (x :: t). split; [apply starts_cons; right; by exists t|]. simpl. lia.
  - lia.
  - intros s (t & [->|(t' & -> & Ht')]%starts_cons & E).
    + simpl in E. lia.
    + apply Hall. exists t'. split; [done|]. simpl in E. lia.
Qed.

Lemma segment_cons x l seg : segment (x :: l) seg <-> starts (x :: l) seg \/ segment l seg.
Proof.
  split.
  - intros [Hn (pre & post & E)]. destruct pre as [|y pre]; [left|right]; (split; [done|]); [by exists post|]. injection E as _ E. by exists pre, post.
  - intros [[Hn [post E]]|[Hn (pre & post & ->)]]; (split; [done|]); [by exists [], post|by exists (x :: pre), post].
Qed.

(** One start position after the other. *)
Lemma best_cons x l ret (r : A) (f : A -> A) :
  best (val ret) (fun seg => exists t, starts (x :: l) t /\ total seg = 0 + total t) r ->
  best (val r) (segment l) (f r) -> best (val ret) (segment (x :: l)) (f r).
Proof.
  intros (Heq & Hlo & Hall) (Heq' & Hlo' & Hall'). split_and!.
  - destruct Heq' as [->|(seg & Hs & E)]; [|right; exists seg; split; [apply segment_cons; by right|done]].
    destruct Heq as [->|(seg & (t & Ht & E1) & E2)]; [by left|right]. exists t. split; [apply segment_cons; by left|lia].
  - lia.
  - intros seg [Hs|Hs]%segment_cons; [|by apply Hall']. specialize (Hall seg). assert (total seg <= val r) by (apply Hall; by exists seg). lia.
Qed.
Lemma best_nil ret : best (val ret) (segment []) ret.
Proof. split; [by left|]. split; [lia|]. intros seg [Hn (pre & post & E)]. by destruct pre, seg. Qed.

Lemma n2_outer_best l ret : best (val ret) (segment l) (n2_outer zero add cmp l ret).
Proof.
  revert ret. induction l as [|x l IH]; intros ret; cbn [n2_outer]; [apply best_nil|].
  apply (best_cons x l ret _ (n2_outer zero add cmp l)); [|apply IH]. rewrite <- val_zero. apply n2_inner_best.
Qed.
Lemma n3_outer_best l ret : best (val ret) (segment l) (n3_outer zero add cmp l ret).
Proof.
  revert ret. induction l as [|x l IH]; intros ret; cbn [n3_outer]; [apply best_nil|].
  apply (best_cons x l ret _ (n3_outer zero add cmp l)); [|apply IH]. apply (n3_inner_best (x :: l) [] ret).
Qed.

Lemma best_max x l r : best (val x) (segment (x :: l)) r -> is_max_sum (x :: l) r.
Proof.
  intros (Heq & _ & Hall). split; [|done]. destruct Heq as [->|Heq]; [|done]. exists [x]. split; [|simpl; lia]. apply segment_cons. left. split; [done|by exists l].
Qed.
End sums.

(** The quadratic version computes the maximal sum: for every non-empty array,
    with callbacks that add and compare by value, maxsubseqsum_n2 stores the largest
    sum of a non-empty run of consecutive objects.  The cubic version stores a
    maximal sum too when the array has at most objsize objects; with more objects its
    first memset, which clears nobjs bytes of a buffer of objsize bytes, writes
    behind the buffer. *)
Theorem maxsubseqsum_max {A} (zero : A) add cmp (val : A -> Z) a objsize ret :
  val zero = 0 -> (forall x y, val (add x y) = val x + val y) -> (forall x y, Z.sgn (cmp x y) = Z.sgn (val x - val y)) ->
  a <> [] -> 1 <= objsize ->
  (exists r, maxsubseqsum_n2 zero add cmp (Some a) objsize ret true = Ok (0, r) /\ is_max_sum val a r) /\
  (if objsize <? Z.of_nat (length a) then maxsubseqsum_n3 zero add cmp (Some a) objsize ret true = Fault OutOfBounds
   else exists r, maxsubseqsum_n3 zero add cmp (Some a) objsize ret true = Ok (0, r) /\ is_max_sum val a r).
Proof.
  intros Hz Ha Hc Hne Ho. destruct a as [|x a]; [done|]. unfold maxsubseqsum_n2, maxsubseqsum_n3. rewrite (proj2 (Z.ltb_ge objsize 1)) by lia. cbn [negb].
  split; [eexists; split; [done|]; apply (best_max val); by apply n2_outer_best|]. destruct (objsize <? Z.of_nat (length (x :: a))); [done|].
  eexists. split; [done|]. apply (best_max val). by apply n3_outer_best.
Qed.

Lemma maxsubseqsum_max_witness :
  (exists r, maxsubseqsum_n2 0 Z.add Z.sub (Some [-2; 3; -1; 4]) 8 0 true = Ok (0, r) /\ is_max_sum id [-2; 3; -1; 4] r) /\
  (exists r, maxsubseqsum_n3 0 Z.add Z.sub (Some [-2; 3; -1; 4]) 8 0 true = Ok (0, r) /\ is_max_sum id [-2; 3; -1; 4] r).
Proof.
  apply (maxsubseqsum_max 0 Z.add Z.sub id [-2; 3; -1; 4] 8 0); [reflexivity|intros x y; reflexivity|intros x y; reflexivity|discriminate|vm_compute; discriminate].
Defined.

(** The divide-and-conquer version takes the last border sum on the left instead
    of the largest: it misses 3 + 4 + 1. *)
Example maxsubseqsum_div_misses : maxsubseqsum_div 0 Z.add Z.sub (Some [-5; 3; 4; 1]) 8 0 = Ok (0, 5) /\ maxsubseqsum_n2 0 Z.add Z.sub (Some [-5; 3; 4; 1]) 8 0 true = Ok (0, 8).
Proof. split; vm_compute; reflexivity. Qed.

(** ** Binary search *)
Section bins.
Context {A : Type} (key : A -> Z) (cmp : A -> A -> Z).
Hypothesis cmp_key : forall a b, Z.sgn (cmp a b) = Z.sgn (key a - key b).

Lemma mid_range low high : 0 <= low < high -> high < 2 ^ 30 -> low <= Z.quot (s32 (high + low)) 2 < high.
Proof. intros Hl Hh. rewrite s32_small by lia. rewrite Z.quot_div_nonneg by lia. pose proof (Z.div_mod (high + low) 2). pose proof (Z.mod_pos_bound (high + low) 2). lia. Qed.

Lemma bin_loop_ok fuel a v low high :
  0 <= low -> high < Z.of_nat (length a) -> Z.of_nat (length a) <= 2 ^ 30 -> (Z.to_nat (high - low + 1) < fuel)%nat ->
  exists r, bin_loop cmp fuel a v low high = Ok r /\ forall i, r = Some i -> exists x, 0 <= i /\ a !! Z.to_nat i = Some x /\ key x = key v.
Proof.
  revert low high. induction fuel as [|fuel IH]; intros low high Hl Hh Hn Hf; [lia|]. cbn [bin_loop]. destruct (Z.ltb_spec low high) as [Hlt|Hge]; [|by exists None].
  pose proof (mid_range low high ltac:(lia) ltac:(lia)) as Hm. set (mid := Z.quot (s32 (high + low)) 2) in *.
  destruct (lookup_lt_is_Some_2 a (Z.to_nat mid)) as [x Hx]; [lia|]. assert (Hg : arr_get a mid = Ok x) by (apply arr_get_Ok; split; [lia|done]). rewrite Hg. cbn [bind].
  rewrite (cmp_lt key cmp cmp_key), (cmp_gt key cmp cmp_key). destruct (Z.ltb_spec (key v) (key x)); [apply IH; lia|]. destruct (Z.ltb_spec (key x) (key v)); [apply IH; lia|].
  exists (Some mid). split; [done|]. intros i [= <-]. exists x. split_and!; [lia|done|lia].
Qed.

(** The last object is compared with every object before it, never with itself. *)
Lemma bin_loop_last fuel a v low :
  0 <= low -> Z.of_nat (length a) <= 2 ^ 30 -> (Z.to_nat (Z.of_nat (length a) - low) < fuel)%nat ->
  (forall i x, Z.of_nat i < Z.of_nat (length a) - 1 -> a !! i = Some x -> key x < key v) ->
  bin_loop cmp fuel a v low (Z.of_nat (length a) - 1) = Ok None.
Proof.
  revert low. induction fuel as [|fuel IH]; intros low Hl Hn Hf Hv; [lia|]. cbn [bin_loop]. destruct (Z.ltb_spec low (Z.of_nat (length a) - 1)) as [Hlt|Hge]; [|done].
  pose proof (mid_range low (Z.of_nat (length a) - 1) ltac:(lia) ltac:(lia)) as Hm. set (mid := Z.quot (s32 _) 2) in *.
  destruct (lookup_lt_is_Some_2 a (Z.to_nat mid)) as [x Hx]; [lia|]. assert (Hg : arr_get a mid = Ok x) by (apply arr_get_Ok; split; [lia|done]). rewrite Hg. cbn [bind].
  rewrite (cmp_lt key cmp cmp_key), (cmp_gt key cmp cmp_key). specialize (Hv (Z.to_nat mid) x ltac:(lia) Hx) as Hlt'.
  rewrite (proj2 (Z.ltb_ge (key v) (key x))) by lia. rewrite (proj2 (Z.ltb_lt (key x) (key v))) by lia. apply IH; (lia || done).
Qed.
End bins.

(** Binary search is sound but not complete: on an array of at most 2^30 objects
    bin_search returns, reads only objects of the array, and what it returns compares
    equal to the value; in a strictly ascending array, however, the last object is
    never found, since the loop stops when one candidate is left. *)
Theorem bin_search_misses_last {A} (key : A -> Z) (cmp : A -> A -> Z) a objsize v :
  (forall x y, Z.sgn (cmp x y) = Z.sgn (key x - key y)) -> 1 <= objsize -> (0 < length a)%nat -> Z.of_nat (length a) <= 2 ^ 30 ->
  (exists r, bin_search cmp (Some a) objsize (Z.of_nat (length a)) (Some v) = Ok r /\
     forall i, r = Some i -> exists x, 0 <= i /\ a !! Z.to_nat i = Some x /\ key x = key v) /\
  (StronglySorted (fun x y => key x < key y) a -> last a = Some v ->
     bin_search cmp (Some a) objsize (Z.of_nat (length a)) (Some v) = Ok None).
Proof.
  intros Hc Ho Hn Hb. unfold bin_search. rewrite (proj2 (Z.ltb_ge objsize 1)), (proj2 (Z.ltb_ge (Z.of_nat (length a)) 1)) by lia. cbn [orb]. rewrite s32_small by lia. split.
  - apply (bin_loop_ok key cmp Hc); lia.
  - intros Hs Hl. apply (bin_loop_last key cmp Hc); [lia..|]. intros i x Hi Hx. apply last_Some in Hl as [l ->]. rewrite length_app in Hi. simpl in Hi. rewrite lookup_app_l in Hx by lia.
    clear -Hs Hx. revert i Hx. induction l as [|y l IH]; intros i Hx; [done|]. simpl in Hs. apply StronglySorted_inv in Hs as [Hs Hy]. destruct i as [|i]; [|by eapply IH].
    injection Hx as ->. rewrite Forall_forall in Hy. apply Hy. set_solver.
Qed.

Lemma bin_search_misses_last_witness :
  bin_search Z.sub (Some [1; 3; 7]) 4 3 (Some 7) = Ok None /\ exists r, bin_search Z.sub (Some [1; 3; 7]) 4 3 (Some 3) = Ok r /\ forall i, r = Some i -> exists x, 0 <= i /\ [1; 3; 7] !! Z.to_nat i = Some x /\ id x = id 3.
Proof.
  split.
  - apply (bin_search_misses_last id Z.sub [1; 3; 7] 4 7); [intros x y; reflexivity|lia|simpl; lia|vm_compute; discriminate|repeat constructor; unfold id; lia|reflexivity].
  - apply (bin_search_misses_last id Z.sub [1; 3; 7] 4 3); [intros x y; reflexivity|lia|simpl; lia|vm_compute; discriminate].
Defined.

(** ** Boyer-Moore search *)
Definition occurs_at (buf pat : list Z) (i : Z) : Prop := 0 <= i /\ take (length pat) (drop (Z.to_nat i) buf) = pat.
(** Every skip is at least one. *)
Definition skips (plen : Z) (bc : list Z) : Prop := (256 <= length bc)%nat /\ forall c, 0 <= c < 256 -> exists n, bc !! Z.to_nat c = Some n /\ 1 <= n <= plen.

Lemma bc_loop_ok pat plen i bc :
  0 <= i -> 1 <= plen -> i + Z.of_nat (length pat) <= plen -> plen < 2 ^ 31 -> Forall (fun c => 0 <= c < 128) pat -> skips plen bc -> exists bc', bc_loop pat plen i bc = Ok bc' /\ skips plen bc'.
Proof.
  revert i bc. induction pat as [|c pat IH]; intros i bc Hi H1 Hip Hpl Hp Hs; cbn [bc_loop]; [eauto|]. apply Forall_cons in Hp as [Hc Hp]. cbn [length] in Hip.
  rewrite !u64_small by lia. rewrite (s32_small (i + 1)) by lia. rewrite (s32_small (plen - (i + 1))) by lia. destruct (Z.ltb_spec i (plen - 1)) as [Hlt|]; [|eauto].
  assert (Hu : u32 (schar c) = c) by (unfold schar; rewrite (proj2 (Z.ltb_lt c 128)) by lia; apply u32_small; lia). rewrite Hu. destruct Hs as [Hl Hs].
  assert (Hset : arr_set bc c (plen - (i + 1)) = Ok (<[Z.to_nat c := plen - (i + 1)]> bc)) by (apply arr_set_Ok; split; [lia|done]). rewrite Hset. cbn [bind].
  apply IH; [lia|lia|lia|lia|done|]. split; [by rewrite length_insert|]. intros d Hd. destruct (decide (d = c)) as [->|Hne].
  - exists (plen - (i + 1)). rewrite list_lookup_insert_eq by lia. split; [done|lia].
  - rewrite list_lookup_insert_ne by lia. by apply Hs.
Qed.

Lemma BM_get_bc_ok pat bc :
  pat <> [] -> Z.of_nat (length pat) < 2 ^ 31 -> Forall (fun c => 0 <= c < 128) pat -> (256 <= length bc)%nat -> exists bc', BM_get_bc (Some pat) (Some bc) = Ok (0, bc') /\ skips (Z.of_nat (length pat)) bc'.
Proof.
  intros Hne Hpl Hp Hl. unfold BM_get_bc. rewrite s32_small by lia. rewrite (proj2 (Z.ltb_ge (Z.of_nat (length bc)) 256)) by lia.
  destruct (bc_loop_ok pat (Z.of_nat (length pat)) 0 (replicate 256 (Z.of_nat (length pat)) ++ drop 256 bc)) as (bc' & E & Hs); [done|destruct pat; [done|simpl; lia]|lia|lia|done| |].
  { split; [rewrite length_app, length_replicate, length_drop; lia|]. intros c Hc. exists (Z.of_nat (length pat)). rewrite lookup_app_l by (rewrite length_replicate; lia).
    split; [apply lookup_replicate_2; lia|]. destruct pat; [done|]. simpl. lia. }
  destruct pat; [done|]. rewrite E. cbn [bind]. eauto.
Qed.

Lemma bm_match_ok fuel buf pat (p off : nat) :
  (1 <= p <= length pat)%nat -> (off + length pat <= length buf)%nat -> Z.of_nat (length buf) < 2 ^ 31 -> (p < fuel)%nat -> (forall j, (p <= j < length pat)%nat -> buf !! (off + j)%nat = pat !! j) ->
  (bm_match fuel buf pat (Z.of_nat (off + p)) (Z.of_nat p) = Ok (Some (Some (Z.of_nat off)), Z.of_nat off, 0) /\ forall j, (j < length pat)%nat -> buf !! (off + j)%nat = pat !! j) \/
  (exists q, (q < length pat)%nat /\ buf !! (off + q)%nat <> pat !! q /\ bm_match fuel buf pat (Z.of_nat (off + p)) (Z.of_nat p) = Ok (None, Z.of_nat (off + q), Z.of_nat q)).
Proof.
  revert p. induction fuel as [|fuel IH]; intros p Hp Hb Hbl Hf Hm; [lia|]. cbn [bm_match].
  destruct p as [|p]; [lia|]. rewrite !s32_small by lia. replace (Z.of_nat (off + S p) - 1) with (Z.of_nat (off + p)) by lia. replace (Z.of_nat (S p) - 1) with (Z.of_nat p) by lia.
  destruct (lookup_lt_is_Some_2 buf (off + p)) as [b Hbx]; [lia|]. destruct (lookup_lt_is_Some_2 pat p) as [c Hc]; [lia|].
  rewrite (arr_get_nat _ _ _ Hbx), (arr_get_nat _ _ _ Hc). cbn [bind]. destruct (Z.eqb_spec b c) as [->|Hne]; [|right; exists p; split_and!; [lia|congruence|done]].
  rewrite (proj2 (Z.ltb_ge (Z.of_nat (off + p)) 0)) by lia.
  assert (Hm' : forall j, (p <= j < length pat)%nat -> buf !! (off + j)%nat = pat !! j) by (intros j Hj; destruct (decide (j = p)) as [->|]; [congruence|apply Hm; lia]).
  destruct (Z.eqb_spec (Z.of_nat p) 0) as [E|E].
  - left. replace p with 0%nat in * by lia. rewrite Nat.add_0_r. split; [done|]. intros j Hj. apply Hm'. lia.
  - destruct (IH p ltac:(lia) Hb Hbl ltac:(lia) Hm') as [H|H]; [by left|by right].
Qed.

Lemma bm_loop_ok fuel buf pat bc gs (off : nat) :
  pat <> [] -> Forall (fun c => 0 <= c < 256) buf -> skips (Z.of_nat (length pat)) bc -> (length pat <= length gs)%nat ->
  Z.of_nat (length buf) + Z.of_nat (length pat) < 2 ^ 31 -> (off <= length buf)%nat -> (length buf - off < fuel)%nat ->
  exists r, bm_loop fuel buf pat bc gs (Z.of_nat (off + length pat)) = Ok r /\ (forall i, r = Some i -> occurs_at buf pat i) /\
    (occurs_at buf pat (Z.of_nat off) -> r = Some (Z.of_nat off)).
Proof.
  intros Hne Hbuf Hs Hg Hlen. revert off. induction fuel as [|fuel IH]; intros off Ho Hf; [lia|]. assert (Hpl : (1 <= length pat)%nat) by (destruct pat; [done|simpl; lia]). cbn [bm_loop].
  rewrite u64_small by lia. rewrite (s32_small (Z.of_nat (length pat))) by lia.
  destruct (Z.leb_spec (Z.of_nat (off + length pat)) (Z.of_nat (length buf))) as [Hle|Hgt].
  2: { exists None. split_and!; [done|done|]. intros [_ E]. apply (f_equal length) in E. rewrite length_take, length_drop in E. lia. }
  destruct (bm_match_ok (S (length pat)) buf pat (length pat) off) as [[-> Hall]|(q & Hq & Hdiff & ->)]; [lia|lia|lia|lia|intros j Hj; exfalso; lia| |].
  - cbn [bind]. eexists. split_and!; [done| |done]. intros i [= <-]. split; [lia|]. rewrite Nat2Z.id. apply list_eq. intros j. destruct (decide (j < length pat)%nat) as [Hj|Hj].
    + rewrite lookup_take_lt, lookup_drop by lia. by apply Hall.
    + rewrite lookup_take_ge by lia. by rewrite lookup_ge_None_2 by lia.
  - cbn [bind]. destruct (lookup_lt_is_Some_2 buf (off + q)) as [c Hc]; [lia|]. rewrite (arr_get_nat _ _ _ Hc). cbn [bind].
    pose proof (Forall_lookup_1 _ _ _ _ Hbuf Hc) as Hcr. cbv beta in Hcr. destruct Hs as [Hl Hs]. destruct (Hs c Hcr) as (n & Hn & Hr).
    assert (Hu : u8 c = c) by (apply Z.mod_small; lia). rewrite Hu. assert (Hget : arr_get bc c = Ok n) by (apply arr_get_Ok; split; [lia|done]). rewrite Hget. cbn [bind].
    destruct (lookup_lt_is_Some_2 gs q) as [g Hgq]; [lia|]. rewrite (arr_get_nat _ _ _ Hgq). cbn [bind].
    rewrite (s32_small (_ + n)), (s32_small (_ - Z.of_nat q)), s32_small by lia.
    replace (Z.of_nat (off + q) + n + (Z.of_nat (length pat) - Z.of_nat q)) with (Z.of_nat ((off + Z.to_nat n) + length pat)) by lia.
    destruct (IH (off + Z.to_nat n)%nat ltac:(lia) ltac:(lia)) as (r & Er & Hr1 & _). exists r. split_and!; [done|done|].
    intros [_ E]. exfalso. apply Hdiff. rewrite Nat2Z.id in E. by rewrite <- E, lookup_take_lt, lookup_drop by lia.
Qed.

(** C32: for every non-empty pattern of ASCII characters (bytes below 128) and
    every text such that both lengths together stay below 2^31, the search with a
    table made by BM_get_bc returns, reads only inside the text, the pattern and the
    tables, and a result is an occurrence of the pattern; an occurrence at the start
    of the text is found. *)
Theorem BM_search_sound buf pat bc bc' gs :
  pat <> [] -> Forall (fun c => 0 <= c < 128) pat -> Forall (fun c => 0 <= c < 256) buf -> (length pat <= length gs)%nat ->
  Z.of_nat (length buf) + Z.of_nat (length pat) < 2 ^ 31 ->
  BM_get_bc (Some pat) (Some bc) = Ok (0, bc') ->
  exists r, BM_search (Some buf) (Some pat) (Some bc') (Some gs) = Ok r /\ (forall i, r = Some i -> occurs_at buf pat i) /\
    (occurs_at buf pat 0 -> r = Some 0).
Proof.
  intros Hne Hp Hb Hg Hlen Hbc. assert (Hl : (256 <= length bc)%nat).
  { unfold BM_get_bc in Hbc. destruct (Z.ltb_spec (Z.of_nat (length bc)) 256); [done|lia]. }
  destruct (BM_get_bc_ok pat bc Hne ltac:(lia) Hp Hl) as (bc1 & E & Hs). rewrite Hbc in E. injection E as <-. unfold BM_search.
  rewrite (proj2 (Z.ltb_ge (Z.of_nat (length bc')) 256)), (proj2 (Z.ltb_ge (Z.of_nat (length gs)) (Z.of_nat (length pat)))) by (destruct Hs; lia). cbn [orb].
  destruct pat as [|c pat]; [done|]. destruct buf as [|b buf]; [exists None; split_and!; [done|done|by intros [_ E]]|].
  rewrite s32_small by lia. apply (bm_loop_ok _ (b :: buf) (c :: pat) bc' gs 0); [done|done|done|done|lia|lia|lia].
Qed.

Definition cbb_table : list Z := match BM_get_bc (Some (str "cbb")) (Some (replicate 256 0)) with Ok (_, t) => t | Fault _ => [] end.
(** The occurrence of cbb at 3 is found. *)
Lemma BM_search_sound_witness :
  BM_search (Some (str "xyzcbbx")) (Some (str "cbb")) (Some cbb_table) (Some [1; 1; 1]) = Ok (Some 3) /\ occurs_at (str "xyzcbbx") (str "cbb") 3.
Proof.
  destruct (BM_search_sound (str "xyzcbbx") (str "cbb") (replicate 256 0) cbb_table [1; 1; 1]) as (r & E & Hr & _);
    [discriminate|apply (bool_decide_unpack _); vm_compute; exact I|apply (bool_decide_unpack _); vm_compute; exact I|vm_compute; repeat constructor|vm_compute; reflexivity|vm_compute; reflexivity|].
  assert (F : BM_search (Some (str "xyzcbbx")) (Some (str "cbb")) (Some cbb_table) (Some [1; 1; 1]) = Ok (Some 3)) by (vm_compute; reflexivity).
  rewrite F in E. injection E as <-. split; [exact F|apply Hr; reflexivity].
Defined.

(** The search is not complete: the skip of the character at the mismatch counts
    from the end of the window, and an occurrence is jumped over. *)
Example BM_search_misses : BM_search (Some (str "xcbb")) (Some (str "cbb")) (Some cbb_table) (Some [1; 1; 1]) = Ok None.
Proof. vm_compute. reflexivity. Qed.
(** A pattern character above 127 is a negative index. *)
Example BM_get_bc_high_char : BM_get_bc (Some [200; 65]) (Some (replicate 256 0)) = Fault OutOfBounds.
Proof. vm_compute. reflexivity. Qed.
End AlgoProofs.
