(* ===== verification/MemPool.v ===== *)
(** * mempool: memory that is released all at once

    Model of src/code/basic/datastruct/mempool.h.  An address is a block of malloc and
    an offset into it; malloc aligns its blocks, so that aligning an address aligns
    the offset.  The memory of a block is a list of bytes, None being a byte that was
    never written.  last and tail always point into the same block, [mp_cur].  The
    fields at the start of a block (the mempool_t, or the list pointer of a node) are
    kept in [mempool_t], and [w_hdr] is how many bytes of the block they take: an
    access through a pointer of the client to one of these bytes is a fault. *)
From S2P Require Import Prelude.

Module MemPool.

Definition sizeof_mempool_t : Z := 32.
Definition sizeof_mempool_node_t : Z := 8.

Record world : Type := { w_al : allocator; w_mem : gmap positive (list (option Z)); w_hdr : gmap positive Z }.
Definition hdr_of (w : world) (b : positive) : Z := default 0 (w_hdr w !! b).
Record mempool_t : Type := { mp_self : positive; mp_max : Z; mp_cur : positive; mp_last : Z; mp_tail : Z; mp_nodes : list positive }.
Definition addr : Type := (positive * Z).

(** malloc of [n] bytes, the first [h] of which get the fields of the pool. *)
Definition get_block (w : world) (n h : Z) : world * option positive :=
  match malloc (w_al w) with
  | (None, a) => ({| w_al := a; w_mem := w_mem w; w_hdr := w_hdr w |}, None)
  | (Some b, a) => ({| w_al := a; w_mem := <[b := replicate (Z.to_nat n) None]> (w_mem w); w_hdr := <[b := h]> (w_hdr w) |}, Some b)
  end.
Definition free_block (w : world) (b : positive) : res world :=
  do a <- mfree (w_al w) b; Ok {| w_al := a; w_mem := delete b (w_mem w); w_hdr := delete b (w_hdr w) |}.

(** Reading and writing bytes. *)
Definition bytes_at (w : world) (p : addr) (n : Z) : res (list (option Z)) :=
  do l <- deref (w_mem w !! p.1);
  if (p.2 <? hdr_of w p.1) || (n <? 0) || (Z.of_nat (length l) <? p.2 + n) then Fault OutOfBounds
  else Ok (take (Z.to_nat n) (drop (Z.to_nat p.2) l)).
Definition put_bytes (w : world) (p : addr) (bs : list (option Z)) : res world :=
  do l <- deref (w_mem w !! p.1);
  if (p.2 <? hdr_of w p.1) || (Z.of_nat (length l) <? p.2 + Z.of_nat (length bs)) then Fault OutOfBounds
  else Ok {| w_al := w_al w; w_mem := <[p.1 := take (Z.to_nat p.2) l ++ bs ++ drop (Z.to_nat p.2 + length bs) l]> (w_mem w); w_hdr := w_hdr w |}.

(** The new node is not cleared. *)
Definition mp_alloc_node (w : world) (pool : mempool_t) (n : Z) : world * mempool_t * option addr :=
  let max := if mp_max pool <? n then n else mp_max pool in
  let newsize := u64 (align_num (max + sizeof_mempool_node_t)) in
  match get_block w newsize sizeof_mempool_node_t with
  | (w, None) => (w, pool, None)
  | (w, Some b) =>
      let ptr := align_num sizeof_mempool_node_t in
      (w, {| mp_self := mp_self pool; mp_max := u32 max; mp_cur := b; mp_last := ptr + n; mp_tail := newsize; mp_nodes := b :: mp_nodes pool |}, Some (b, ptr))
  end.

Definition mp_malloc (w : world) (pool : mempool_t) (size : Z) (zero : bool) : res (world * mempool_t * option addr) :=
  if size <? 1 then Ok (w, pool, None) else
  let ptr := align_num (mp_last pool) in
  if (size <? mp_max pool) && (size <? u64 (mp_tail pool - ptr)) then
    let pool := {| mp_self := mp_self pool; mp_max := mp_max pool; mp_cur := mp_cur pool; mp_last := ptr + size; mp_tail := mp_tail pool; mp_nodes := mp_nodes pool |} in
    do w <- (if zero then put_bytes w (mp_cur pool, ptr) (replicate (Z.to_nat size) (Some 0)) else Ok w);
    Ok (w, pool, Some (mp_cur pool, ptr))
  else Ok (mp_alloc_node w pool size).

Definition mempool_create (w : world) (size : Z) : world * option mempool_t :=
  if size <? 1 then (w, None) else
  let newsize := u64 (align_num (size + sizeof_mempool_t)) in
  match get_block w newsize sizeof_mempool_t with
  | (w, None) => (w, None)
  | (w, Some b) => (w, Some {| mp_self := b; mp_max := u32 size; mp_cur := b; mp_last := sizeof_mempool_t; mp_tail := newsize; mp_nodes := [] |})
  end.

Fixpoint free_nodes (w : world) (l : list positive) : res world :=
  match l with [] => Ok w | b :: l => do w <- free_block w b; free_nodes w l end.
Definition mempool_destroy (w : world) (pool : option mempool_t) : res world :=
  match pool with None => Ok w | Some pool => do w <- free_nodes w (mp_nodes pool); free_block w (mp_self pool) end.

Definition mempool_alloc (w : world) (pool : mempool_t) (size : Z) : res (world * mempool_t * option addr) := mp_malloc w pool size false.
Definition mempool_calloc (w : world) (pool : mempool_t) (size : Z) : res (world * mempool_t * option addr) := mp_malloc w pool size true.

Definition mempool_realloc (w : world) (pool : mempool_t) (ptr : option addr) (oldsize newsize : Z) : res (world * mempool_t * option addr) :=
  match ptr with
  | None => Ok (w, pool, None)
  | Some ptr =>
      if (oldsize <? 1) || (newsize <? 1) then Ok (w, pool, None) else
      let copysize := if oldsize <? newsize then oldsize else newsize in
      do (w, pool, newptr) <- mp_malloc w pool newsize false;
      match newptr with
      | None => Ok (w, pool, None)
      | Some newptr =>
          do bs <- bytes_at w ptr copysize;
          do w <- put_bytes w newptr bs;
          do w <- (if copysize <? newsize then put_bytes w (newptr.1, newptr.2 + copysize) (replicate (Z.to_nat (newsize - copysize)) (Some 0)) else Ok w);
          Ok (w, pool, Some newptr)
      end
  end.
End MemPool.
