(* ===== verification/MemPoolProofs.v ===== *)
(** * mempool: the objects of a pool are separate *)
From S2P Require Import Prelude MemPool ObjPoolProofs.

Module MemPoolProofs.
Import MemPool.

(** ** Bytes *)
Definition byte_at (w : world) (b : positive) (j : nat) : option (option Z) := w_mem w !! b ≫= fun l => l !! j.
Definition size_of (w : world) (b : positive) : nat := match w_mem w !! b with Some l => length l | None => 0%nat end.

(** A region handed out: block, offset, size. *)
Record region : Type := { r_blk : positive; r_off : Z; r_size : Z }.
Definition content (w : world) (r : region) : list (option Z) :=
  take (Z.to_nat (r_size r)) (drop (Z.to_nat (r_off r)) (match w_mem w !! r_blk r with Some l => l | None => [] end)).

Lemma content_lookup w r i : content w r !! i = if decide (i < Z.to_nat (r_size r))%nat then byte_at w (r_blk r) (Z.to_nat (r_off r) + i) else None.
Proof.
  unfold content, byte_at. case_decide; [rewrite lookup_take_lt by done|apply lookup_take_ge; lia]. rewrite lookup_drop.
  destruct (w_mem w !! r_blk r); [done|]. apply lookup_nil.
Qed.

Lemma content_length w r : 0 <= r_off r -> 0 <= r_size r -> r_off r + r_size r <= Z.of_nat (size_of w (r_blk r)) -> length (content w r) = Z.to_nat (r_size r).
Proof. unfold content, size_of. intros ???. rewrite length_take, length_drop. destruct (w_mem w !! r_blk r); simpl in *; lia. Qed.

(** Two worlds agree on a region. *)
Lemma content_ext w w' r : (forall j, (Z.to_nat (r_off r) <= j < Z.to_nat (r_off r) + Z.to_nat (r_size r))%nat -> byte_at w' (r_blk r) j = byte_at w (r_blk r) j) -> content w' r = content w r.
Proof. intros Hj. apply list_eq. intros i. rewrite !content_lookup. case_decide; [|done]. apply Hj. lia. Qed.

Lemma put_bytes_ok w b o bs :
  0 <= o -> hdr_of w b <= o -> o + Z.of_nat (length bs) <= Z.of_nat (size_of w b) -> is_Some (w_mem w !! b) ->
  exists w', put_bytes w (b, o) bs = Ok w' /\ w_al w' = w_al w /\ w_hdr w' = w_hdr w /\ (forall c, size_of w' c = size_of w c) /\ (forall c, is_Some (w_mem w' !! c) <-> is_Some (w_mem w !! c)) /\
    forall c j, byte_at w' c j = if decide (c = b /\ (Z.to_nat o <= j < Z.to_nat o + length bs)%nat) then bs !! (j - Z.to_nat o)%nat else byte_at w c j.
Proof.
  intros Ho Hh Hs [l Hl]. unfold put_bytes, size_of in *. cbn [fst snd]. rewrite Hl in *. cbn [deref bind].
  rewrite (proj2 (Z.ltb_ge o (hdr_of w b))), (proj2 (Z.ltb_ge (Z.of_nat (length l)) _)) by lia. cbn [orb]. eexists. split; [reflexivity|]. cbn [w_al w_mem w_hdr].
  split_and!; [done|done| | |].
  - intros c. destruct (decide (c = b)) as [->|]; [rewrite lookup_insert_eq, Hl|by rewrite lookup_insert_ne]. rewrite !length_app, length_take, length_drop. lia.
  - intros c. destruct (decide (c = b)) as [->|]; [rewrite lookup_insert_eq, Hl; split; intros _; by eexists|by rewrite lookup_insert_ne].
  - intros c j. unfold byte_at. cbn [w_mem]. destruct (decide (c = b)) as [->|Hne].
    2: { rewrite lookup_insert_ne by done. rewrite decide_False by naive_solver. done. }
    rewrite lookup_insert_eq, Hl. cbn [mbind option_bind]. case_decide as Hd.
    + destruct Hd as [_ Hd]. rewrite lookup_app_r by (rewrite length_take; lia). rewrite length_take. rewrite lookup_app_l by lia. f_equal. lia.
    + destruct (decide (j < Z.to_nat o)%nat) as [Hlt|Hge]; [rewrite lookup_app_l by (rewrite length_take; lia); by rewrite lookup_take_lt|].
      rewrite lookup_app_r by (rewrite length_take; lia). rewrite length_take. rewrite lookup_app_r by lia. rewrite lookup_drop. f_equal. lia.
Qed.

Lemma bytes_at_ok w r : 0 <= r_off r -> hdr_of w (r_blk r) <= r_off r -> 0 <= r_size r -> r_off r + r_size r <= Z.of_nat (size_of w (r_blk r)) -> is_Some (w_mem w !! r_blk r) ->
  forall n, 0 <= n <= r_size r -> bytes_at w (r_blk r, r_off r) n = Ok (take (Z.to_nat n) (content w r)).
Proof.
  unfold bytes_at, content, size_of. intros Ho Hh Hs Hb [l Hl] n Hn. cbn [fst snd]. rewrite Hl in *. cbn [deref bind].
  rewrite (proj2 (Z.ltb_ge (r_off r) _)), (proj2 (Z.ltb_ge n 0)), (proj2 (Z.ltb_ge (Z.of_nat (length l)) _)) by lia. cbn [orb]. f_equal. rewrite take_take. f_equal. lia.
Qed.

(** ** The invariant *)

(** The bytes of a block that are not the client's. *)
Definition hdr_size (p : mempool_t) (b : positive) : Z := if decide (b = mp_self p) then sizeof_mempool_t else sizeof_mempool_node_t.
Lemma hdr_size_range p b : 8 <= hdr_size p b <= 32.
Proof. unfold hdr_size, sizeof_mempool_t, sizeof_mempool_node_t. case_decide; lia. Qed.
Definition blocks (p : mempool_t) : list positive := mp_self p :: mp_nodes p.
Definition apart (r r' : region) : Prop := r_blk r <> r_blk r' \/ r_off r + r_size r <= r_off r' \/ r_off r' + r_size r' <= r_off r.

Record reg_ok (w : world) (p : mempool_t) (r : region) : Prop := {
  rg_blk : r_blk r ∈ blocks p;
  rg_off : 0 <= r_off r; rg_hdr : hdr_of w (r_blk r) <= r_off r; rg_align : r_off r mod 8 = 0; rg_size : 1 <= r_size r;
  rg_in : r_off r + r_size r <= Z.of_nat (size_of w (r_blk r));
  rg_last : r_blk r = mp_cur p -> r_off r + r_size r <= mp_last p }.

Record inv (w : world) (p : mempool_t) (rs : list region) : Prop := {
  iv_wf : al_wf (w_al w);
  iv_live b : b ∈ blocks p -> b ∈ al_live (w_al w) /\ is_Some (w_mem w !! b);
  iv_nodup : NoDup (blocks p);
  iv_cur : mp_cur p ∈ blocks p;
  iv_tail : Z.of_nat (size_of w (mp_cur p)) = mp_tail p /\ mp_tail p mod 8 = 0 /\ mp_tail p < 2 ^ 63;
  iv_hdr b : b ∈ blocks p -> hdr_of w b = hdr_size p b;
  iv_last : hdr_size p (mp_cur p) <= mp_last p <= mp_tail p;
  iv_max : 0 <= mp_max p < 2 ^ 31;
  iv_regs : Forall (reg_ok w p) rs;
  iv_apart i j r r' : i <> j -> rs !! i = Some r -> rs !! j = Some r' -> apart r r' }.

Lemma apart_sym r r' : apart r r' -> apart r' r.
Proof. unfold apart. naive_solver. Qed.

(** One more region. *)
Lemma apart_snoc rs r :
  (forall i j a b, i <> j -> rs !! i = Some a -> rs !! j = Some b -> apart a b) -> Forall (fun a => apart a r) rs ->
  forall i j a b, i <> j -> (rs ++ [r]) !! i = Some a -> (rs ++ [r]) !! j = Some b -> apart a b.
Proof.
  intros Ha Hr i j a b Hij Hi Hj. rewrite Forall_lookup in Hr.
  apply lookup_snoc_Some in Hi as [[Hi1 Hi]|[Hi1 <-]], Hj as [[Hj1 Hj]|[Hj1 <-]]; [by eapply (Ha i j)|by eapply Hr|apply apart_sym; by eapply Hr|lia].
Qed.

(** The worlds agree on what was handed out. *)
Definition keeps (w w' : world) (rs : list region) : Prop := Forall (fun r => content w' r = content w r) rs.

Lemma get_block_ok w n h :
  al_wf (w_al w) ->
  match get_block w n h with
  | (w', None) => w_hdr w' = w_hdr w /\ (malloc (w_al w)).1 = None /\ w_mem w' = w_mem w /\ al_wf (w_al w') /\ al_live (w_al w') = al_live (w_al w)
  | (w', Some b) => w_hdr w' = <[b := h]> (w_hdr w) /\ is_Some (malloc (w_al w)).1 /\ w_mem w' = <[b := replicate (Z.to_nat n) None]> (w_mem w) /\ al_wf (w_al w') /\ al_live (w_al w') = {[b]} ∪ al_live (w_al w) /\ b ∉ al_live (w_al w)
  end.
Proof.
  intros Hw. unfold get_block. destruct (malloc (w_al w)) as [[b|] a] eqn:E; cbn [w_mem w_al w_hdr fst]; pose proof (malloc_wf _ _ _ Hw E).
  - apply malloc_Some in E as (-> & _ & _ & Hl). split_and!; [done|by eexists|done|done|done|]. intros Hin%Hw. lia.
  - apply malloc_None in E as (_ & _ & Hl). done.
Qed.

Lemma align_le x t : x <= t -> t mod 8 = 0 -> x <= align_num x <= t /\ align_num x mod 8 = 0.
Proof.
  intros Hx Ht. destruct (align_num_spec x) as [Ha Hm]. split; [|done]. split; [lia|].
  pose proof (Z.div_mod t 8). pose proof (Z.div_mod (align_num x) 8). lia.
Qed.
(** Regions of a pool whose current block or last position moved on. *)
Lemma reg_ok_mono w p w' p' r :
  reg_ok w p r -> (forall b, b ∈ blocks p -> b ∈ blocks p' /\ size_of w' b = size_of w b /\ hdr_of w' b = hdr_of w b) ->
  (r_blk r = mp_cur p' -> mp_cur p' = mp_cur p /\ mp_last p <= mp_last p') -> reg_ok w' p' r.
Proof.
  intros [Hb Ho Hh Ha Hs Hi Hl] Hsub Hc. destruct (Hsub _ Hb) as (Hb' & Hz & Hz'). constructor; [done|done|by rewrite Hz'|done|done|by rewrite Hz|].
  intros E. destruct (Hc E) as [Ec Hlast]. assert (r_blk r = mp_cur p) by congruence. specialize (Hl H). lia.
Qed.

(** A block of its own. *)
Lemma alloc_node_ok w p rs n :
  inv w p rs -> 1 <= n < 2 ^ 31 ->
  match mp_alloc_node w p n with
  | (w', p', None) => (malloc (w_al w)).1 = None /\ inv w' p' rs /\ w_mem w' = w_mem w
  | (w', p', Some (b, o)) => is_Some (malloc (w_al w)).1 /\ inv w' p' (rs ++ [ {| r_blk := b; r_off := o; r_size := n |} ]) /\ keeps w w' rs
  end /\ mp_self (mp_alloc_node w p n).1.2 = mp_self p.
Proof.
  intros I Hn. unfold mp_alloc_node. set (max := if mp_max p <? n then n else mp_max p). pose proof (iv_max _ _ _ I) as Hm.
  assert (Hmax : n <= max < 2 ^ 31 /\ 0 <= max) by (subst max; destruct (Z.ltb_spec (mp_max p) n); lia). destruct (align_num_spec (max + sizeof_mempool_node_t)) as [Hal Hal8].
  unfold sizeof_mempool_node_t in *. assert (Hu : u64 (align_num (max + 8)) = align_num (max + 8)) by (apply Z.mod_small; lia). rewrite Hu.
  assert (Hmu : u32 max = max) by (apply Z.mod_small; lia). rewrite Hmu. change (align_num 8) with 8.
  pose proof (get_block_ok w (align_num (max + 8)) 8 (iv_wf _ _ _ I)) as Hg. destruct (get_block w (align_num (max + 8)) 8) as [w' [b|]].
  - destruct Hg as (Hhdr & Hsome & Hmem & Hwf & Hlive & Hnew). split; [|done]. split; [done|]. assert (Hfresh : b ∉ blocks p) by (intros Hb; apply (iv_live _ _ _ I) in Hb as [? _]; done).
    set (p' := {| mp_self := mp_self p; mp_cur := b |}).
    assert (Hbl : forall c, c ∈ blocks p' <-> c = b \/ c ∈ blocks p) by (intros c; unfold blocks; cbn [mp_self mp_nodes p']; rewrite !elem_of_cons; tauto).
    assert (Hother : forall c, c ∈ blocks p -> w_mem w' !! c = w_mem w !! c) by (intros c Hc; rewrite Hmem, lookup_insert_ne; [done|intros ->; done]).
    assert (Hsz : forall c, c ∈ blocks p -> size_of w' c = size_of w c) by (intros c Hc; unfold size_of; by rewrite Hother).
    assert (Hsb : size_of w' b = Z.to_nat (align_num (max + 8))) by (unfold size_of; rewrite Hmem, lookup_insert_eq; apply length_replicate).
    assert (Hself : b <> mp_self p) by (intros ->; apply Hfresh; left).
    assert (Hhd : forall c, c ∈ blocks p -> hdr_of w' c = hdr_of w c) by (intros c Hc; unfold hdr_of; rewrite Hhdr, lookup_insert_ne; [done|intros ->; done]).
    assert (Hhb : hdr_of w' b = 8) by (unfold hdr_of; by rewrite Hhdr, lookup_insert_eq).
    assert (Hregs : Forall (reg_ok w' p') rs).
    { eapply Forall_impl; [apply (iv_regs _ _ _ I)|]. intros r Hr. eapply reg_ok_mono; [exact Hr| |].
      - intros c Hc. split_and!; [apply Hbl; by right|by apply Hsz|by apply Hhd].
      - intros E. destruct Hfresh. cbn [mp_cur p'] in E. rewrite <- E. apply (rg_blk _ _ _ Hr). }
    split.
    + constructor; cbn [mp_cur mp_last mp_tail mp_max p']; [done| | | | | | | | |].
      * intros c [->|Hc]%Hbl; [rewrite Hmem, lookup_insert_eq; split; [set_solver|by eexists]|]. destruct (iv_live _ _ _ I c Hc). rewrite Hother by done. split; [set_solver|done].
      * pose proof (iv_nodup _ _ _ I) as Hnd. unfold blocks in *. cbn [mp_self mp_nodes p']. apply NoDup_cons in Hnd as [H1 H2]. apply NoDup_cons. split; [set_solver|]. apply NoDup_cons. split; [set_solver|done].
      * apply Hbl. by left.
      * rewrite Hsb. split_and!; lia.
      * intros c [->|Hc]%Hbl; [rewrite Hhb; unfold hdr_size; cbn [mp_self p']; by rewrite decide_False|]. rewrite (Hhd c Hc). by apply (iv_hdr _ _ _ I).
      * unfold hdr_size. cbn [mp_self p']. rewrite decide_False by done. unfold sizeof_mempool_node_t. lia.
      * lia.
      * apply Forall_app. split; [done|]. apply Forall_singleton. constructor; cbn [r_blk r_off r_size mp_cur mp_last p']; [apply Hbl; by left|lia|rewrite Hhb; lia|done|lia|rewrite Hsb; lia|lia].
      * apply apart_snoc; [apply (iv_apart _ _ _ I)|]. eapply Forall_impl; [apply (iv_regs _ _ _ I)|]. intros r Hr. left. cbn [r_blk]. intros E. destruct Hfresh. rewrite <- E. apply (rg_blk _ _ _ Hr).
    + eapply Forall_impl; [apply (iv_regs _ _ _ I)|]. intros r Hr. cbv beta. unfold content. by rewrite Hother by apply (rg_blk _ _ _ Hr).
  - destruct Hg as (Hhdr & Hnone & Hmem & Hwf & Hlive). split; [|done]. split; [done|]. split; [|done].
    assert (Hhd : forall c, hdr_of w' c = hdr_of w c) by (intros c; unfold hdr_of; by rewrite Hhdr).
    assert (Hsz : forall c, size_of w' c = size_of w c) by (intros c; unfold size_of; by rewrite Hmem).
    constructor; [done| | | | | | | | |].
    * intros c Hc. rewrite Hlive, Hmem. by apply (iv_live _ _ _ I).
    * apply I.
    * apply I.
    * rewrite Hsz. apply I.
    * intros c Hc. rewrite Hhd. by apply (iv_hdr _ _ _ I).
    * apply I.
    * apply I.
    * eapply Forall_impl; [apply (iv_regs _ _ _ I)|]. intros r Hr. eapply reg_ok_mono; [exact Hr|by intros c Hc|done].
    * apply (iv_apart _ _ _ I).
Qed.

(** Writing inside one region. *)
Lemma put_region w p rs k r o bs :
  inv w p rs -> rs !! k = Some r -> r_off r <= o -> o + Z.of_nat (length bs) <= r_off r + r_size r ->
  exists w', put_bytes w (r_blk r, o) bs = Ok w' /\ inv w' p rs /\
    (forall k' r', k' <> k -> rs !! k' = Some r' -> content w' r' = content w r') /\
    (forall i, content w' r !! i = if decide (Z.to_nat (o - r_off r) <= i < Z.to_nat (o - r_off r) + length bs)%nat then bs !! (i - Z.to_nat (o - r_off r))%nat else content w r !! i).
Proof.
  intros I Hk Ho Hs. pose proof (Forall_lookup_1 _ _ _ _ (iv_regs _ _ _ I) Hk) as [Hb Hoff Hhd Hal Hsz Hin _]. destruct (iv_live _ _ _ I _ Hb) as [_ Hmem].
  destruct (put_bytes_ok w (r_blk r) o bs) as (w' & E & Ea & Eh & Hsize & Hdom & Hbyte); [lia|lia|lia|done|].
  assert (Hhd' : forall c, hdr_of w' c = hdr_of w c) by (intros c; unfold hdr_of; by rewrite Eh). exists w'. split; [done|].
  split; [|split].
  - constructor; [rewrite Ea; apply I| |apply I|apply I| | |apply I|apply I| |apply (iv_apart _ _ _ I)].
    + intros b Hb'. rewrite Ea, Hdom. by apply (iv_live _ _ _ I).
    + rewrite Hsize. apply I.
    + intros b Hb'. rewrite Hhd'. by apply (iv_hdr _ _ _ I).
    + eapply Forall_impl; [apply (iv_regs _ _ _ I)|]. intros r0 Hr0. eapply reg_ok_mono; [exact Hr0|intros c Hc; by rewrite Hsize, Hhd'|done].
  - intros k' r' Hne Hk'. apply content_ext. intros j Hj. rewrite Hbyte. case_decide as Hd; [|done]. exfalso. destruct Hd as [E1 Hd].
    pose proof (Forall_lookup_1 _ _ _ _ (iv_regs _ _ _ I) Hk') as [_ Hoff' _ _ Hsz' _ _]. destruct (iv_apart _ _ _ I _ _ _ _ Hne Hk' Hk) as [?|[?|?]]; [done|lia|lia].
  - intros i. rewrite !content_lookup, Hbyte. destruct (decide (i < Z.to_nat (r_size r))%nat).
    + destruct (decide (Z.to_nat (o - r_off r) <= i < Z.to_nat (o - r_off r) + length bs)%nat).
      * rewrite decide_True by (split; [done|lia]). f_equal. lia.
      * rewrite decide_False; [done|]. intros [_ ?]. lia.
    + rewrite decide_False; [done|lia].
Qed.

Definition rg (x : addr) (n : Z) : region := {| r_blk := x.1; r_off := x.2; r_size := n |}.

(** A piece of the current block. *)
Lemma take_piece_ok w p rs n :
  inv w p rs -> 1 <= n -> n < mp_tail p - align_num (mp_last p) ->
  inv w {| mp_self := mp_self p; mp_max := mp_max p; mp_cur := mp_cur p; mp_last := align_num (mp_last p) + n; mp_tail := mp_tail p; mp_nodes := mp_nodes p |}
    (rs ++ [rg (mp_cur p, align_num (mp_last p)) n]).
Proof.
  intros I Hn Hroom. pose proof (iv_last _ _ _ I) as Hl. pose proof (hdr_size_range p (mp_cur p)) as Hhr. destruct (iv_tail _ _ _ I) as (Ht & Ht8 & Ht63). destruct (align_le _ _ (proj2 Hl) Ht8) as [Hp Hp8].
  constructor; cbn [mp_self mp_max mp_cur mp_last mp_tail mp_nodes]; [apply I..|change (hdr_size _ (mp_cur p)) with (hdr_size p (mp_cur p)); lia|apply I| |].
  - apply Forall_app. split.
    + eapply Forall_impl; [apply (iv_regs _ _ _ I)|]. intros r Hr. eapply reg_ok_mono; [exact Hr|by intros c Hc|cbn [mp_cur mp_last]; lia].
    + apply Forall_singleton. constructor; cbn [rg r_blk r_off r_size mp_cur mp_last fst snd]; [apply (iv_cur _ _ _ I)|lia|rewrite (iv_hdr _ _ _ I _ (iv_cur _ _ _ I)); lia|done|lia|rewrite Ht; lia|lia].
  - apply apart_snoc; [apply (iv_apart _ _ _ I)|]. eapply Forall_impl; [apply (iv_regs _ _ _ I)|]. intros r Hr. unfold apart. cbn [rg r_blk r_off r_size fst snd].
    destruct (decide (r_blk r = mp_cur p)) as [E|E]; [right; left; pose proof (rg_last _ _ _ Hr E); lia|by left].
Qed.

Lemma lookup_last {A} (l : list A) x : (l ++ [x]) !! length l = Some x.
Proof. by rewrite lookup_app_r, Nat.sub_diag. Qed.

(** Where an allocation finds its memory: in the current block, when both
    tests of _mp_malloc pass, else in a new node, else nowhere. *)
Inductive place : Type := Piece | Node | Null.
Definition place_of (w : world) (p : mempool_t) (n : Z) : place :=
  if (n <? mp_max p) && (n <? u64 (mp_tail p - align_num (mp_last p))) then Piece
  else match (malloc (w_al w)).1 with Some _ => Node | None => Null end.

(** Every allocation: the objects there were keep their bytes; a cleared object comes
    from the current block. *)
Lemma mp_malloc_ok w p rs n zero :
  inv w p rs -> 1 <= n < 2 ^ 31 ->
  exists w' p' x, mp_malloc w p n zero = Ok (w', p', x) /\ mp_self p' = mp_self p /\ keeps w w' rs /\
    match x with
    | None => inv w' p' rs /\ place_of w p n = Null
    | Some x => inv w' p' (rs ++ [rg x n]) /\ place_of w p n <> Null /\
        (zero = true -> place_of w p n = Piece -> content w' (rg x n) = replicate (Z.to_nat n) (Some 0))
    end.
Proof.
  intros I Hn. unfold mp_malloc, place_of. rewrite (proj2 (Z.ltb_ge n 1)) by lia. pose proof (iv_last _ _ _ I) as Hl. pose proof (hdr_size_range p (mp_cur p)) as Hhr. destruct (iv_tail _ _ _ I) as (Ht & Ht8 & Ht63).
  destruct (align_le _ _ (proj2 Hl) Ht8) as [Hp Hp8]. assert (Hu : u64 (mp_tail p - align_num (mp_last p)) = mp_tail p - align_num (mp_last p)) by (apply Z.mod_small; lia). rewrite Hu.
  destruct ((n <? mp_max p) && (n <? mp_tail p - align_num (mp_last p))) eqn:Ef.
  - apply andb_true_iff in Ef as [_ Ef%Z.ltb_lt]. pose proof (take_piece_ok w p rs n I ltac:(lia) Ef) as I'. set (p' := {| mp_self := mp_self p; mp_cur := mp_cur p |}) in *.
    destruct zero; cbn [bind].
    + destruct (put_region w p' _ (length rs) _ (align_num (mp_last p)) (replicate (Z.to_nat n) (Some 0)) I' (lookup_last _ _)) as (w' & E & I2 & Hk & Hc);
        [cbn [rg r_off snd]; lia|rewrite length_replicate; cbn [rg r_off r_size snd]; lia|]. cbn [rg r_blk fst] in E. cbn [mp_cur p']. rewrite E. cbn [bind].
      exists w', p', (Some (mp_cur p, align_num (mp_last p))). split_and!; [done|done| |done|done|].
      * apply Forall_lookup. intros i r Hi. apply (Hk i); [apply lookup_lt_Some in Hi; lia|by apply lookup_app_l_Some].
      * intros _ _. apply list_eq. intros i. rewrite Hc. cbn [rg r_off snd]. rewrite Z.sub_diag, length_replicate. change (Z.to_nat 0) with 0%nat. rewrite Nat.sub_0_r. case_decide; [done|].
        rewrite content_lookup. cbn [rg r_size]. rewrite decide_False by lia. symmetry. apply lookup_ge_None. rewrite length_replicate. lia.
    + exists w, p', (Some (mp_cur p, align_num (mp_last p))). split_and!; [done|done|by apply Forall_true|done|done|done].
  - destruct (alloc_node_ok w p rs n I Hn) as [Ha Hself]. destruct (mp_alloc_node w p n) as [[w' p'] [[b o]|]] eqn:E; cbn [fst snd] in Hself.
    + exists w', p', (Some (b, o)). destruct Ha as ([b' Hb'] & I' & Hk). rewrite Hb'. by split_and!.
    + exists w', p', None. destruct Ha as (Hb' & I' & Hm). rewrite Hb'. split_and!; [done|done| |done|done]. apply Forall_true. intros r. unfold content. by rewrite Hm.
Qed.

Lemma realloc_ok w p rs k r n :
  inv w p rs -> rs !! k = Some r -> 1 <= n < 2 ^ 31 ->
  exists w' p' x, mempool_realloc w p (Some (r_blk r, r_off r)) (r_size r) n = Ok (w', p', x) /\ keeps w w' rs /\
    match x with
    | None => inv w' p' rs /\ place_of w p n = Null
    | Some x => inv w' p' (rs ++ [rg x n]) /\ place_of w p n <> Null /\ content w' (rg x n) = take (Z.to_nat n) (content w r) ++ replicate (Z.to_nat n - length (content w r)) (Some 0)
    end.
Proof.
  intros I Hk Hn. pose proof (Forall_lookup_1 _ _ _ _ (iv_regs _ _ _ I) Hk) as [Hb Hoff Hhd Hal Hsz Hin _]. unfold mempool_realloc.
  rewrite (proj2 (Z.ltb_ge (r_size r) 1)), (proj2 (Z.ltb_ge n 1)) by lia. cbn [orb]. set (c := if r_size r <? n then r_size r else n).
  assert (Hc : 1 <= c <= n /\ c <= r_size r /\ (c < n -> c = r_size r)) by (subst c; destruct (Z.ltb_spec (r_size r) n); lia).
  destruct (mp_malloc_ok w p rs n false I Hn) as (w1 & p1 & [x|] & -> & _ & Hkeep & Hx); cbn [bind]; [|by exists w1, p1, None]. destruct Hx as (I1 & Hpl & _).
  assert (Ek : content w1 r = content w r) by (exact (Forall_lookup_1 _ _ _ _ Hkeep Hk)).
  pose proof (Forall_lookup_1 _ _ _ _ (iv_regs _ _ _ I1) (lookup_app_l_Some _ _ _ _ Hk)) as [Hb1 _ Hhd1 _ _ Hin1 _]. destruct (iv_live _ _ _ I1 _ Hb1) as [_ Hm1].
  rewrite (bytes_at_ok w1 r ltac:(done) Hhd1 ltac:(lia) Hin1 Hm1 c ltac:(lia)), Ek. cbn [bind].
  assert (Lr : length (content w r) = Z.to_nat (r_size r)) by (apply content_length; [done|lia|done]).
  assert (Lt : length (take (Z.to_nat c) (content w r)) = Z.to_nat c) by (rewrite length_take; lia).
  destruct (put_region w1 p1 _ (length rs) (rg x n) x.2 (take (Z.to_nat c) (content w r)) I1 (lookup_last _ _)) as (w2 & E2 & I2 & Hk2 & Hc2); [done|rewrite Lt; cbn [rg r_off r_size]; lia|].
  destruct x as [xb xo]. cbn [rg r_blk r_off r_size fst snd] in *. rewrite E2. cbn [bind].
  assert (Hkeep2 : keeps w w2 rs). { apply Forall_lookup. intros i r' Hi. rewrite (Hk2 i r'); [exact (Forall_lookup_1 _ _ _ _ Hkeep Hi)|apply lookup_lt_Some in Hi; lia|by apply lookup_app_l_Some]. }
  rewrite Z.sub_diag in Hc2. change (Z.to_nat 0) with 0%nat in Hc2.
  destruct (Z.ltb_spec c n) as [Hlt|Hge].
  - destruct (put_region w2 p1 _ (length rs) (rg (xb, xo) n) (xo + c) (replicate (Z.to_nat (n - c)) (Some 0)) I2 (lookup_last _ _)) as (w3 & E3 & I3 & Hk3 & Hc3); [cbn [rg r_off snd]; lia|rewrite length_replicate; cbn [rg r_off r_size snd]; lia|].
    cbn [rg r_blk r_off r_size fst snd] in *. rewrite E3. cbn [bind]. exists w3, p1, (Some (xb, xo)). split_and!; [done| |done|done|].
    + apply Forall_lookup. intros i r' Hi. rewrite (Hk3 i r'); [exact (Forall_lookup_1 _ _ _ _ Hkeep2 Hi)|apply lookup_lt_Some in Hi; lia|by apply lookup_app_l_Some].
    + assert (c = r_size r) as Ec by lia. apply list_eq. intros i. rewrite Hc3, length_replicate. replace (Z.to_nat (xo + c - xo)) with (Z.to_nat c) by lia.
      rewrite (take_ge (content w r)) by lia. rewrite Lr. case_decide as Hd.
      * rewrite lookup_app_r by lia. rewrite Lr, Ec. do 2 f_equal. lia.
      * rewrite Hc2, Lt, Nat.add_0_l, Nat.sub_0_r, (take_ge (content w r)) by lia. case_decide as Hd2.
        -- by rewrite lookup_app_l by lia.
        -- rewrite content_lookup. cbn [rg r_size]. rewrite decide_False by lia. symmetry. apply lookup_ge_None. rewrite length_app, length_replicate. lia.
  - assert (c = n) as Ec by lia. exists w2, p1, (Some (xb, xo)). cbn [bind]. split_and!; [done|done|done|done|]. replace (Z.to_nat n - length (content w r))%nat with 0%nat by lia. rewrite app_nil_r.
    apply list_eq. intros i. rewrite Hc2, Lt, Nat.add_0_l, Nat.sub_0_r, Ec. case_decide; [done|]. rewrite content_lookup. cbn [rg r_size]. rewrite decide_False by lia. symmetry. apply lookup_ge_None. rewrite length_take. lia.
Qed.

(** ** Clients *)
Inductive mop : Type := MAlloc (n : Z) | MCalloc (n : Z) | MRealloc (k : nat) (n : Z) | MStore (k : nat) (i : nat) (v : Z).
Definition mop_ok (o : mop) : Prop := match o with MAlloc n | MCalloc n | MRealloc _ n => 1 <= n < 2 ^ 31 | MStore _ _ _ => True end.

Definition state : Type := (world * mempool_t * list region).
Definition new_region (rs : list region) (n : Z) (x : option addr) : list region := match x with None => rs | Some x => rs ++ [rg x n] end.
(** The client numbers the objects it got; it stores only inside an object. *)
Definition run_mop (s : state) (o : mop) : res state :=
  let '(w, p, rs) := s in
  match o with
  | MAlloc n => do (w, p, x) <- mempool_alloc w p n; Ok (w, p, new_region rs n x)
  | MCalloc n => do (w, p, x) <- mempool_calloc w p n; Ok (w, p, new_region rs n x)
  | MRealloc k n =>
      match rs !! k with
      | None => Ok s
      | Some r => do (w, p, x) <- mempool_realloc w p (Some (r_blk r, r_off r)) (r_size r) n; Ok (w, p, new_region rs n x)
      end
  | MStore k i v =>
      match rs !! k with
      | None => Ok s
      | Some r => if Z.of_nat i <? r_size r then do w <- put_bytes w (r_blk r, r_off r + Z.of_nat i) [Some v]; Ok (w, p, rs) else Ok s
      end
  end.
Fixpoint run_mops (s : state) (l : list mop) : res state := match l with [] => Ok s | o :: l => do s <- run_mop s o; run_mops s l end.

(** Where each allocation of a run finds its memory. *)
Definition mop_place (s : state) (o : mop) : place :=
  match o with MAlloc n | MCalloc n | MRealloc _ n => place_of s.1.1 s.1.2 n | MStore _ _ _ => Null end.
Fixpoint places (s : state) (l : list mop) : list place :=
  match l with [] => [] | o :: l => mop_place s o :: match run_mop s o with Ok s => places s l | Fault _ => [] end end.

(** Separate objects: an allocation adds one, with nothing known of its bytes except
    that mempool_calloc clears a piece of the current block; it fails exactly when
    there is no memory. *)
Inductive mstep (pl : place) (objs : list (list (option Z))) : mop -> list (list (option Z)) -> Prop :=
  | ms_alloc n o : pl <> Null -> length o = Z.to_nat n -> mstep pl objs (MAlloc n) (objs ++ [o])
  | ms_calloc n o : pl <> Null -> length o = Z.to_nat n -> (pl = Piece -> o = replicate (Z.to_nat n) (Some 0)) -> mstep pl objs (MCalloc n) (objs ++ [o])
  | ms_realloc k n o : pl <> Null -> objs !! k = Some o -> mstep pl objs (MRealloc k n) (objs ++ [take (Z.to_nat n) o ++ replicate (Z.to_nat n - length o) (Some 0)])
  | ms_store k i v o : objs !! k = Some o -> (i < length o)%nat -> mstep pl objs (MStore k i v) (<[k := <[i := Some v]> o]> objs)
  | ms_null o : pl = Null -> (forall k i v, o <> MStore k i v) -> mstep pl objs o objs
  | ms_no_object k n : objs !! k = None -> mstep pl objs (MRealloc k n) objs
  | ms_no_store k i v : (forall o, objs !! k = Some o -> (length o <= i)%nat) -> mstep pl objs (MStore k i v) objs.
Inductive msteps (objs : list (list (option Z))) : list mop -> list place -> list (list (option Z)) -> Prop :=
  | msteps_nil : msteps objs [] [] objs
  | msteps_cons o l pl pls objs1 objs2 : mstep pl objs o objs1 -> msteps objs1 l pls objs2 -> msteps objs (o :: l) (pl :: pls) objs2.

Lemma keeps_contents w w' rs : keeps w w' rs -> content w' <$> rs = content w <$> rs.
Proof. intros Hk. apply list_eq. intros i. rewrite !list_lookup_fmap. destruct (rs !! i) as [r|] eqn:E; [|done]. cbn [fmap option_fmap option_map]. f_equal. exact (Forall_lookup_1 _ _ _ _ Hk E). Qed.

Lemma reg_length w p rs k r : inv w p rs -> rs !! k = Some r -> length (content w r) = Z.to_nat (r_size r).
Proof. intros I Hk. pose proof (Forall_lookup_1 _ _ _ _ (iv_regs _ _ _ I) Hk) as [_ ? _ _ ? ? _]. apply content_length; [done|lia|done]. Qed.

Lemma run_mop_ok w p rs o :
  inv w p rs -> mop_ok o -> exists w' p' rs', run_mop (w, p, rs) o = Ok (w', p', rs') /\ inv w' p' rs' /\ mstep (mop_place (w, p, rs) o) (content w <$> rs) o (content w' <$> rs').
Proof.
  intros I Ho. destruct o as [n|n|k n|k i v]; cbn [run_mop mop_ok mop_place fst snd] in *.
  - destruct (mp_malloc_ok w p rs n false I Ho) as (w' & p' & [x|] & E & _ & Hk & Hx); unfold mempool_alloc; rewrite E; cbn [bind new_region].
    + destruct Hx as (I' & Hpl & _). eexists _, _, _. split; [reflexivity|]. split; [done|]. rewrite fmap_app, (keeps_contents _ _ _ Hk). apply ms_alloc; [done|]. exact (reg_length _ _ _ _ _ I' (lookup_last _ _)).
    + destruct Hx as [I' Hpl]. eexists _, _, _. split; [reflexivity|]. split; [done|]. rewrite (keeps_contents _ _ _ Hk). by apply ms_null.
  - destruct (mp_malloc_ok w p rs n true I Ho) as (w' & p' & [x|] & E & _ & Hk & Hx); unfold mempool_calloc; rewrite E; cbn [bind new_region].
    + destruct Hx as (I' & Hpl & Hz). eexists _, _, _. split; [reflexivity|]. split; [done|]. rewrite fmap_app, (keeps_contents _ _ _ Hk). apply ms_calloc; [done|exact (reg_length _ _ _ _ _ I' (lookup_last _ _))|]. by apply Hz.
    + destruct Hx as [I' Hpl]. eexists _, _, _. split; [reflexivity|]. split; [done|]. rewrite (keeps_contents _ _ _ Hk). by apply ms_null.
  - destruct (rs !! k) as [r|] eqn:Er; [|exists w, p, rs; split_and!; [done|done|apply ms_no_object; by rewrite list_lookup_fmap, Er]].
    destruct (realloc_ok w p rs k r n I Er Ho) as (w' & p' & [x|] & E & Hk & Hx); rewrite E; cbn [bind new_region].
    + destruct Hx as (I' & Hpl & Ec). eexists _, _, _. split; [reflexivity|]. split; [done|]. rewrite fmap_app, (keeps_contents _ _ _ Hk). change (content w' <$> [rg x n]) with [content w' (rg x n)]. rewrite Ec.
      apply ms_realloc; [done|]. by rewrite list_lookup_fmap, Er.
    + destruct Hx as [I' Hpl]. eexists _, _, _. split; [reflexivity|]. split; [done|]. rewrite (keeps_contents _ _ _ Hk). by apply ms_null.
  - destruct (rs !! k) as [r|] eqn:Er; [|exists w, p, rs; split_and!; [done|done|]].
    2: { apply ms_no_store. intros o. by rewrite list_lookup_fmap, Er. }
    pose proof (reg_length _ _ _ _ _ I Er) as Lr. destruct (Z.ltb_spec (Z.of_nat i) (r_size r)) as [Hi|Hi].
    2: { exists w, p, rs. split_and!; [done|done|]. apply ms_no_store. intros o. rewrite list_lookup_fmap, Er. intros [= <-]. lia. }
    destruct (put_region w p rs k r (r_off r + Z.of_nat i) [Some v] I Er) as (w' & E & I' & Hk & Hc); [lia|cbn [length]; lia|]. rewrite E. cbn [bind]. eexists _, _, _. split; [reflexivity|]. split; [done|].
    replace (content w' <$> rs) with (<[k := <[i := Some v]> (content w r)]> (content w <$> rs)).
    { apply ms_store; [by rewrite list_lookup_fmap, Er|lia]. }
    apply list_eq. intros j. rewrite list_lookup_fmap. destruct (decide (j = k)) as [->|Hne].
    + rewrite list_lookup_insert_eq by (rewrite length_fmap; by eapply lookup_lt_Some). rewrite Er. cbn [fmap option_fmap option_map]. f_equal. apply list_eq. intros a. rewrite Hc.
      replace (Z.to_nat (r_off r + Z.of_nat i - r_off r)) with i by lia. cbn [length]. case_decide as Hd.
      * assert (a = i) as -> by lia. rewrite Nat.sub_diag. by rewrite list_lookup_insert_eq by lia.
      * by rewrite list_lookup_insert_ne by lia.
    + rewrite list_lookup_insert_ne by done. rewrite list_lookup_fmap. destruct (rs !! j) as [r'|] eqn:Ej; [|done]. cbn [fmap option_fmap option_map]. f_equal. symmetry. by apply (Hk j).
Qed.

Lemma run_mops_ok l w p rs :
  inv w p rs -> Forall mop_ok l -> exists w' p' rs', run_mops (w, p, rs) l = Ok (w', p', rs') /\ inv w' p' rs' /\
  msteps (content w <$> rs) l (places (w, p, rs) l) (content w' <$> rs').
Proof.
  revert w p rs. induction l as [|o l IH]; intros w p rs I Hl; [exists w, p, rs; split_and!; [done|done|constructor]|]. apply Forall_cons in Hl as [Ho Hl].
  destruct (run_mop_ok w p rs o I Ho) as (w1 & p1 & rs1 & E1 & I1 & H1). destruct (IH w1 p1 rs1 I1 Hl) as (w2 & p2 & rs2 & E2 & I2 & H2).
  exists w2, p2, rs2. cbn [run_mops places]. rewrite E1. cbn [bind]. split_and!; [done|done|by econstructor].
Qed.

(** ** Release *)

(** The live blocks are those of the pool and [L]. *)
Definition frame (L : gset positive) (w : world) (p : mempool_t) : Prop :=
  al_wf (w_al w) /\ al_live (w_al w) = list_to_set (blocks p) ∪ L /\ (forall b, b ∈ blocks p -> b ∉ L).

Lemma alloc_node_frame L w p n : frame L w p -> frame L (mp_alloc_node w p n).1.1 (mp_alloc_node w p n).1.2.
Proof.
  intros (Hw & Hl & Hd). unfold mp_alloc_node. match goal with |- context [get_block w ?m ?h] => pose proof (get_block_ok w m h Hw) as Hg; destruct (get_block w m h) as [w' [b|]] end; cbn [fst snd].
  - destruct Hg as (_ & _ & _ & Hw' & Hl' & Hn). split; [done|]. rewrite Hl', Hl. unfold blocks in *. cbn [mp_self mp_nodes]. split; [set_solver|]. intros c Hc Hin. set_solver.
  - destruct Hg as (_ & _ & _ & Hw' & Hl'). split; [done|]. by rewrite Hl'.
Qed.
Lemma put_bytes_al w x bs w' : put_bytes w x bs = Ok w' -> w_al w' = w_al w.
Proof. unfold put_bytes. destruct (deref _); [|done]. cbn [bind]. destruct (_ || _); [done|]. by intros [= <-]. Qed.
Lemma frame_al L w w' p p' : frame L w p -> w_al w' = w_al w -> mp_self p' = mp_self p -> mp_nodes p' = mp_nodes p -> frame L w' p'.
Proof. intros (Hw & Hl & Hd) Ea Es En. unfold frame, blocks in *. by rewrite Ea, Es, En. Qed.

Lemma mp_malloc_frame L w p n zero w' p' x : frame L w p -> mp_malloc w p n zero = Ok (w', p', x) -> frame L w' p'.
Proof.
  intros Hf. unfold mp_malloc. destruct (n <? 1); [by intros [= <- <- _]|]. destruct (_ && _).
  - destruct zero; cbn [bind]; [|intros [= <- <- _]; by apply (frame_al L w w p)]. destruct (put_bytes _ _ _) as [w1|] eqn:E; [|done]. cbn [bind]. intros [= <- <- _]. apply (frame_al L w w1 p); [done|by eapply put_bytes_al|done|done].
  - intros [= E]. pose proof (alloc_node_frame L w p n Hf) as Ha. by rewrite E in Ha.
Qed.

Lemma run_mop_frame L w p rs o w' p' rs' : frame L w p -> run_mop (w, p, rs) o = Ok (w', p', rs') -> frame L w' p'.
Proof.
  intros Hf. destruct o as [n|n|k n|k i v]; cbn [run_mop].
  - unfold mempool_alloc. destruct (mp_malloc w p n false) as [[[w1 p1] x]|] eqn:E; [|done]. intros [= <- <- _]. by eapply mp_malloc_frame.
  - unfold mempool_calloc. destruct (mp_malloc w p n true) as [[[w1 p1] x]|] eqn:E; [|done]. intros [= <- <- _]. by eapply mp_malloc_frame.
  - destruct (rs !! k) as [r|]; [|by intros [= <- <- _]]. unfold mempool_realloc. destruct (_ || _); [by intros [= <- <- _]|].
    destruct (mp_malloc w p n false) as [[[w1 p1] [x|]]|] eqn:E; [| |done]; cbn [bind]; [|intros [= <- <- _]; by eapply mp_malloc_frame].
    destruct (bytes_at w1 _ _) as [bs|]; [|done]. cbn [bind]. destruct (put_bytes w1 _ _) as [w2|] eqn:E2; [|done]. cbn [bind].
    assert (Hf2 : frame L w2 p1) by (eapply (frame_al L w1); [by eapply mp_malloc_frame|by eapply put_bytes_al|done|done]).
    match goal with |- context [if ?b then _ else Ok w2] => destruct b end; cbn [bind]; [|by intros [= <- <- _]].
    destruct (put_bytes w2 _ _) as [w3|] eqn:E3; [|done]. cbn [bind]. intros [= <- <- _]. eapply (frame_al L w2); [done|by eapply put_bytes_al|done|done].
  - destruct (rs !! k) as [r|]; [|by intros [= <- <- _]]. destruct (_ <? _); [|by intros [= <- <- _]]. destruct (put_bytes _ _ _) as [w1|] eqn:E; [|done]. cbn [bind]. intros [= <- <- _].
    eapply (frame_al L w); [done|by eapply put_bytes_al|done|done].
Qed.
Lemma run_mops_frame L l w p rs w' p' rs' : frame L w p -> run_mops (w, p, rs) l = Ok (w', p', rs') -> frame L w' p'.
Proof.
  revert w p rs. induction l as [|o l IH]; intros w p rs Hf; cbn [run_mops]; [by intros [= <- <- _]|]. destruct (run_mop (w, p, rs) o) as [[[w1 p1] rs1]|] eqn:E; [|done]. cbn [bind].
  apply IH. by eapply run_mop_frame.
Qed.

Lemma free_nodes_ok l w : NoDup l -> (forall b, b ∈ l -> b ∈ al_live (w_al w)) -> exists w', free_nodes w l = Ok w' /\ al_live (w_al w') = al_live (w_al w) ∖ list_to_set l.
Proof.
  revert w. induction l as [|b l IH]; intros w Hn Hl; cbn [free_nodes]; [exists w; split; [done|set_solver]|]. apply NoDup_cons in Hn as [Hb Hn].
  unfold free_block. destruct (mfree_Ok (w_al w) b) as (a & -> & _ & _ & Ha); [apply Hl; set_solver|]. cbn [bind].
  destruct (IH {| w_al := a; w_mem := delete b (w_mem w); w_hdr := delete b (w_hdr w) |}) as (w' & -> & Hw'); [done|cbn [w_al]; rewrite Ha; set_solver|]. exists w'. split; [done|]. rewrite Hw'. cbn [w_al]. rewrite Ha. set_solver.
Qed.

Lemma destroy_ok L w p rs : inv w p rs -> frame L w p -> exists w', mempool_destroy w (Some p) = Ok w' /\ al_live (w_al w') = L.
Proof.
  intros I (Hw & Hl & Hd). pose proof (iv_nodup _ _ _ I) as Hn. unfold blocks in *. apply NoDup_cons in Hn as [Hs Hn]. cbn [mempool_destroy].
  destruct (free_nodes_ok (mp_nodes p) w Hn) as (w1 & -> & H1); [rewrite Hl; set_solver|]. cbn [bind]. unfold free_block.
  destruct (mfree_Ok (w_al w1) (mp_self p)) as (a & -> & _ & _ & Ha); [rewrite H1, Hl; set_solver|]. cbn [bind]. eexists. split; [reflexivity|]. cbn [w_al]. rewrite Ha, H1, Hl.
  assert (list_to_set (mp_self p :: mp_nodes p) ## L) by (intros c Hc HL; apply elem_of_list_to_set in Hc; by apply (Hd c)). set_solver.
Qed.

Lemma create_ok w size w0 p0 :
  al_wf (w_al w) -> 1 <= size < 2 ^ 31 -> mempool_create w size = (w0, Some p0) -> inv w0 p0 [] /\ frame (al_live (w_al w)) w0 p0.
Proof.
  intros Hw Hs. unfold mempool_create. rewrite (proj2 (Z.ltb_ge size 1)) by lia. destruct (align_num_spec (size + sizeof_mempool_t)) as [Hal Hal8]. unfold sizeof_mempool_t in *.
  assert (Hu : u64 (align_num (size + 32)) = align_num (size + 32)) by (apply Z.mod_small; lia). rewrite Hu.
  pose proof (get_block_ok w (align_num (size + 32)) 32 Hw) as Hg. destruct (get_block w (align_num (size + 32)) 32) as [w' [b|]]; [|done]. intros [= <- <-]. destruct Hg as (Hh & _ & Hm & Hw' & Hl & Hn).
  assert (Hu32 : u32 size = size) by (apply Z.mod_small; lia). split.
  - constructor; unfold blocks; cbn [mp_self mp_nodes mp_cur mp_last mp_tail mp_max]; [done| |by apply NoDup_singleton|set_solver| | | |lia|done|done].
    + intros c ->%list_elem_of_singleton. rewrite Hl, Hm, lookup_insert_eq. split; [set_solver|by eexists].
    + unfold size_of. rewrite Hm, lookup_insert_eq, length_replicate. split_and!; lia.
    + intros c ->%list_elem_of_singleton. unfold hdr_of, hdr_size. cbn [mp_self]. by rewrite Hh, lookup_insert_eq, decide_True.
    + unfold hdr_size. cbn [mp_self]. rewrite decide_True by done. unfold sizeof_mempool_t. lia.
  - split; [done|]. unfold blocks. cbn [mp_self mp_nodes]. split; [rewrite Hl; set_solver|]. intros c ->%list_elem_of_singleton. done.
Qed.

(** ** The claims *)

(** C24: a memory pool gives out separate objects.  For any sequence of mempool_alloc,
    mempool_calloc and mempool_realloc of up to 2 GB each, interleaved with stores
    of the client into its objects, on a pool from mempool_create: no access is
    outside its block or touches the pool structure or the list pointer at its start;
    the objects behave as separate byte sequences (no call and no store changes
    another object; realloc copies the old bytes and clears the rest; mempool_calloc
    clears an object that fits the current block, but not one in a new node); an
    allocation fails exactly when it needs a new node and malloc gives none; the
    objects are aligned, inside their block and behind its header, and pairwise
    apart; and mempool_destroy then frees every block of the pool once and nothing
    else. *)
Theorem mempool_refines_objects w size w0 p0 l :
  al_wf (w_al w) -> 1 <= size < 2 ^ 31 -> mempool_create w size = (w0, Some p0) -> Forall mop_ok l ->
  exists w' p' rs, run_mops (w0, p0, []) l = Ok (w', p', rs) /\ msteps [] l (places (w0, p0, []) l) (content w' <$> rs) /\
    Forall (fun r => r_off r mod 8 = 0 /\ hdr_size p' (r_blk r) <= r_off r /\ r_off r + r_size r <= Z.of_nat (size_of w' (r_blk r))) rs /\
    (forall i j r r', i <> j -> rs !! i = Some r -> rs !! j = Some r' -> apart r r') /\
    exists w'', mempool_destroy w' (Some p') = Ok w'' /\ al_live (w_al w'') = al_live (w_al w).
Proof.
  intros Hw Hs Hc Hl. destruct (create_ok w size w0 p0 Hw Hs Hc) as [I0 F0]. destruct (run_mops_ok l w0 p0 [] I0 Hl) as (w' & p' & rs & E & I & Hm).
  exists w', p', rs. split; [done|]. split; [done|]. split; [|split].
  - eapply Forall_impl; [apply (iv_regs _ _ _ I)|]. intros r Hr. split_and!; [apply (rg_align _ _ _ Hr)| |apply (rg_in _ _ _ Hr)].
    rewrite <- (iv_hdr _ _ _ I _ (rg_blk _ _ _ Hr)). apply (rg_hdr _ _ _ Hr).
  - apply (iv_apart _ _ _ I).
  - eapply destroy_ok; [exact I|]. by eapply run_mops_frame.
Qed.

Definition demo_world : world := {| w_al := ObjPoolProofs.demo_al; w_mem := ∅; w_hdr := ∅ |}.
Definition demo_mops : list mop := [MAlloc 5; MCalloc 9; MStore 0 4 7; MRealloc 0 8; MAlloc 500; MStore 2 1 9; MStore 3 0 1].
(** Three pieces of the pool and an object in a node. *)
Definition demo_regions : list region :=
  [{| r_blk := 1; r_off := 32; r_size := 5 |}; {| r_blk := 1; r_off := 40; r_size := 9 |}; {| r_blk := 1; r_off := 56; r_size := 8 |}; {| r_blk := 2; r_off := 8; r_size := 500 |}].
Lemma demo_mops_run : exists w0 p0 w' p', mempool_create demo_world 64 = (w0, Some p0) /\ run_mops (w0, p0, []) demo_mops = Ok (w', p', demo_regions) /\
  places (w0, p0, []) demo_mops = [Piece; Piece; Null; Piece; Node; Null; Null] /\ content w' {| r_blk := 1; r_off := 40; r_size := 9 |} = replicate 9 (Some 0).
Proof. eexists _, _, _, _. split; [reflexivity|]. split; [vm_compute; reflexivity|]. split; vm_compute; reflexivity. Qed.
Lemma mempool_refines_objects_witness :
  exists w0 p0 w' p', mempool_create demo_world 64 = (w0, Some p0) /\ run_mops (w0, p0, []) demo_mops = Ok (w', p', demo_regions) /\
    msteps [] demo_mops [Piece; Piece; Null; Piece; Node; Null; Null] (content w' <$> demo_regions) /\
    exists w'', mempool_destroy w' (Some p') = Ok w'' /\ al_live (w_al w'') = ∅.
Proof.
  destruct demo_mops_run as (w0 & p0 & w1 & p1 & E & Er1 & Hpl & _).
  destruct (mempool_refines_objects demo_world 64 w0 p0 demo_mops) as (w' & p' & rs & Er & Hm & _ & _ & Hd);
    [intros b Hb; by apply not_elem_of_empty in Hb|lia|exact E|repeat constructor; cbn [mop_ok]; lia|].
  rewrite Er1 in Er. injection Er as <- <- <-. rewrite Hpl in Hm.
  exists w0, p0, w1, p1. split; [exact E|]. split; [exact Er1|]. split; [exact Hm|exact Hd].
Defined.

(** mempool_calloc does not clear an object that gets a block of its own. *)
Example mempool_calloc_garbage :
  match mempool_create demo_world 64 with
  | (w, Some p) => do (w, p, x) <- mempool_calloc w p 64; match x with Some x => bytes_at w x 64 | None => Ok [] end
  | _ => Ok []
  end = Ok (replicate 64 None).
Proof. vm_compute. reflexivity. Qed.

End MemPoolProofs.
