(* ===== verification/DBuffer.v ===== *)
(** * dbuffer: a buffer that data is appended to

    Model of src/code/basic/datastruct/dbuffer.h.  The block of a buffer is the list of
    its bytes, as long as malloc was asked for; [mem] is what malloc returns, its
    length being the size. *)
From S2P Require Import Prelude.

Module DBuffer.

Record dbuf_t : Type := { db_max : Z; db_len : Z; db_buf : option (list Z) }.

Definition DBUF_RESET (b : dbuf_t) : dbuf_t := {| db_max := db_max b; db_len := 0; db_buf := db_buf b |}.

Definition dbuf_init (b : dbuf_t) (max : Z) (mem : option (list Z)) : dbuf_t * Z :=
  if max <? 1 then (b, -1) else
  match mem with
  | None => ({| db_max := db_max b; db_len := db_len b; db_buf := None |}, -1)
  | Some l => ({| db_max := max; db_len := 0; db_buf := Some l |}, 0)
  end.

Definition dbuf_free (b : dbuf_t) : dbuf_t := {| db_max := 0; db_len := 0; db_buf := None |}.

(** max is not updated. *)
Definition dbuf_resize (b : dbuf_t) (max : Z) (mem : option (list Z)) : res (dbuf_t * Z) :=
  if max <? 1 then Ok (b, -1)
  else if max <? db_len b then Ok (b, -1)
  else if max =? db_max b then Ok (b, 0)
  else match mem with
       | None => Ok (b, -1)
       | Some p =>
           match db_buf b with
           | None => Ok ({| db_max := db_max b; db_len := db_len b; db_buf := Some p |}, 0)
           | Some l =>
               let n := Z.to_nat (db_len b) in
               if (length l <? n)%nat || (length p <? n)%nat then Fault OutOfBounds
               else Ok ({| db_max := db_max b; db_len := db_len b; db_buf := Some (take n l ++ drop n p) |}, 0)
           end
       end.

Definition dbuf_put (b : dbuf_t) (d : option (list Z)) : res (dbuf_t * Z) :=
  match d with
  | None | Some [] => Ok (b, -1)
  | Some d =>
      match db_buf b with
      | None => Ok (b, -1)
      | Some l =>
          let len := Z.of_nat (length d) in
          if u32 (db_max b - db_len b) <? len then Ok (b, -1)
          else
            let n := Z.to_nat (db_len b) in
            if (length l <? n + length d)%nat then Fault OutOfBounds
            else Ok ({| db_max := db_max b; db_len := u32 (db_len b + len); db_buf := Some (take n l ++ d ++ drop (n + length d) l) |}, 0)
      end
  end.

(** ** Properties *)
Definition data (b : dbuf_t) : list Z := match db_buf b with Some l => take (Z.to_nat (db_len b)) l | None => [] end.
(** [size] is what the block really has. *)
Definition holds (b : dbuf_t) (size : Z) : Prop :=
  exists l, db_buf b = Some l /\ Z.of_nat (length l) = size /\ 0 <= db_len b <= size /\ db_len b <= db_max b < 2 ^ 32.

Lemma dbuf_init_ok b max l : 1 <= max < 2 ^ 32 -> Z.of_nat (length l) = max -> exists b', dbuf_init b max (Some l) = (b', 0) /\ holds b' max /\ db_max b' = max /\ data b' = [].
Proof. intros Hm Hl. unfold dbuf_init. rewrite (proj2 (Z.ltb_ge max 1)) by lia. eexists. split; [reflexivity|]. split_and!; [|done|done]. exists l. cbn. split_and!; [done|done|lia..]. Qed.

(** What dbuf_put does depends on max, what fits on the block. *)
Lemma dbuf_put_exact b size d :
  holds b size -> d <> [] ->
  if db_max b - db_len b <? Z.of_nat (length d) then dbuf_put b (Some d) = Ok (b, -1)
  else if size <? db_len b + Z.of_nat (length d) then dbuf_put b (Some d) = Fault OutOfBounds
  else exists b', dbuf_put b (Some d) = Ok (b', 0) /\ holds b' size /\ db_max b' = db_max b /\ data b' = data b ++ d.
Proof.
  intros (l & El & Hl & Hr & Hm) Hd. unfold dbuf_put. destruct d as [|x d]; [done|]. rewrite El. unfold u32. rewrite Z.mod_small by lia.
  set (dd := x :: d) in *. destruct (Z.ltb_spec (db_max b - db_len b) (Z.of_nat (length dd))); [done|]. destruct (Z.ltb_spec size (db_len b + Z.of_nat (length dd))).
  - destruct (Nat.ltb_spec (length l) (Z.to_nat (db_len b) + length dd)); [done|lia].
  - destruct (Nat.ltb_spec (length l) (Z.to_nat (db_len b) + length dd)); [lia|]. eexists. split; [reflexivity|]. rewrite Z.mod_small by lia. split_and!; [|done|].
    + eexists. cbn [db_buf db_len db_max]. split; [reflexivity|]. rewrite !length_app, length_take, length_drop. split_and!; lia.
    + unfold data. cbn [db_buf db_len]. rewrite El. replace (Z.to_nat (db_len b + Z.of_nat (length dd))) with (length (take (Z.to_nat (db_len b)) l ++ dd)) by (rewrite length_app, length_take; lia).
      rewrite (app_assoc (take _ l)). by rewrite take_app_length.
Qed.

Lemma dbuf_resize_exact b size max p :
  holds b size -> 1 <= max -> db_len b <= max -> max <> db_max b -> Z.of_nat (length p) = max ->
  exists b', dbuf_resize b max (Some p) = Ok (b', 0) /\ holds b' max /\ db_max b' = db_max b /\ db_len b' = db_len b /\ data b' = data b.
Proof.
  intros (l & El & Hl & Hr & Hm) H1 H2 H3 Hp. unfold dbuf_resize. rewrite (proj2 (Z.ltb_ge max 1)), (proj2 (Z.ltb_ge max (db_len b))), (proj2 (Z.eqb_neq _ _)) by done. rewrite El.
  destruct (Nat.ltb_spec (length l) (Z.to_nat (db_len b))); [lia|]. destruct (Nat.ltb_spec (length p) (Z.to_nat (db_len b))); [lia|]. cbn [orb]. eexists. split; [reflexivity|].
  split_and!; [|done|done|].
  - eexists. cbn [db_buf db_len db_max]. split; [reflexivity|]. rewrite length_app, length_take, length_drop. split_and!; lia.
  - unfold data. cbn [db_buf db_len]. rewrite El. rewrite take_app_le by (rewrite length_take; lia). by rewrite take_take, Nat.min_id.
Qed.

(** dbuf_resize replaces the block and forgets the size.  After dbuf_init and a
    successful dbuf_resize, data that fits both sizes is stored, but data that fits
    the old size only is written behind the smaller block, and data that fits the new,
    larger block only is refused. *)
Theorem dbuf_resize_keeps_max b l max newmax p d :
  1 <= max < 2 ^ 32 -> Z.of_nat (length l) = max -> 1 <= newmax -> newmax <> max -> Z.of_nat (length p) = newmax -> d <> [] ->
  exists b1 b2, dbuf_init b max (Some l) = (b1, 0) /\ dbuf_resize b1 newmax (Some p) = Ok (b2, 0) /\
    (newmax < Z.of_nat (length d) <= max -> dbuf_put b2 (Some d) = Fault OutOfBounds) /\
    (max < Z.of_nat (length d) <= newmax -> dbuf_put b2 (Some d) = Ok (b2, -1)) /\
    (Z.of_nat (length d) <= Z.min max newmax -> exists b3, dbuf_put b2 (Some d) = Ok (b3, 0) /\ data b3 = d).
Proof.
  intros Hm Hl Hn Hne Hp Hd. destruct (dbuf_init_ok b max l Hm Hl) as (b1 & E1 & H1 & Hm1 & D1). assert (L1 : db_len b1 = 0) by (unfold dbuf_init in E1; destruct (max <? 1); [done|]; by injection E1 as <-).
  destruct (dbuf_resize_exact b1 max newmax p H1 Hn) as (b2 & E2 & H2 & Hm2 & L2 & D2); [lia|congruence|done|]. exists b1, b2. split; [done|]. split; [done|].
  pose proof (dbuf_put_exact b2 newmax d H2 Hd) as Hput. rewrite Hm2, Hm1, L2, L1, D2, D1 in Hput. change (0 + Z.of_nat (length d)) with (Z.of_nat (length d)) in Hput. rewrite Z.sub_0_r in Hput.
  split_and!; intros Hlen.
  - rewrite (proj2 (Z.ltb_ge max _)), (proj2 (Z.ltb_lt newmax _)) in Hput by lia. done.
  - rewrite (proj2 (Z.ltb_lt max _)) in Hput by lia. done.
  - rewrite (proj2 (Z.ltb_ge max _)), (proj2 (Z.ltb_ge newmax _)) in Hput by lia. destruct Hput as (b3 & E3 & _ & _ & D3). by exists b3.
Qed.
Lemma dbuf_resize_keeps_max_witness :
  exists b1 b2, dbuf_init {| db_max := 0; db_len := 0; db_buf := None |} 4 (Some [0; 0; 0; 0]) = (b1, 0) /\ dbuf_resize b1 2 (Some [0; 0]) = Ok (b2, 0) /\
    dbuf_put b2 (Some [1; 2; 3]) = Fault OutOfBounds.
Proof.
  destruct (dbuf_resize_keeps_max {| db_max := 0; db_len := 0; db_buf := None |} [0; 0; 0; 0] 4 2 [0; 0] [1; 2; 3]) as (b1 & b2 & E1 & E2 & Hp & _);
    [lia|reflexivity|lia|discriminate|reflexivity|discriminate|].
  exists b1, b2. split; [exact E1|]. split; [exact E2|]. apply Hp. vm_compute. split; [reflexivity|discriminate].
Defined.
End DBuffer.
