(* ===== verification/Locks.v ===== *)
(** * Locks: the counting read-write lock and the spin lock

    Model of src/code/basic/datastruct/rwlock.h and spinlock.h.  A thread is where it
    stands in the lock code (or outside); the threads share the lock word and take
    turns in any order, one access to the word at a time, as the atomic
    instructions do.  The counter is a 32-bit int, whose
    overflow at 2^31 - 1 readers is taken as the wrap-around of the machine. *)
From S2P Require Import Prelude.

Module Locks.

(** ** rwlock.h *)

(** Where a thread stands: before reading cnt, or with the value it read before the
    compare-and-set. *)
Inductive rw_pc : Type := ROut | RdLoad | RdSet (x : Z) | Reading | WrLoad | WrSet | Writing.
Record rwlock_t : Type := { cnt : Z }.
Record rw_state : Type := { rw_lock : rwlock_t; rw_threads : list rw_pc }.

Definition rwlock_init : rwlock_t := {| cnt := 0 |}.

(** [if ( *dst == exp) *dst = src], and whether it was. *)
Definition atomic32_cmpset (l : rwlock_t) (exp src : Z) : rwlock_t * bool :=
  if u32 (cnt l) =? u32 exp then ({| cnt := s32 src |}, true) else (l, false).
Definition atomic32_inc (l : rwlock_t) : rwlock_t := {| cnt := s32 (cnt l + 1) |}.
Definition atomic32_dec (l : rwlock_t) : rwlock_t := {| cnt := s32 (cnt l - 1) |}.

(** One access of the loop of rwlock_rdlock. *)
Definition rwlock_rdlock (l : rwlock_t) (pc : rw_pc) : rwlock_t * rw_pc :=
  match pc with
  | RdSet x => let (l, success) := atomic32_cmpset l x (x + 1) in (l, if success : bool then Reading else RdLoad)
  | _ => let x := cnt l in (l, if x <? 0 then RdLoad else RdSet x)
  end.
Definition rwlock_rdunlock (l : rwlock_t) : rwlock_t := atomic32_dec l.
(** One access of the loop of rwlock_wrlock. *)
Definition rwlock_wrlock (l : rwlock_t) (pc : rw_pc) : rwlock_t * rw_pc :=
  match pc with
  | WrSet => let (l, success) := atomic32_cmpset l 0 (-1) in (l, if success : bool then Writing else WrLoad)
  | _ => let x := cnt l in (l, if negb (x =? 0) then WrLoad else WrSet)
  end.
Definition rwlock_wrunlock (l : rwlock_t) : rwlock_t := atomic32_inc l.

(** What a thread does next; a thread outside chooses. *)
Inductive rw_next (l : rwlock_t) : rw_pc -> rwlock_t -> rw_pc -> Prop :=
  | rn_rdcall : rw_next l ROut l RdLoad
  | rn_wrcall : rw_next l ROut l WrLoad
  | rn_rdload : rw_next l RdLoad (rwlock_rdlock l RdLoad).1 (rwlock_rdlock l RdLoad).2
  | rn_rdset x : rw_next l (RdSet x) (rwlock_rdlock l (RdSet x)).1 (rwlock_rdlock l (RdSet x)).2
  | rn_rdunlock : rw_next l Reading (rwlock_rdunlock l) ROut
  | rn_wrload : rw_next l WrLoad (rwlock_wrlock l WrLoad).1 (rwlock_wrlock l WrLoad).2
  | rn_wrset : rw_next l WrSet (rwlock_wrlock l WrSet).1 (rwlock_wrlock l WrSet).2
  | rn_wrunlock : rw_next l Writing (rwlock_wrunlock l) ROut.
Inductive rw_step (s : rw_state) : rw_state -> Prop :=
  | rw_turn i pc l' pc' : rw_threads s !! i = Some pc -> rw_next (rw_lock s) pc l' pc' -> rw_step s {| rw_lock := l'; rw_threads := <[i := pc']> (rw_threads s) |}.
Definition rw_start (n : nat) : rw_state := {| rw_lock := rwlock_init; rw_threads := replicate n ROut |}.

(** ** spinlock.h *)

(** [SpXchg v] is before the xchg, with the register holding [v]; [SpWait v] is the
    pause loop. *)
Inductive sp_pc : Type := SOut | SpXchg (v : Z) | SpWait (v : Z) | SpTry | SpHeld.
Record fo_spinlock_t : Type := { locked : Z }.
Record sp_state : Type := { sp_lock : fo_spinlock_t; sp_threads : list sp_pc }.

Definition fo_spinlock_init : fo_spinlock_t := {| locked := 0 |}.
Definition xchg (l : fo_spinlock_t) (v : Z) : fo_spinlock_t * Z := ({| locked := v |}, locked l).

Definition fo_spinlock_lock (l : fo_spinlock_t) (pc : sp_pc) : fo_spinlock_t * sp_pc :=
  match pc with
  | SpXchg v => let (l, v) := xchg l v in (l, if v =? 0 then SpHeld else SpWait v)
  | SpWait v => (l, if negb (locked l =? 0) then SpWait v else SpXchg v)
  | _ => (l, SpXchg 1)
  end.
Definition fo_spinlock_unlock (l : fo_spinlock_t) : fo_spinlock_t := (xchg l 0).1.
(** The result says whether the lock was taken. *)
Definition fo_spinlock_trylock (l : fo_spinlock_t) : fo_spinlock_t * Z := let (l, v) := xchg l 1 in (l, if v =? 0 then 1 else 0).
Definition fo_spinlock_is_locked (l : fo_spinlock_t) : Z := locked l.

Inductive sp_next (l : fo_spinlock_t) : sp_pc -> fo_spinlock_t -> sp_pc -> Prop :=
  | sn_call : sp_next l SOut l (SpXchg 1)
  | sn_trycall : sp_next l SOut l SpTry
  | sn_xchg v : sp_next l (SpXchg v) (fo_spinlock_lock l (SpXchg v)).1 (fo_spinlock_lock l (SpXchg v)).2
  | sn_wait v : sp_next l (SpWait v) (fo_spinlock_lock l (SpWait v)).1 (fo_spinlock_lock l (SpWait v)).2
  | sn_try : sp_next l SpTry (fo_spinlock_trylock l).1 (if (fo_spinlock_trylock l).2 =? 1 then SpHeld else SOut)
  | sn_unlock : sp_next l SpHeld (fo_spinlock_unlock l) SOut.
Inductive sp_step (s : sp_state) : sp_state -> Prop :=
  | sp_turn i pc l' pc' : sp_threads s !! i = Some pc -> sp_next (sp_lock s) pc l' pc' -> sp_step s {| sp_lock := l'; sp_threads := <[i := pc']> (sp_threads s) |}.
Definition sp_start (n : nat) : sp_state := {| sp_lock := fo_spinlock_init; sp_threads := replicate n SOut |}.

(** ** Counting threads *)
Definition count {A} (P : A -> bool) (l : list A) : Z := fold_right (fun a n => Z.b2z (P a) + n) 0 l.

Lemma count_nonneg {A} (P : A -> bool) l : 0 <= count P l.
Proof. induction l as [|a l IH]; simpl; [lia|]. destruct (P a); simpl; lia. Qed.
Lemma count_insert {A} (P : A -> bool) l i a b : l !! i = Some a -> count P (<[i := b]> l) = count P l - Z.b2z (P a) + Z.b2z (P b).
Proof. revert i. induction l as [|x l IH]; intros [|i] Hi; simpl in *; [done|done|injection Hi as ->; lia|rewrite (IH i Hi); lia]. Qed.
Lemma count_in {A} (P : A -> bool) l i a : l !! i = Some a -> P a = true -> 1 <= count P l.
Proof. revert i. induction l as [|x l IH]; intros [|i] Hi Ha; simpl in *; [done|done|injection Hi as ->; rewrite Ha; pose proof (count_nonneg P l); simpl; lia|]. specialize (IH i Hi Ha). destruct (P x); simpl; lia. Qed.
Lemma count_replicate {A} (P : A -> bool) n a : P a = false -> count P (replicate n a) = 0.
Proof. intros Ha. induction n as [|n IH]; simpl; [done|]. by rewrite Ha, IH. Qed.
Lemma count_one {A} (P : A -> bool) l i j a b : count P l <= 1 -> l !! i = Some a -> l !! j = Some b -> P a = true -> P b = true -> i = j.
Proof.
  revert i j. induction l as [|x l IH]; intros [|i] [|j] Hc Hi Hj Ha Hb; simpl in *; try done.
  - injection Hi as ->. rewrite Ha in Hc. pose proof (count_in P l j b Hj Hb). simpl in Hc. lia.
  - injection Hj as ->. rewrite Hb in Hc. pose proof (count_in P l i a Hi Ha). simpl in Hc. lia.
  - f_equal. apply (IH i j); [destruct (P x); simpl in Hc; lia|done..].
Qed.

Definition is_reader (pc : rw_pc) : bool := match pc with Reading => true | _ => false end.
Definition is_writer (pc : rw_pc) : bool := match pc with Writing => true | _ => false end.
Definition is_holder (pc : sp_pc) : bool := match pc with SpHeld => true | _ => false end.

(** ** The read-write lock *)

(** The word is the number of readers, or -1; the counter stops the readers before
    it can run through all its values. *)
Record rw_inv (s : rw_state) : Prop := {
  ri_read : count is_writer (rw_threads s) = 0 -> cnt (rw_lock s) = s32 (count is_reader (rw_threads s)) /\ count is_reader (rw_threads s) <= 2 ^ 31;
  ri_write : count is_writer (rw_threads s) <> 0 -> count is_writer (rw_threads s) = 1 /\ count is_reader (rw_threads s) = 0 /\ cnt (rw_lock s) = -1;
  ri_set i x : rw_threads s !! i = Some (RdSet x) -> 0 <= x < 2 ^ 31 }.

Lemma rw_start_inv n : rw_inv (rw_start n).
Proof.
  assert (R : count is_reader (replicate n ROut) = 0) by (by apply count_replicate). assert (W : count is_writer (replicate n ROut) = 0) by (by apply count_replicate).
  constructor; cbn [rw_start rw_lock rw_threads rwlock_init cnt]; rewrite ?R, ?W; [done|done|]. intros i x [E _]%lookup_replicate. done.
Qed.

(** [c] as a 32-bit int. *)
Lemma s32_cases c : 0 <= c <= 2 ^ 31 -> s32 c = if c =? 2 ^ 31 then - 2 ^ 31 else c.
Proof. intros Hc. unfold s32. destruct (Z.eqb_spec c (2 ^ 31)) as [->|]; [done|]. rewrite Z.mod_small by lia. lia. Qed.
Lemma s32_count c x : 0 <= c <= 2 ^ 31 -> x = s32 c -> 0 <= x -> c = x /\ c < 2 ^ 31.
Proof. intros Hc ->. rewrite s32_cases by done. destruct (Z.eqb_spec c (2 ^ 31)); lia. Qed.

Lemma s32_pred c : s32 (s32 c - 1) = s32 (c - 1).
Proof. unfold s32. f_equal. replace ((c + 2 ^ 31) mod 2 ^ 32 - 2 ^ 31 - 1 + 2 ^ 31) with ((c + 2 ^ 31) mod 2 ^ 32 - 1) by lia. rewrite Zminus_mod_idemp_l. f_equal. lia. Qed.

Lemma cnt_range s : rw_inv s -> - 2 ^ 31 <= cnt (rw_lock s) < 2 ^ 31.
Proof.
  intros I. destruct (decide (count is_writer (rw_threads s) = 0)) as [W|W]; [destruct (ri_read _ I W) as [-> _]; pose proof (s32_range (count is_reader (rw_threads s))); lia|].
  destruct (ri_write _ I W) as (_ & _ & ->). lia.
Qed.
(** Equal as unsigned words, equal as ints. *)
Lemma u32_eq_int a b : - 2 ^ 31 <= a < 2 ^ 31 -> - 2 ^ 31 <= b < 2 ^ 31 -> u32 a = u32 b -> a = b.
Proof. unfold u32. intros Ha Hb E. pose proof (Z.div_mod a (2 ^ 32)). pose proof (Z.div_mod b (2 ^ 32)). lia. Qed.

(** The next state, when the word and the counts are known. *)
Lemma rw_inv_next s i pc l' pc' :
  rw_inv s -> rw_threads s !! i = Some pc -> (forall x, pc' = RdSet x -> 0 <= x < 2 ^ 31) ->
  (let r := count is_reader (rw_threads s) - Z.b2z (is_reader pc) + Z.b2z (is_reader pc') in
   let w := count is_writer (rw_threads s) - Z.b2z (is_writer pc) + Z.b2z (is_writer pc') in
   (w = 0 -> cnt l' = s32 r /\ r <= 2 ^ 31) /\ (w <> 0 -> w = 1 /\ r = 0 /\ cnt l' = -1)) ->
  rw_inv {| rw_lock := l'; rw_threads := <[i := pc']> (rw_threads s) |}.
Proof.
  intros I Hi Hx [Hr Hw]. constructor; cbn [rw_lock rw_threads]; rewrite ?(count_insert _ _ _ _ _ Hi); [done|done|].
  intros j x Hj. destruct (decide (i = j)) as [<-|Hne].
  - rewrite list_lookup_insert_eq in Hj by (by eapply lookup_lt_Some). injection Hj as ->. by apply Hx.
  - rewrite list_lookup_insert_ne in Hj by done. by apply (ri_set _ I j).
Qed.

Lemma rw_inv_same s i pc pc' :
  rw_inv s -> rw_threads s !! i = Some pc -> (forall x, pc' = RdSet x -> 0 <= x < 2 ^ 31) -> is_reader pc = is_reader pc' -> is_writer pc = is_writer pc' ->
  rw_inv {| rw_lock := rw_lock s; rw_threads := <[i := pc']> (rw_threads s) |}.
Proof.
  intros I Hi Hx Er Ew. apply (rw_inv_next s i pc); [done..|]. rewrite Er, Ew. cbv zeta. rewrite !Z.sub_add. split; [apply (ri_read _ I)|apply (ri_write _ I)].
Qed.

Lemma rw_step_inv s s' : rw_inv s -> rw_step s s' -> rw_inv s'.
Proof.
  intros I [i pc l' pc' Hi Hn]. pose proof (cnt_range s I) as Hc. pose proof (count_nonneg is_writer (rw_threads s)) as Hw0. pose proof (count_nonneg is_reader (rw_threads s)) as Hr0.
  destruct Hn as [| | |x| | | |].
  - by apply (rw_inv_same s i ROut).
  - by apply (rw_inv_same s i ROut).
  - cbn [rwlock_rdlock fst snd]. destruct (Z.ltb_spec (cnt (rw_lock s)) 0); apply (rw_inv_same s i RdLoad); try done. intros x [= <-]. lia.
  - pose proof (ri_set _ I i x Hi) as Hx. cbn [rwlock_rdlock]. unfold atomic32_cmpset. destruct (Z.eqb_spec (u32 (cnt (rw_lock s))) (u32 x)) as [E|E]; cbn [fst snd]; [|by apply (rw_inv_same s i (RdSet x))].
    apply u32_eq_int in E; [|lia|lia]. apply (rw_inv_next s i (RdSet x)); [done..|]. cbn [is_reader is_writer Z.b2z cnt].
    destruct (decide (count is_writer (rw_threads s) = 0)) as [W|W]; [|destruct (ri_write _ I W) as (_ & _ & Ec); exfalso; lia].
    destruct (ri_read _ I W) as [Ec Hle]. destruct (s32_count _ _ (conj Hr0 Hle) Ec) as [Ecc Hlt]; [lia|]. split; [|lia]. intros _. split; [f_equal; lia|lia].
  - apply (rw_inv_next s i Reading); [done..|]. cbn [is_reader is_writer Z.b2z rwlock_rdunlock atomic32_dec cnt]. pose proof (count_in is_reader _ i Reading Hi eq_refl) as H1.
    destruct (decide (count is_writer (rw_threads s) = 0)) as [W|W]; [|destruct (ri_write _ I W) as (_ & ? & _); exfalso; lia].
    destruct (ri_read _ I W) as [Ec Hle]. split; [|lia]. intros _. rewrite Ec. rewrite s32_pred. split; [f_equal; lia|lia].
  - cbn [rwlock_wrlock fst snd]. destruct (Z.eqb_spec (cnt (rw_lock s)) 0); cbn [negb]; by apply (rw_inv_same s i WrLoad).
  - cbn [rwlock_wrlock]. unfold atomic32_cmpset. destruct (Z.eqb_spec (u32 (cnt (rw_lock s))) (u32 0)) as [E|E]; cbn [fst snd]; [|by apply (rw_inv_same s i WrSet)].
    apply u32_eq_int in E; [|lia|lia]. apply (rw_inv_next s i WrSet); [done..|]. cbn [is_reader is_writer Z.b2z cnt].
    destruct (decide (count is_writer (rw_threads s) = 0)) as [W|W]; [|destruct (ri_write _ I W) as (_ & _ & Ec); exfalso; lia].
    destruct (ri_read _ I W) as [Ec Hle]. destruct (s32_count _ _ (conj Hr0 Hle) Ec) as [Ecc Hlt]; [lia|]. split; [lia|]. intros _. split_and!; [lia|lia|reflexivity].
  - apply (rw_inv_next s i Writing); [done..|]. cbn [is_reader is_writer Z.b2z rwlock_wrunlock atomic32_inc cnt]. pose proof (count_in is_writer _ i Writing Hi eq_refl) as H1.
    destruct (ri_write _ I) as (Ew & Er & Ec); [lia|]. rewrite Ew, Er, Ec. split; [done|lia].
Qed.

Lemma rw_steps_inv s s' : rw_inv s -> rtc rw_step s s' -> rw_inv s'.
Proof. intros I H. induction H; [done|]. eauto using rw_step_inv. Qed.

(** C25: the read-write lock excludes.  For any number of threads and any interleaving of
    their accesses, from an initialised lock: when a thread holds the write lock no
    other thread holds the lock in either way and cnt is -1; when no thread writes, cnt
    is the number of readers (as a 32-bit int, which never runs through zero). *)
Theorem rwlock_exclusion n s :
  rtc rw_step (rw_start n) s ->
  (forall i j pc, i <> j -> rw_threads s !! i = Some Writing -> rw_threads s !! j = Some pc -> pc <> Writing /\ pc <> Reading) /\
  ((exists i, rw_threads s !! i = Some Writing) -> cnt (rw_lock s) = -1) /\
  ((forall i, rw_threads s !! i <> Some Writing) -> cnt (rw_lock s) = s32 (count is_reader (rw_threads s)) /\ count is_reader (rw_threads s) <= 2 ^ 31).
Proof.
  intros H. pose proof (rw_steps_inv _ _ (rw_start_inv n) H) as I. split_and!.
  - intros i j pc Hne Hi Hj. pose proof (count_in is_writer _ i Writing Hi eq_refl) as H1. destruct (ri_write _ I) as (Ew & Er & _); [lia|]. split; intros ->.
    + destruct Hne. by apply (count_one is_writer (rw_threads s) i j Writing Writing); [lia|..].
    + pose proof (count_in is_reader _ j Reading Hj eq_refl). lia.
  - intros [i Hi]. pose proof (count_in is_writer _ i Writing Hi eq_refl) as H1. apply (ri_write _ I). lia.
  - intros Hn. apply (ri_read _ I). clear -Hn. induction (rw_threads s) as [|x l IH]; [done|]. simpl. rewrite IH by (intros i; exact (Hn (S i))). specialize (Hn 0%nat). destruct x; done.
Qed.

(** A thread that runs alone gets the lock in two accesses when it is free. *)
Lemma rwlock_wrlock_alone l : cnt l = 0 -> rwlock_wrlock (rwlock_wrlock l WrLoad).1 (rwlock_wrlock l WrLoad).2 = ({| cnt := -1 |}, Writing).
Proof. intros E. cbn [rwlock_wrlock fst snd]. rewrite E. change (negb (0 =? 0)) with false. cbn [rwlock_wrlock]. unfold atomic32_cmpset. by rewrite E. Qed.

(** ** The spin lock *)
Record sp_inv (s : sp_state) : Prop := {
  si_word : locked (sp_lock s) = count is_holder (sp_threads s) /\ count is_holder (sp_threads s) <= 1;
  si_reg i v : sp_threads s !! i = Some (SpXchg v) \/ sp_threads s !! i = Some (SpWait v) -> v = 1 }.

Lemma sp_step_inv s s' : sp_inv s -> sp_step s s' -> sp_inv s'.
Proof.
  intros [[Hl H1] Hv] [i pc l' pc' Hi Hn]. pose proof (count_nonneg is_holder (sp_threads s)) as H0.
  assert (Next : locked l' = count is_holder (sp_threads s) - Z.b2z (is_holder pc) + Z.b2z (is_holder pc') -> locked l' <= 1 -> (forall v, pc' = SpXchg v \/ pc' = SpWait v -> v = 1) ->
    sp_inv {| sp_lock := l'; sp_threads := <[i := pc']> (sp_threads s) |}).
  { intros El Hle Hr. constructor; cbn [sp_lock sp_threads]; [rewrite (count_insert _ _ _ _ _ Hi); lia|]. intros j v Hj. destruct (decide (i = j)) as [<-|Hne].
    - rewrite list_lookup_insert_eq in Hj by (by eapply lookup_lt_Some). apply Hr. naive_solver.
    - rewrite list_lookup_insert_ne in Hj by done. by apply (Hv j). }
  destruct Hn as [| |v|v| |]; cbn [fo_spinlock_lock fo_spinlock_unlock fo_spinlock_trylock xchg fst snd locked] in *.
  - apply Next; cbn; [lia|lia|naive_solver].
  - apply Next; cbn; [lia|lia|naive_solver].
  - assert (v = 1) as -> by (apply (Hv i); by left). destruct (Z.eqb_spec (locked (sp_lock s)) 0) as [E|E]; apply Next; cbn; try lia; intros v [?|?]; simplify_eq; lia.
  - assert (v = 1) as -> by (apply (Hv i); by right). destruct (Z.eqb_spec (locked (sp_lock s)) 0) as [E|E]; cbn [negb]; apply Next; cbn; try lia; naive_solver.
  - destruct (Z.eqb_spec (locked (sp_lock s)) 0) as [E|E]; cbn [Z.eqb Pos.eqb]; apply Next; cbn; try lia; naive_solver.
  - pose proof (count_in is_holder _ i SpHeld Hi eq_refl). apply Next; cbn; [lia|lia|naive_solver].
Qed.

Lemma sp_start_inv n : sp_inv (sp_start n).
Proof.
  assert (R : count is_holder (replicate n SOut) = 0) by (by apply count_replicate).
  constructor; cbn [sp_start sp_lock sp_threads fo_spinlock_init locked]; [by rewrite R|]. intros i v [[E _]%lookup_replicate|[E _]%lookup_replicate]; done.
Qed.

(** C26: the spin lock excludes.  For any number of threads that call lock, trylock and
    unlock (the holder only) in any interleaving, at most one holds the lock, and
    fo_spinlock_is_locked is 1 exactly while one does; a trylock on a free lock takes it and
    on a held one fails and changes nothing. *)
Theorem spinlock_exclusion n s :
  rtc sp_step (sp_start n) s ->
  (forall i j, sp_threads s !! i = Some SpHeld -> sp_threads s !! j = Some SpHeld -> i = j) /\
  ((exists i, sp_threads s !! i = Some SpHeld) -> fo_spinlock_is_locked (sp_lock s) = 1 /\ fo_spinlock_trylock (sp_lock s) = (sp_lock s, 0)) /\
  ((forall i, sp_threads s !! i <> Some SpHeld) -> fo_spinlock_is_locked (sp_lock s) = 0 /\ (fo_spinlock_trylock (sp_lock s)).2 = 1).
Proof.
  intros H. assert (I : sp_inv s) by (revert H; generalize (sp_start_inv n); generalize (sp_start n); intros s0 I0 H; induction H; eauto using sp_step_inv).
  destruct (si_word _ I) as [El H1]. unfold fo_spinlock_is_locked, fo_spinlock_trylock, xchg. split_and!.
  - intros i j Hi Hj. by apply (count_one is_holder (sp_threads s) i j SpHeld SpHeld).
  - intros [i Hi]. pose proof (count_in is_holder _ i SpHeld Hi eq_refl). assert (El1 : locked (sp_lock s) = 1) by lia. rewrite El1. split; [done|]. destruct (sp_lock s) as [w]. simpl in El1. by subst.
  - intros Hn. assert (count is_holder (sp_threads s) = 0) as E0.
    { clear -Hn. induction (sp_threads s) as [|x l IH]; [done|]. simpl. rewrite IH by (intros i; exact (Hn (S i))). specialize (Hn 0%nat). destruct x; done. }
    rewrite El, E0. done.
Qed.

(** ** Witnesses: two threads, one of them with the lock *)
Lemma rwlock_exclusion_witness :
  rtc rw_step (rw_start 2) {| rw_lock := {| cnt := -1 |}; rw_threads := [Writing; RdLoad] |} /\
  forall i j pc, i <> j -> [Writing; RdLoad] !! i = Some Writing -> [Writing; RdLoad] !! j = Some pc -> pc <> Writing /\ pc <> Reading.
Proof.
  assert (H : rtc rw_step (rw_start 2) {| rw_lock := {| cnt := -1 |}; rw_threads := [Writing; RdLoad] |}).
  { eapply rtc_l; [apply (rw_turn _ 0 ROut rwlock_init WrLoad); [reflexivity|constructor]|]. eapply rtc_l; [apply (rw_turn _ 1 ROut rwlock_init RdLoad); [reflexivity|constructor]|].
    eapply rtc_l; [apply (rw_turn _ 0 WrLoad {| cnt := 0 |} WrSet); [reflexivity|apply rn_wrload]|]. eapply rtc_l; [apply (rw_turn _ 0 WrSet {| cnt := -1 |} Writing); [reflexivity|apply rn_wrset]|]. apply rtc_refl. }
  split; [exact H|]. exact (proj1 (rwlock_exclusion 2 _ H)).
Defined.
Lemma spinlock_exclusion_witness :
  rtc sp_step (sp_start 2) {| sp_lock := {| locked := 1 |}; sp_threads := [SpHeld; SpWait 1] |} /\
  forall i j, [SpHeld; SpWait 1] !! i = Some SpHeld -> [SpHeld; SpWait 1] !! j = Some SpHeld -> i = j.
Proof.
  assert (H : rtc sp_step (sp_start 2) {| sp_lock := {| locked := 1 |}; sp_threads := [SpHeld; SpWait 1] |}).
  { eapply rtc_l; [apply (sp_turn _ 0 SOut fo_spinlock_init (SpXchg 1)); [reflexivity|constructor]|]. eapply rtc_l; [apply (sp_turn _ 1 SOut fo_spinlock_init (SpXchg 1)); [reflexivity|constructor]|].
    eapply rtc_l; [apply (sp_turn _ 0 (SpXchg 1) {| locked := 1 |} SpHeld); [reflexivity|apply sn_xchg]|]. eapply rtc_l; [apply (sp_turn _ 1 (SpXchg 1) {| locked := 1 |} (SpWait 1)); [reflexivity|apply sn_xchg]|]. apply rtc_refl. }
  split; [exact H|]. exact (proj1 (spinlock_exclusion 2 _ H)).
Defined.

End Locks.
