(* ===== verification/NetPkt.v ===== *)
(** * Packets and their decoders

    Model of src/code/network/packet: the buffer of netpkt.h, the decoders of
    Ethernet, ARP, IPv4, IPv6, TCP, UDP and ICMP headers, the IPv4 checksum, and the
    callback of sniffex.c that runs them.  A packet has its memory as a list of
    bytes; head, tail and the header pointers are offsets into it, and a read
    outside the memory is [OutOfBounds]. *)
From S2P Require Import Prelude CLib.

Module NetPkt.

Definition ETH_HLEN : Z := 14.
Definition IPV4_HLEN : Z := 20.
Definition ETHERTYPE_IP : Z := 0x0800.
Definition ETHERTYPE_ARP : Z := 0x0806.
Definition ETHERTYPE_VLAN : Z := 0x8100.
Definition ETHERTYPE_IPV6 : Z := 0x86dd.
Definition IPPROTO_ICMP : Z := 1.
Definition IPPROTO_TCP : Z := 6.
Definition IPPROTO_UDP : Z := 17.
Definition IPPROTO_FRAGMENT : Z := 44.
Definition IPPROTO_ICMPV6 : Z := 58.

(** ** netpkt.h *)

(** [np_mem] is None when the packet was made without data (head is NULL). *)
Record netpkt_t : Type := {
  np_mem : option (list Z); np_head : Z; np_tail : Z;
  eth : option Z; hdr2_len : Z; vlan_pcp : Z; vlan_cfi : Z; vlan_vid : Z;
  hdr3_type : Z; hdr3 : option Z; frag_id : Z; frag_off : Z; hdr3_len : Z;
  hdr4_type : Z; hdr4 : option Z; hdr4_len : Z }.

(** The length fields are unsigned, at most 32 bits. *)
Definition NETPKT_HLEN (p : netpkt_t) : Z := u32 (u32 (hdr2_len p + hdr3_len p) + hdr4_len p).
(** [int n = pkt->tail - pkt->head] and [int m = pkt->hdr2_len + pkt->hdr3_len]. *)
Definition pkt_len (p : netpkt_t) : Z := s32 (np_tail p - np_head p).
Definition hdr23_len (p : netpkt_t) : Z := s32 (u32 (hdr2_len p + hdr3_len p)).
Definition mem_of (p : netpkt_t) : list Z := match np_mem p with Some m => m | None => [] end.

(** The fields of each layer. *)
Definition set_range (p : netpkt_t) (m : list Z) (h t : Z) : netpkt_t :=
  {| np_mem := Some m; np_head := h; np_tail := t; eth := eth p; hdr2_len := hdr2_len p; vlan_pcp := vlan_pcp p; vlan_cfi := vlan_cfi p;
     vlan_vid := vlan_vid p; hdr3_type := hdr3_type p; hdr3 := hdr3 p; frag_id := frag_id p; frag_off := frag_off p; hdr3_len := hdr3_len p;
     hdr4_type := hdr4_type p; hdr4 := hdr4 p; hdr4_len := hdr4_len p |}.
Definition set_l2 (p : netpkt_t) (len pcp cfi vid type : Z) : netpkt_t :=
  {| np_mem := np_mem p; np_head := np_head p; np_tail := np_tail p; eth := Some (np_head p); hdr2_len := len; vlan_pcp := pcp; vlan_cfi := cfi;
     vlan_vid := vid; hdr3_type := type; hdr3 := hdr3 p; frag_id := frag_id p; frag_off := frag_off p; hdr3_len := hdr3_len p;
     hdr4_type := hdr4_type p; hdr4 := hdr4 p; hdr4_len := hdr4_len p |}.
Definition set_l3 (p : netpkt_t) (h : Z) (id off len type4 : Z) : netpkt_t :=
  {| np_mem := np_mem p; np_head := np_head p; np_tail := np_tail p; eth := eth p; hdr2_len := hdr2_len p; vlan_pcp := vlan_pcp p; vlan_cfi := vlan_cfi p;
     vlan_vid := vlan_vid p; hdr3_type := hdr3_type p; hdr3 := Some h; frag_id := id; frag_off := off; hdr3_len := len;
     hdr4_type := type4; hdr4 := hdr4 p; hdr4_len := hdr4_len p |}.
Definition set_l4 (p : netpkt_t) (h len : Z) : netpkt_t :=
  {| np_mem := np_mem p; np_head := np_head p; np_tail := np_tail p; eth := eth p; hdr2_len := hdr2_len p; vlan_pcp := vlan_pcp p; vlan_cfi := vlan_cfi p;
     vlan_vid := vlan_vid p; hdr3_type := hdr3_type p; hdr3 := hdr3 p; frag_id := frag_id p; frag_off := frag_off p; hdr3_len := hdr3_len p;
     hdr4_type := hdr4_type p; hdr4 := Some h; hdr4_len := len |}.

Definition netpkt_init (m : option (list Z)) : netpkt_t :=
  {| np_mem := m; np_head := 0; np_tail := 0; eth := None; hdr2_len := 0; vlan_pcp := 0; vlan_cfi := 0; vlan_vid := 0; hdr3_type := 0; hdr3 := None;
     frag_id := 0; frag_off := 0; hdr3_len := 0; hdr4_type := 0; hdr4 := None; hdr4_len := 0 |}.
(** [junk] is what malloc left in the data, [size] bytes. *)
Definition netpkt_alloc (junk : list Z) : netpkt_t := netpkt_init (match junk with [] => None | _ => Some junk end).

Definition netpkt_headroom (p : netpkt_t) : Z := s32 (np_head p).
Definition netpkt_tailroom (p : netpkt_t) : Z := s32 (Z.of_nat (length (mem_of p)) - np_tail p).

(** memcpy and memmove of [bytes] to the offset. *)
Definition write (m : list Z) (off : Z) (bytes : list Z) : res (list Z) :=
  if (off <? 0) || (Z.of_nat (length m) <? off + Z.of_nat (length bytes)) then Fault OutOfBounds
  else Ok (take (Z.to_nat off) m ++ bytes ++ drop (Z.to_nat off + length bytes) m).
Definition read (m : list Z) (off len : Z) : res (list Z) :=
  if (off <? 0) || (Z.of_nat (length m) <? off + len) then Fault OutOfBounds
  else Ok (take (Z.to_nat len) (drop (Z.to_nat off) m)).

(** A size_t compared with an int: a negative int is a large number. *)
Definition as_size (n : Z) : Z := u64 n.

Definition netpkt_reserve (p : netpkt_t) (len : Z) : res (netpkt_t * Z) :=
  if len <? 1 then Ok (p, -1) else
  let headroom := netpkt_headroom p in
  if headroom <? 0 then Ok (p, -1) else
  if len <=? headroom then Ok (p, 0) else
  let tailroom := netpkt_tailroom p in
  if tailroom <? 0 then Ok (p, -1) else
  if s32 (headroom + tailroom) <? len then Ok (p, -1) else
  if np_tail p =? np_head p then Ok (set_range p (mem_of p) len (np_tail p), 0)
  else
    let m := pkt_len p in
    if m <? 1 then Ok (p, -1) else
    let n := len - headroom in
    do bytes <- read (mem_of p) (np_head p + n) m;
    do mem <- write (mem_of p) (np_head p) bytes;
    Ok (set_range p mem (np_head p + n) (np_tail p + n), 0).

Definition netpkt_push_data (p : netpkt_t) (buf : option (list Z)) : res (netpkt_t * Z) :=
  match buf with
  | None | Some [] => Ok (p, -1)
  | Some buf =>
      if as_size (netpkt_headroom p) <=? Z.of_nat (length buf) then Ok (p, -1)
      else
        let h := np_head p - Z.of_nat (length buf) in
        do mem <- write (mem_of p) h buf;
        Ok (set_range p mem h (np_tail p), 0)
  end.

Definition netpkt_add_data (p : netpkt_t) (buf : option (list Z)) : res (netpkt_t * Z) :=
  match buf with
  | None | Some [] => Ok (p, -1)
  | Some buf =>
      if as_size (netpkt_tailroom p) <? Z.of_nat (length buf) then Ok (p, -1)
      else
        do mem <- write (mem_of p) (np_tail p) buf;
        Ok (set_range p mem (np_head p) (np_tail p + Z.of_nat (length buf)), 0)
  end.

(** ** Reading headers: network byte order *)
Definition be16 (m : list Z) (off : Z) : res Z := do a <- arr_get m off; do b <- arr_get m (off + 1); Ok (a * 2 ^ 8 + b).
Definition be32 (m : list Z) (off : Z) : res Z := do a <- be16 m off; do b <- be16 m (off + 2); Ok (a * 2 ^ 16 + b).

(** ** packet_eth.c *)
Definition eth_decode (p : netpkt_t) : res (netpkt_t * Z) :=
  match np_mem p with
  | None => Ok (p, -1)
  | Some m =>
      if pkt_len p <? ETH_HLEN then Ok (p, -1)
      else
        do type <- be16 m (np_head p + 12);
        if type =? ETHERTYPE_VLAN then
          do vlan <- be16 m (np_head p + ETH_HLEN);
          do type <- be16 m (np_head p + ETH_HLEN + 2);
          Ok (set_l2 p (ETH_HLEN + 4) (Z.land (Z.shiftr vlan 13) 7) (Z.land (Z.shiftr vlan 12) 1) (Z.land vlan 0xfff) type, 0)
        else Ok (set_l2 p ETH_HLEN (vlan_pcp p) (vlan_cfi p) (vlan_vid p) type, 0)
  end.

(** ** packet_arp.c: sizeof(struct arphdr) is 8, of arp_payload_t 20 *)
Definition arp_decode (p : netpkt_t) : res (netpkt_t * Z) :=
  match np_mem p with
  | None => Ok (p, -1)
  | Some m =>
      if negb (hdr3_type p =? ETHERTYPE_ARP) then Ok (p, -1)
      else if s32 (pkt_len p - s32 (hdr2_len p)) <? 8 + 20 then Ok (p, -1)
      else Ok (set_l3 p (np_head p + hdr2_len p) (frag_id p) (frag_off p) 8 (hdr4_type p), 0)
  end.

(** ** packet_ipv4.c *)
Definition ipv4_decode (p : netpkt_t) : res (netpkt_t * Z) :=
  if negb (hdr3_type p =? ETHERTYPE_IP) then Ok (p, -1) else
  match np_mem p with
  | None => Ok (p, -1)
  | Some m =>
      if as_size (s32 (pkt_len p - s32 (hdr2_len p))) <? 20 then Ok (p, -1)
      else
        let h := np_head p + hdr2_len p in
        do b <- arr_get m h;
        let len := Z.land b 15 * 4 in
        if len <? IPV4_HLEN then Ok (set_l3 p h (frag_id p) (frag_off p) len (hdr4_type p), -1)
        else
          do proto <- arr_get m (h + 9);
          Ok (set_l3 p h (frag_id p) (frag_off p) len proto, 0)
  end.

(** [len] 16-bit words. *)
Definition ipv4_cksum (w : list Z) : Z :=
  let len := Z.of_nat (length w) in
  if (len <? 10) || (30 <? len) || negb (len mod 2 =? 0) then -1 else
  let cksum := fold_left (fun s x => u32 (s + x)) w 0 in
  let cksum := u32 (Z.shiftr cksum 16 + Z.land cksum 0xffff) in
  let cksum := u32 (cksum + Z.shiftr cksum 16) in
  u16 (Z.lnot cksum).

(** ** packet_ipv6.c *)
Definition IP6HDR_IS_EXT (t : Z) : bool := (t =? 0) || (t =? 43) || (t =? IPPROTO_FRAGMENT) || (t =? 60) || (t =? 135).

(** The extension headers from offset [n]; [m] bytes of them are behind us. *)
Fixpoint ext_loop (fuel : nat) (mem : list Z) (n m nexthdr id off : Z) : res (Z * Z * Z * Z) :=
  match fuel with
  | O => Fault NoReturn
  | S fuel =>
      if IP6HDR_IS_EXT nexthdr then
        do nexthdr <- arr_get mem (n + m);
        if nexthdr =? IPPROTO_FRAGMENT then
          do id <- be32 mem (n + 4);
          do off <- be16 mem (n + 2);
          ext_loop fuel mem n (m + 8) nexthdr id off
        else
          do l <- arr_get mem (n + m + 1);
          ext_loop fuel mem n (m + (8 + Z.shiftl l 3)) nexthdr id off
      else Ok (m, nexthdr, id, off)
  end.

(** sizeof(struct ip6_hdr) is 40; hdr3_len has 16 bits. *)
Definition ipv6_decode (p : netpkt_t) : res (netpkt_t * Z) :=
  match np_mem p with
  | None => Ok (p, -1)
  | Some mem =>
      if negb (hdr3_type p =? ETHERTYPE_IPV6) then Ok (p, -1)
      else
        let h := np_head p + hdr2_len p in
        do v <- arr_get mem h;
        if negb (Z.shiftr v 4 =? 6) then Ok (set_l3 p h (frag_id p) (frag_off p) 40 (hdr4_type p), -1)
        else
          do nxt <- arr_get mem (h + 6);
          do (m, nxt, id, off) <- ext_loop (S (length mem)) mem (h + 40) 0 nxt (frag_id p) (frag_off p);
          Ok (set_l3 p h id off (u16 (40 + m)) nxt, 0)
  end.

(** ** Layer 4 *)
Definition tcp_decode (p : netpkt_t) : res (netpkt_t * Z) :=
  if negb (hdr4_type p =? IPPROTO_TCP) then Ok (p, -1) else
  match np_mem p with
  | None => Ok (p, -1)
  | Some m =>
      let h := np_head p + hdr23_len p in
      do b <- arr_get m (h + 12);
      Ok (set_l4 p h (Z.shiftr b 4 * 4), 0)
  end.

Definition udp_decode (p : netpkt_t) : res (netpkt_t * Z) :=
  if negb (hdr4_type p =? IPPROTO_UDP) then Ok (p, -1) else
  match np_mem p with
  | None => Ok (p, -1)
  | Some m =>
      let n := hdr23_len p in
      if as_size (s32 (pkt_len p - n)) <? 8 then Ok (p, -1)
      else Ok (set_l4 p (np_head p + n) (hdr4_len p), 0)
  end.

Definition icmpv4_decode (p : netpkt_t) : res (netpkt_t * Z) :=
  if negb (hdr4_type p =? IPPROTO_ICMP) then Ok (p, -1) else
  match np_mem p with
  | None => Ok (p, -1)
  | Some m =>
      if as_size (s32 (np_tail p - np_head p - u32 (hdr2_len p + hdr3_len p))) <? 8 then Ok (p, -1)
      else Ok (set_l4 p (np_head p + hdr23_len p) 8, 0)
  end.

Definition icmpv6_decode (p : netpkt_t) : res (netpkt_t * Z) :=
  if negb (hdr4_type p =? IPPROTO_ICMPV6) then Ok (p, -1) else
  match np_mem p with
  | None => Ok (p, -1)
  | Some m =>
      let n := hdr23_len p in
      if as_size (s32 (pkt_len p - n)) <? 8 then Ok (p, -1)
      else Ok (set_l4 p (np_head p + n) 8, 0)
  end.

(** ** sniffex.c: the callback of one captured packet, without its output *)
Definition decode_l3 (p : netpkt_t) : res (netpkt_t * Z) :=
  if hdr3_type p =? ETHERTYPE_ARP then arp_decode p
  else if hdr3_type p =? ETHERTYPE_IP then ipv4_decode p
  else if hdr3_type p =? ETHERTYPE_IPV6 then ipv6_decode p
  else Ok (p, 0).
Definition decode_l4 (p : netpkt_t) : res (netpkt_t * Z) :=
  if hdr4_type p =? IPPROTO_ICMP then icmpv4_decode p
  else if hdr4_type p =? IPPROTO_ICMPV6 then icmpv6_decode p
  else if hdr4_type p =? IPPROTO_UDP then udp_decode p
  else if hdr4_type p =? IPPROTO_TCP then tcp_decode p
  else Ok (p, 0).

(** [junk] is the fresh memory, as long as the captured bytes.  The result says
    whether the packet was counted; a frame that is no Ethernet frame ends the
    program. *)
Inductive sniffed : Type := Counted (p : netpkt_t) | Dropped (p : netpkt_t) | Exited.
Definition decode (junk bytes : list Z) : res sniffed :=
  let p := netpkt_alloc junk in
  do (p, _) <- netpkt_add_data p (Some bytes);
  do (p, rc) <- eth_decode p;
  if negb (rc =? 0) then Ok Exited else
  do (p, rc) <- decode_l3 p;
  if negb (rc =? 0) then Ok (Dropped p) else
  do (p, rc) <- decode_l4 p;
  if negb (rc =? 0) then Ok (Dropped p) else Ok (Counted p).
End NetPkt.
