(* ===== verification/NetPktProofs.v ===== *)
(** * Packets: decoding, checksum, and data operations *)
From S2P Require Import Prelude CLib NetPkt.

Module NetPktProofs.
Import NetPkt.

(** ** Writing and reading *)
Lemma write_tail m off bytes :
  0 <= off -> off + Z.of_nat (length bytes) <= Z.of_nat (length m) ->
  write m off bytes = Ok (take (Z.to_nat off) m ++ bytes ++ drop (Z.to_nat off + length bytes) m).
Proof. intros H0 H1. unfold write. rewrite (proj2 (Z.ltb_ge off 0)), (proj2 (Z.ltb_ge (Z.of_nat (length m)) _)) by lia. done. Qed.

Lemma add_data_fresh junk bytes :
  bytes <> [] -> length junk = length bytes -> Z.of_nat (length bytes) < 2 ^ 31 ->
  netpkt_add_data (netpkt_alloc junk) (Some bytes) = Ok (set_range (netpkt_init (Some junk)) bytes 0 (Z.of_nat (length bytes)), 0).
Proof.
  intros Hne Hl Hs. unfold netpkt_add_data, netpkt_alloc. destruct bytes as [|b bytes]; [done|]. destruct junk as [|j junk]; [done|].
  set (bs := b :: bytes) in *. set (js := j :: junk) in *. unfold netpkt_tailroom, as_size. cbn [mem_of netpkt_init np_mem np_tail np_head].
  rewrite Z.sub_0_r, s32_small by lia. unfold u64. rewrite Z.mod_small by lia. rewrite (proj2 (Z.ltb_ge _ _)) by lia. rewrite write_tail by lia. cbn [bind]. change (Z.to_nat 0) with 0%nat. rewrite take_0, Nat.add_0_l, <- Hl, drop_all. cbn [app]. by rewrite app_nil_r.
Qed.

Lemma get_app_l {A} (a b : list A) (i : nat) x : a !! i = Some x -> arr_get (a ++ b) (Z.of_nat i) = Ok x.
Proof. intros H. apply arr_get_nat. by apply lookup_app_l_Some. Qed.
Lemma get_app_r {A} (a b : list A) (i : nat) x k : b !! i = Some x -> k = Z.of_nat (length a + i) -> arr_get (a ++ b) k = Ok x.
Proof. intros H ->. apply arr_get_nat. rewrite lookup_app_r by lia. by replace (length a + i - length a)%nat with i by lia. Qed.

(** The state after eth_decode of an IPv4 frame in fresh memory. *)
Definition after_eth (junk bytes : list Z) : netpkt_t := set_l2 (set_range (netpkt_init (Some junk)) bytes 0 (Z.of_nat (length bytes))) 14 0 0 0 ETHERTYPE_IP.

Lemma decode_ip_prefix junk e rest b proto :
  length junk = length (e ++ rest) -> Z.of_nat (length (e ++ rest)) < 2 ^ 31 -> length e = 14%nat -> e !! 12%nat = Some 8 -> e !! 13%nat = Some 0 ->
  (20 <= length rest)%nat -> rest !! 0%nat = Some b -> 20 <= Z.land b 15 * 4 -> rest !! 9%nat = Some proto ->
  decode junk (e ++ rest) =
    (do (p, rc) <- decode_l4 (set_l3 (after_eth junk (e ++ rest)) 14 0 0 (Z.land b 15 * 4) proto);
     if negb (rc =? 0) then Ok (Dropped p) else Ok (Counted p)).
Proof.
  intros Hj Hs He H12 H13 Hr H0 Hb H9. assert (Hne : e ++ rest <> []) by (destruct e; done). assert (Hlen : length (e ++ rest) = (14 + length rest)%nat) by (rewrite length_app; lia).
  unfold decode. rewrite add_data_fresh by done. cbn [bind]. unfold eth_decode. cbn [set_range np_mem np_head np_tail].
  unfold pkt_len at 1. cbn [set_range np_head np_tail]. rewrite (s32_small (_ - 0)) by lia. rewrite (proj2 (Z.ltb_ge _ ETH_HLEN)) by (unfold ETH_HLEN; lia). unfold be16. change (0 + 12) with (Z.of_nat 12). change (Z.of_nat 12 + 1) with (Z.of_nat 13).
  rewrite (get_app_l e rest _ _ H12), (get_app_l e rest _ _ H13). cbn [bind]. change (8 * 2 ^ 8 + 0) with ETHERTYPE_IP. change (ETHERTYPE_IP =? ETHERTYPE_VLAN) with false.
  cbn [bind negb Z.eqb]. change (set_l2 _ _ _ _ _ _) with (after_eth junk (e ++ rest)).
  change (decode_l3 (after_eth junk (e ++ rest))) with (ipv4_decode (after_eth junk (e ++ rest))).
  unfold ipv4_decode, as_size, u64, pkt_len. cbn [after_eth set_l2 set_range np_mem np_head np_tail hdr2_len hdr3_type]. change (ETHERTYPE_IP =? ETHERTYPE_IP) with true. cbn [negb].
  rewrite (s32_small 14), (s32_small (_ - 0)), (s32_small (_ - 14)) by lia. rewrite Z.mod_small by lia. rewrite (proj2 (Z.ltb_ge _ 20)) by lia.
  rewrite (get_app_r e rest 0 b (0 + 14)) by (try done; lia). cbn [bind]. rewrite (proj2 (Z.ltb_ge _ IPV4_HLEN)) by (unfold IPV4_HLEN; lia).
  rewrite (get_app_r e rest 9 proto (0 + 14 + 9)) by (try done; lia). cbn [bind negb Z.eqb]. done.
Qed.

Lemma hdr23_small p : 0 <= hdr2_len p + hdr3_len p < 2 ^ 31 -> hdr23_len p = hdr2_len p + hdr3_len p.
Proof. intros H. unfold hdr23_len. rewrite u32_small by lia. apply s32_small. lia. Qed.

(** C22: decoding a TCP frame.  A frame shorter than 2^31 bytes, made of an Ethernet header for IPv4, an IPv4
    header of its stated length (at least 20 bytes) for TCP, a TCP header of its stated
    length and any payload is counted; the decoded header length is the sum of the
    three headers, the header pointers are at their starts, and what follows
    the headers in the packet is the payload. *)
Theorem tcp_frame_decodes junk e ip tcp data b c :
  let frame := e ++ ip ++ tcp ++ data in
  length junk = length frame -> Z.of_nat (length frame) < 2 ^ 31 -> length e = 14%nat -> e !! 12%nat = Some 8 -> e !! 13%nat = Some 0 ->
  ip !! 0%nat = Some b -> Z.land b 15 * 4 = Z.of_nat (length ip) -> (20 <= length ip)%nat -> ip !! 9%nat = Some IPPROTO_TCP ->
  tcp !! 12%nat = Some c -> Z.shiftr c 4 * 4 = Z.of_nat (length tcp) ->
  exists p, decode junk frame = Ok (Counted p) /\ hdr3 p = Some 14 /\ hdr4 p = Some (Z.of_nat (14 + length ip)) /\
    NETPKT_HLEN p = Z.of_nat (14 + length ip + length tcp) /\ mem_of p = frame /\ drop (Z.to_nat (NETPKT_HLEN p)) (mem_of p) = data.
Proof.
  intros frame Hj Hs He H12 H13 H0 Hb Hip H9 Hc Hd. subst frame.
  rewrite (decode_ip_prefix junk e (ip ++ tcp ++ data) b IPPROTO_TCP); try done; [|rewrite !length_app; lia|by apply lookup_app_l_Some|lia|by apply lookup_app_l_Some].
  set (p := set_l3 _ _ _ _ _ _). change (decode_l4 p) with (tcp_decode p). unfold tcp_decode. subst p. cbn [set_l3 after_eth set_l2 set_range np_mem np_head hdr2_len hdr3_len hdr4_type].
  change (IPPROTO_TCP =? IPPROTO_TCP) with true. cbn [negb]. rewrite !length_app in Hs.
  rewrite hdr23_small by (cbn [set_l3 after_eth set_l2 set_range hdr2_len hdr3_len]; lia). cbn [set_l3 after_eth set_l2 set_range hdr2_len hdr3_len]. rewrite Hb.
  assert (Hget : arr_get (e ++ ip ++ tcp ++ data) (0 + (14 + Z.of_nat (length ip)) + 12) = Ok c).
  { apply (get_app_r e (ip ++ tcp ++ data) (length ip + 12)); [|lia]. rewrite lookup_app_r by lia. replace (length ip + 12 - length ip)%nat with 12%nat by lia. by apply lookup_app_l_Some. }
  rewrite Hget. cbn [bind negb Z.eqb]. eexists. split; [done|]. unfold NETPKT_HLEN, mem_of. cbn [set_l4 set_l3 after_eth set_l2 set_range np_mem hdr2_len hdr3 hdr4 hdr3_len hdr4_len]. rewrite Hd, (u32_small (14 + _)), u32_small by lia.
  split_and!; [done|f_equal; lia|lia|done|]. replace (Z.to_nat (14 + Z.of_nat (length ip) + Z.of_nat (length tcp))) with (length (e ++ ip ++ tcp)) by (rewrite !length_app; lia).
  replace (e ++ ip ++ tcp ++ data) with ((e ++ ip ++ tcp) ++ data) by (by rewrite <- !app_assoc). by rewrite drop_app_length.
Qed.

(** A TCP frame that ends before the data offset of its TCP header makes the
    decoder read behind the packet: tcp_decode does not look at the length. *)
Theorem tcp_decode_short junk e rest b :
  length junk = length (e ++ rest) -> length e = 14%nat -> e !! 12%nat = Some 8 -> e !! 13%nat = Some 0 ->
  (20 <= length rest)%nat -> rest !! 0%nat = Some b -> 20 <= Z.land b 15 * 4 -> rest !! 9%nat = Some IPPROTO_TCP ->
  Z.of_nat (length rest) <= Z.land b 15 * 4 + 12 ->
  decode junk (e ++ rest) = Fault OutOfBounds.
Proof.
  intros Hj He H12 H13 Hr H0 Hb H9 Hshort. assert (Hb15 : Z.land b 15 <= 15) by (change 15 with (Z.ones 4) at 1; rewrite Z.land_ones by lia; pose proof (Z.mod_pos_bound b (2 ^ 4)); lia).
  rewrite (decode_ip_prefix junk e rest b IPPROTO_TCP); try done; [|rewrite length_app; lia].
  set (p := set_l3 _ _ _ _ _ _). change (decode_l4 p) with (tcp_decode p). unfold tcp_decode. subst p. cbn [set_l3 after_eth set_l2 set_range np_mem np_head hdr2_len hdr3_len hdr4_type].
  change (IPPROTO_TCP =? IPPROTO_TCP) with true. cbn [negb]. rewrite hdr23_small by (cbn [set_l3 after_eth set_l2 set_range hdr2_len hdr3_len]; lia). cbn [set_l3 after_eth set_l2 set_range hdr2_len hdr3_len].
  assert (Hf : arr_get (e ++ rest) (0 + (14 + Z.land b 15 * 4) + 12) = Fault OutOfBounds).
  { apply arr_get_Fault. split; [done|]. right. rewrite length_app. lia. }
  rewrite Hf. done.
Qed.

(** ** The checksum *)
Definition wsum (w : list Z) : Z := fold_right Z.add 0 w.

Lemma wsum_bound w : Forall (fun x => 0 <= x < 2 ^ 16) w -> 0 <= wsum w <= Z.of_nat (length w) * (2 ^ 16 - 1).
Proof. induction 1 as [|x w Hx _ IH]; simpl; [done|]. unfold wsum in *. simpl. lia. Qed.

Lemma sum_loop w s : Forall (fun x => 0 <= x < 2 ^ 16) w -> 0 <= s -> s + wsum w < 2 ^ 32 -> fold_left (fun s x => u32 (s + x)) w s = s + wsum w.
Proof.
  intros Hw. revert s. induction Hw as [|x w Hx Hw IH]; intros s H0 Hs; simpl in *; [lia|]. pose proof (wsum_bound w Hw). unfold wsum in *. simpl in Hs.
  rewrite u32_small by lia. rewrite IH by lia. lia.
Qed.

(** The two folds give the one's complement sum. *)
Definition fold16 (s : Z) : Z := let a := Z.shiftr s 16 + Z.land s 0xffff in (a + Z.shiftr a 16) mod 2 ^ 16.
Lemma fold16_spec s : 0 <= s <= 31 * 2 ^ 16 -> 0 <= fold16 s < 2 ^ 16 /\ (fold16 s - s) mod 65535 = 0 /\ (fold16 s = 0 -> s = 0).
Proof.
  intros Hs. unfold fold16. change (Z.land s 0xffff) with (Z.land s (Z.ones 16)). rewrite Z.land_ones, !Z.shiftr_div_pow2 by lia.
  pose proof (Z.div_mod s (2 ^ 16) ltac:(lia)) as E. pose proof (Z.mod_pos_bound s (2 ^ 16) ltac:(lia)) as Hr. set (q := s / 2 ^ 16) in *. set (r := s mod 2 ^ 16) in *. assert (Hq : 0 <= q <= 31) by lia.
  destruct (Z.lt_ge_cases (q + r) (2 ^ 16)) as [Hlt|Hge].
  - rewrite (Z.div_small (q + r)), Z.add_0_r, Z.mod_small by lia. split_and!; [lia|lia| |intros; lia]. replace (q + r - s) with ((- q) * 65535) by lia. apply Z.mod_mul. lia.
  - assert (Hd : (q + r) / 2 ^ 16 = 1) by (symmetry; apply (Z.div_unique _ _ _ (q + r - 2 ^ 16)); lia). rewrite Hd.
    replace (q + r + 1) with (q + r - 65535 + 1 * 2 ^ 16) by lia. rewrite Z.mod_add, Z.mod_small by lia. split_and!; [lia|lia| |intros; lia].
    replace (q + r - 65535 - s) with ((- q - 1) * 65535) by lia. apply Z.mod_mul. lia.
Qed.

Definition header_size (w : list Z) : Prop := (10 <= length w <= 30)%nat /\ Z.of_nat (length w) mod 2 = 0.

Lemma cksum_fold w : header_size w -> Forall (fun x => 0 <= x < 2 ^ 16) w -> ipv4_cksum w = 2 ^ 16 - 1 - fold16 (wsum w).
Proof.
  intros [Hl He] Hw. pose proof (wsum_bound w Hw) as Hb. unfold ipv4_cksum. rewrite (proj2 (Z.ltb_ge _ 10)), (proj2 (Z.ltb_ge 30 _)), (proj2 (Z.eqb_eq _ 0) He) by lia. cbn [orb negb].
  rewrite sum_loop by (try done; lia). rewrite Z.add_0_l. set (s := wsum w) in *. assert (Hs : 0 <= s <= 31 * 2 ^ 16) by lia.
  assert (Ha : 0 <= Z.shiftr s 16 + Z.land s 0xffff < 2 ^ 31).
  { change (Z.land s 0xffff) with (Z.land s (Z.ones 16)). rewrite Z.land_ones, Z.shiftr_div_pow2 by lia. pose proof (Z.mod_pos_bound s (2 ^ 16)). pose proof (Z.div_mod s (2 ^ 16)). lia. }
  rewrite (u32_small (Z.shiftr s 16 + _)) by lia. set (a := Z.shiftr s 16 + Z.land s 0xffff) in *.
  assert (Hsh : 0 <= Z.shiftr a 16 <= a) by (rewrite Z.shiftr_div_pow2 by lia; pose proof (Z.div_mod a (2 ^ 16)); pose proof (Z.mod_pos_bound a (2 ^ 16)); lia).
  rewrite u32_small by lia. unfold fold16. fold a. set (b := a + Z.shiftr a 16). unfold u16, Z.lnot.
  pose proof (Z.div_mod b (2 ^ 16) ltac:(lia)). pose proof (Z.mod_pos_bound b (2 ^ 16) ltac:(lia)). symmetry. apply (Z.mod_unique _ _ (- (b / 2 ^ 16) - 1)); lia.
Qed.

Lemma wsum_insert w i x c : w !! i = Some x -> wsum (<[i := c]> w) = wsum w - x + c.
Proof. revert i. induction w as [|y w IH]; intros [|i] Hi; [done|done|injection Hi as ->; unfold wsum; simpl; lia|]. specialize (IH i Hi). unfold wsum in *. simpl. lia. Qed.

(** C23: the checksum verifies.  For a header of 10 to 30 words (an even number) whose
    checksum word is zero, storing the value ipv4_cksum returns in that word and summing
    again gives 0, the test a receiver applies; the value is a 16-bit word. *)
Theorem ipv4_cksum_verifies w i :
  header_size w -> Forall (fun x => 0 <= x < 2 ^ 16) w -> w !! i = Some 0 ->
  0 <= ipv4_cksum w < 2 ^ 16 /\ ipv4_cksum (<[i := ipv4_cksum w]> w) = 0.
Proof.
  intros Hh Hw Hi. rewrite (cksum_fold w Hh Hw). pose proof (wsum_bound w Hw) as Hb. destruct Hh as [Hl He].
  destruct (fold16_spec (wsum w)) as (Hr & Hm & Hz); [lia|]. set (c := 2 ^ 16 - 1 - fold16 (wsum w)) in *. split; [lia|].
  rewrite cksum_fold; [|split; by rewrite length_insert|apply Forall_insert; [done|lia]]. rewrite (wsum_insert w i 0 c Hi).
  destruct (fold16_spec (wsum w - 0 + c)) as (Hr' & Hm' & Hz'); [lia|]. set (f := fold16 (wsum w - 0 + c)) in *.
  apply Z.mod_divide in Hm as [u Hu]; [|lia]. apply Z.mod_divide in Hm' as [v Hv]; [|lia].
  assert (Hf : f = (v + 1 - u) * 65535) by lia. assert (Hn0 : f <> 0) by (intros E; specialize (Hz' E); assert (wsum w = 0) as Ew by lia; rewrite Ew in *; change (fold16 0) with 0 in *; lia). nia.
Qed.

Definition sample_header : list Z := [0x4500; 0x73; 0; 0x4000; 0x4011; 0; 0xc0a8; 1; 0xc0a8; 0xc7].
Lemma ipv4_cksum_verifies_witness : 0 <= ipv4_cksum sample_header < 2 ^ 16 /\ ipv4_cksum (<[5%nat := ipv4_cksum sample_header]> sample_header) = 0.
Proof. apply (ipv4_cksum_verifies sample_header 5); [split; [vm_compute; lia|reflexivity]|apply (bool_decide_unpack _); vm_compute; exact I|reflexivity]. Defined.

Definition sample_eth : list Z := replicate 12 0 ++ [8; 0].
Definition sample_ip : list Z := 69 :: replicate 8 0 ++ [6] ++ replicate 10 0.
Definition sample_tcp : list Z := replicate 12 0 ++ [80] ++ replicate 7 0.
Lemma tcp_frame_decodes_witness :
  exists p, decode (replicate 57 0) (sample_eth ++ sample_ip ++ sample_tcp ++ [1; 2; 3]) = Ok (Counted p) /\ hdr3 p = Some 14 /\ hdr4 p = Some (Z.of_nat (14 + 20)) /\
    NETPKT_HLEN p = Z.of_nat (14 + 20 + 20) /\ mem_of p = sample_eth ++ sample_ip ++ sample_tcp ++ [1; 2; 3] /\ drop (Z.to_nat (NETPKT_HLEN p)) (mem_of p) = [1; 2; 3].
Proof. apply (tcp_frame_decodes (replicate 57 0) sample_eth sample_ip sample_tcp [1; 2; 3] 69 80); (reflexivity || (vm_compute; lia)). Defined.
Lemma tcp_decode_short_witness : decode (replicate 40 0) (sample_eth ++ (sample_ip ++ replicate 6 0)) = Fault OutOfBounds.
Proof. apply (tcp_decode_short (replicate 40 0) sample_eth (sample_ip ++ replicate 6 0) 69); (reflexivity || (vm_compute; (lia || congruence))). Defined.

(** ** Data operations *)
Definition np_ok (p : netpkt_t) : Prop := 0 <= np_head p <= np_tail p /\ np_tail p <= Z.of_nat (length (mem_of p)) < 2 ^ 31.
Definition contents (p : netpkt_t) : list Z := take (Z.to_nat (np_tail p - np_head p)) (drop (Z.to_nat (np_head p)) (mem_of p)).

Lemma contents_split p : np_ok p -> mem_of p = take (Z.to_nat (np_head p)) (mem_of p) ++ contents p ++ drop (Z.to_nat (np_tail p)) (mem_of p).
Proof.
  intros [Hh Ht]. unfold contents. replace (drop (Z.to_nat (np_tail p)) (mem_of p)) with (drop (Z.to_nat (np_tail p - np_head p)) (drop (Z.to_nat (np_head p)) (mem_of p))).
  - by rewrite !take_drop.
  - rewrite drop_drop. f_equal. lia.
Qed.

Lemma contents_of m h a b c p :
  m = a ++ b ++ c -> h = Z.of_nat (length a) -> contents (set_range p m h (h + Z.of_nat (length b))) = b.
Proof.
  intros -> ->. unfold contents. cbn [set_range np_head np_tail mem_of np_mem]. rewrite Nat2Z.id, drop_app_length. replace (Z.to_nat _) with (length b) by lia. apply take_app_length.
Qed.

(** Data that fits the tail room is appended; data smaller than the head room is put
    in front (data that fills it exactly is refused). *)
Theorem netpkt_data_ops p buf :
  np_ok p -> buf <> [] ->
  (exists p', netpkt_add_data p (Some buf) = Ok (p', if netpkt_tailroom p <? Z.of_nat (length buf) then -1 else 0) /\
     contents p' = if netpkt_tailroom p <? Z.of_nat (length buf) then contents p else contents p ++ buf) /\
  (exists p', netpkt_push_data p (Some buf) = Ok (p', if netpkt_headroom p <=? Z.of_nat (length buf) then -1 else 0) /\
     contents p' = if netpkt_headroom p <=? Z.of_nat (length buf) then contents p else buf ++ contents p).
Proof.
  intros Hp Hb. pose proof (contents_split p Hp) as E. destruct Hp as [Hh Ht]. unfold netpkt_add_data, netpkt_push_data. destruct buf as [|b0 buf0]; [done|]. set (buf := b0 :: buf0) in *.
  assert (Hct : length (contents p) = Z.to_nat (np_tail p - np_head p)) by (unfold contents; rewrite length_take, length_drop; lia).
  unfold as_size, u64, netpkt_headroom. rewrite (s32_small (np_head p)) by lia. assert (Htr : netpkt_tailroom p = Z.of_nat (length (mem_of p)) - np_tail p) by (apply s32_small; lia). rewrite !Htr. rewrite !Z.mod_small by lia. split.
  - destruct (Z.ltb_spec (Z.of_nat (length (mem_of p)) - np_tail p) (Z.of_nat (length buf))) as [Hlt|Hge]; [by exists p|]. rewrite write_tail by lia. cbn [bind]. eexists. split; [done|].
    assert (Htk : take (Z.to_nat (np_tail p)) (mem_of p) = take (Z.to_nat (np_head p)) (mem_of p) ++ contents p).
    { rewrite E at 1. rewrite app_assoc. apply take_app_length'. rewrite length_app, length_take. lia. }
    rewrite Htk. replace (np_tail p + Z.of_nat (length buf)) with (np_head p + Z.of_nat (length (contents p ++ buf))) by (rewrite length_app; lia).
    eapply (contents_of _ _ (take (Z.to_nat (np_head p)) (mem_of p))); [|rewrite length_take; lia]. by rewrite <- !app_assoc.
  - destruct (Z.leb_spec (np_head p) (Z.of_nat (length buf))) as [Hle|Hgt]; [by exists p|]. rewrite write_tail by lia. cbn [bind]. eexists. split; [done|].
    replace (np_tail p) with (np_head p - Z.of_nat (length buf) + Z.of_nat (length (buf ++ contents p))) at 1 by (rewrite length_app; lia).
    eapply (contents_of _ _ (take (Z.to_nat (np_head p - Z.of_nat (length buf))) (mem_of p))); [|rewrite length_take; lia].
    replace (Z.to_nat (np_head p - Z.of_nat (length buf)) + length buf)%nat with (Z.to_nat (np_head p)) by lia.
    assert (Hdr : drop (Z.to_nat (np_head p)) (mem_of p) = contents p ++ drop (Z.to_nat (np_tail p)) (mem_of p)).
    { rewrite E at 1. apply drop_app_length'. rewrite length_take. lia. }
    rewrite Hdr. by rewrite <- !app_assoc.
Qed.

(** netpkt_reserve moves the bytes the wrong way: the data is gone. *)
Example netpkt_reserve_loses_data :
  match netpkt_reserve (set_range (netpkt_init None) [1; 2; 3; 0; 0; 0] 0 3) 2 with Ok (p, rc) => rc = 0 /\ contents p = [0; 0; 0] | Fault _ => False end.
Proof. vm_compute. done. Qed.

(** A VLAN frame without room for the tag, and an IPv4 header behind a tag that
    ends the packet: the length is negative and compares as a large number. *)
Example eth_decode_short_vlan : decode (replicate 15 0) (replicate 12 0 ++ [0x81; 0; 0]) = Fault OutOfBounds.
Proof. vm_compute. done. Qed.
Example ipv4_decode_negative_length :
  ipv4_decode (set_l2 (set_range (netpkt_init None) (replicate 14 0 ++ [0; 0; 8; 0]) 0 16) 18 0 0 0 ETHERTYPE_IP) = Fault OutOfBounds.
Proof. vm_compute. done. Qed.
End NetPktProofs.
