(* ===== verification/TcpStream.v ===== *)
(** * TCP streams

    Model of src/code/network/packet/tcp_stream.c: the tuple of a stream and its
    hash (jhash.h), the state machine, and the queue of out-of-order segments.  A
    queued packet is named by an identifier; the array of a queue is a list of slots,
    None being memory that was never written, and reading it faults like reading
    freed memory.  A function whose result variable was not set returns None. *)
From S2P Require Import Prelude CLib IpAddr NetPkt.

Module TcpStream.
Import IpAddr NetPkt.

Definition TCP_PKTQ_MAX : Z := 128.
Definition TCP_PKTQ_INC : Z := 16.

(** States *)
Definition TCP_ST_SYN : Z := 0.
Definition TCP_ST_SYN_ACK : Z := 1.
Definition TCP_ST_EST : Z := 2.
Definition TCP_ST_FIN1 : Z := 3.
Definition TCP_ST_FIN1_ACK : Z := 4.
Definition TCP_ST_FIN2 : Z := 5.
Definition TCP_ST_CLOSE : Z := 6.

Record tcp_tup_t : Type := { tup_src : ip_port_t; tup_dst : ip_port_t }.
(** A pointer to a packet: NULL, a packet, or a packet that was freed. *)
Inductive pktptr : Type := PNull | PLive (id : positive) | PFreed.
(** [tk_off] is None as long as nothing was stored there. *)
Record tcp_pkt_t : Type := { tk_seq : Z; tk_len : Z; tk_off : option Z; tk_pkt : pktptr }.
Record tcp_pktq_t : Type := {
  q_pkts : option (list (option tcp_pkt_t)); q_npkt : Z; q_max : Z; q_len : Z; q_nassembly : Z; q_first_seq : Z }.
(** [t_seqs] are seqacks[0].seq and seqacks[1].seq; the tuple a stream begins with
    is kept by its owner (SslDump.v). *)
Record tcp_stream_t : Type := { t_seqs : Z * Z; t_pktqs : tcp_pktq_t * tcp_pktq_t; t_state : Z }.

Definition zero_pktq : tcp_pktq_t := {| q_pkts := None; q_npkt := 0; q_max := 0; q_len := 0; q_nassembly := 0; q_first_seq := 0 |}.
Definition zero_stream : tcp_stream_t := {| t_seqs := (0, 0); t_pktqs := (zero_pktq, zero_pktq); t_state := TCP_ST_SYN |}.
Definition tcp_stream_alloc (ok : bool) : option tcp_stream_t := if ok then Some zero_stream else None.
(** What ssldump.c makes of it for a SYN with sequence number [seq]. *)
Definition syn_stream (t : tcp_stream_t) (seq : Z) : tcp_stream_t := {| t_seqs := (seq, (t_seqs t).2); t_pktqs := t_pktqs t; t_state := TCP_ST_SYN |}.

(** ** The fields of a TCP header the stream looks at *)
Record tcphdr : Type := { h_seq : Z; h_fin : bool; h_syn : bool; h_rst : bool; h_psh : bool; h_ack : bool }.
Definition tcp_header (p : netpkt_t) (h : Z) : res tcphdr :=
  do seq <- be32 (mem_of p) (h + 4);
  do f <- arr_get (mem_of p) (h + 13);
  Ok {| h_seq := seq; h_fin := Z.testbit f 0; h_syn := Z.testbit f 1; h_rst := Z.testbit f 2; h_psh := Z.testbit f 3; h_ack := Z.testbit f 4 |}.

(** The element of an array of two. *)
Definition side {A} (x : A * A) (dir : Z) : res A := if dir =? 0 then Ok x.1 else if dir =? 1 then Ok x.2 else Fault OutOfBounds.
Definition set_side {A} (x : A * A) (dir : Z) (a : A) : A * A := if dir =? 0 then (a, x.2) else (x.1, a).

Definition tcp_check_seq (t : tcp_stream_t) (h : tcphdr) (dir : Z) : res Z :=
  do seq <- side (t_seqs t) (Z.rem dir 2);
  Ok (if seq =? 0 then 0 else if h_seq h <=? seq then -1 else 0).

(** ** The queue *)

(** realloc fails, gives back the same block, or moves (and frees) it. *)
Inductive moved : Type := Failed | Same | Moved.

Definition set_pkts (q : tcp_pktq_t) (l : list (option tcp_pkt_t)) : tcp_pktq_t :=
  {| q_pkts := Some l; q_npkt := q_npkt q; q_max := q_max q; q_len := q_len q; q_nassembly := q_nassembly q; q_first_seq := q_first_seq q |}.

(** When the block has moved, the old one is freed a second time.  [q_max] keeps
    its value. *)
Definition tcp_pktq_init (q : tcp_pktq_t) (max : Z) (a : moved) : res (tcp_pktq_t * Z) :=
  let grown l := take (Z.to_nat max) l ++ replicate (Z.to_nat max - length l) None in
  match a, q_pkts q with
  | Failed, _ => Ok (q, -1)
  | _, None => Ok (set_pkts q (grown []), 0)
  | Same, Some l => Ok (set_pkts q (grown l), 0)
  | Moved, Some _ => Fault UseAfterFree
  end.

(** The loop ends only when the two bounds meet. *)
Fixpoint find_pos_loop (fuel : nat) (l : list (option tcp_pkt_t)) (seq size lo hi : Z) : res Z :=
  match fuel with
  | O => Fault NoReturn
  | S fuel =>
      let m := Z.quot (lo + hi) 2 in
      do slot <- arr_get l m;
      do pkt <- deref slot;
      let next (lo hi : Z) : res Z := if lo =? hi then Ok lo else find_pos_loop fuel l seq size lo hi in
      if tk_seq pkt <? seq then
        if seq <? u32 (tk_seq pkt + tk_len pkt) then Ok (-1) else next (m + 1) hi
      else if seq <? tk_seq pkt then
        if tk_seq pkt <? u32 (seq + size) then Ok (-1) else next lo (m - 1)
      else Ok (-1)
  end.

Definition tcp_pktq_find_pos (fuel : nat) (q : tcp_pktq_t) (seq size : Z) : res Z :=
  if q_npkt q =? 0 then Ok 0
  else match q_pkts q with
       | None => Fault NullDeref
       | Some l => find_pos_loop fuel l seq size 0 (q_npkt q)
       end.

(** [size] bytes of payload from sequence number [seq], of the packet [id]; npkt is
    not incremented and the offset of the slot is not stored. *)
Definition tcp_pktq_add (q : tcp_pktq_t) (size seq : Z) (id : positive) (a : moved) : res (tcp_pktq_t * Z) :=
  if size <? 0 then Ok (q, -1)
  else if size =? 0 then Ok (q, 0)
  else if TCP_PKTQ_MAX <=? q_npkt q then Ok (q, -1)
  else
    do (q, rc) <- (if q_npkt q =? q_max q then tcp_pktq_init q (q_max q + TCP_PKTQ_INC) a else Ok (q, 0));
    if negb (rc =? 0) then Ok (q, -1) else
    do pos <- tcp_pktq_find_pos 1000 q seq size;
    if pos <? 0 then Ok (q, -1) else
    match q_pkts q with
    | None => Fault NullDeref
    | Some l =>
        (* memmove of the slots pos .. npkt-1 by one *)
        let n := Z.to_nat (q_npkt q - pos) in
        let p := Z.to_nat pos in
        if (0 <? q_npkt q - pos) && (length l <? S p + n)%nat then Fault OutOfBounds else
        let l := if 0 <? q_npkt q - pos then take (S p) l ++ take n (drop p l) ++ drop (S p + n) l else l in
        do old <- arr_get l pos;
        do l <- arr_set l pos (Some {| tk_seq := seq; tk_len := u16 size; tk_off := (match old with Some o => tk_off o | None => None end); tk_pkt := PLive id |});
        let q := set_pkts q l in
        let q := if q_first_seq q =? seq then
                   {| q_pkts := q_pkts q; q_npkt := q_npkt q; q_max := q_max q; q_len := u32 (q_len q + size); q_nassembly := u32 (q_nassembly q + 1);
                      q_first_seq := u32 (seq + size) |}
                 else q in
        Ok (q, s32 (q_len q))
    end.

(** free of a packet: no pointer to it is good any more. *)
Definition free_pkt (l : list (option tcp_pkt_t)) (ptr : pktptr) : res (list (option tcp_pkt_t)) :=
  match ptr with
  | PNull => Ok l
  | PFreed => Fault UseAfterFree
  | PLive id =>
      Ok (map (option_map (fun k =>
            match tk_pkt k with
            | PLive id' => if bool_decide (id' = id) then {| tk_seq := tk_seq k; tk_len := tk_len k; tk_off := tk_off k; tk_pkt := PFreed |} else k
            | _ => k
            end)) l)
  end.
Fixpoint free_pkts (n : nat) (l : list (option tcp_pkt_t)) (i : Z) : res (list (option tcp_pkt_t)) :=
  match n with
  | O => Ok l
  | S n => do slot <- arr_get l i; do pkt <- deref slot; do l <- free_pkt l (tk_pkt pkt); free_pkts n l (i + 1)
  end.

Definition pkts_of (q : tcp_pktq_t) : list (option tcp_pkt_t) := match q_pkts q with Some l => l | None => [] end.
Definition tcp_pktq_free (q : tcp_pktq_t) : res unit :=
  do _ <- free_pkts (Z.to_nat (q_npkt q)) (pkts_of q) 0; Ok tt.

(** The loop over the assembled packets; the bytes go to the caller's buffer.  The
    result is the number of packets used up, None when a slot has no packet. *)
Fixpoint get_loop (n : nat) (l : list (option tcp_pkt_t)) (i m nfree : Z) : res (option (list (option tcp_pkt_t) * Z)) :=
  match n with
  | O => Ok (Some (l, nfree))
  | S n =>
      do slot <- arr_get l i;
      do pkt <- deref slot;
      do off <- deref (tk_off pkt);
      let len := tk_len pkt - off in
      match tk_pkt pkt with
      | PNull => Ok None
      | PFreed => Fault UseAfterFree
      | PLive _ =>
          let k := if len <? m then len else m in
          if k <? 0 then Fault OutOfBounds else
          let m := m - k in
          if m =? 0 then
            if k =? len then Ok (Some (l, nfree + 1))
            else
              do l <- arr_set l i (Some {| tk_seq := tk_seq pkt; tk_len := tk_len pkt; tk_off := Some (u16 (off + k)); tk_pkt := tk_pkt pkt |});
              Ok (Some (l, nfree))
          else get_loop n l (i + 1) m (nfree + 1)
      end
  end.

Definition tcp_pktq_get_data (q : tcp_pktq_t) (size : Z) : res (tcp_pktq_t * Z) :=
  do r <- get_loop (Z.to_nat (q_nassembly q)) (pkts_of q) 0 size 0;
  match r with
  | None => Ok (q, -1)
  | Some (l, nfree) =>
      if 0 <? nfree then
        do l <- free_pkts (Z.to_nat nfree) l 0;
        let m := q_npkt q - nfree in
        let l := if 0 <? m then take (Z.to_nat m) (drop (Z.to_nat nfree) l) ++ drop (Z.to_nat m) l else l in
        Ok ({| q_pkts := Some l; q_npkt := u16 m; q_max := q_max q; q_len := q_len q; q_nassembly := u32 (q_nassembly q - nfree); q_first_seq := q_first_seq q |}, size)
      else Ok (match q_pkts q with None => q | Some _ => set_pkts q l end, size)
  end.

(** ** The stream *)
Definition set_state (t : tcp_stream_t) (s : Z) : tcp_stream_t := {| t_seqs := t_seqs t; t_pktqs := t_pktqs t; t_state := s |}.
Definition put_data (t : tcp_stream_t) (p : netpkt_t) (h : tcphdr) (id : positive) (dir : Z) (a : moved) : res (tcp_stream_t * option Z) :=
  if h_psh h then
    do q <- side (t_pktqs t) dir;
    do (q, rc) <- tcp_pktq_add q (s32 (pkt_len p - s32 (NETPKT_HLEN p))) (h_seq h) id a;
    Ok ({| t_seqs := t_seqs t; t_pktqs := set_side (t_pktqs t) dir q; t_state := t_state t |}, Some rc)
  else Ok (t, None).

Definition tcp_stream_flow (t : tcp_stream_t) (p : netpkt_t) (id : positive) (dir : Z) (a : moved) : res (tcp_stream_t * option Z) :=
  match hdr4 p with
  | None => Ok (t, Some (-1))
  | Some off =>
      do h <- tcp_header p off;
      do bad <- tcp_check_seq t h dir;
      if negb (bad =? 0) then Ok (t, Some (-1))
      else if h_rst h then Ok (t, Some (-1))
      else
        let st := t_state t in
        if st =? TCP_ST_SYN then Ok (if (dir =? 1) && h_syn h && h_ack h then set_state t TCP_ST_SYN_ACK else t, None)
        else if st =? TCP_ST_SYN_ACK then Ok (if (dir =? 0) && h_ack h then set_state t TCP_ST_EST else t, None)
        else if st =? TCP_ST_EST then put_data (if h_fin h then set_state t TCP_ST_FIN1 else t) p h id dir a
        else if st =? TCP_ST_FIN1 then
          let t := if h_ack h then set_state t TCP_ST_FIN1_ACK else t in
          let t := if h_fin h then set_state t TCP_ST_FIN2 else t in
          put_data t p h id dir a
        else if st =? TCP_ST_FIN1_ACK then Ok (if h_fin h then set_state t TCP_ST_FIN2 else t, None)
        else if st =? TCP_ST_FIN2 then if h_ack h then Ok (set_state t TCP_ST_CLOSE, Some 0) else Ok (t, None)
        else Ok (t, None)
  end.

Definition tcp_stream_free (t : option tcp_stream_t) : res unit :=
  match t with
  | None => Ok tt
  | Some t => do _ <- tcp_pktq_free (t_pktqs t).1; tcp_pktq_free (t_pktqs t).2
  end.

Definition tcp_stream_data_len (t : tcp_stream_t) (dir : Z) : res Z := do q <- side (t_pktqs t) (Z.rem dir 2); Ok (s32 (q_len q)).
Definition tcp_stream_get_data (t : tcp_stream_t) (size dir : Z) : res (tcp_stream_t * Z) :=
  if size <? 1 then Ok (t, -1) else
  do q <- side (t_pktqs t) (Z.rem dir 2);
  let tot := s32 (if size <? q_len q then size else q_len q) in
  if tot =? 0 then Ok (t, 0)
  else do (q, rc) <- tcp_pktq_get_data q tot; Ok ({| t_seqs := t_seqs t; t_pktqs := set_side (t_pktqs t) (Z.rem dir 2) q; t_state := t_state t |}, rc).

(** ** Tuples *)

(** Bytes of the packet. *)
Definition addr_at (p : netpkt_t) (off : Z) (n : nat) : res (list Z) := read (mem_of p) off (Z.of_nat n).
Definition port_at (p : netpkt_t) (off : Z) : res Z := do b <- read (mem_of p) off 2; Ok (le_combine b).

Definition set_end (e : ip_port_t) (family : Z) (a : list Z) (port : Z) : ip_port_t :=
  let ip := set_family (ipp_ip e) family in
  {| ipp_ip := (if family =? AF_INET then set_v4 ip a else set_v6 ip a); ipp_port := port |}.

Definition tcp_tup_init (tup : tcp_tup_t) (p : netpkt_t) (dir : Z) : res (tcp_tup_t * Z) :=
  match hdr4 p with
  | None => Ok (tup, -1)
  | Some h4 =>
      let fill (family soff doff : Z) (n : nat) : res (tcp_tup_t * Z) :=
        match hdr3 p with
        | None => Fault NullDeref
        | Some h3 =>
            do s <- addr_at p (h3 + soff) n;
            do d <- addr_at p (h3 + doff) n;
            if negb (hdr4_type p =? IPPROTO_TCP) then
              (* the addresses are stored, the ports are not *)
              Ok ((if dir =? 0 then {| tup_src := set_end (tup_src tup) family s (ipp_port (tup_src tup)); tup_dst := set_end (tup_dst tup) family d (ipp_port (tup_dst tup)) |}
                   else {| tup_src := set_end (tup_src tup) family d (ipp_port (tup_src tup)); tup_dst := set_end (tup_dst tup) family s (ipp_port (tup_dst tup)) |}), -1)
            else
              do sp <- port_at p h4;
              do dp <- port_at p (h4 + 2);
              Ok ((if dir =? 0 then {| tup_src := set_end (tup_src tup) family s sp; tup_dst := set_end (tup_dst tup) family d dp |}
                   else {| tup_src := set_end (tup_src tup) family d dp; tup_dst := set_end (tup_dst tup) family s sp |}), 0)
        end in
      if hdr3_type p =? ETHERTYPE_IP then fill AF_INET 12 16 4%nat
      else if hdr3_type p =? ETHERTYPE_IPV6 then fill AF_INET6 8 24 16%nat
      else Ok (tup, -1)
  end.

Definition rol32 (w n : Z) : Z := Z.lor (u32 (Z.shiftl w n)) (Z.shiftr w (32 - n)).
Definition JHASH_INITVAL : Z := 0xdeadbeef.
(** [x -= y; x ^= rol32(y, n); y += z;] *)
Definition jstep (x y z n : Z) : Z * Z := (Z.lxor (u32 (x - y)) (rol32 y n), u32 (y + z)).
Definition jhash_3words (a b c : Z) : Z :=
  let a := u32 (a + JHASH_INITVAL) in let b := u32 (b + JHASH_INITVAL) in let c := u32 (c + JHASH_INITVAL) in
  let '(a, c) := jstep a c b 4 in
  let '(b, a) := jstep b a c 6 in
  let '(c, b) := jstep c b a 8 in
  let '(a, c) := jstep a c b 16 in
  let '(b, a) := jstep b a c 19 in
  let '(c, b) := jstep c b a 4 in
  c.

Definition addr32 (ip : ip_addr_t) (i : nat) : Z := le_combine (take 4 (drop (4 * i) (ip_bytes ip))).
Definition tcp_tup_hash (tup : tcp_tup_t) : Z * option Z :=
  let ports := u32 (u32 (Z.shiftl (ipp_port (tup_dst tup)) 16) + ipp_port (tup_src tup)) in
  let s := ipp_ip (tup_src tup) in
  let d := ipp_ip (tup_dst tup) in
  if ip_family s =? AF_INET then (0, Some (jhash_3words (s_addr d) (s_addr s) ports))
  else if ip_family s =? AF_INET6 then
    let b := Z.lxor (addr32 s 0) (addr32 s 1) in
    let c := jhash_3words b (addr32 s 2) (addr32 s 3) in
    (0, Some (jhash_3words (addr32 d 3) c ports))
  else (-1, None).

Definition tcp_tup_cmp (t1 t2 : option tcp_tup_t) : Z :=
  match t1, t2 with
  | Some t1, Some t2 =>
      let ret := ip_port_compare (Some (tup_src t1)) (Some (tup_src t2)) in
      if negb (ret =? 0) then ret else ip_port_compare (Some (tup_dst t1)) (Some (tup_dst t2))
  | _, _ => -1
  end.
End TcpStream.
