(* ===== verification/TcpStreamProofs.v ===== *)
(** * TCP streams: the state machine and the reassembly queue *)
From S2P Require Import Prelude CLib IpAddr NetPkt NetPktProofs TcpStream.

Module TcpStreamProofs.
Import IpAddr NetPkt NetPktProofs TcpStream.

(** ** Runs *)
Record event : Type := { e_pkt : netpkt_t; e_id : positive; e_dir : Z; e_mem : moved }.
Definition e_header (e : event) : res tcphdr := match hdr4 (e_pkt e) with Some off => tcp_header (e_pkt e) off | None => Fault NullDeref end.
Definition flow (t : tcp_stream_t) (e : event) : res (tcp_stream_t * option Z) := tcp_stream_flow t (e_pkt e) (e_id e) (e_dir e) (e_mem e).

Fixpoint run_flows (t : tcp_stream_t) (l : list event) : res tcp_stream_t :=
  match l with [] => Ok t | e :: l => do (t, _) <- flow t e; run_flows t l end.

Lemma run_flows_app t l l' : run_flows t (l ++ l') = do t <- run_flows t l; run_flows t l'.
Proof. revert t. induction l as [|e l IH]; intros t; [done|]. simpl. destruct (flow t e) as [[t' r]|]; [|done]. simpl. apply IH. Qed.

(** ** The state machine *)
Definition carries (P : tcphdr -> Z -> bool) (e : event) : Prop := exists h, e_header e = Ok h /\ h_rst h = false /\ P h (e_dir e) = true.
(** The packets the states wait for. *)
Definition server_synack : tcphdr -> Z -> bool := fun h dir => (dir =? 1) && h_syn h && h_ack h.
Definition client_ack : tcphdr -> Z -> bool := fun h dir => (dir =? 0) && h_ack h.
Definition any_fin : tcphdr -> Z -> bool := fun h _ => h_fin h.
Definition any_ack : tcphdr -> Z -> bool := fun h _ => h_ack h.

(** What must have been seen, in this order, before a state is reached. *)
Definition needs (s : Z) : list (tcphdr -> Z -> bool) :=
  if s =? TCP_ST_SYN then []
  else if s =? TCP_ST_SYN_ACK then [server_synack]
  else if s =? TCP_ST_EST then [server_synack; client_ack]
  else if s =? TCP_ST_FIN1 then [server_synack; client_ack; any_fin]
  else if s =? TCP_ST_FIN1_ACK then [server_synack; client_ack; any_fin; any_ack]
  else if s =? TCP_ST_FIN2 then [server_synack; client_ack; any_fin; any_fin]
  else [server_synack; client_ack; any_fin; any_fin; any_ack].

(** The predicates hold of a subsequence of the events. *)
Inductive seen : list (tcphdr -> Z -> bool) -> list event -> Prop :=
  | seen_nil : seen [] []
  | seen_skip ps e l : seen ps l -> seen ps (e :: l)
  | seen_take p ps e l : carries p e -> seen ps l -> seen (p :: ps) (e :: l).

Lemma seen_none l : seen [] l.
Proof. induction l; by constructor. Qed.
Lemma seen_later ps l e : seen ps l -> seen ps (l ++ [e]).
Proof. induction 1; simpl; [apply seen_none|by constructor..]. Qed.
Lemma seen_snoc ps l p e : seen ps l -> carries p e -> seen (ps ++ [p]) (l ++ [e]).
Proof. induction 1; intros Hp; simpl; [by repeat constructor|apply seen_skip; auto|apply seen_take; auto]. Qed.
Lemma seen_prefix ps qs l : seen (ps ++ qs) l -> seen ps l.
Proof.
  intros H. remember (ps ++ qs) as r eqn:E. revert ps E. induction H as [|r e l H IH|p r e l Hp H IH]; intros ps E.
  - symmetry in E. apply app_eq_nil in E as [-> _]. constructor.
  - apply seen_skip. by apply IH.
  - destruct ps as [|p' ps]; [apply seen_none|]. injection E as -> ->. apply seen_take; [done|]. by apply IH.
Qed.

(** The state change of one packet. *)
Lemma put_data_state t p h id dir a t' r : put_data t p h id dir a = Ok (t', r) -> t_state t' = t_state t.
Proof. unfold put_data. destruct (h_psh h); [|by intros [= <- <-]]. destruct (side _ _) as [q0|]; [|done]. cbn [bind]. destruct (tcp_pktq_add _ _ _ _ _) as [[q rc]|]; [|done]. by intros [= <- <-]. Qed.

Lemma flow_state t e t' r l :
  0 <= t_state t <= 6 -> seen (needs (t_state t)) l -> flow t e = Ok (t', r) -> t_state t <= t_state t' <= 6 /\ seen (needs (t_state t')) (l ++ [e]).
Proof.
  intros Hs Hl. unfold flow, tcp_stream_flow. assert (Hstay : t_state t <= t_state t <= 6 /\ seen (needs (t_state t)) (l ++ [e])) by (split; [lia|by apply seen_later]).
  destruct (hdr4 (e_pkt e)) as [off|] eqn:E4; [|by intros [= <- <-]]. destruct (tcp_header (e_pkt e) off) as [h|] eqn:Eh; [|done]. cbn [bind].
  destruct (tcp_check_seq t h (e_dir e)) as [bad|]; [|done]. cbn [bind]. destruct (negb _); [by intros [= <- <-]|]. destruct (h_rst h) eqn:Er; [by intros [= <- <-]|].
  assert (Hcar : forall P, P h (e_dir e) = true -> carries P e) by (intros P HP; exists h; unfold e_header; by rewrite E4).
  assert (Cases : t_state t = 0 \/ t_state t = 1 \/ t_state t = 2 \/ t_state t = 3 \/ t_state t = 4 \/ t_state t = 5 \/ t_state t = 6) by lia.
  assert (Hmove : forall s P, t_state t <= s <= 6 -> P h (e_dir e) = true -> needs s = needs (t_state t) ++ [P] -> t_state t <= s <= 6 /\ seen (needs s) (l ++ [e])).
  { intros s P Hs' HP E. split; [done|]. rewrite E. apply seen_snoc; [done|by apply Hcar]. }
  destruct Cases as [E|[E|[E|[E|[E|[E|E]]]]]]; rewrite E in *.
  - change (0 =? TCP_ST_SYN) with true. cbv iota. intros [= <- <-]. destruct ((e_dir e =? 1) && h_syn h && h_ack h) eqn:Ec; [|by rewrite E]. by apply (Hmove 1 server_synack).
  - change (1 =? TCP_ST_SYN) with false. change (1 =? TCP_ST_SYN_ACK) with true. cbv iota. intros [= <- <-]. destruct ((e_dir e =? 0) && h_ack h) eqn:Ec; [|by rewrite E]. by apply (Hmove 2 client_ack).
  - change (2 =? TCP_ST_SYN) with false. change (2 =? TCP_ST_SYN_ACK) with false. change (2 =? TCP_ST_EST) with true. cbv iota. intros ->%put_data_state. destruct (h_fin h) eqn:Ef; [|by rewrite E]. by apply (Hmove 3 any_fin).
  - change (3 =? TCP_ST_SYN) with false. change (3 =? TCP_ST_SYN_ACK) with false. change (3 =? TCP_ST_EST) with false. change (3 =? TCP_ST_FIN1) with true. cbv iota zeta. intros ->%put_data_state.
    destruct (h_fin h) eqn:Ef; [by apply (Hmove 5 any_fin)|]. destruct (h_ack h) eqn:Ea; [by apply (Hmove 4 any_ack)|by rewrite E].
  - change (4 =? TCP_ST_SYN) with false. change (4 =? TCP_ST_SYN_ACK) with false. change (4 =? TCP_ST_EST) with false. change (4 =? TCP_ST_FIN1) with false. change (4 =? TCP_ST_FIN1_ACK) with true. cbv iota zeta.
    intros [= <- <-]. destruct (h_fin h) eqn:Ef; [|by rewrite E]. split; [done|]. change (seen (needs 5) (l ++ [e])). change (needs 5) with ([server_synack; client_ack; any_fin] ++ [any_fin]). apply seen_snoc; [|by apply Hcar].
    by apply (seen_prefix [server_synack; client_ack; any_fin] [any_ack]).
  - change (5 =? TCP_ST_SYN) with false. change (5 =? TCP_ST_SYN_ACK) with false. change (5 =? TCP_ST_EST) with false. change (5 =? TCP_ST_FIN1) with false. change (5 =? TCP_ST_FIN1_ACK) with false. change (5 =? TCP_ST_FIN2) with true. cbv iota zeta.
    destruct (h_ack h) eqn:Ea; intros [= <- <-]; [|by rewrite E]. by apply (Hmove 6 any_ack).
  - intros [= <- <-]. by rewrite E.
Qed.
Lemma run_state t l : t_state t = TCP_ST_SYN -> forall t', run_flows t l = Ok t' -> 0 <= t_state t' <= 6 /\ seen (needs (t_state t')) l.
Proof.
  intros E. induction l as [|e l IH] using rev_ind; intros t'; [intros [= <-]; rewrite E; split; [done|constructor]|].
  rewrite run_flows_app. destruct (run_flows t l) as [t1|] eqn:E1; [|done]. destruct (IH t1 eq_refl) as [Hr Hs]. cbn [bind run_flows].
  destruct (flow t1 e) as [[t2 r]|] eqn:E2; [|done]. intros [= <-]. destruct (flow_state _ _ _ _ _ Hr Hs E2). split; [lia|done].
Qed.

(** ** The reassembly queue *)

(** A queue that has never delivered anything. *)
Definition idle (q : tcp_pktq_t) : Prop :=
  q_npkt q = 0 /\ q_max q = 0 /\ q_len q = 0 /\ q_nassembly q = 0 /\ q_first_seq q = 0 /\ match q_pkts q with None => True | Some l => length l = 16%nat end.

(** The slots a queue has after realloc kept the block. *)
Lemma pktq_init_idle q a q' rc :
  idle q -> a <> Moved -> tcp_pktq_init q (q_max q + TCP_PKTQ_INC) a = Ok (q', rc) -> idle q' /\ (rc = 0 -> exists l, q_pkts q' = Some l /\ length l = 16%nat).
Proof.
  intros (H1 & H2 & H3 & H4 & H5 & H6) Ha. rewrite H2. unfold tcp_pktq_init. change (Z.to_nat (0 + TCP_PKTQ_INC)) with 16%nat.
  destruct a; [|destruct (q_pkts q) as [l|] eqn:E|done].
  - intros [= <- <-]. by split_and!.
  - intros [= <- <-]. rewrite H6. assert (L : length (take 16 l ++ replicate (16 - 16) None) = 16%nat) by (rewrite length_app, length_take, length_replicate; lia).
    split; [by split_and!|]. intros _. eexists. by split.
  - intros [= <- <-]. split; [by split_and!|]. intros _. eexists. by split.
Qed.

Lemma pktq_init_returns q a : a <> Moved -> exists q' rc, tcp_pktq_init q (q_max q + TCP_PKTQ_INC) a = Ok (q', rc).
Proof. intros Ha. unfold tcp_pktq_init. destruct a, (q_pkts q); by eauto. Qed.

Lemma pktq_add_idle q size seq id a : idle q -> seq <> 0 -> a <> Moved -> exists q' rc, tcp_pktq_add q size seq id a = Ok (q', rc) /\ idle q'.
Proof.
  intros Hq Hseq Ha. unfold tcp_pktq_add. destruct (size <? 0); [by eauto|]. destruct (size =? 0); [by eauto|].
  pose proof Hq as (H1 & H2 & _). assert (C1 : (TCP_PKTQ_MAX <=? q_npkt q) = false) by (by rewrite H1). assert (C2 : (q_npkt q =? q_max q) = true) by (by rewrite H1, H2). rewrite C1, C2.
  destruct (pktq_init_returns q a Ha) as (q' & rc & E). destruct (pktq_init_idle _ _ _ _ Hq Ha E) as [Hq' Hl]. rewrite E. cbn [bind].
  destruct (Z.eqb_spec rc 0) as [->|]; [|by eauto]. destruct (Hl eq_refl) as (l & El & L). pose proof Hq' as (N & M & Ln & Na & Fs & _). cbv [negb].
  unfold tcp_pktq_find_pos. rewrite N. change (0 =? 0) with true. cbv iota. cbn [bind]. change (0 <? 0) with false. cbv iota. rewrite El.
  change (0 - 0) with 0. change (0 <? 0) with false. cbn [andb].
  destruct l as [|o l]; [done|]. cbn. rewrite Fs. destruct (Z.eqb_spec 0 seq); [done|]. do 2 eexists. split; [reflexivity|]. by split_and!.
Qed.

Definition stream_idle (t : tcp_stream_t) : Prop := idle (t_pktqs t).1 /\ idle (t_pktqs t).2.
(** A readable packet of one of the two directions whose data, if it has any, does
    not start at sequence number 0; realloc does not move the block. *)
Definition ordinary (e : event) : Prop :=
  (e_dir e = 0 \/ e_dir e = 1) /\ e_mem e <> Moved /\ exists h, e_header e = Ok h /\ (h_psh h = true -> h_seq h <> 0).

Lemma put_data_idle t p h id dir a :
  stream_idle t -> dir = 0 \/ dir = 1 -> a <> Moved -> (h_psh h = true -> h_seq h <> 0) -> exists t' r, put_data t p h id dir a = Ok (t', r) /\ stream_idle t'.
Proof.
  intros Ht Hd Ha Hseq. pose proof Ht as (H0 & H1). unfold put_data. destruct (h_psh h); [|by eauto].
  destruct Hd as [-> | ->]; cbn [side Z.eqb]; unfold side; cbn [Z.eqb bind Pos.eqb].
  - edestruct (pktq_add_idle _ (s32 (pkt_len p - s32 (NETPKT_HLEN p))) (h_seq h) id a H0) as (q & rc & -> & Hq); auto. cbn [bind]. do 2 eexists. split; [reflexivity|]. by split_and!.
  - edestruct (pktq_add_idle _ (s32 (pkt_len p - s32 (NETPKT_HLEN p))) (h_seq h) id a H1) as (q & rc & -> & Hq); auto. cbn [bind]. do 2 eexists. split; [reflexivity|]. by split_and!.
Qed.

Lemma set_state_idle t s : stream_idle t -> stream_idle (set_state t s).
Proof. by intros (? & ?). Qed.

Lemma flow_idle t e : stream_idle t -> ordinary e -> exists t' r, flow t e = Ok (t', r) /\ stream_idle t'.
Proof.
  intros Ht (Hd & Ha & h & Eh & Hp). unfold flow, tcp_stream_flow. unfold e_header in Eh. destruct (hdr4 (e_pkt e)); [|done]. rewrite Eh. cbn [bind].
  assert (exists bad, tcp_check_seq t h (e_dir e) = Ok bad) as [bad C] by (unfold tcp_check_seq; destruct Hd as [-> | ->]; by eexists).
  rewrite C. cbn [bind]. destruct (negb _); [by eauto|]. pose proof (set_state_idle t) as Hset.
  destruct (h_rst h); [by eauto|].
  repeat match goal with
  | |- exists t' r, (if _ =? _ then _ else _) = _ /\ _ => destruct (_ =? _)
  | |- exists t' r, put_data _ _ _ _ _ _ = _ /\ _ => apply put_data_idle; [|done..]; repeat case_match; auto
  | |- exists t' r, Ok (_, _) = _ /\ _ => do 2 eexists; split; [reflexivity|]; repeat case_match; auto
  | |- exists t' r, (if h_ack h then _ else _) = _ /\ _ => destruct (h_ack h)
  end.
Qed.

Lemma run_idle l t : stream_idle t -> Forall ordinary l -> exists t', run_flows t l = Ok t' /\ stream_idle t'.
Proof.
  revert t. induction l as [|e l IH]; intros t Ht Hl; [by exists t|]. apply Forall_cons in Hl as [He Hl].
  destruct (flow_idle t e Ht He) as (t1 & r & E & Ht1). destruct (IH t1 Ht1 Hl) as (t2 & E2 & Ht2). exists t2. split; [|done]. cbn [run_flows]. by rewrite E.
Qed.

Lemma idle_get t size dir : stream_idle t -> 1 <= size -> dir = 0 \/ dir = 1 -> tcp_stream_get_data t size dir = Ok (t, 0) /\ tcp_stream_data_len t dir = Ok 0.
Proof.
  intros ((_ & _ & L0 & _) & (_ & _ & L1 & _)) Hs Hd. unfold tcp_stream_get_data, tcp_stream_data_len. destruct (Z.ltb_spec size 1); [lia|].
  destruct Hd as [-> | ->]; unfold side; cbn [Z.rem Z.quotrem bind]; [change (Z.rem 0 2) with 0|change (Z.rem 1 2) with 1]; cbn; rewrite ?L0, ?L1; (destruct (Z.ltb_spec size 0); [lia|done]).
Qed.

(** ** The claims *)

(** A stream that ssldump.c has made for a SYN is, after any sequence of packets
    given to tcp_stream_flow, in one of the seven states, and it is in a state only
    when the packets that lead there have arrived in their order: a SYN-ACK of the
    server before SYN_ACK, an ACK of the client after it before EST, a FIN after them
    before FIN1, an ACK or a second FIN after that before FIN1_ACK and FIN2, and a
    last ACK before CLOSE, none of them with RST set. *)
Theorem tcp_state_history ok t isn l t' :
  tcp_stream_alloc ok = Some t -> run_flows (syn_stream t isn) l = Ok t' -> TCP_ST_SYN <= t_state t' <= TCP_ST_CLOSE /\ seen (needs (t_state t')) l.
Proof. intros _. by apply run_state. Qed.

(** C21: the reassembly queues never deliver anything.  When every packet given to a
    new stream has a readable header, no data starts at sequence number 0 and
    realloc does not move the array, all the packets are handled, and
    tcp_stream_data_len and tcp_stream_get_data still answer 0 in both directions:
    first_seq stays 0 and npkt is never incremented. *)
Theorem tcp_stream_delivers_nothing ok t isn l :
  tcp_stream_alloc ok = Some t -> Forall ordinary l ->
  exists t', run_flows (syn_stream t isn) l = Ok t' /\
    forall size dir, 1 <= size -> dir = 0 \/ dir = 1 -> tcp_stream_data_len t' dir = Ok 0 /\ tcp_stream_get_data t' size dir = Ok (t', 0).
Proof.
  intros Ha Hl. assert (Ht : stream_idle (syn_stream t isn)) by (destruct ok; [injection Ha as <-; by split_and!|done]).
  destruct (run_idle l _ Ht Hl) as (t' & E & Ht'). exists t'. split; [done|]. intros size dir Hs Hd. by destruct (idle_get t' size dir Ht' Hs Hd).
Qed.

(** _tcp_pktq_find_pos does not return for a segment before the only one queued. *)
Lemma find_pos_no_return l k seq size fuel :
  l !! 0%nat = Some (Some k) -> seq < tk_seq k -> u32 (seq + size) <= tk_seq k -> find_pos_loop fuel l seq size 0 1 = Fault NoReturn.
Proof.
  intros E Hlt Hle.
  assert (Step : forall fuel hi, Z.quot (0 + hi) 2 = 0 -> find_pos_loop (S fuel) l seq size 0 hi = find_pos_loop fuel l seq size 0 (-1)).
  { intros n hi Hq. cbn [find_pos_loop]. rewrite Hq. rewrite (arr_get_nat l 0 _ E : arr_get l 0 = _). cbn [bind deref].
    destruct (Z.ltb_spec (tk_seq k) seq); [lia|]. destruct (Z.ltb_spec seq (tk_seq k)); [|lia]. by destruct (Z.ltb_spec (tk_seq k) (u32 (seq + size))); [lia|]. }
  assert (Stuck : forall fuel, find_pos_loop fuel l seq size 0 (-1) = Fault NoReturn) by (intros n; induction n as [|n IH]; [done|by rewrite Step]).
  destruct fuel as [|n]; [done|]. by rewrite Step.
Qed.

(** The two directions of a connection give the same tuple. *)
Lemma tcp_tup_both_directions tup p p' h3 h3' h4 h4' a b pa pb :
  hdr3_type p = ETHERTYPE_IP -> hdr3_type p' = ETHERTYPE_IP -> hdr4_type p = IPPROTO_TCP -> hdr4_type p' = IPPROTO_TCP ->
  hdr3 p = Some h3 -> hdr3 p' = Some h3' -> hdr4 p = Some h4 -> hdr4 p' = Some h4' ->
  addr_at p (h3 + 12) 4 = Ok a -> addr_at p (h3 + 16) 4 = Ok b -> addr_at p' (h3' + 12) 4 = Ok b -> addr_at p' (h3' + 16) 4 = Ok a ->
  port_at p h4 = Ok pa -> port_at p (h4 + 2) = Ok pb -> port_at p' h4' = Ok pb -> port_at p' (h4' + 2) = Ok pa ->
  exists tup', tcp_tup_init tup p 0 = Ok (tup', 0) /\ tcp_tup_init tup p' 1 = Ok (tup', 0).
Proof.
  intros T T' P P' H3 H3' H4 H4' A B A' B' Q R Q' R'. unfold tcp_tup_init. rewrite H4, H4', T, T', H3, H3'. change (ETHERTYPE_IP =? ETHERTYPE_IP) with true. cbv iota zeta beta.
  rewrite A, B, A', B'. cbn [bind]. rewrite P, P'. change (negb (IPPROTO_TCP =? IPPROTO_TCP)) with false. cbv iota. rewrite Q, R, Q', R'. cbn [bind]. eexists. split; reflexivity.
Qed.

(** ** Witnesses *)
Definition tcp_packet (seq flags : Z) (data : list Z) (dir : Z) (a : moved) : event :=
  let m := [0; 0; 0; 0; 0; 0; 0; seq; 0; 0; 0; 0; 80; flags; 0; 0; 0; 0; 0; 0] ++ data in
  {| e_pkt := set_l4 (set_range (netpkt_init (Some m)) m 0 (Z.of_nat (length m))) 0 20; e_id := 1%positive; e_dir := dir; e_mem := a |}.
Definition handshake : list event := [tcp_packet 1 0x12 [] 1 Same; tcp_packet 1 0x10 [] 0 Same].
Definition closing : list event := [tcp_packet 9 0x11 [] 0 Same; tcp_packet 9 0x11 [] 1 Same; tcp_packet 10 0x10 [] 0 Same].

Lemma tcp_state_history_witness :
  TCP_ST_SYN <= TCP_ST_CLOSE <= TCP_ST_CLOSE /\ seen (needs TCP_ST_CLOSE) (handshake ++ closing).
Proof. exact (tcp_state_history true zero_stream 0 (handshake ++ closing) (set_state zero_stream TCP_ST_CLOSE) eq_refl eq_refl). Defined.

Lemma tcp_stream_delivers_nothing_witness :
  exists t', run_flows (syn_stream zero_stream 0) (handshake ++ [tcp_packet 2 0x18 [7; 8; 9] 0 Same; tcp_packet 5 0x18 [10] 0 Same]) = Ok t' /\
    forall size dir, 1 <= size -> dir = 0 \/ dir = 1 -> tcp_stream_data_len t' dir = Ok 0 /\ tcp_stream_get_data t' size dir = Ok (t', 0).
Proof.
  apply (tcp_stream_delivers_nothing true zero_stream 0); [reflexivity|].
  repeat constructor; cbn; auto; try discriminate; eexists; (split; [reflexivity|intros _; discriminate]).
Defined.

(** When realloc moves the array, it is freed twice. *)
Example tcp_pktq_double_free :
  run_flows zero_stream (handshake ++ [tcp_packet 2 0x18 [7; 8; 9] 0 Same; tcp_packet 5 0x18 [10] 0 Moved]) = Fault UseAfterFree.
Proof. reflexivity. Qed.
(** Data at sequence number 0 is the only data that is assembled; its offset was
    never stored. *)
Example tcp_pktq_offset_unset :
  (do t <- run_flows zero_stream (handshake ++ [tcp_packet 0 0x18 [7; 8; 9] 0 Same]); do n <- tcp_stream_data_len t 0; do _ <- tcp_stream_get_data t 3 0; Ok n) = Fault UseAfterFree.
Proof. reflexivity. Qed.

End TcpStreamProofs.
