(* ===== verification/SvrPool.v ===== *)
(** * svrpool: servers, server pools and their running data

    Model of src/code/network/proxy/utils/svrpool.c with the line of
    proxy_config.c that adds a server to a pool.  All objects live in one heap
    and are counted by [refcnt], which is 0 for one owner.  The list of the
    servers of a pool is the sequence its cblist holds.  [w_oom] scripts calloc
    and [w_ssl] the creation of SSL contexts: the head says whether the next call
    fails.  [w_nctx] counts the contexts that exist. *)
From S2P Require Import Prelude CLib IpAddr.

Module SvrPool.
Import IpAddr.

Definition MAX_SERVER : Z := 256.

(** ** Data *)
Record server_cfg_t : Type := { sc_address : ip_port_t; sc_weight : Z; sc_ssl : bool; sc_cert : bool }.
Record server_t : Type := { sv_cfg : server_cfg_t; sv_nconn : Z; sv_refcnt : Z }.
Record server_data_t : Type := { sd_server : option positive; sd_sslctx : bool; sd_nconn : Z; sd_refcnt : Z }.
(** The algorithm of a pool: SP_ALGO_RR 0, SP_ALGO_WRR 1, SP_ALGO_LC 2, SP_ALGO_HASH 3. *)
Record svrpool_cfg_t : Type := { spc_name : cstr; spc_algo : Z }.
Record svrpool_t : Type := { sp_cfg : svrpool_cfg_t; sp_svrlist : list positive; sp_nserver : Z; sp_refcnt : Z }.
Record svrpool_data_t : Type := {
  spd_servers : list (option positive); spd_nserver : Z; spd_gcd : Z; spd_rrpos : Z; spd_refcnt : Z }.

Inductive obj : Type :=
  | OServer (s : server_t)
  | OData (d : server_data_t)
  | OPool (p : svrpool_t)
  | OPData (d : svrpool_data_t).

Record world : Type := {
  w_heap : gmap positive obj; w_next : positive; w_oom : list bool; w_ssl : list bool; w_nctx : Z }.

Definition set_heap (w : world) (h : gmap positive obj) : world :=
  {| w_heap := h; w_next := w_next w; w_oom := w_oom w; w_ssl := w_ssl w; w_nctx := w_nctx w |}.

Definition calloc (w : world) (o : obj) : world * option positive :=
  let w' h n := {| w_heap := h; w_next := n; w_oom := tail (w_oom w); w_ssl := w_ssl w; w_nctx := w_nctx w |} in
  match w_oom w with
  | true :: _ => (w' (w_heap w) (w_next w), None)
  | _ => (w' (<[w_next w := o]> (w_heap w)) (Pos.succ (w_next w)), Some (w_next w))
  end.

(** ssl_ctx_alloc and certset_alloc_ctx: a context or NULL. *)
Definition ctx_alloc (w : world) : world * bool :=
  let fail := match w_ssl w with true :: _ => true | _ => false end in
  ({| w_heap := w_heap w; w_next := w_next w; w_oom := w_oom w; w_ssl := tail (w_ssl w);
      w_nctx := if fail then w_nctx w else w_nctx w + 1 |}, negb fail).

Definition get_server (w : world) (p : positive) : res server_t :=
  match w_heap w !! p with Some (OServer s) => Ok s | _ => Fault UseAfterFree end.
Definition get_data (w : world) (p : positive) : res server_data_t :=
  match w_heap w !! p with Some (OData d) => Ok d | _ => Fault UseAfterFree end.
Definition get_pool (w : world) (p : positive) : res svrpool_t :=
  match w_heap w !! p with Some (OPool d) => Ok d | _ => Fault UseAfterFree end.
Definition get_pdata (w : world) (p : positive) : res svrpool_data_t :=
  match w_heap w !! p with Some (OPData d) => Ok d | _ => Fault UseAfterFree end.

Definition put (w : world) (p : positive) (o : obj) : world := set_heap w (<[p := o]> (w_heap w)).
Definition hfree (w : world) (p : positive) : world := set_heap w (delete p (w_heap w)).

Definition server_ref (s : server_t) (r : Z) : server_t := {| sv_cfg := sv_cfg s; sv_nconn := sv_nconn s; sv_refcnt := r |}.
Definition data_ref (d : server_data_t) (r : Z) : server_data_t :=
  {| sd_server := sd_server d; sd_sslctx := sd_sslctx d; sd_nconn := sd_nconn d; sd_refcnt := r |}.
Definition pool_ref (p : svrpool_t) (r : Z) : svrpool_t :=
  {| sp_cfg := sp_cfg p; sp_svrlist := sp_svrlist p; sp_nserver := sp_nserver p; sp_refcnt := r |}.
Definition pdata_ref (d : svrpool_data_t) (r : Z) : svrpool_data_t :=
  {| spd_servers := spd_servers d; spd_nserver := spd_nserver d; spd_gcd := spd_gcd d; spd_rrpos := spd_rrpos d; spd_refcnt := r |}.

(** ** Servers *)
Definition zero_cfg : server_cfg_t :=
  {| sc_address := {| ipp_ip := {| ip_family := 0; ip_bytes := replicate 16 0 |}; ipp_port := 0 |};
     sc_weight := 0; sc_ssl := false; sc_cert := false |}.

Definition server_alloc (w : world) : world * option positive :=
  calloc w (OServer {| sv_cfg := zero_cfg; sv_nconn := 0; sv_refcnt := 0 |}).

Definition server_clone (w : world) (svr : option positive) : res (world * option positive) :=
  match svr with
  | None => Ok (w, None)
  | Some p => do s <- get_server w p; Ok (put w p (OServer (server_ref s (s32 (sv_refcnt s + 1)))), svr)
  end.

Definition server_free (w : world) (svr : option positive) : res (world * Z) :=
  match svr with
  | None => Ok (w, -1)
  | Some p =>
      do s <- get_server w p;
      let refcnt := sv_refcnt s in
      let w := put w p (OServer (server_ref s (s32 (refcnt - 1)))) in
      Ok (if refcnt =? 0 then hfree w p else w, 0)
  end.

Definition server_alloc_data (w : world) (svr : option positive) : res (world * option positive) :=
  match svr with
  | None => Ok (w, None)
  | Some sp =>
      let (w, p) := calloc w (OData {| sd_server := None; sd_sslctx := false; sd_nconn := 0; sd_refcnt := 0 |}) in
      match p with
      | None => Ok (w, None)
      | Some p =>
          do (w, s) <- server_clone w svr;
          do d <- get_data w p;
          let w := put w p (OData {| sd_server := s; sd_sslctx := sd_sslctx d; sd_nconn := sd_nconn d; sd_refcnt := sd_refcnt d |}) in
          do sv <- get_server w sp;
          if sc_ssl (sv_cfg sv) then
            let (w, ctx) := ctx_alloc w in
            do d <- get_data w p;
            let w := put w p (OData {| sd_server := sd_server d; sd_sslctx := ctx; sd_nconn := sd_nconn d; sd_refcnt := sd_refcnt d |}) in
            if negb ctx then
              do (w, _) <- server_free w svr;
              do _ <- get_data w p;
              Ok (hfree w p, None)
            else Ok (w, Some p)
          else Ok (w, Some p)
      end
  end.

Definition server_clone_data (w : world) (sd : option positive) : res (world * option positive) :=
  match sd with
  | None => Ok (w, None)
  | Some p => do d <- get_data w p; Ok (put w p (OData (data_ref d (s32 (sd_refcnt d + 1)))), sd)
  end.

Definition server_free_data (w : world) (sd : option positive) : res (world * Z) :=
  match sd with
  | None => Ok (w, -1)
  | Some p =>
      do d <- get_data w p;
      let refcnt := sd_refcnt d in
      let w := put w p (OData (data_ref d (s32 (refcnt - 1)))) in
      if refcnt =? 0 then
        do (w, _) <- server_free w (sd_server d);
        do _ <- get_data w p;
        Ok (hfree w p, 0)
      else Ok (w, 0)
  end.

(** The two counters of connections, changed by [k]. *)
Definition server_add_conn (k : Z) (w : world) (sd : option positive) : res (world * Z) :=
  match sd with
  | None => Ok (w, -1)
  | Some p =>
      do d <- get_data w p;
      let w := put w p (OData {| sd_server := sd_server d; sd_sslctx := sd_sslctx d;
                                 sd_nconn := u32 (sd_nconn d + k); sd_refcnt := sd_refcnt d |}) in
      match sd_server d with
      | None => Fault NullDeref
      | Some q =>
          do s <- get_server w q;
          Ok (put w q (OServer {| sv_cfg := sv_cfg s; sv_nconn := u32 (sv_nconn s + k); sv_refcnt := sv_refcnt s |}), 0)
      end
  end.
Definition server_inc_conn : world -> option positive -> res (world * Z) := server_add_conn 1.
Definition server_dec_conn : world -> option positive -> res (world * Z) := server_add_conn (-1).

(** ** Pools *)
Definition svrpool_alloc (w : world) : world * option positive :=
  calloc w (OPool {| sp_cfg := {| spc_name := []; spc_algo := 0 |}; sp_svrlist := []; sp_nserver := 0; sp_refcnt := 0 |}).

Definition svrpool_clone (w : world) (sp : option positive) : res (world * option positive) :=
  match sp with
  | None => Ok (w, None)
  | Some p => do d <- get_pool w p; Ok (put w p (OPool (pool_ref d (s32 (sp_refcnt d + 1)))), sp)
  end.

(** CBLIST_FOR_EACH_SAFE: every server is unlinked and released. *)
Fixpoint free_servers (w : world) (sp : positive) (l : list positive) : res world :=
  match l with
  | [] => Ok w
  | s :: l =>
      do p <- get_pool w sp;
      let w := put w sp (OPool {| sp_cfg := sp_cfg p; sp_svrlist := l; sp_nserver := sp_nserver p; sp_refcnt := sp_refcnt p |}) in
      do (w, _) <- server_free w (Some s);
      free_servers w sp l
  end.

Definition svrpool_free (w : world) (sp : option positive) : res (world * Z) :=
  match sp with
  | None => Ok (w, -1)
  | Some p =>
      do d <- get_pool w p;
      let refcnt := sp_refcnt d in
      let w := put w p (OPool (pool_ref d (s32 (refcnt - 1)))) in
      if refcnt =? 0 then
        do w <- free_servers w p (sp_svrlist d);
        do _ <- get_pool w p;
        Ok (hfree w p, 0)
      else Ok (w, 0)
  end.

(** proxy_config.c: a server of the configuration file is added to a pool; [cfg]
    is what the line says, and the certificate is never set. *)
Definition cfg_add_server (w : world) (sp : positive) (weight : Z) (ssl : bool) (address : ip_port_t) : res (world * Z) :=
  let (w, svr) := server_alloc w in
  match svr with
  | None => Ok (w, -1)
  | Some s =>
      do v <- get_server w s;
      let w := put w s (OServer {| sv_cfg := {| sc_address := address; sc_weight := weight; sc_ssl := ssl; sc_cert := sc_cert (sv_cfg v) |};
                                   sv_nconn := sv_nconn v; sv_refcnt := sv_refcnt v |}) in
      do p <- get_pool w sp;
      Ok (put w sp (OPool {| sp_cfg := sp_cfg p; sp_svrlist := sp_svrlist p ++ [s]; sp_nserver := s32 (sp_nserver p + 1); sp_refcnt := sp_refcnt p |}), 0)
  end.

(** ** Running data of a pool *)

(** [while ((c = a % b)) { a = b; b = c; } return b;] *)
Fixpoint gcd_loop (fuel : nat) (a b : Z) : res Z :=
  match fuel with
  | O => Fault NoReturn
  | S fuel =>
      if b =? 0 then Fault DivByZero else
      let c := Z.rem a b in
      if negb (c =? 0) then gcd_loop fuel b c else Ok b
  end.
Definition gcd (a b : Z) : res Z := gcd_loop (S (Z.to_nat (Z.abs b))) a b.

(** The weights of servers i, i+1, ... [n] of them. *)
Fixpoint gcd_servers (n : nat) (w : world) (servers : list (option positive)) (i g : Z) : res Z :=
  match n with
  | O => Ok g
  | S n =>
      do sd <- arr_get servers i;
      match sd with
      | None => Fault NullDeref
      | Some p =>
          do d <- get_data w p;
          match sd_server d with
          | None => Fault NullDeref
          | Some q =>
              do s <- get_server w q;
              do g <- (if 0 <? g then gcd (sc_weight (sv_cfg s)) g else Ok (sc_weight (sv_cfg s)));
              gcd_servers n w servers (i + 1) g
          end
      end
  end.

Definition spdata_calc_gcd (w : world) (spd : option positive) : res (world * Z) :=
  match spd with
  | None => Ok (w, -1)
  | Some p =>
      do d <- get_pdata w p;
      do g <- gcd_servers (Z.to_nat (spd_nserver d)) w (spd_servers d) 0 0;
      Ok (put w p (OPData {| spd_servers := spd_servers d; spd_nserver := spd_nserver d;
            spd_gcd := if negb (g =? 0) then u32 g else 1; spd_rrpos := spd_rrpos d; spd_refcnt := spd_refcnt d |}), 0)
  end.

(** CBLIST_FOR_EACH of svrpool_alloc_data. *)
Fixpoint alloc_servers (w : world) (spd : positive) (l : list positive) (i : Z) : res (world * Z) :=
  match l with
  | [] => Ok (w, i)
  | s :: l =>
      do (w, sd) <- server_alloc_data w (Some s);
      do d <- get_pdata w spd;
      do servers <- arr_set (spd_servers d) i sd;
      let w := put w spd (OPData {| spd_servers := servers; spd_nserver := spd_nserver d; spd_gcd := spd_gcd d;
                                    spd_rrpos := spd_rrpos d; spd_refcnt := spd_refcnt d |}) in
      alloc_servers w spd l (i + 1)
  end.

Definition svrpool_alloc_data (w : world) (sp : option positive) : res (world * option positive) :=
  match sp with
  | None => Ok (w, None)
  | Some sp =>
      let (w, spd) := calloc w (OPData {| spd_servers := replicate (Z.to_nat MAX_SERVER) None; spd_nserver := 0; spd_gcd := 0;
                                          spd_rrpos := 0; spd_refcnt := 0 |}) in
      match spd with
      | None => Ok (w, None)
      | Some spd =>
          do p <- get_pool w sp;
          do (w, i) <- alloc_servers w spd (sp_svrlist p) 0;
          do d <- get_pdata w spd;
          let w := put w spd (OPData {| spd_servers := spd_servers d; spd_nserver := i; spd_gcd := spd_gcd d;
                                        spd_rrpos := spd_rrpos d; spd_refcnt := spd_refcnt d |}) in
          do (w, _) <- spdata_calc_gcd w (Some spd);
          Ok (w, Some spd)
      end
  end.

Definition svrpool_clone_data (w : world) (spd : option positive) : res (world * option positive) :=
  match spd with
  | None => Ok (w, None)
  | Some p => do d <- get_pdata w p; Ok (put w p (OPData (pdata_ref d (s32 (spd_refcnt d + 1)))), spd)
  end.

(** The loop of svrpool_free_data; the trace line reads servers[i] first. *)
Fixpoint free_datas (n : nat) (w : world) (spd : positive) (i : Z) : res world :=
  match n with
  | O => Ok w
  | S n =>
      do d <- get_pdata w spd;
      do sd <- arr_get (spd_servers d) i;
      match sd with
      | None => Fault NullDeref
      | Some p =>
          do _ <- get_data w p;
          do (w, _) <- server_free_data w (Some p);
          free_datas n w spd (i + 1)
      end
  end.

Definition svrpool_free_data (w : world) (spd : option positive) : res (world * Z) :=
  match spd with
  | None => Ok (w, -1)
  | Some p =>
      do d <- get_pdata w p;
      let refcnt := spd_refcnt d in
      let w := put w p (OPData (pdata_ref d (s32 (refcnt - 1)))) in
      if refcnt =? 0 then
        do w <- free_datas (Z.to_nat (spd_nserver d)) w p 0;
        do _ <- get_pdata w p;
        Ok (hfree w p, 0)
      else Ok (w, 0)
  end.

(** Round robin. *)
Definition svrpool_get_rp_server (w : world) (spd : option positive) : res (world * option positive) :=
  match spd with
  | None => Ok (w, None)
  | Some p =>
      do d <- get_pdata w p;
      let pos := spd_rrpos d in
      let w := put w p (OPData {| spd_servers := spd_servers d; spd_nserver := spd_nserver d; spd_gcd := spd_gcd d;
                                  spd_rrpos := s32 (spd_rrpos d + 1); spd_refcnt := spd_refcnt d |}) in
      if spd_nserver d =? 0 then Fault DivByZero else
      let pos := Z.rem pos (spd_nserver d) in
      do sd <- arr_get (spd_servers d) pos;
      server_clone_data w sd
  end.

(** By address: the first server with the address [dest]. *)
Fixpoint tp_loop (n : nat) (w : world) (servers : list (option positive)) (dest : ip_port_t) (i : Z) : res (option (option positive)) :=
  match n with
  | O => Ok None
  | S n =>
      do sd <- arr_get servers i;
      match sd with
      | None => Fault NullDeref
      | Some p =>
          do d <- get_data w p;
          match sd_server d with
          | None => Fault NullDeref
          | Some q =>
              do s <- get_server w q;
              if ip_port_compare (Some (sc_address (sv_cfg s))) (Some dest) =? 0 then Ok (Some sd)
              else tp_loop n w servers dest (i + 1)
          end
      end
  end.

Definition svrpool_get_tp_server (w : world) (spd : option positive) (dest : option ip_port_t) : res (world * option positive) :=
  match spd, dest with
  | Some p, Some dest =>
      do d <- get_pdata w p;
      do r <- tp_loop (Z.to_nat (spd_nserver d)) w (spd_servers d) dest 0;
      match r with
      | None => Ok (w, None)
      | Some sd => server_clone_data w sd
      end
  | _, _ => Ok (w, None)
  end.
End SvrPool.
