(* ===== verification/SvrPoolProofs.v ===== *)
(** * svrpool: reference counting

    The counter of every object is one less than the number of references to it:
    those in other objects of the heap and those the callers hold.  [inv] states
    it; three lemmas (a new object, an object that changes, an object that goes)
    carry it through every operation. *)
From S2P Require Import Prelude CLib IpAddr SvrPool.

Module SvrPoolProofs.
Import IpAddr SvrPool.

(** ** References *)
Inductive kind : Type := KServer | KData | KPool | KPData.
#[global] Instance kind_eq_dec : EqDecision kind.
Proof. solve_decision. Defined.

Definition kind_of (o : obj) : kind :=
  match o with OServer _ => KServer | OData _ => KData | OPool _ => KPool | OPData _ => KPData end.
Definition refcnt (o : obj) : Z :=
  match o with OServer s => sv_refcnt s | OData d => sd_refcnt d | OPool p => sp_refcnt p | OPData d => spd_refcnt d end.
(** The references an object holds, and the kind of the objects they lead to. *)
Definition out (o : obj) : list positive :=
  match o with
  | OServer _ => []
  | OData d => option_list (sd_server d)
  | OPool p => sp_svrlist p
  | OPData d => omap id (spd_servers d)
  end.
Definition child (k : kind) : kind := match k with KPData => KData | _ => KServer end.

Definition occ (x : positive) (l : list positive) : nat := length (filter (fun y => y = x) l).
Definition hrefs (h : gmap positive obj) (x : positive) : nat := map_fold (fun _ o n => (occ x (out o) + n)%nat) 0%nat h.
Definition kind_at (h : gmap positive obj) (x : positive) (k : kind) : Prop := exists o, h !! x = Some o /\ kind_of o = k.

Lemma occ_app x a b : occ x (a ++ b) = (occ x a + occ x b)%nat.
Proof. unfold occ. by rewrite filter_app, length_app. Qed.
Lemma occ_cons x y l : occ x (y :: l) = ((if decide (y = x) then 1 else 0) + occ x l)%nat.
Proof. unfold occ. rewrite filter_cons. by destruct (decide (y = x)). Qed.
Lemma occ_elem x l : x ∈ l <-> (0 < occ x l)%nat.
Proof.
  induction l as [|y l IH]; [unfold occ; simpl; split; [by intros ?%elem_of_nil|lia]|].
  rewrite occ_cons, elem_of_cons, IH. destruct (decide (y = x)) as [->|]; naive_solver lia.
Qed.

Lemma hrefs_new h i o x : h !! i = None -> hrefs (<[i := o]> h) x = (occ x (out o) + hrefs h x)%nat.
Proof. intros Hi. unfold hrefs. rewrite map_fold_insert_L; [done| |done]. intros. lia. Qed.
Lemma hrefs_delete h i o x : h !! i = Some o -> hrefs h x = (occ x (out o) + hrefs (delete i h) x)%nat.
Proof. intros Hi. unfold hrefs. rewrite (map_fold_delete_L _ _ i o h); [done| |done]. intros. lia. Qed.
Lemma hrefs_update h i o o' x :
  h !! i = Some o -> (hrefs (<[i := o']> h) x + occ x (out o) = hrefs h x + occ x (out o'))%nat.
Proof.
  intros Hi. rewrite (hrefs_delete h i o x Hi), (hrefs_delete _ i o' x (lookup_insert_eq h i o')), delete_insert_eq. lia.
Qed.

(** ** The invariant *)

(** The array of a pool's running data: the servers, then NULL. *)
Definition pd_wf (k : Z) (d : svrpool_data_t) : Prop :=
  exists ds, spd_servers d = (Some <$> ds) ++ replicate (Z.to_nat MAX_SERVER - length ds) None /\
    (length ds <= Z.to_nat MAX_SERVER)%nat /\ spd_nserver d = Z.of_nat (length ds) /\ 0 <= spd_rrpos d <= k.
Definition obj_wf (k : Z) (o : obj) : Prop :=
  match o with OData d => is_Some (sd_server d) | OPData d => pd_wf k d | _ => True end.

(** [own] are the references held by the callers, [e] the objects under
    construction, [k] a bound of the counters. *)
Record inv (e : list positive) (k : Z) (h : gmap positive obj) (own : list positive) : Prop := {
  inv_ref x : match h !! x with
              | Some o => refcnt o + 1 = Z.of_nat (occ x own + hrefs h x)
              | None => (occ x own + hrefs h x)%nat = 0%nat
              end;
  inv_pos x o : h !! x = Some o -> 0 <= refcnt o <= k;
  inv_typed x o y : h !! x = Some o -> y ∈ out o -> kind_at h y (child (kind_of o));
  inv_wf x o : x ∉ e -> h !! x = Some o -> obj_wf k o }.

Lemma inv_live e k h own x : inv e k h own -> x ∈ own -> exists o, h !! x = Some o.
Proof. intros Hi Hx%occ_elem. pose proof (inv_ref _ _ _ _ Hi x) as Hr. destruct (h !! x); [eauto|lia]. Qed.

Lemma inv_perm e k h own own' : (forall y, occ y own' = occ y own) -> inv e k h own -> inv e k h own'.
Proof. intros Ho Hi. split; [|apply Hi..]. intros x. rewrite Ho. apply Hi. Qed.

Lemma obj_wf_mono k k' o : k <= k' -> obj_wf k o -> obj_wf k' o.
Proof. intros Hk. destruct o; simpl; [done..|]. intros (ds & ? & ? & ? & ?). exists ds. split_and!; (done || lia). Qed.

Lemma inv_mono e e' k k' h own : k <= k' -> (forall x, x ∈ e -> x ∈ e') -> inv e k h own -> inv e' k' h own.
Proof.
  intros Hk He Hi. split; [apply Hi| |apply Hi|].
  - intros x o Hx. pose proof (inv_pos _ _ _ _ Hi x o Hx). lia.
  - intros x o Hx Ho. eapply obj_wf_mono; [done|]. eapply (inv_wf _ _ _ _ Hi); [|done]. auto.
Qed.

(** A change of one object, with the references it gives away or takes. *)
Lemma inv_update e k k' h own own' x o o' :
  inv e k h own -> h !! x = Some o -> kind_of o' = kind_of o -> k <= k' -> 0 <= refcnt o' <= k' ->
  (forall y, Z.of_nat (occ y own' + occ y (out o')) = Z.of_nat (occ y own + occ y (out o)) + if decide (y = x) then refcnt o' - refcnt o else 0) ->
  (forall y, y ∈ out o' -> kind_at h y (child (kind_of o))) -> (x ∉ e -> obj_wf k' o') ->
  inv e k' (<[x := o']> h) own'.
Proof.
  intros Hi Hx Hk Hkk Hr Ho Ht Hw.
  assert (Hkind : forall y K, kind_at h y K -> kind_at (<[x := o']> h) y K).
  { intros y K (oy & Hy & HK). destruct (decide (x = y)) as [<-|Hne].
    - exists o'. rewrite lookup_insert_eq. split; [done|]. congruence.
    - exists oy. by rewrite lookup_insert_ne. }
  split.
  - intros y. pose proof (inv_ref _ _ _ _ Hi y) as Hy. pose proof (hrefs_update h x o o' y Hx) as Hh. specialize (Ho y).
    destruct (decide (y = x)) as [->|Hne]; [rewrite lookup_insert_eq; rewrite Hx in Hy; lia|].
    rewrite lookup_insert_ne by done. destruct (h !! y); lia.
  - intros y oy Hy. destruct (decide (y = x)) as [->|Hne]; [rewrite lookup_insert_eq in Hy; by injection Hy as <-|].
    rewrite lookup_insert_ne in Hy by done. pose proof (inv_pos _ _ _ _ Hi y oy Hy). lia.
  - intros y oy z Hy Hz. apply Hkind. destruct (decide (y = x)) as [->|Hne].
    + rewrite lookup_insert_eq in Hy. injection Hy as <-. rewrite Hk. by apply Ht.
    + rewrite lookup_insert_ne in Hy by done. by eapply (inv_typed _ _ _ _ Hi).
  - intros y oy He Hy. destruct (decide (y = x)) as [->|Hne]; [rewrite lookup_insert_eq in Hy; injection Hy as <-; auto|].
    rewrite lookup_insert_ne in Hy by done. eapply obj_wf_mono; [done|]. by eapply (inv_wf _ _ _ _ Hi).
Qed.

(** A new object without references. *)
Lemma inv_new e k h own x o :
  inv e k h own -> h !! x = None -> refcnt o = 0 -> out o = [] -> 0 <= k -> (x ∉ e -> obj_wf k o) ->
  inv e k (<[x := o]> h) (x :: own).
Proof.
  intros Hi Hx Hr Ho Hk Hw. split.
  - intros y. pose proof (inv_ref _ _ _ _ Hi y) as Hy. rewrite hrefs_new, Ho, occ_cons by done. change (occ y []) with 0%nat.
    destruct (decide (x = y)) as [<-|Hne]; [rewrite lookup_insert_eq; rewrite Hx in Hy; lia|].
    rewrite lookup_insert_ne by done. destruct (h !! y); lia.
  - intros y oy Hy. destruct (decide (x = y)) as [<-|Hne]; [rewrite lookup_insert_eq in Hy; injection Hy as <-; lia|].
    rewrite lookup_insert_ne in Hy by done. by apply (inv_pos _ _ _ _ Hi y oy).
  - intros y oy z Hy Hz. assert (Hyz : kind_at h z (child (kind_of oy))).
    { destruct (decide (x = y)) as [<-|Hne].
      - rewrite lookup_insert_eq in Hy. injection Hy as <-. rewrite Ho in Hz. by apply elem_of_nil in Hz.
      - rewrite lookup_insert_ne in Hy by done. by eapply (inv_typed _ _ _ _ Hi). }
    destruct Hyz as (oz & Hoz & HK). exists oz. rewrite lookup_insert_ne; [done|]. intros <-. congruence.
  - intros y oy He Hy. destruct (decide (x = y)) as [<-|Hne]; [rewrite lookup_insert_eq in Hy; injection Hy as <-; auto|].
    rewrite lookup_insert_ne in Hy by done. by eapply (inv_wf _ _ _ _ Hi).
Qed.

(** The last reference is given up: what the object held is left to the caller. *)
Lemma inv_delete e k h own x o :
  inv e k h (x :: own) -> h !! x = Some o -> refcnt o = 0 -> inv e k (delete x h) (out o ++ own).
Proof.
  intros Hi Hx Hr.
  assert (Hz : occ x own = 0%nat /\ hrefs h x = 0%nat).
  { pose proof (inv_ref _ _ _ _ Hi x) as H. rewrite Hx, occ_cons, decide_True in H by done. lia. }
  split.
  - intros y. pose proof (inv_ref _ _ _ _ Hi y) as Hy. rewrite occ_app. pose proof (hrefs_delete h x o y Hx) as Hd.
    rewrite occ_cons in Hy. destruct (decide (x = y)) as [<-|Hne]; [rewrite lookup_delete_eq; lia|].
    rewrite lookup_delete_ne by done. destruct (h !! y); lia.
  - intros y oy [_ Hy]%lookup_delete_Some. by apply (inv_pos _ _ _ _ Hi y oy).
  - intros y oy z [Hne Hy]%lookup_delete_Some Hz'. destruct (inv_typed _ _ _ _ Hi y oy z Hy Hz') as (oz & Hoz & HK).
    exists oz. rewrite lookup_delete_ne; [done|]. intros <-. apply occ_elem in Hz'.
    pose proof (hrefs_delete h y oy x Hy). lia.
  - intros y oy He [_ Hy]%lookup_delete_Some. by eapply (inv_wf _ _ _ _ Hi).
Qed.

(** ** Worlds *)
Definition scripts_ok (w : world) : Prop := Forall (eq false) (w_oom w) /\ Forall (eq false) (w_ssl w).
Definition fresh_ok (w : world) : Prop := forall x o, w_heap w !! x = Some o -> (x < w_next w)%positive.
Definition winv (e : list positive) (k : Z) (w : world) (own : list positive) : Prop :=
  inv e k (w_heap w) own /\ fresh_ok w /\ scripts_ok w.

(** Every object of [w'] is one of [w], of the same kind. *)
Definition shrinks (w w' : world) : Prop := forall y o, w_heap w' !! y = Some o -> kind_at (w_heap w) y (kind_of o).
(** Objects of the kinds [P] are left alone. *)
Definition keeps (P : kind -> Prop) (w w' : world) : Prop :=
  forall y o, P (kind_of o) -> w_heap w !! y = Some o -> w_heap w' !! y = Some o.

Lemma winv_heap e k w h own :
  winv e k w own -> (forall y o, h !! y = Some o -> exists o', w_heap w !! y = Some o') -> forall e' k' own', inv e' k' h own' -> winv e' k' (set_heap w h) own'.
Proof. intros (_ & Hf & Hs) Hd e' k' own' Hi. split; [done|]. split; [|done]. intros y o Hy. destruct (Hd y o Hy) as (o' & Ho'). by eapply Hf. Qed.

Lemma dom_put (h : gmap positive obj) x o o' : h !! x = Some o -> forall y oy, <[x := o']> h !! y = Some oy -> exists oy', h !! y = Some oy'.
Proof.
  intros Hx y oy Hy. destruct (decide (x = y)) as [<-|Hne]; [eauto|]. rewrite lookup_insert_ne in Hy by done. eauto.
Qed.
Lemma dom_delete (h : gmap positive obj) x : forall y oy, delete x h !! y = Some oy -> exists oy', h !! y = Some oy'.
Proof. intros y oy [_ Hy]%lookup_delete_Some. eauto. Qed.

(** [inv_update] and [inv_delete] for worlds. *)
Lemma winv_put e k k' w own own' x o o' :
  winv e k w own -> w_heap w !! x = Some o -> kind_of o' = kind_of o -> k <= k' -> 0 <= refcnt o' <= k' ->
  (forall y, Z.of_nat (occ y own' + occ y (out o')) = Z.of_nat (occ y own + occ y (out o)) + if decide (y = x) then refcnt o' - refcnt o else 0) ->
  (forall y, y ∈ out o' -> kind_at (w_heap w) y (child (kind_of o))) -> (x ∉ e -> obj_wf k' o') ->
  winv e k' (put w x o') own'.
Proof.
  intros Hw Hx Hk Hkk Hr Ho Ht Hwf. eapply winv_heap; [exact Hw|by eapply dom_put|]. destruct Hw as [Hi _].
  by eapply inv_update.
Qed.

(** Only counters and statistics change. *)
Lemma winv_count e k k' w own own' x o o' :
  winv e k w own -> w_heap w !! x = Some o -> kind_of o' = kind_of o -> out o' = out o -> k <= k' -> 0 <= refcnt o' <= k' ->
  (forall y, Z.of_nat (occ y own') = Z.of_nat (occ y own) + if decide (y = x) then refcnt o' - refcnt o else 0) ->
  (x ∉ e -> obj_wf k' o') -> winv e k' (put w x o') own'.
Proof.
  intros Hw Hx Hk Ho Hkk Hr Hocc Hwf. eapply winv_put; [done..| | |done].
  - intros y. rewrite Ho. specialize (Hocc y). lia.
  - intros y Hy. rewrite Ho in Hy. by apply (inv_typed _ _ _ _ (proj1 Hw) x o).
Qed.

Lemma winv_hfree e k w own x o :
  winv e k w (x :: own) -> w_heap w !! x = Some o -> refcnt o = 0 -> winv e k (hfree w x) (out o ++ own).
Proof. intros Hw Hx Hr. eapply winv_heap; [exact Hw|apply dom_delete|]. by apply inv_delete, Hr; [apply Hw|]. Qed.

Lemma hfree_put w x o : hfree (put w x o) x = hfree w x.
Proof. unfold hfree, put, set_heap. simpl. by rewrite delete_insert_eq. Qed.

Lemma get_server_Ok w p s : get_server w p = Ok s <-> w_heap w !! p = Some (OServer s).
Proof. unfold get_server. destruct (w_heap w !! p) as [[]|]; naive_solver. Qed.
Lemma get_data_Ok w p s : get_data w p = Ok s <-> w_heap w !! p = Some (OData s).
Proof. unfold get_data. destruct (w_heap w !! p) as [[]|]; naive_solver. Qed.
Lemma get_pool_Ok w p s : get_pool w p = Ok s <-> w_heap w !! p = Some (OPool s).
Proof. unfold get_pool. destruct (w_heap w !! p) as [[]|]; naive_solver. Qed.
Lemma get_pdata_Ok w p s : get_pdata w p = Ok s <-> w_heap w !! p = Some (OPData s).
Proof. unfold get_pdata. destruct (w_heap w !! p) as [[]|]; naive_solver. Qed.

Lemma kind_server h x : kind_at h x KServer -> exists s, h !! x = Some (OServer s).
Proof. intros ([] & ? & ?); naive_solver. Qed.
Lemma kind_data h x : kind_at h x KData -> exists s, h !! x = Some (OData s).
Proof. intros ([] & ? & ?); naive_solver. Qed.
Lemma kind_pool h x : kind_at h x KPool -> exists s, h !! x = Some (OPool s).
Proof. intros ([] & ? & ?); naive_solver. Qed.
Lemma kind_pdata h x : kind_at h x KPData -> exists s, h !! x = Some (OPData s).
Proof. intros ([] & ? & ?); naive_solver. Qed.

Lemma shrinks_refl w : shrinks w w.
Proof. intros y o Hy. by exists o. Qed.
Lemma shrinks_trans w1 w2 w3 : shrinks w1 w2 -> shrinks w2 w3 -> shrinks w1 w3.
Proof. intros H1 H2 y o (o' & Ho' & HK)%H2. destruct (H1 y o' Ho') as (o1 & ? & ?). exists o1. split; [done|congruence]. Qed.
Lemma shrinks_put w x o o' : w_heap w !! x = Some o -> kind_of o' = kind_of o -> shrinks w (put w x o').
Proof.
  intros Hx Hk y oy Hy. simpl in Hy. destruct (decide (x = y)) as [<-|Hne].
  - rewrite lookup_insert_eq in Hy. injection Hy as <-. by exists o.
  - rewrite lookup_insert_ne in Hy by done. by exists oy.
Qed.
Lemma shrinks_hfree w x : shrinks w (hfree w x).
Proof. intros y oy Hy. simpl in Hy. apply lookup_delete_Some in Hy as [_ Hy]. by exists oy. Qed.
Lemma keeps_put (P : kind -> Prop) w x o o' : w_heap w !! x = Some o -> ~ P (kind_of o) -> keeps P w (put w x o').
Proof. intros Hx HP y oy Hk Hy. simpl. rewrite lookup_insert_ne; [done|]. intros <-. apply HP. congruence. Qed.
Lemma keeps_hfree (P : kind -> Prop) w x o : w_heap w !! x = Some o -> ~ P (kind_of o) -> keeps P w (hfree w x).
Proof. intros Hx HP y oy Hk Hy. simpl. rewrite lookup_delete_ne; [done|]. intros <-. apply HP. congruence. Qed.
Lemma keeps_trans P w1 w2 w3 : keeps P w1 w2 -> keeps P w2 w3 -> keeps P w1 w3.
Proof. intros H1 H2 y o Hk Hy. by apply H2, H1. Qed.

(** ** Releasing *)
Lemma occ_drop_one (own : list positive) x y (r : Z) :
  Z.of_nat (occ y own) = Z.of_nat (occ y (x :: own)) + (if decide (y = x) then (r - 1) - r else 0).
Proof. rewrite occ_cons. destruct (decide (x = y)), (decide (y = x)); subst; (done || lia). Qed.

Lemma server_free_ok e k w own s :
  k < 2 ^ 31 -> winv e k w (s :: own) -> kind_at (w_heap w) s KServer ->
  exists w', server_free w (Some s) = Ok (w', 0) /\ winv e k w' own /\ shrinks w w' /\ keeps (fun K => K <> KServer) w w'.
Proof.
  intros Hk31 Hw (v & Hv)%kind_server. unfold server_free. rewrite (proj2 (get_server_Ok w s v) Hv). cbn [bind].
  pose proof (inv_pos _ _ _ _ (proj1 Hw) s _ Hv) as Hp. cbn [refcnt] in Hp.
  destruct (Z.eqb_spec (sv_refcnt v) 0) as [Hz|Hnz].
  - eexists. split; [done|]. rewrite hfree_put. split; [|split; [apply shrinks_hfree|eapply keeps_hfree; [done|auto]]].
    change own with (out (OServer v) ++ own). by eapply winv_hfree.
  - eexists. split; [done|]. rewrite s32_small by lia.
    split; [|split; [by eapply shrinks_put|eapply keeps_put; [done|auto]]].
    eapply winv_count; [exact Hw|exact Hv|done|done|lia|simpl; lia| |done]. intros y. apply occ_drop_one.
Qed.

(** Working around an object [x] of another kind that is about to go. *)
Lemma server_free_ghost w x s g r :
  (forall v, w_heap w !! x <> Some (OServer v)) -> server_free (hfree w x) s = Ok (g, r) ->
  exists w', server_free w s = Ok (w', r) /\ hfree w' x = g /\ w_heap w' !! x = w_heap w !! x.
Proof.
  intros Hx. destruct s as [p|]; [|intros [= <- <-]; by exists w]. unfold server_free.
  intros (v & Hv%get_server_Ok & [= <- <-])%bind_Ok. simpl in Hv. apply lookup_delete_Some in Hv as [Hne Hv].
  rewrite (proj2 (get_server_Ok w p v) Hv). cbn [bind]. eexists. split; [done|].
  destruct (sv_refcnt v =? 0); unfold hfree, put, set_heap; simpl.
  - rewrite lookup_delete_ne, lookup_insert_ne by done. split; [|done]. by rewrite delete_delete, (delete_insert_ne _ x p) by done.
  - rewrite lookup_insert_ne by done. split; [|done]. by rewrite delete_insert_ne by done.
Qed.

Lemma server_free_opt e k w own (s : option positive) :
  k < 2 ^ 31 -> winv e k w (option_list s ++ own) -> (forall p, s = Some p -> kind_at (w_heap w) p KServer) ->
  exists w' r, server_free w s = Ok (w', r) /\ winv e k w' own /\ shrinks w w' /\ keeps (fun K => K <> KServer) w w'.
Proof.
  intros Hk Hw Hs. destruct s as [p|]; simpl in *.
  - destruct (server_free_ok e k w own p) as (w' & ? & ? & ? & ?); [done|done|auto|]. exists w', 0. done.
  - exists w, (-1). split_and!; [done|done|apply shrinks_refl|]. by intros y o.
Qed.

Lemma kind_at_hfree h x y o K : kind_at h y K -> h !! x = Some o -> kind_of o <> K -> kind_at (delete x h) y K.
Proof. intros (oy & Hy & HK) Hx Hne. exists oy. rewrite lookup_delete_ne; [done|]. intros <-. congruence. Qed.

Lemma server_free_data_ok e k w own d :
  k < 2 ^ 31 -> winv e k w (d :: own) -> kind_at (w_heap w) d KData ->
  exists w', server_free_data w (Some d) = Ok (w', 0) /\ winv e k w' own /\ shrinks w w' /\
    keeps (fun K => K <> KServer /\ K <> KData) w w'.
Proof.
  intros Hk31 Hw (v & Hv)%kind_data. unfold server_free_data. rewrite (proj2 (get_data_Ok w d v) Hv). cbn [bind].
  pose proof (inv_pos _ _ _ _ (proj1 Hw) d _ Hv) as Hp. cbn [refcnt] in Hp.
  destruct (Z.eqb_spec (sd_refcnt v) 0) as [Hz|Hnz].
  - set (W := put w d (OData (data_ref v (s32 (sd_refcnt v - 1))))).
    assert (HW : w_heap W !! d = Some (OData (data_ref v (s32 (sd_refcnt v - 1))))) by apply lookup_insert_eq.
    pose proof (winv_hfree _ _ _ _ _ _ Hw Hv Hz) as Hg. cbn [out] in Hg.
    destruct (server_free_opt e k (hfree w d) own (sd_server v) Hk31 Hg) as (g & r & Hg1 & Hg2 & Hsh & Hke).
    { intros p Hp'. eapply kind_at_hfree; [|exact Hv|done]. apply (inv_typed _ _ _ _ (proj1 Hw) d _ p Hv). simpl. rewrite Hp'. simpl. by left. }
    rewrite <- (hfree_put w d (OData (data_ref v (s32 (sd_refcnt v - 1))))) in Hg1. fold W in Hg1.
    apply server_free_ghost in Hg1 as (W' & -> & <- & Hx); [|by rewrite HW]. cbn [bind].
    rewrite HW in Hx. rewrite (proj2 (get_data_Ok W' d _) Hx). cbn [bind]. eexists. split; [done|]. split; [done|]. split.
    + eapply shrinks_trans; [apply shrinks_hfree|done].
    + intros y o [Hk1 Hk2] Hy. apply Hke; [done|]. simpl. rewrite lookup_delete_ne; [done|]. intros <-. rewrite Hv in Hy. by injection Hy as <-.
  - eexists. split; [done|]. rewrite s32_small by lia.
    split; [|split; [by eapply shrinks_put|eapply keeps_put; [done|by intros [_ ?]]]].
    eapply winv_count; [exact Hw|exact Hv|done|done|lia|simpl; lia| |].
    + intros y. apply occ_drop_one.
    + intros He. by apply (inv_wf _ _ _ _ (proj1 Hw) d _ He Hv).
Qed.

Lemma server_free_data_ghost w x d g r :
  (forall v, w_heap w !! x <> Some (OServer v)) -> (forall v, w_heap w !! x <> Some (OData v)) ->
  server_free_data (hfree w x) d = Ok (g, r) ->
  exists w', server_free_data w d = Ok (w', r) /\ hfree w' x = g /\ w_heap w' !! x = w_heap w !! x.
Proof.
  intros Hx1 Hx2. destruct d as [p|]; [|intros [= <- <-]; by exists w]. unfold server_free_data.
  intros (v & Hv%get_data_Ok & H)%bind_Ok. simpl in Hv. apply lookup_delete_Some in Hv as [Hne Hv].
  rewrite (proj2 (get_data_Ok w p v) Hv). cbn [bind].
  set (o := OData (data_ref v (s32 (sd_refcnt v - 1)))) in *.
  assert (E : put (hfree w x) p o = hfree (put w p o) x).
  { unfold hfree, put, set_heap. simpl. by rewrite (delete_insert_ne _ x p) by done. }
  rewrite E in H. assert (HWx : w_heap (put w p o) !! x = w_heap w !! x) by (simpl; by rewrite lookup_insert_ne).
  destruct (sd_refcnt v =? 0).
  - apply bind_Ok in H as ((g1 & r1) & H1 & H). apply server_free_ghost in H1 as (W & -> & <- & HW); [|by rewrite HWx].
    cbn [bind]. apply bind_Ok in H as (v2 & Hv2%get_data_Ok & [= <- <-]). simpl in Hv2. apply lookup_delete_Some in Hv2 as [_ Hv2].
    rewrite (proj2 (get_data_Ok W p v2) Hv2). cbn [bind]. eexists. split; [done|].
    unfold hfree, set_heap. simpl. rewrite lookup_delete_ne by done. rewrite delete_delete. split; [done|]. congruence.
  - injection H as <- <-. eexists. split; [done|]. split; [done|]. done.
Qed.

(** The loops that release what an object held; [x] is the object that goes. *)
Lemma free_servers_ok e k l W x own :
  k < 2 ^ 31 -> winv e k (hfree W x) (l ++ own) -> kind_at (w_heap W) x KPool ->
  (forall s, s ∈ l -> kind_at (w_heap (hfree W x)) s KServer) ->
  exists W', free_servers W x l = Ok W' /\ winv e k (hfree W' x) own /\ kind_at (w_heap W') x KPool.
Proof.
  intros Hk. revert W. induction l as [|s l IH]; intros W Hw HK Hl; cbn [free_servers]; [by exists W|].
  destruct (kind_pool _ _ HK) as (p & Hp). rewrite (proj2 (get_pool_Ok W x p) Hp). cbn [bind].
  set (o := OPool {| sp_cfg := sp_cfg p; sp_svrlist := l; sp_nserver := sp_nserver p; sp_refcnt := sp_refcnt p |}).
  rewrite <- (hfree_put W x o) in Hw, Hl. assert (Ho : w_heap (put W x o) !! x = Some o) by apply lookup_insert_eq.
  destruct (server_free_ok e k _ (l ++ own) s Hk Hw) as (g & Hg & Hg2 & Hsh & _); [apply Hl; left|].
  apply server_free_ghost in Hg as (W' & -> & <- & HW'); [|by rewrite Ho]. cbn [bind]. apply IH; [done| |].
  - exists o. split; [congruence|done].
  - intros s' Hs'. destruct (inv_live _ _ _ _ s' (proj1 Hg2)) as (o' & Ho'); [set_solver|].
    destruct (Hsh s' o' Ho') as (o2 & Ho2 & E). destruct (Hl s' ltac:(by right)) as (o3 & Ho3 & E3). exists o'. split; [done|congruence].
Qed.

Lemma free_datas_ok e k m (i : nat) ds v W x own :
  k < 2 ^ 31 -> (i + m)%nat = length ds -> (length ds <= Z.to_nat MAX_SERVER)%nat ->
  spd_servers v = (Some <$> ds) ++ replicate (Z.to_nat MAX_SERVER - length ds) None ->
  winv e k (hfree W x) (drop i ds ++ own) -> w_heap W !! x = Some (OPData v) ->
  (forall d, d ∈ drop i ds -> kind_at (w_heap (hfree W x)) d KData) ->
  exists W', free_datas m W x (Z.of_nat i) = Ok W' /\ winv e k (hfree W' x) own /\ w_heap W' !! x = Some (OPData v).
Proof.
  intros Hk Him Hmax Hs. revert i W Him. induction m as [|m IH]; intros i W Him Hw Hx Hl; cbn [free_datas].
  { exists W. by rewrite drop_ge in Hw by lia. }
  rewrite (proj2 (get_pdata_Ok W x v) Hx). cbn [bind].
  destruct (lookup_lt_is_Some_2 ds i ltac:(lia)) as [d Hd]. rewrite (drop_S ds d i Hd) in Hw, Hl.
  rewrite (arr_get_nat _ i (Some d)).
  2: { rewrite Hs, lookup_app_l by (rewrite length_fmap; lia). by rewrite list_lookup_fmap, Hd. }
  cbn [bind]. destruct (kind_data _ _ (Hl d ltac:(by left))) as (dv & Hdv). simpl in Hdv. apply lookup_delete_Some in Hdv as [Hne Hdv].
  rewrite (proj2 (get_data_Ok W d dv) Hdv). cbn [bind].
  destruct (server_free_data_ok e k _ (drop (S i) ds ++ own) d Hk Hw) as (g & Hg & Hg2 & Hsh & _); [apply Hl; by left|].
  apply server_free_data_ghost in Hg as (W' & -> & <- & HW'); [|by rewrite Hx..]. cbn [bind].
  replace (Z.of_nat i + 1) with (Z.of_nat (S i)) by lia. apply IH; [lia|done|congruence|].
  intros s' Hs'. destruct (inv_live _ _ _ _ s' (proj1 Hg2)) as (o' & Ho'); [set_solver|].
  destruct (Hsh s' o' Ho') as (o2 & Ho2 & E). destruct (Hl s' ltac:(by right)) as (o3 & Ho3 & E3). exists o'. split; [done|congruence].
Qed.

Lemma omap_servers (ds : list positive) n : omap id ((Some <$> ds) ++ replicate n None) = ds.
Proof.
  induction ds as [|d ds IH]; [by induction n|].
  change (d :: omap id ((Some <$> ds) ++ replicate n None) = d :: ds). by rewrite IH.
Qed.

Lemma svrpool_free_ok e k w own x :
  k < 2 ^ 31 -> winv e k w (x :: own) -> kind_at (w_heap w) x KPool ->
  exists w', svrpool_free w (Some x) = Ok (w', 0) /\ winv e k w' own.
Proof.
  intros Hk31 Hw (v & Hv)%kind_pool. unfold svrpool_free. rewrite (proj2 (get_pool_Ok w x v) Hv). cbn [bind].
  pose proof (inv_pos _ _ _ _ (proj1 Hw) x _ Hv) as Hp. cbn [refcnt] in Hp.
  destruct (Z.eqb_spec (sp_refcnt v) 0) as [Hz|Hnz].
  - pose proof (winv_hfree _ _ _ _ _ _ Hw Hv Hz) as Hg. cbn [out] in Hg.
    set (o := OPool (pool_ref v (s32 (sp_refcnt v - 1)))).
    destruct (free_servers_ok e k (sp_svrlist v) (put w x o) x own Hk31) as (W' & -> & Hw' & HK).
    + by rewrite hfree_put.
    + exists o. split; [apply lookup_insert_eq|done].
    + intros s Hs. rewrite hfree_put. eapply kind_at_hfree; [|exact Hv|done]. by apply (inv_typed _ _ _ _ (proj1 Hw) x _ s Hv).
    + cbn [bind]. destruct (kind_pool _ _ HK) as (v' & Hv'). rewrite (proj2 (get_pool_Ok W' x v') Hv'). by eexists.
  - eexists. split; [done|]. rewrite s32_small by lia.
    eapply winv_count; [exact Hw|exact Hv|done|done|lia|simpl; lia|intros y; apply occ_drop_one|done].
Qed.

Lemma svrpool_free_data_ok k w own x :
  k < 2 ^ 31 -> winv [] k w (x :: own) -> kind_at (w_heap w) x KPData ->
  exists w', svrpool_free_data w (Some x) = Ok (w', 0) /\ winv [] k w' own.
Proof.
  intros Hk31 Hw (v & Hv)%kind_pdata. unfold svrpool_free_data. rewrite (proj2 (get_pdata_Ok w x v) Hv). cbn [bind].
  pose proof (inv_pos _ _ _ _ (proj1 Hw) x _ Hv) as Hp. cbn [refcnt] in Hp.
  pose proof (inv_wf _ _ _ _ (proj1 Hw) x _ ltac:(apply not_elem_of_nil) Hv) as Hpd.
  destruct (Z.eqb_spec (spd_refcnt v) 0) as [Hz|Hnz].
  - pose proof (winv_hfree _ _ _ _ _ _ Hw Hv Hz) as Hg. destruct Hpd as (ds & Hs & Hmax & Hn & Hrr).
    set (v' := pdata_ref v (s32 (spd_refcnt v - 1))).
    destruct (free_datas_ok [] k (length ds) 0 ds v' (put w x (OPData v')) x own Hk31) as (W' & HW & Hw' & HK); [done|done|done| | | |].
    + rewrite hfree_put. cbn [out] in Hg. rewrite Hs, omap_servers in Hg. by rewrite drop_0.
    + apply lookup_insert_eq.
    + intros s Hs'. rewrite hfree_put. eapply kind_at_hfree; [|exact Hv|done]. apply (inv_typed _ _ _ _ (proj1 Hw) x _ s Hv).
      cbn [out]. rewrite Hs, omap_servers. by rewrite drop_0 in Hs'.
    + rewrite Hn, Nat2Z.id. change 0 with (Z.of_nat 0) at 1. rewrite HW. cbn [bind]. rewrite (proj2 (get_pdata_Ok W' x v') HK). by eexists.
  - eexists. split; [done|]. rewrite s32_small by lia.
    eapply winv_count; [exact Hw|exact Hv|done|done|lia|simpl; lia|intros y; apply occ_drop_one|done].
Qed.

(** ** Allocation *)
Definition grows (w w' : world) : Prop := forall y K, kind_at (w_heap w) y K -> kind_at (w_heap w') y K.
Lemma grows_put w x o o' : w_heap w !! x = Some o -> kind_of o' = kind_of o -> grows w (put w x o').
Proof.
  intros Hx Hk y K (oy & Hy & HK). destruct (decide (x = y)) as [<-|Hne].
  - exists o'. split; [apply lookup_insert_eq|congruence].
  - exists oy. simpl. by rewrite lookup_insert_ne.
Qed.
Lemma grows_trans w1 w2 w3 : grows w1 w2 -> grows w2 w3 -> grows w1 w3.
Proof. intros H1 H2 y K Hy. by apply H2, H1. Qed.

Lemma winv_done e k w own x :
  winv (x :: e) k w own -> (forall o, w_heap w !! x = Some o -> obj_wf k o) -> winv e k w own.
Proof.
  intros (Hi & Hf & Hs) Hx. split; [|done]. split; [apply Hi..|]. intros y o He Hy. destruct (decide (y = x)) as [->|Hne]; [auto|].
  eapply (inv_wf _ _ _ _ Hi); [|done]. set_solver.
Qed.

Lemma winv_mono e k k' w own : k <= k' -> winv e k w own -> winv e k' w own.
Proof. intros Hk (Hi & Hr). split; [|done]. by eapply inv_mono. Qed.

Lemma calloc_ok e k w own o :
  winv e k w own -> 0 <= k -> refcnt o = 0 -> out o = [] ->
  exists w' x, calloc w o = (w', Some x) /\ w_heap w !! x = None /\ w_heap w' = <[x := o]> (w_heap w) /\ winv (x :: e) k w' (x :: own).
Proof.
  intros (Hi & Hf & Ho & Hs) Hk Hr Hout. unfold calloc.
  assert (Hfree : w_heap w !! w_next w = None).
  { destruct (w_heap w !! w_next w) as [o'|] eqn:E; [|done]. apply Hf in E. lia. }
  assert (Hsc : Forall (eq false) (tail (w_oom w))) by (by destruct Ho).
  destruct (w_oom w) as [|[] t] eqn:Eo; [|by apply Forall_cons in Ho as [? _]|]; simpl in Hsc.
  all: eexists _, (w_next w); split; [done|]; split; [done|]; split; [done|]; split_and!; [|..].
  all: try (split; simpl; done).
  all: try (apply inv_new; [eapply inv_mono; [..|exact Hi]; [lia|set_solver]|done..|by destruct 1; left]).
  all: intros y oy Hy; simpl in *; destruct (decide (w_next w = y)) as [<-|Hne];
    [lia|rewrite lookup_insert_ne in Hy by done; apply Hf in Hy; lia].
Qed.

Lemma grows_new w w' x o : w_heap w !! x = None -> w_heap w' = <[x := o]> (w_heap w) -> grows w w'.
Proof. intros Hx Hw y K (oy & Hy & HK). exists oy. rewrite Hw, lookup_insert_ne; [done|]. intros <-. congruence. Qed.
Lemma keeps_new P w w' x o : w_heap w !! x = None -> w_heap w' = <[x := o]> (w_heap w) -> keeps P w w'.
Proof. intros Hx Hw y oy _ Hy. rewrite Hw, lookup_insert_ne; [done|]. intros <-. congruence. Qed.

Lemma occ_add_one (own : list positive) x y (r : Z) :
  Z.of_nat (occ y (x :: own)) = Z.of_nat (occ y own) + (if decide (y = x) then (r + 1) - r else 0).
Proof. rewrite occ_cons. destruct (decide (x = y)), (decide (y = x)); subst; (done || lia). Qed.
Lemma occ_same (own : list positive) x y (r : Z) :
  Z.of_nat (occ y own) = Z.of_nat (occ y own) + (if decide (y = x) then r - r else 0).
Proof. destruct (decide _); lia. Qed.

Lemma server_clone_ok e k w own s :
  k + 1 < 2 ^ 31 -> winv e k w own -> kind_at (w_heap w) s KServer ->
  exists w', server_clone w (Some s) = Ok (w', Some s) /\ winv e (k + 1) w' (s :: own) /\ grows w w' /\ keeps (fun K => K <> KServer) w w'.
Proof.
  intros Hk Hw (v & Hv)%kind_server. unfold server_clone. rewrite (proj2 (get_server_Ok w s v) Hv). cbn [bind].
  pose proof (inv_pos _ _ _ _ (proj1 Hw) s _ Hv) as Hp. cbn [refcnt] in Hp. rewrite s32_small by lia.
  eexists. split; [done|]. split; [|split; [by eapply grows_put|eapply keeps_put; [done|auto]]].
  eapply winv_count; [exact Hw|exact Hv|done|done|lia|simpl; lia|intros y; apply occ_add_one|done].
Qed.

Lemma server_clone_data_ok e k w own d :
  k + 1 < 2 ^ 31 -> winv e k w own -> kind_at (w_heap w) d KData ->
  exists w', server_clone_data w (Some d) = Ok (w', Some d) /\ winv e (k + 1) w' (d :: own).
Proof.
  intros Hk Hw (v & Hv)%kind_data. unfold server_clone_data. rewrite (proj2 (get_data_Ok w d v) Hv). cbn [bind].
  pose proof (inv_pos _ _ _ _ (proj1 Hw) d _ Hv) as Hp. cbn [refcnt] in Hp. rewrite s32_small by lia.
  eexists. split; [done|].
  eapply winv_count; [exact Hw|exact Hv|done|done|lia|simpl; lia|intros y; apply occ_add_one|].
  intros He. by apply (inv_wf _ _ _ _ (proj1 Hw) d _ He Hv).
Qed.

Lemma ctx_alloc_ok e k w own :
  winv e k w own -> exists w', ctx_alloc w = (w', true) /\ w_heap w' = w_heap w /\ winv e k w' own.
Proof.
  intros (Hi & Hf & Ho & Hs). unfold ctx_alloc. destruct (w_ssl w) as [|[] t]; [|by apply Forall_cons in Hs as [? _]|];
    eexists; (split; [done|]); (split; [done|]); (split; [done|]); (split; [done|]); split; try done; simpl.
  by apply Forall_cons in Hs as [_ ?].
Qed.

Lemma server_alloc_data_ok e k w own s :
  0 <= k -> k + 1 < 2 ^ 31 -> winv e k w own -> kind_at (w_heap w) s KServer ->
  exists w' p, server_alloc_data w (Some s) = Ok (w', Some p) /\ winv e (k + 1) w' (p :: own) /\
    kind_at (w_heap w') p KData /\ w_heap w !! p = None /\ grows w w' /\ keeps (fun K => K <> KServer) w w'.
Proof.
  intros Hk0 Hk Hw Hs. unfold server_alloc_data.
  destruct (calloc_ok e k w own (OData {| sd_server := None; sd_sslctx := false; sd_nconn := 0; sd_refcnt := 0 |}))
    as (w1 & p & -> & Hp & Hh1 & Hw1); [done..|].
  pose proof (grows_new _ _ _ _ Hp Hh1) as Hg1. pose proof (keeps_new (fun K => K <> KServer) _ _ _ _ Hp Hh1) as Hk1.
  destruct (server_clone_ok _ k w1 (p :: own) s Hk Hw1 (Hg1 _ _ Hs)) as (w2 & -> & Hw2 & Hg2 & Hk2). cbn [bind].
  assert (Hd2 : w_heap w2 !! p = Some (OData {| sd_server := None; sd_sslctx := false; sd_nconn := 0; sd_refcnt := 0 |})).
  { apply Hk2; [done|]. rewrite Hh1. apply lookup_insert_eq. }
  rewrite (proj2 (get_data_Ok w2 p _) Hd2). cbn [bind sd_server sd_sslctx sd_nconn sd_refcnt].
  assert (Hs2 : kind_at (w_heap w2) s KServer) by (by apply Hg2, Hg1).
  set (o3 := OData {| sd_server := Some s; sd_sslctx := false; sd_nconn := 0; sd_refcnt := 0 |}).
  assert (Hw3 : winv (p :: e) (k + 1) (put w2 p o3) (p :: own)).
  { eapply winv_put; [exact Hw2|exact Hd2|done|lia|simpl; lia| | |intros _; by exists s].
    - intros y. simpl. rewrite !occ_cons. destruct (decide (y = p)); lia.
    - intros y Hy. simpl in Hy. apply list_elem_of_singleton in Hy as ->. done. }
  assert (Hg3 : grows w (put w2 p o3)).
  { eapply grows_trans; [exact Hg1|]. eapply grows_trans; [exact Hg2|]. by eapply grows_put. }
  assert (Hk3 : keeps (fun K => K <> KServer) w (put w2 p o3)).
  { intros y oy HK Hy. simpl. rewrite lookup_insert_ne; [by apply Hk2, Hk1|]. intros <-. congruence. }
  destruct (kind_server _ _ (Hg3 _ _ Hs)) as (sv & Hsv). rewrite (proj2 (get_server_Ok _ s sv) Hsv). cbn [bind].
  assert (Hd3 : w_heap (put w2 p o3) !! p = Some o3) by apply lookup_insert_eq.
  destruct (sc_ssl (sv_cfg sv)).
  - destruct (ctx_alloc_ok _ _ _ _ Hw3) as (w4 & -> & Hh4 & Hw4). rewrite <- Hh4 in Hd3.
    rewrite (proj2 (get_data_Ok w4 p _) Hd3). cbn [bind sd_server sd_sslctx sd_nconn sd_refcnt negb].
    eexists _, p. split; [done|]. split_and!; [|..].
    + apply (winv_done _ _ _ _ p); [|intros o; simpl; rewrite lookup_insert_eq; intros [= <-]; simpl; eauto].
      eapply winv_count; [exact Hw4|exact Hd3|done|done|lia|simpl; lia|intros y; apply (occ_same _ _ _ 0)|simpl; eauto].
    + eexists. split; [apply lookup_insert_eq|done].
    + done.
    + intros y K Hy. eapply grows_put; [exact Hd3|done|]. rewrite Hh4. by apply Hg3.
    + intros y oy HK Hy. simpl. rewrite lookup_insert_ne; [rewrite Hh4; by apply Hk3|]. intros <-. congruence.
  - eexists _, p. split; [done|]. split_and!; [| |done..].
    + apply (winv_done _ _ _ _ p); [done|]. intros o. rewrite Hd3. intros [= <-]. simpl. eauto.
    + by exists o3.
Qed.
End SvrPoolProofs.
