(* ===== verification/SvrPoolData.v ===== *)
(** * svrpool: the running data of a pool

    The gcd of the weights, the construction of the running data, the choice of
    a server, and traces of all operations. *)
From S2P Require Import Prelude CLib IpAddr SvrPool SvrPoolProofs.

Module SvrPoolData.
Import IpAddr SvrPool SvrPoolProofs.

(** ** The greatest common divisor of the weights *)
Lemma gcd_loop_ok fuel a b :
  b <> 0 -> Z.abs b < Z.of_nat fuel ->
  exists r, gcd_loop fuel a b = Ok r /\ Z.abs r = Z.gcd a b /\ (0 <= a -> 0 < b -> 0 < r).
Proof.
  revert a b. induction fuel as [|fuel IH]; intros a b Hb Hf; [lia|]. cbn [gcd_loop].
  rewrite (proj2 (Z.eqb_neq b 0)) by done. pose proof (Z.rem_bound_abs a b Hb) as Hr.
  pose proof (Z.gcd_rem a b Hb) as Hg. destruct (Z.eqb_spec (Z.rem a b) 0) as [Hz|Hz]; cbn [negb].
  - exists b. rewrite Hz in Hg. rewrite Z.gcd_0_l in Hg. split_and!; [done| |done]. by rewrite Hg, Z.gcd_comm.
  - destruct (IH b (Z.rem a b) Hz ltac:(lia)) as (r & -> & Habs & Hpos). exists r. split_and!; [done| |].
    + by rewrite Habs, (Z.gcd_comm b), Hg, Z.gcd_comm.
    + intros Ha Hb'. apply Hpos; [lia|]. pose proof (Z.rem_nonneg a b Hb Ha). lia.
Qed.

Lemma gcd_ok a b : b <> 0 -> exists r, gcd a b = Ok r /\ Z.abs r = Z.gcd a b /\ (0 <= a -> 0 < b -> 0 < r).
Proof. intros Hb. apply gcd_loop_ok; [done|]. lia. Qed.

(** The weight found through a server_data pointer. *)
Definition server_weight (w : world) (p : positive) : option Z :=
  match w_heap w !! p with
  | Some (OData d) =>
      match sd_server d with
      | Some q => match w_heap w !! q with Some (OServer s) => Some (sc_weight (sv_cfg s)) | _ => None end
      | None => None
      end
  | _ => None
  end.

Lemma gcd_servers_ok w servers ds (i : nat) g ws :
  (forall j p, ds !! j = Some p -> servers !! (i + j)%nat = Some (Some p)) -> mapM (server_weight w) ds = Some ws ->
  exists g', gcd_servers (length ds) w servers (Z.of_nat i) g = Ok g' /\
    (0 <= g -> Forall (fun v => 0 <= v) ws -> g' = fold_left Z.gcd ws g).
Proof.
  revert i g ws. induction ds as [|p ds IH]; intros i g ws Hs Hm.
  { injection Hm as <-. by exists g. }
  apply mapM_Some in Hm. apply Forall2_cons_inv_l in Hm as (v & ws' & Hv & Hm & ->). apply mapM_Some in Hm. cbn [length gcd_servers].
  rewrite (arr_get_nat servers i (Some p)) by (rewrite <- (Nat.add_0_r i); by apply Hs). cbn [bind].
  unfold server_weight in Hv. destruct (w_heap w !! p) as [[| d | |]|] eqn:Hp; try done.
  destruct (sd_server d) as [q|] eqn:Hq; [|done]. destruct (w_heap w !! q) as [[s| | |]|] eqn:Hqs; try done. injection Hv as Hv.
  rewrite (proj2 (get_data_Ok w p d) Hp). cbn [bind]. rewrite Hq. rewrite (proj2 (get_server_Ok w q s) Hqs). cbn [bind]. rewrite Hv.
  assert (Hstep : exists g1, (if 0 <? g then gcd v g else Ok v) = Ok g1 /\ (0 <= g -> 0 <= v -> g1 = Z.gcd g v)).
  { destruct (Z.ltb_spec 0 g) as [Hg|Hg].
    - destruct (gcd_ok v g ltac:(lia)) as (r & -> & Habs & Hpos). exists r. split; [done|]. intros _ Hv0.
      specialize (Hpos Hv0 Hg). rewrite Z.gcd_comm. lia.
    - exists v. split; [done|]. intros Hg0 Hv0. assert (g = 0) as -> by lia. rewrite Z.gcd_0_l. lia. }
  destruct Hstep as (g1 & -> & Hg1). cbn [bind]. replace (Z.of_nat i + 1) with (Z.of_nat (S i)) by lia.
  destruct (IH (S i) g1 ws') as (g' & Hg' & He); [|done|].
  { intros j p' Hj. replace (S i + j)%nat with (i + S j)%nat by lia. by apply Hs. }
  exists g'. split; [done|]. intros Hg0 [Hv0 Hws]%Forall_cons. cbn [fold_left]. rewrite <- Hg1 by done. apply He; [|done].
  rewrite Hg1 by done. apply Z.gcd_nonneg.
Qed.

Lemma fold_gcd c l a :
  (forall v, v ∈ l -> 0 <= v < 2 ^ 31) -> 0 <= a < 2 ^ 31 ->
  0 <= fold_left Z.gcd l a < 2 ^ 31 /\
  ((c | fold_left Z.gcd l a) <-> (c | a) /\ forall v, v ∈ l -> (c | v)) /\
  (fold_left Z.gcd l a = 0 -> a = 0 /\ forall v, v ∈ l -> v = 0).
Proof.
  revert a. induction l as [|v l IH]; intros a Hl Ha; cbn [fold_left].
  { split_and!; [lia|lia| |intros ->; split; [done|]]. split; [intros ?; split; [done|]|by intros [? _]].
    all: intros v Hv; by apply elem_of_nil in Hv. }
  assert (Hv : 0 <= v < 2 ^ 31) by (apply Hl; left).
  assert (Hgv : 0 <= Z.gcd a v < 2 ^ 31).
  { split; [apply Z.gcd_nonneg|]. destruct (decide (a = 0)) as [->|Ha0]; [rewrite Z.gcd_0_l; lia|].
    assert (Z.gcd a v <= a) by (apply Z.divide_pos_le; [lia|apply Z.gcd_divide_l]). lia. }
  destruct (IH (Z.gcd a v)) as (H1 & H2 & H3); [intros; apply Hl; by right|done|]. split; [done|]. split.
  - rewrite H2. split.
    + intros [Hc Hr]. assert ((c | a) /\ (c | v)) as [? ?].
      { split; (etransitivity; [exact Hc|]); [apply Z.gcd_divide_l|apply Z.gcd_divide_r]. }
      split; [done|]. intros u [->|Hu]%elem_of_cons; auto.
    + intros [Hc Hr]. split; [apply Z.gcd_greatest; [done|apply Hr; left]|]. intros u Hu. apply Hr. by right.
  - intros H0. destruct (H3 H0) as [Hg0 Hr]. apply Z.gcd_eq_0 in Hg0 as [-> ->]. split; [done|].
    intros u [->|Hu]%elem_of_cons; auto.
Qed.

(** C18: _spdata_calc_gcd returns for every pool whose servers exist, and stores
    the greatest common divisor of their weights, or 1 when they are all 0. *)
Theorem spdata_calc_gcd_weights w p d ds ws :
  w_heap w !! p = Some (OPData d) -> spd_nserver d = Z.of_nat (length ds) -> take (length ds) (spd_servers d) = Some <$> ds ->
  mapM (server_weight w) ds = Some ws -> Forall (fun v => 0 <= v < 2 ^ 31) ws ->
  exists w' d', spdata_calc_gcd w (Some p) = Ok (w', 0) /\ w_heap w' !! p = Some (OPData d') /\
    (forall c, 0 < spd_gcd d' /\ ((exists v, v ∈ ws /\ v <> 0) -> (c | spd_gcd d') <-> forall v, v ∈ ws -> (c | v))).
Proof.
  intros Hp Hn Hs Hm Hw. unfold spdata_calc_gcd. rewrite (proj2 (get_pdata_Ok w p d) Hp). cbn [bind]. rewrite Hn, Nat2Z.id.
  destruct (gcd_servers_ok w (spd_servers d) ds 0 0 ws) as (g & Hg & He); [|done|].
  { intros j x Hj. rewrite <- (lookup_take_lt (spd_servers d) (length ds)) by (by eapply lookup_lt_Some).
    cbn [Nat.add]. by rewrite Hs, list_lookup_fmap, Hj. }
  change 0 with (Z.of_nat 0) at 1. rewrite Hg. cbn [bind].
  eexists _, _. split; [done|]. split; [apply lookup_insert_eq|]. cbn [spd_gcd]. intros c.
  specialize (He ltac:(lia) ltac:(by eapply Forall_impl; [exact Hw|simpl; lia])).
  rewrite Forall_forall in Hw. destruct (fold_gcd c ws 0 Hw ltac:(lia)) as (Hr & Hd & Hz). rewrite <- He in Hr, Hd, Hz.
  destruct (Z.eqb_spec g 0) as [Hg0|Hg0]; cbn [negb].
  - split; [lia|]. intros (v & Hv & Hv0). destruct (Hz Hg0) as [_ Hz']. by destruct Hv0; apply Hz'.
  - rewrite u32_small by lia. split; [lia|]. intros _. rewrite Hd. split; [by intros [_ ?]|]. intros H. split; [apply Z.divide_0_r|done].
Qed.

(** ** Building the running data *)
Lemma mapM_all {A B} (f : A -> option B) l : (forall x, x ∈ l -> is_Some (f x)) -> exists r, mapM f l = Some r.
Proof.
  intros Hl. destruct (mapM f l) as [r|] eqn:E; [eauto|]. apply mapM_None, Exists_exists in E as (x & Hx & Hn).
  destruct (Hl x Hx). congruence.
Qed.

Lemma weight_readable e k w own p :
  winv e k w own -> p ∉ e -> kind_at (w_heap w) p KData -> is_Some (server_weight w p).
Proof.
  intros (Hi & _) He (d & Hd)%kind_data. unfold server_weight. rewrite Hd.
  destruct (inv_wf _ _ _ _ Hi p _ He Hd) as [q Hq]. rewrite Hq.
  destruct (kind_server _ _ (inv_typed _ _ _ _ Hi p _ q Hd ltac:(simpl; rewrite Hq; by left))) as (s & ->). eauto.
Qed.

Lemma array_insert (ds : list positive) p n :
  <[length ds := Some p]> ((Some <$> ds) ++ replicate (S n) None) = (Some <$> (ds ++ [p])) ++ replicate n None.
Proof.
  replace (length ds) with (length (Some <$> ds) + 0)%nat by (rewrite length_fmap; lia).
  rewrite insert_app_r, fmap_app, <- app_assoc. done.
Qed.

(** The same array, the rest of the object unchanged. *)
Definition pd_same (d d' : svrpool_data_t) : Prop :=
  spd_nserver d' = spd_nserver d /\ spd_rrpos d' = spd_rrpos d /\ spd_refcnt d' = spd_refcnt d.

(** One server of the loop: its data goes to the next free place of the array, if
    there is one. *)
Lemma alloc_servers_step k s l ds v W x own :
  0 <= k -> k + 1 < 2 ^ 31 -> (length ds <= Z.to_nat MAX_SERVER)%nat -> winv [x] k W own -> w_heap W !! x = Some (OPData v) ->
  spd_servers v = (Some <$> ds) ++ replicate (Z.to_nat MAX_SERVER - length ds) None -> kind_at (w_heap W) s KServer ->
  if decide (length ds = Z.to_nat MAX_SERVER) then alloc_servers W x (s :: l) (Z.of_nat (length ds)) = Fault OutOfBounds
  else exists W' p v', alloc_servers W x (s :: l) (Z.of_nat (length ds)) = alloc_servers W' x l (Z.of_nat (length (ds ++ [p]))) /\
    winv [x] (k + 1) W' own /\ w_heap W' !! x = Some (OPData v') /\ pd_same v v' /\
    spd_servers v' = (Some <$> (ds ++ [p])) ++ replicate (Z.to_nat MAX_SERVER - length (ds ++ [p])) None /\ grows W W'.
Proof.
  intros Hk0 Hk Hmax Hw Hx Hs Hl. cbn [alloc_servers].
  destruct (server_alloc_data_ok [x] k W own s Hk0 ltac:(lia) Hw Hl) as (W1 & p & -> & Hw1 & Hp1 & Hfp & Hg1 & Hk1). cbn [bind].
  assert (Hx1 : w_heap W1 !! x = Some (OPData v)) by (by apply Hk1).
  rewrite (proj2 (get_pdata_Ok W1 x v) Hx1). cbn [bind]. destruct (decide (length ds = Z.to_nat MAX_SERVER)) as [Hfull|Hroom].
  { unfold arr_set. rewrite Hs, length_app, length_fmap, length_replicate. rewrite (proj2 (Z.leb_le _ _)) by lia. by rewrite orb_true_r. }
  assert (Hset : arr_set (spd_servers v) (Z.of_nat (length ds)) (Some p) =
    Ok ((Some <$> (ds ++ [p])) ++ replicate (Z.to_nat MAX_SERVER - length (ds ++ [p])) None)).
  { apply arr_set_Ok. rewrite Hs, Nat2Z.id, length_app, length_fmap, length_replicate. split; [lia|]. rewrite length_app. simpl.
    replace (Z.to_nat MAX_SERVER - length ds)%nat with (S (Z.to_nat MAX_SERVER - (length ds + 1))) by lia. by rewrite array_insert. }
  rewrite Hset. cbn [bind].
  set (v1 := {| spd_servers := (Some <$> (ds ++ [p])) ++ replicate (Z.to_nat MAX_SERVER - length (ds ++ [p])) None;
    spd_nserver := spd_nserver v; spd_gcd := spd_gcd v; spd_rrpos := spd_rrpos v; spd_refcnt := spd_refcnt v |}).
  pose proof (inv_pos _ _ _ _ (proj1 Hw1) x _ Hx1) as Hpos. cbn [refcnt] in Hpos.
  exists (put W1 x (OPData v1)), p, v1. split_and!; [do 2 f_equal; rewrite length_app; simpl; lia| |apply lookup_insert_eq|done|done|].
  - eapply winv_put; [exact Hw1|exact Hx1|done|lia|simpl; lia| | |intros []; left].
    + intros y. cbn [out refcnt]. rewrite Hs. unfold v1. cbn [spd_servers spd_refcnt]. rewrite !omap_servers, occ_app, !occ_cons.
      change (occ y []) with 0%nat. destruct (decide (y = x)); lia.
    + intros y Hy. cbn [out] in Hy. unfold v1 in Hy. cbn [spd_servers] in Hy. rewrite omap_servers in Hy. apply elem_of_app in Hy as [Hy|Hy].
      * apply (inv_typed _ _ _ _ (proj1 Hw1) x _ y Hx1). cbn [out]. by rewrite Hs, omap_servers.
      * apply list_elem_of_singleton in Hy as ->. done.
  - eapply grows_trans; [exact Hg1|]. by eapply grows_put.
Qed.

Lemma alloc_servers_ok k l ds v W x own :
  0 <= k -> k + Z.of_nat (length l) < 2 ^ 31 -> (length ds + length l <= Z.to_nat MAX_SERVER)%nat ->
  winv [x] k W own -> w_heap W !! x = Some (OPData v) ->
  spd_servers v = (Some <$> ds) ++ replicate (Z.to_nat MAX_SERVER - length ds) None ->
  (forall s, s ∈ l -> kind_at (w_heap W) s KServer) ->
  exists W' ds' v', alloc_servers W x l (Z.of_nat (length ds)) = Ok (W', Z.of_nat (length ds + length l)) /\
    winv [x] (k + Z.of_nat (length l)) W' own /\ w_heap W' !! x = Some (OPData v') /\ pd_same v v' /\
    spd_servers v' = (Some <$> ds') ++ replicate (Z.to_nat MAX_SERVER - length ds') None /\
    length ds' = (length ds + length l)%nat.
Proof.
  revert k ds v W. induction l as [|s l IH]; intros k ds v W Hk0 Hk Hmax Hw Hx Hs Hl; cbn [length] in *.
  { exists W, ds, v. rewrite Nat.add_0_r. change (Z.of_nat 0) with 0. rewrite Z.add_0_r. by split_and!. }
  pose proof (alloc_servers_step k s l ds v W x own Hk0 ltac:(lia) ltac:(lia) Hw Hx Hs (Hl s ltac:(left))) as Hstep.
  rewrite decide_False in Hstep by lia. destruct Hstep as (W1 & p & v1 & -> & Hw1 & Hx1 & Hsame1 & Hs1 & Hg1).
  destruct (IH (k + 1) (ds ++ [p]) v1 W1) as (W' & ds' & v' & HW' & Hw' & Hx' & Hsame & Hs' & Hl');
    [lia|lia|rewrite length_app; simpl; lia|done|done|done|intros s' Hs'; apply Hg1, Hl; by right|].
  rewrite HW', length_app. rewrite length_app in Hl'. cbn [length] in Hl' |- *. exists W', ds', v'.
  split; [f_equal; f_equal; lia|]. split; [by replace (k + Z.of_nat (S (length l))) with (k + 1 + Z.of_nat (length l)) by lia|].
  split; [done|]. split; [destruct Hsame1 as (? & ? & ?), Hsame as (? & ? & ?); split_and!; congruence|]. split; [done|lia].
Qed.

(** With more servers than places the loop writes behind the array. *)
Lemma alloc_servers_over k l ds v W x own :
  0 <= k -> k + Z.of_nat (Z.to_nat MAX_SERVER - length ds) + 1 < 2 ^ 31 -> (length ds <= Z.to_nat MAX_SERVER)%nat -> (Z.to_nat MAX_SERVER < length ds + length l)%nat ->
  winv [x] k W own -> w_heap W !! x = Some (OPData v) ->
  spd_servers v = (Some <$> ds) ++ replicate (Z.to_nat MAX_SERVER - length ds) None ->
  (forall s, s ∈ l -> kind_at (w_heap W) s KServer) -> alloc_servers W x l (Z.of_nat (length ds)) = Fault OutOfBounds.
Proof.
  revert k ds v W. induction l as [|s l IH]; intros k ds v W Hk0 Hk Hle Hmax Hw Hx Hs Hl; cbn [length] in *; [lia|].
  pose proof (alloc_servers_step k s l ds v W x own Hk0 ltac:(lia) Hle Hw Hx Hs (Hl s ltac:(left))) as Hstep.
  destruct (decide _) as [Hfull|Hroom]; [done|]. destruct Hstep as (W1 & p & v1 & -> & Hw1 & Hx1 & _ & Hs1 & Hg1).
  apply (IH (k + 1) (ds ++ [p]) v1 W1); rewrite ?length_app; simpl; [lia|lia|lia|lia|done|done| |intros s' Hs'; apply Hg1, Hl; by right].
  rewrite length_app in Hs1. done.
Qed.

Lemma svrpool_alloc_data_spec k w own sp p :
  0 <= k -> k + 257 < 2 ^ 31 -> winv [] k w own -> w_heap w !! sp = Some (OPool p) ->
  (length (sp_svrlist p) <= Z.to_nat MAX_SERVER)%nat ->
  exists w' x, svrpool_alloc_data w (Some sp) = Ok (w', Some x) /\ winv [] (k + 257) w' (x :: own) /\
    exists d, w_heap w' !! x = Some (OPData d) /\ spd_nserver d = Z.of_nat (length (sp_svrlist p)).
Proof.
  intros Hk0 Hk Hw Hsp Hlen. unfold svrpool_alloc_data. unfold MAX_SERVER in *.
  set (v0 := {| spd_servers := replicate (Z.to_nat 256) None; spd_nserver := 0; spd_gcd := 0; spd_rrpos := 0; spd_refcnt := 0 |}).
  destruct (calloc_ok [] k w own (OPData v0)) as (w1 & x & -> & Hx & Hh1 & Hw1); [done|done|done|by apply (omap_servers [])|].
  assert (Hsp1 : w_heap w1 !! sp = Some (OPool p)) by (rewrite Hh1, lookup_insert_ne; [done|congruence]).
  rewrite (proj2 (get_pool_Ok w1 sp p) Hsp1). cbn [bind].
  destruct (alloc_servers_ok k (sp_svrlist p) [] v0 w1 x (x :: own)) as (W & ds & v & HW & HwW & HxW & (Hn & Hrr & Hrc) & Hs & Hl).
  { done. } { unfold MAX_SERVER in *. lia. } { done. } { done. } { rewrite Hh1. apply lookup_insert_eq. } { done. }
  { intros s Hs. by apply (inv_typed _ _ _ _ (proj1 Hw1) sp _ s Hsp1). }
  cbn [length Nat.add] in *. change (Z.of_nat 0) with 0 in HW. rewrite HW. cbn [bind]. rewrite (proj2 (get_pdata_Ok W x v) HxW). cbn [bind].
  set (v2 := {| spd_servers := spd_servers v; spd_nserver := Z.of_nat (length (sp_svrlist p)); spd_gcd := spd_gcd v;
    spd_rrpos := spd_rrpos v; spd_refcnt := spd_refcnt v |}).
  set (K := k + Z.of_nat (length (sp_svrlist p))) in *. assert (HK : k <= K <= k + 256) by (unfold K; lia).
  assert (Hpd : forall kk g, 0 <= kk -> pd_wf kk {| spd_servers := spd_servers v2; spd_nserver := spd_nserver v2; spd_gcd := g; spd_rrpos := spd_rrpos v2; spd_refcnt := spd_refcnt v2 |}).
  { intros kk g Hkk. exists ds. simpl. split_and!; [done|rewrite Hl; done|by rewrite Hl|rewrite Hrr; simpl; lia|rewrite Hrr; simpl; lia]. }
  assert (Hcount : forall o', kind_of o' = KPData -> out o' = out (OPData v) -> refcnt o' = refcnt (OPData v) -> obj_wf K o' ->
    winv [] K (put W x o') (x :: own)).
  { intros o' Hk' Ho' Hr' Hwf. apply (winv_done _ _ _ _ x); [|intros o; simpl; rewrite lookup_insert_eq; by intros [= <-]].
    eapply winv_count; [exact HwW|exact HxW|done|done|lia|rewrite Hr'; simpl; rewrite Hrc; simpl; lia| |done].
    intros y. rewrite Hr'. apply occ_same. }
  pose proof (Hcount (OPData v2) eq_refl eq_refl eq_refl (Hpd K (spd_gcd v) ltac:(lia))) as Hw2.
  unfold spdata_calc_gcd. rewrite (proj2 (get_pdata_Ok (put W x (OPData v2)) x v2)) by apply lookup_insert_eq. cbn [bind].
  destruct (mapM_all (server_weight (put W x (OPData v2))) ds) as (ws & Hws).
  { intros d Hd. eapply (weight_readable [] K); [done|apply not_elem_of_nil|].
    apply (inv_typed _ _ _ _ (proj1 Hw2) x (OPData v2) d); [apply lookup_insert_eq|]. cbn [out v2 spd_servers]. by rewrite Hs, omap_servers. }
  destruct (gcd_servers_ok (put W x (OPData v2)) (spd_servers v2) ds 0 0 ws) as (g & Hg & _); [|done|].
  { intros j d Hj. cbn [Nat.add v2 spd_servers]. rewrite Hs, lookup_app_l by (rewrite length_fmap; by eapply lookup_lt_Some).
    by rewrite list_lookup_fmap, Hj. }
  change (Z.of_nat 0) with 0 in Hg. cbn [v2 spd_nserver]. rewrite Nat2Z.id, <- Hl. fold v2. rewrite Hg. cbn [bind].
  eexists _, x. split; [done|]. split; [|eexists; split; [apply lookup_insert_eq|done]]. eapply (winv_mono _ K); [lia|].
  unfold put at 1, set_heap at 1. simpl. rewrite insert_insert_eq. apply Hcount; [done..|]. rewrite Hl. apply (Hpd K). lia.
Qed.

Lemma svrpool_alloc_data_ok k w own sp p :
  0 <= k -> k + 257 < 2 ^ 31 -> winv [] k w own -> w_heap w !! sp = Some (OPool p) ->
  (length (sp_svrlist p) <= Z.to_nat MAX_SERVER)%nat ->
  exists w' x, svrpool_alloc_data w (Some sp) = Ok (w', Some x) /\ winv [] (k + 257) w' (x :: own).
Proof. intros ? ? Hw Hsp Hl. destruct (svrpool_alloc_data_spec k w own sp p) as (w' & x & ? & ? & _); eauto. Qed.

(** A pool with more servers than the array has room for. *)
Lemma svrpool_alloc_data_over k w own sp p :
  0 <= k -> k + 257 < 2 ^ 31 -> winv [] k w own -> w_heap w !! sp = Some (OPool p) ->
  (Z.to_nat MAX_SERVER < length (sp_svrlist p))%nat -> svrpool_alloc_data w (Some sp) = Fault OutOfBounds.
Proof.
  intros Hk0 Hk Hw Hsp Hlen. unfold svrpool_alloc_data.
  set (v0 := {| spd_servers := replicate (Z.to_nat MAX_SERVER) None; spd_nserver := 0; spd_gcd := 0; spd_rrpos := 0; spd_refcnt := 0 |}).
  destruct (calloc_ok [] k w own (OPData v0)) as (w1 & x & -> & Hx & Hh1 & Hw1); [done|done|done|by apply (omap_servers [])|].
  assert (Hsp1 : w_heap w1 !! sp = Some (OPool p)) by (rewrite Hh1, lookup_insert_ne; [done|congruence]).
  rewrite (proj2 (get_pool_Ok w1 sp p) Hsp1). cbn [bind]. change 0 with (Z.of_nat (@length positive [])) at 1.
  rewrite (alloc_servers_over k (sp_svrlist p) [] v0 w1 x (x :: own)); [done|done| |simpl; lia|simpl; lia|done| |done|].
  - change (Z.of_nat (Z.to_nat MAX_SERVER - length [])) with 256. lia.
  - rewrite Hh1. apply lookup_insert_eq.
  - intros s Hs. by apply (inv_typed _ _ _ _ (proj1 Hw1) sp _ s Hsp1).
Qed.
End SvrPoolData.
