(* ===== verification/SvrPoolClaims.v ===== *)
(** * svrpool: choosing servers, and traces of all operations

    Callers hold references; whatever they do with them, every pointer the code
    follows is valid, the counters are exact, and when the last reference is given
    up nothing is left.  Round robin visits the servers in turn, until its counter
    wraps. *)
From S2P Require Import Prelude CLib IpAddr SvrPool SvrPoolProofs SvrPoolData.

Module SvrPoolClaims.
Import IpAddr SvrPool SvrPoolProofs SvrPoolData.

(** ** The remaining operations *)
Lemma svrpool_clone_ok k w own x :
  k + 1 < 2 ^ 31 -> winv [] k w own -> kind_at (w_heap w) x KPool ->
  exists w', svrpool_clone w (Some x) = Ok (w', Some x) /\ winv [] (k + 1) w' (x :: own).
Proof.
  intros Hk Hw (v & Hv)%kind_pool. unfold svrpool_clone. rewrite (proj2 (get_pool_Ok w x v) Hv). cbn [bind].
  pose proof (inv_pos _ _ _ _ (proj1 Hw) x _ Hv) as Hp. cbn [refcnt] in Hp. rewrite s32_small by lia. eexists. split; [done|].
  eapply winv_count; [exact Hw|exact Hv|done|done|lia|simpl; lia|intros y; apply occ_add_one|done].
Qed.

Lemma svrpool_clone_data_ok k w own x :
  k + 1 < 2 ^ 31 -> winv [] k w own -> kind_at (w_heap w) x KPData ->
  exists w', svrpool_clone_data w (Some x) = Ok (w', Some x) /\ winv [] (k + 1) w' (x :: own).
Proof.
  intros Hk Hw (v & Hv)%kind_pdata. unfold svrpool_clone_data. rewrite (proj2 (get_pdata_Ok w x v) Hv). cbn [bind].
  pose proof (inv_pos _ _ _ _ (proj1 Hw) x _ Hv) as Hp. cbn [refcnt] in Hp. rewrite s32_small by lia. eexists. split; [done|].
  eapply winv_count; [exact Hw|exact Hv|done|done|lia|simpl; lia|intros y; apply occ_add_one|].
  intros He. apply (obj_wf_mono k (k + 1) (OPData v)); [lia|]. by apply (inv_wf _ _ _ _ (proj1 Hw) x _ He Hv).
Qed.

Lemma add_conn_ok k c w own x :
  winv [] k w own -> kind_at (w_heap w) x KData -> exists w', server_add_conn c w (Some x) = Ok (w', 0) /\ winv [] k w' own.
Proof.
  intros Hw (v & Hv)%kind_data. unfold server_add_conn. rewrite (proj2 (get_data_Ok w x v) Hv). cbn [bind].
  pose proof (inv_pos _ _ _ _ (proj1 Hw) x _ Hv) as Hp. pose proof (inv_wf _ _ _ _ (proj1 Hw) x _ ltac:(apply not_elem_of_nil) Hv) as [q Hq].
  rewrite Hq. set (o := OData _).
  assert (Hw1 : winv [] k (put w x o) own).
  { eapply winv_count; [exact Hw|exact Hv|done|simpl; by rewrite Hq|lia|done|intros y; apply occ_same|simpl; eauto]. }
  destruct (kind_server _ q (inv_typed _ _ _ _ (proj1 Hw1) x o q ltac:(apply lookup_insert_eq) ltac:(by left))) as (s & Hs).
  rewrite (proj2 (get_server_Ok _ q s) Hs). cbn [bind]. eexists. split; [done|].
  pose proof (inv_pos _ _ _ _ (proj1 Hw1) q _ Hs) as Hp'. simpl in Hp'.
  eapply winv_count; [exact Hw1|exact Hs|done|done|lia|done|intros y; apply occ_same|done].
Qed.

Lemma cfg_add_server_ok k w own sp weight ssl addr :
  0 <= k -> winv [] k w own -> kind_at (w_heap w) sp KPool ->
  exists w', cfg_add_server w sp weight ssl addr = Ok (w', 0) /\ winv [] k w' own.
Proof.
  intros Hk Hw (p & Hp)%kind_pool. unfold cfg_add_server, server_alloc.
  destruct (calloc_ok [] k w own (OServer {| sv_cfg := zero_cfg; sv_nconn := 0; sv_refcnt := 0 |})) as (w1 & s & -> & Hfs & Hh1 & Hw1); [done..|].
  assert (Hs1 : w_heap w1 !! s = Some (OServer {| sv_cfg := zero_cfg; sv_nconn := 0; sv_refcnt := 0 |})) by (rewrite Hh1; apply lookup_insert_eq).
  rewrite (proj2 (get_server_Ok w1 s _) Hs1). cbn [bind sv_cfg sv_nconn sv_refcnt]. set (o := OServer _).
  assert (Hw2 : winv [] k (put w1 s o) (s :: own)).
  { apply (winv_done _ _ _ _ s); [|intros o'; simpl; rewrite lookup_insert_eq; by intros [= <-]].
    eapply winv_count; [exact Hw1|exact Hs1|done|done|lia|simpl; lia|intros y; apply (occ_same _ _ _ 0)|done]. }
  assert (Hne : s <> sp) by congruence.
  assert (Hp2 : w_heap (put w1 s o) !! sp = Some (OPool p)) by (simpl; by rewrite lookup_insert_ne, Hh1, lookup_insert_ne).
  rewrite (proj2 (get_pool_Ok _ sp p) Hp2). cbn [bind]. eexists. split; [done|].
  pose proof (inv_pos _ _ _ _ (proj1 Hw2) sp _ Hp2) as Hpos.
  eapply winv_put; [exact Hw2|exact Hp2|done|lia|done| | |done].
  - intros y. cbn [out sp_svrlist refcnt sp_refcnt]. rewrite occ_app, !occ_cons. change (occ y []) with 0%nat. destruct (decide (y = sp)); lia.
  - intros y Hy. cbn [out sp_svrlist] in Hy. apply elem_of_app in Hy as [Hy|Hy]; [by apply (inv_typed _ _ _ _ (proj1 Hw2) sp _ y Hp2)|].
    apply list_elem_of_singleton in Hy as ->. exists o. split; [apply lookup_insert_eq|done].
Qed.

(** ** Choosing a server *)
Lemma pd_lookup ds (i : nat) d n : ds !! i = Some d -> ((Some <$> ds) ++ replicate n None : list (option positive)) !! i = Some (Some d).
Proof.
  intros Hi. rewrite lookup_app_l by (rewrite length_fmap; by eapply lookup_lt_Some). by rewrite list_lookup_fmap, Hi.
Qed.

(** One call of the round robin, at any position that is not negative. *)
Lemma rp_step w x v ds :
  w_heap w !! x = Some (OPData v) -> spd_servers v = (Some <$> ds) ++ replicate (Z.to_nat MAX_SERVER - length ds) None ->
  spd_nserver v = Z.of_nat (length ds) -> ds <> [] -> 0 <= spd_rrpos v < 2 ^ 31 ->
  exists d, ds !! (Z.to_nat (spd_rrpos v) mod length ds)%nat = Some d /\
    svrpool_get_rp_server w (Some x) =
      server_clone_data (put w x (OPData {| spd_servers := spd_servers v; spd_nserver := spd_nserver v; spd_gcd := spd_gcd v;
        spd_rrpos := s32 (spd_rrpos v + 1); spd_refcnt := spd_refcnt v |})) (Some d).
Proof.
  intros Hx Hs Hn Hne Hr. assert (0 < length ds)%nat by (destruct ds; [done|simpl; lia]).
  destruct (lookup_lt_is_Some_2 ds (Z.to_nat (spd_rrpos v) mod length ds)) as [d Hd]; [apply Nat.mod_upper_bound; lia|].
  exists d. split; [done|]. unfold svrpool_get_rp_server. rewrite (proj2 (get_pdata_Ok w x v) Hx). cbn [bind].
  rewrite (proj2 (Z.eqb_neq (spd_nserver v) 0)) by lia. rewrite Z.rem_mod_nonneg by lia.
  assert (E : spd_rrpos v mod spd_nserver v = Z.of_nat (Z.to_nat (spd_rrpos v) mod length ds)) by (rewrite Nat2Z.inj_mod, Hn, Z2Nat.id by lia; done).
  rewrite E, (arr_get_nat _ _ (Some d)); [done|]. rewrite Hs. by apply pd_lookup.
Qed.

Lemma get_rp_ok k w own x v :
  k + 1 < 2 ^ 31 -> winv [] k w own -> w_heap w !! x = Some (OPData v) -> spd_nserver v <> 0 ->
  exists w' d, svrpool_get_rp_server w (Some x) = Ok (w', Some d) /\ winv [] (k + 1) w' (d :: own).
Proof.
  intros Hk Hw Hx Hn0. pose proof (inv_wf _ _ _ _ (proj1 Hw) x _ ltac:(apply not_elem_of_nil) Hx) as (ds & Hs & Hmax & Hn & Hr).
  destruct (rp_step w x v ds Hx Hs Hn) as (d & Hd & ->); [intros ->; by rewrite Hn in Hn0|lia|]. rewrite s32_small by lia.
  set (o := OPData _). pose proof (inv_pos _ _ _ _ (proj1 Hw) x _ Hx) as Hp.
  assert (Hkd : kind_at (w_heap w) d KData).
  { apply (inv_typed _ _ _ _ (proj1 Hw) x _ d Hx). cbn [out]. rewrite Hs, omap_servers. by eapply list_elem_of_lookup_2. }
  assert (Hne : x <> d) by (intros <-; destruct Hkd as (o' & Ho' & HK); rewrite Hx in Ho'; by injection Ho' as <-).
  destruct (kind_data _ _ Hkd) as (dv & Hdv). exists (put (put w x o) d (OData (data_ref dv (sd_refcnt dv + 1)))), d.
  assert (Hdv' : w_heap (put w x o) !! d = Some (OData dv)) by (simpl; by rewrite lookup_insert_ne).
  pose proof (inv_pos _ _ _ _ (proj1 Hw) d _ Hdv) as Hpd. simpl in Hpd.
  split; [unfold server_clone_data; rewrite (proj2 (get_data_Ok _ d dv) Hdv'); cbn [bind]; by rewrite s32_small by lia|].
  assert (Hw1 : winv [] (k + 1) (put w x o) own).
  { eapply winv_count; [exact Hw|exact Hx|done|done|lia|simpl in *; lia|intros y; apply occ_same|].
    intros _. exists ds. simpl. split_and!; (done || lia). }
  eapply winv_count; [exact Hw1|exact Hdv'|done|done|lia|simpl; lia|intros y; apply occ_add_one|].
  intros He. by apply (inv_wf _ _ _ _ (proj1 Hw1) d _ He Hdv').
Qed.

Lemma tp_loop_ok w servers dest ds (i : nat) :
  (forall j p, ds !! j = Some p -> servers !! (i + j)%nat = Some (Some p)) -> (forall p, p ∈ ds -> is_Some (server_weight w p)) ->
  exists r, tp_loop (length ds) w servers dest (Z.of_nat i) = Ok r /\ (r = None \/ exists p, p ∈ ds /\ r = Some (Some p)).
Proof.
  revert i. induction ds as [|p ds IH]; intros i Hs Hw; cbn [length tp_loop]; [eauto|].
  rewrite (arr_get_nat servers i (Some p)) by (rewrite <- (Nat.add_0_r i); by apply Hs). cbn [bind].
  destruct (Hw p ltac:(left)) as [v Hv]. unfold server_weight in Hv. destruct (w_heap w !! p) as [[| d | |]|] eqn:Hp; try done.
  destruct (sd_server d) as [q|] eqn:Hq; [|done]. destruct (w_heap w !! q) as [[s| | |]|] eqn:Hqs; try done.
  rewrite (proj2 (get_data_Ok w p d) Hp). cbn [bind]. rewrite Hq. rewrite (proj2 (get_server_Ok w q s) Hqs). cbn [bind].
  destruct (_ =? 0); [eexists; split; [done|]; right; exists p; split; [left|done]|].
  replace (Z.of_nat i + 1) with (Z.of_nat (S i)) by lia. destruct (IH (S i)) as (r & Hr & Ho).
  - intros j p' Hj. replace (S i + j)%nat with (i + S j)%nat by lia. by apply Hs.
  - intros p' Hp'. apply Hw. by right.
  - exists r. split; [done|]. destruct Ho as [?|(p' & ? & ?)]; [by left|right; exists p'; split; [by right|done]].
Qed.

Lemma get_tp_ok k w own x dest :
  k + 1 < 2 ^ 31 -> winv [] k w own -> kind_at (w_heap w) x KPData ->
  exists w' r, svrpool_get_tp_server w (Some x) (Some dest) = Ok (w', r) /\ winv [] (k + 1) w' (option_list r ++ own).
Proof.
  intros Hk Hw (v & Hx)%kind_pdata. pose proof (inv_wf _ _ _ _ (proj1 Hw) x _ ltac:(apply not_elem_of_nil) Hx) as (ds & Hs & Hmax & Hn & Hr).
  assert (Hkd : forall d, d ∈ ds -> kind_at (w_heap w) d KData).
  { intros d Hd. apply (inv_typed _ _ _ _ (proj1 Hw) x _ d Hx). cbn [out]. by rewrite Hs, omap_servers. }
  unfold svrpool_get_tp_server. rewrite (proj2 (get_pdata_Ok w x v) Hx). cbn [bind]. rewrite Hn, Nat2Z.id.
  destruct (tp_loop_ok w (spd_servers v) dest ds 0) as (r & Hl & Ho).
  - intros j p Hj. rewrite Hs. by apply pd_lookup.
  - intros p Hp. eapply weight_readable; [exact Hw|apply not_elem_of_nil|auto].
  - change 0 with (Z.of_nat 0) at 1. rewrite Hl. cbn [bind]. destruct Ho as [->|(p & Hp & ->)].
    + exists w, None. split; [done|]. eapply winv_mono; [|exact Hw]. lia.
    + destruct (server_clone_data_ok [] k w own p) as (w' & -> & Hw'); [lia|done|auto|]. by exists w', (Some p).
Qed.

(** ** Traces *)
Inductive action : Type :=
  | APool
  | AAddServer (sp : positive) (weight : Z) (ssl : bool) (addr : ip_port_t)
  | APoolClone (sp : positive)
  | APoolFree (sp : positive)
  | AData (sp : positive)
  | ADataClone (spd : positive)
  | ADataFree (spd : positive)
  | AGetRp (spd : positive)
  | AGetTp (spd : positive) (dest : ip_port_t)
  | AServerClone (sd : positive)
  | AServerFree (sd : positive)
  | AInc (sd : positive)
  | ADec (sd : positive).

(** One occurrence removed. *)
Fixpoint rm (x : positive) (l : list positive) : list positive :=
  match l with [] => [] | y :: l => if decide (y = x) then l else y :: rm x l end.

Definition kindb (w : world) (x : positive) (k : kind) : bool :=
  match w_heap w !! x with Some o => bool_decide (kind_of o = k) | None => false end.
Definition holds (w : world) (own : list positive) (x : positive) (k : kind) : bool := bool_decide (x ∈ own) && kindb w x k.

(** A caller uses the references it holds. *)
Definition legal (w : world) (own : list positive) (a : action) : bool :=
  match a with
  | APool => true
  | AAddServer x _ _ _ | APoolClone x | APoolFree x | AData x => holds w own x KPool
  | ADataClone x | ADataFree x | AGetTp x _ | AGetRp x => holds w own x KPData
  | AServerClone x | AServerFree x | AInc x | ADec x => holds w own x KData
  end.

(** The two steps that fail: running data for more servers than its array has
    places, and round robin over no server. *)
Definition fails (w : world) (a : action) : option fault :=
  match a with
  | AData x => match w_heap w !! x with Some (OPool p) => if MAX_SERVER <? Z.of_nat (length (sp_svrlist p)) then Some OutOfBounds else None | _ => None end
  | AGetRp x => match w_heap w !! x with Some (OPData d) => if spd_nserver d =? 0 then Some DivByZero else None | _ => None end
  | _ => None
  end.

Definition gain (own : list positive) (r : res (world * option positive)) : res (world * list positive) :=
  do (w, p) <- r; Ok (w, option_list p ++ own).
Definition lose (own : list positive) (x : positive) (r : res (world * Z)) : res (world * list positive) :=
  do (w, _) <- r; Ok (w, rm x own).
Definition same (own : list positive) (r : res (world * Z)) : res (world * list positive) := do (w, _) <- r; Ok (w, own).

Definition act (w : world) (own : list positive) (a : action) : res (world * list positive) :=
  match a with
  | APool => gain own (Ok (svrpool_alloc w))
  | AAddServer sp weight ssl addr => same own (cfg_add_server w sp weight ssl addr)
  | APoolClone x => gain own (svrpool_clone w (Some x))
  | APoolFree x => lose own x (svrpool_free w (Some x))
  | AData x => gain own (svrpool_alloc_data w (Some x))
  | ADataClone x => gain own (svrpool_clone_data w (Some x))
  | ADataFree x => lose own x (svrpool_free_data w (Some x))
  | AGetRp x => gain own (svrpool_get_rp_server w (Some x))
  | AGetTp x dest => gain own (svrpool_get_tp_server w (Some x) (Some dest))
  | AServerClone x => gain own (server_clone_data w (Some x))
  | AServerFree x => lose own x (server_free_data w (Some x))
  | AInc x => same own (server_inc_conn w (Some x))
  | ADec x => same own (server_dec_conn w (Some x))
  end.

(** Actions that are not legal are not taken. *)
Fixpoint run (w : world) (own : list positive) (l : list action) : res (world * list positive) :=
  match l with
  | [] => Ok (w, own)
  | a :: l => if legal w own a then do (w, own) <- act w own a; run w own l else run w own l
  end.

Definition empty_world : world := {| w_heap := ∅; w_next := 1; w_oom := []; w_ssl := []; w_nctx := 0 |}.

Lemma occ_rm x l y : x ∈ l -> occ y (x :: rm x l) = occ y l.
Proof.
  induction l as [|z l IH]; intros Hx; [by apply elem_of_nil in Hx|]. simpl. destruct (decide (z = x)) as [->|Hne]; [done|].
  apply elem_of_cons in Hx as [->|Hx]; [done|]. specialize (IH Hx). rewrite !occ_cons in *. lia.
Qed.

Lemma holds_true w own x k : holds w own x k = true -> x ∈ own /\ kind_at (w_heap w) x k.
Proof.
  unfold holds, kindb. intros [Hx%bool_decide_eq_true Hk]%andb_true_iff. split; [done|].
  destruct (w_heap w !! x) as [o|] eqn:E; [|done]. apply bool_decide_eq_true in Hk. by exists o.
Qed.

Lemma winv_rm k w own x : winv [] k w own -> x ∈ own -> winv [] k w (x :: rm x own).
Proof. intros (Hi & Hr) Hx. split; [|done]. eapply inv_perm; [|exact Hi]. intros y. by apply occ_rm. Qed.

Lemma act_ok k w own a :
  0 <= k -> k + 257 < 2 ^ 31 -> winv [] k w own -> legal w own a = true ->
  match fails w a with
  | Some f => act w own a = Fault f
  | None => exists w' own', act w own a = Ok (w', own') /\ winv [] (k + 257) w' own'
  end.
Proof.
  intros Hk0 Hk Hw Hl.
  assert (Hup : forall k' w' own', k' <= k + 257 -> winv [] k' w' own' -> winv [] (k + 257) w' own')
    by (intros; by eapply winv_mono).
  destruct a as [|sp weight ssl addr|x|x|x|x|x|x|x dest|x|x|x|x]; cbn [legal act fails] in *; unfold gain, lose, same.
  - unfold svrpool_alloc. destruct (calloc_ok [] k w own (OPool {| sp_cfg := {| spc_name := []; spc_algo := 0 |}; sp_svrlist := []; sp_nserver := 0; sp_refcnt := 0 |}))
      as (w' & x & -> & Hx & Hh & Hw'); [done..|]. cbn [bind]. eexists _, _. split; [done|]. eapply (Hup k); [lia|].
    apply (winv_done _ _ _ _ x); [done|]. intros o. rewrite Hh, lookup_insert_eq. by intros [= <-].
  - apply holds_true in Hl as [_ Hl]. destruct (cfg_add_server_ok k w own sp weight ssl addr) as (w' & -> & Hw'); [done..|].
    eexists _, _. split; [done|]. by eapply (Hup k); [lia|].
  - apply holds_true in Hl as [_ Hl]. destruct (svrpool_clone_ok k w own x) as (w' & -> & Hw'); [lia|done..|].
    eexists _, _. split; [done|]. by eapply (Hup (k + 1)); [lia|].
  - apply holds_true in Hl as [Hin Hl]. destruct (svrpool_free_ok [] k w (rm x own) x) as (w' & -> & Hw'); [lia|by apply winv_rm|done|].
    eexists _, _. split; [done|]. by eapply (Hup k); [lia|].
  - apply holds_true in Hl as [_ (p & Hp)%kind_pool]. rewrite Hp. destruct (Z.ltb_spec MAX_SERVER (Z.of_nat (length (sp_svrlist p)))).
    + rewrite (svrpool_alloc_data_over k w own x p); [done|done|done|done|done|unfold MAX_SERVER in *; lia].
    + destruct (svrpool_alloc_data_ok k w own x p) as (w' & y & -> & Hw'); [done..|lia|]. by eexists _, _.
  - apply holds_true in Hl as [_ Hl]. destruct (svrpool_clone_data_ok k w own x) as (w' & -> & Hw'); [lia|done..|].
    eexists _, _. split; [done|]. by eapply (Hup (k + 1)); [lia|].
  - apply holds_true in Hl as [Hin Hl]. destruct (svrpool_free_data_ok k w (rm x own) x) as (w' & -> & Hw'); [lia|by apply winv_rm|done|].
    eexists _, _. split; [done|]. by eapply (Hup k); [lia|].
  - apply holds_true in Hl as [_ (d & Hd)%kind_pdata]. rewrite Hd. destruct (Z.eqb_spec (spd_nserver d) 0) as [E|E].
    + unfold svrpool_get_rp_server. rewrite (proj2 (get_pdata_Ok w x d) Hd). cbn [bind]. by rewrite E.
    + destruct (get_rp_ok k w own x d) as (w' & y & -> & Hw'); [lia|done..|]. eexists _, _. split; [done|]. by eapply (Hup (k + 1)); [lia|].
  - apply holds_true in Hl as [_ Hl]. destruct (get_tp_ok k w own x dest) as (w' & r & -> & Hw'); [lia|done..|].
    eexists _, _. split; [done|]. by eapply (Hup (k + 1)); [lia|].
  - apply holds_true in Hl as [_ Hl]. destruct (server_clone_data_ok [] k w own x) as (w' & -> & Hw'); [lia|done..|].
    eexists _, _. split; [done|]. by eapply (Hup (k + 1)); [lia|].
  - apply holds_true in Hl as [Hin Hl]. destruct (server_free_data_ok [] k w (rm x own) x) as (w' & -> & Hw' & _); [lia|by apply winv_rm|done|].
    eexists _, _. split; [done|]. by eapply (Hup k); [lia|].
  - apply holds_true in Hl as [_ Hl]. unfold server_inc_conn. destruct (add_conn_ok k 1 w own x) as (w' & -> & Hw'); [done..|].
    eexists _, _. split; [done|]. by eapply (Hup k); [lia|].
  - apply holds_true in Hl as [_ Hl]. unfold server_dec_conn. destruct (add_conn_ok k (-1) w own x) as (w' & -> & Hw'); [done..|].
    eexists _, _. split; [done|]. by eapply (Hup k); [lia|].
Qed.

(** The run stopped at a step that fails. *)
Definition stopped (w : world) (own : list positive) (l : list action) (f : fault) : Prop :=
  exists pre a post w' own', l = pre ++ a :: post /\ run w own pre = Ok (w', own') /\ legal w' own' a = true /\ fails w' a = Some f.

Lemma stopped_cons w own a l f w1 own1 :
  (if legal w own a then act w own a = Ok (w1, own1) else w1 = w /\ own1 = own) -> stopped w1 own1 l f -> stopped w own (a :: l) f.
Proof.
  intros Ha (pre & b & post & w' & own' & -> & Hr & Hb). exists (a :: pre), b, post, w', own'. split; [done|]. split; [|done].
  cbn [run]. destruct (legal w own a); [by rewrite Ha|by destruct Ha as [-> ->]].
Qed.

Lemma run_ok l k w own :
  0 <= k -> k + 257 * Z.of_nat (length l) < 2 ^ 31 -> winv [] k w own ->
  match run w own l with
  | Ok (w', own') => winv [] (k + 257 * Z.of_nat (length l)) w' own'
  | Fault f => stopped w own l f
  end.
Proof.
  revert k w own. induction l as [|a l IH]; intros k w own Hk0 Hk Hw; cbn [run].
  { eapply winv_mono; [|exact Hw]. simpl. lia. }
  cbn [length] in *. destruct (legal w own a) eqn:Hl.
  - pose proof (act_ok k w own a Hk0 ltac:(lia) Hw Hl) as Ha. destruct (fails w a) as [f|] eqn:Hf.
    + rewrite Ha. exists [], a, l, w, own. done.
    + destruct Ha as (w1 & own1 & Ha & Hw1). rewrite Ha. cbn [bind]. specialize (IH (k + 257) w1 own1 ltac:(lia) ltac:(lia) Hw1).
      destruct (run w1 own1 l) as [[w' own']|f]; [eapply winv_mono; [|exact IH]; lia|]. eapply stopped_cons; [|exact IH]. by rewrite Hl.
  - specialize (IH k w own ltac:(lia) ltac:(lia) Hw). destruct (run w own l) as [[w' own']|f]; [eapply winv_mono; [|exact IH]; lia|].
    eapply stopped_cons; [|exact IH]. by rewrite Hl.
Qed.

Lemma empty_winv : winv [] 0 empty_world [].
Proof.
  split; [|split; [by intros x o Hx|split; constructor]]. split; [|by intros x o Hx..]. intros x. done.
Qed.

(** Without outside references there is no object: the references lead from
    running data to server data to servers, and never back. *)
Lemma no_owner_empty k w : winv [] k w [] -> w_heap w = ∅.
Proof.
  intros (Hi & _).
  assert (Href : forall x o, w_heap w !! x = Some o -> exists y oy, w_heap w !! y = Some oy /\ x ∈ out oy).
  { intros x o Hx. pose proof (inv_ref _ _ _ _ Hi x) as Hr. rewrite Hx in Hr. pose proof (inv_pos _ _ _ _ Hi x o Hx).
    change (occ x []) with 0%nat in Hr. assert (Hh : (0 < hrefs (w_heap w) x)%nat) by lia. clear -Hh.
    unfold hrefs in Hh. revert Hh. apply (map_fold_weak_ind (fun n h => (0 < n)%nat -> exists y oy, h !! y = Some oy /\ x ∈ out oy)); [lia|].
    intros i o h n Hn IH Hlt. destruct (decide (x ∈ out o)) as [Hin|Hnin]; [exists i, o; split; [apply lookup_insert_eq|done]|].
    assert (occ x (out o) = 0)%nat by (destruct (decide (0 < occ x (out o))%nat) as [H%occ_elem|]; [done|lia]).
    destruct IH as (y & oy & Hy & Hx); [lia|]. exists y, oy. rewrite lookup_insert_ne; [done|]. intros <-. congruence. }
  assert (Hkind : forall x o, w_heap w !! x = Some o -> exists y oy, w_heap w !! y = Some oy /\ kind_of o = child (kind_of oy) /\ kind_of oy <> KServer).
  { intros x o Hx. destruct (Href x o Hx) as (y & oy & Hy & Hin). exists y, oy. split; [done|].
    destruct (inv_typed _ _ _ _ Hi y oy x Hy Hin) as (o' & Ho' & HK). split; [congruence|].
    destruct oy; simpl in *; try done. by apply elem_of_nil in Hin. }
  apply map_empty. intros x. destruct (w_heap w !! x) as [o|] eqn:Hx; [|done]. exfalso.
  destruct (Hkind x o Hx) as (y & oy & Hy & Ho & Hny). destruct (Hkind y oy Hy) as (z & oz & Hz & Hoy & Hnz).
  destruct (Hkind z oz Hz) as (u & ou & Hu & Hoz & Hnu). destruct oy, oz, ou; simpl in *; congruence.
Qed.

(** C16: traces of pool, running-data and server operations of callers that use
    only references they hold, while every calloc and every SSL context succeeds.
    A trace ends, and with it the invariant: the counter of every object is the
    number of references to it less one, every held reference leads to an object,
    and when the callers hold nothing any more every object has been freed (not the SSL
    contexts, which server_free_data leaves behind); or it stops at the first of
    exactly two steps: making the running data of a pool of more than 256
    servers, which writes behind the array, or a round robin over no server, which
    divides by zero. *)
Theorem svrpool_trace_safe l :
  257 * Z.of_nat (length l) < 2 ^ 31 ->
  match run empty_world [] l with
  | Ok (w, own) =>
      (forall x o, w_heap w !! x = Some o -> refcnt o + 1 = Z.of_nat (occ x own + hrefs (w_heap w) x)) /\
      (forall x, x ∈ own -> is_Some (w_heap w !! x)) /\
      (own = [] -> w_heap w = ∅)
  | Fault f => stopped empty_world [] l f
  end.
Proof.
  intros Hl. pose proof (run_ok l 0 empty_world [] ltac:(lia) ltac:(lia) empty_winv) as Hw.
  destruct (run empty_world [] l) as [[w own]|f]; [|done]. split_and!.
  - intros x o Hx. pose proof (inv_ref _ _ _ _ (proj1 Hw) x) as H. by rewrite Hx in H.
  - intros x Hx. destruct (inv_live _ _ _ _ x (proj1 Hw) Hx) as (o & ->). eauto.
  - intros ->. by eapply no_owner_empty.
Qed.

Definition addr0 : ip_port_t := {| ipp_ip := {| ip_family := AF_INET; ip_bytes := replicate 16 0 |}; ipp_port := 80 |}.

(** A pool with two servers, its running data, a server picked, everything given
    back: 1 is the pool, 4 the running data, 5 the first server's data. *)
Definition demo_trace : list action :=
  [APool; AAddServer 1 3 false addr0; AAddServer 1 6 true addr0; AData 1; AGetRp 4; APoolFree 1; ADataFree 4; AInc 5; AServerFree 5].

Definition demo_end : world * list positive := match run empty_world [] demo_trace with Ok r => r | Fault _ => (empty_world, []) end.

(** All is given back: no object is left, and the SSL context of the second server
    is. *)
Lemma svrpool_trace_safe_witness :
  run empty_world [] demo_trace = Ok demo_end /\ demo_end.2 = [] /\ w_heap demo_end.1 = ∅ /\ w_nctx demo_end.1 = 1.
Proof.
  pose proof (svrpool_trace_safe demo_trace ltac:(vm_compute; reflexivity)) as H.
  assert (E : run empty_world [] demo_trace = Ok demo_end) by (vm_compute; reflexivity). rewrite E in H.
  assert (E2 : demo_end.2 = []) by (vm_compute; reflexivity). destruct demo_end as [w own] eqn:D. cbn [fst snd] in *. destruct H as (_ & _ & H).
  split; [exact E|]. split; [exact E2|]. split; [exact (H E2)|]. change w with (fst (w, own)). rewrite <- D. vm_compute. reflexivity.
Defined.

(** Both failing steps occur. *)
Example pool_without_servers : run empty_world [] [APool; AData 1; AGetRp 2] = Fault DivByZero.
Proof. vm_compute. reflexivity. Qed.
Example pool_too_large : run empty_world [] (APool :: replicate 257 (AAddServer 1 1 false addr0) ++ [AData 1]) = Fault OutOfBounds.
Proof. vm_compute. reflexivity. Qed.

(** ** Round robin *)

(** [m] calls of svrpool_get_rp_server, with their results. *)
Fixpoint get_rps (m : nat) (w : world) (x : positive) : res (world * list (option positive)) :=
  match m with
  | O => Ok (w, [])
  | S m => do (w, r) <- svrpool_get_rp_server w (Some x); do (w, rs) <- get_rps m w x; Ok (w, r :: rs)
  end.

Lemma get_rps_S m w x :
  get_rps (S m) w x = do (w, r) <- svrpool_get_rp_server w (Some x); do (w, rs) <- get_rps m w x; Ok (w, r :: rs).
Proof. done. Qed.

(** Running data [x] of the servers [ds], position [r], with room for [m] more
    references to each. *)
Definition rr_ready (m : nat) (w : world) (x : positive) (ds : list positive) (r : Z) : Prop :=
  (exists v, w_heap w !! x = Some (OPData v) /\ spd_servers v = (Some <$> ds) ++ replicate (Z.to_nat MAX_SERVER - length ds) None /\
    spd_nserver v = Z.of_nat (length ds) /\ spd_rrpos v = r) /\
  forall d, d ∈ ds -> exists dv, w_heap w !! d = Some (OData dv) /\ 0 <= sd_refcnt dv /\ sd_refcnt dv + Z.of_nat m < 2 ^ 31.

Lemma rr_step m w x ds r :
  rr_ready (S m) w x ds r -> ds <> [] -> 0 <= r < 2 ^ 31 ->
  exists w', svrpool_get_rp_server w (Some x) = Ok (w', ds !! (Z.to_nat r mod length ds)%nat) /\ rr_ready m w' x ds (s32 (r + 1)).
Proof.
  intros ((v & Hx & Hs & Hn & Hr) & Hds) Hne Hr0. rewrite <- Hr in Hr0. destruct (rp_step w x v ds Hx Hs Hn Hne Hr0) as (d & Hd & Hg).
  rewrite Hr in Hd, Hg. rewrite Hg, Hd. destruct (Hds d ltac:(by eapply list_elem_of_lookup_2)) as (dv & Hdv & Hc).
  assert (Hxd : x <> d) by (intros <-; congruence). set (o := OPData _).
  unfold server_clone_data. rewrite (proj2 (get_data_Ok _ d dv)) by (simpl; by rewrite lookup_insert_ne). cbn [bind].
  rewrite s32_small by lia. eexists. split; [done|]. split.
  - eexists. split; [simpl; rewrite lookup_insert_ne by done; apply lookup_insert_eq|]. done.
  - intros d' Hd'. simpl. destruct (decide (d = d')) as [<-|Hdd].
    + rewrite lookup_insert_eq. eexists. split; [done|]. simpl. lia.
    + destruct (Hds d' Hd') as (dv' & Hdv' & Hc'). exists dv'. assert (x <> d') by (intros <-; congruence).
      rewrite !lookup_insert_ne by done. split; [done|]. lia.
Qed.

Lemma get_rps_ok m w x ds (r : nat) :
  rr_ready m w x ds (Z.of_nat r) -> ds <> [] -> Z.of_nat (r + m) < 2 ^ 31 ->
  exists w', get_rps m w x = Ok (w', (fun j => ds !! (j mod length ds)%nat) <$> seq r m).
Proof.
  revert w r. induction m as [|m IH]; intros w r Hr Hne Hb; cbn [get_rps seq fmap list_fmap]; [eauto|].
  destruct (rr_step m w x ds (Z.of_nat r) Hr Hne ltac:(lia)) as (w1 & -> & Hr1). cbn [bind]. rewrite s32_small in Hr1 by lia.
  replace (Z.of_nat r + 1) with (Z.of_nat (S r)) in Hr1 by lia. rewrite Nat2Z.id.
  destruct (IH w1 (S r) Hr1 Hne ltac:(lia)) as (w' & ->). cbn [bind]. by eexists.
Qed.

(** A full round is a rotation of the servers. *)
Lemma round_rotates (ds : list positive) (r : nat) :
  ds <> [] -> ((fun j => ds !! (j mod length ds)%nat) <$> seq r (length ds)) =
    (Some <$> drop (r mod length ds) ds) ++ (Some <$> take (r mod length ds) ds).
Proof.
  intros Hne. set (n := length ds). set (a := (r mod n)%nat). assert (Hn : (0 < n)%nat) by (destruct ds; [done|unfold n; simpl; lia]).
  assert (Ha : (a < n)%nat) by (apply Nat.mod_upper_bound; lia). apply list_eq. intros j.
  destruct (decide (j < n)%nat) as [Hj|Hj].
  - rewrite list_lookup_fmap, lookup_seq_lt by done. cbn [fmap option_fmap option_map].
    assert (Hmod : ((r + j) mod n = (a + j) mod n)%nat) by (unfold a; by rewrite Nat.Div0.add_mod_idemp_l). rewrite Hmod.
    destruct (decide (j < n - a)%nat) as [Hlt|Hge].
    + rewrite lookup_app_l by (rewrite length_fmap, length_drop; fold n; lia).
      rewrite list_lookup_fmap, lookup_drop, Nat.mod_small by lia. destruct (lookup_lt_is_Some_2 ds (a + j)) as [d ->]; [fold n; lia|done].
    + rewrite lookup_app_r by (rewrite length_fmap, length_drop; fold n; lia). rewrite length_fmap, length_drop. fold n.
      rewrite list_lookup_fmap, lookup_take_lt by lia. replace ((a + j) mod n)%nat with (j - (n - a))%nat.
      * destruct (lookup_lt_is_Some_2 ds (j - (n - a))) as [d ->]; [fold n; lia|done].
      * symmetry. replace (a + j)%nat with (j - (n - a) + 1 * n)%nat by lia. rewrite Nat.Div0.mod_add, Nat.mod_small by lia. done.
  - rewrite !lookup_ge_None_2; [done|rewrite length_app, !length_fmap, length_drop, length_take; fold n; lia|rewrite length_fmap, length_seq; lia].
Qed.

(** C17: round robin is fair: the calls return the servers in turn, call j the
    server at (position + j) mod nserver, and every round of nserver calls returns
    every server exactly once, while the position counter does not wrap. *)
Theorem round_robin_fair m w x ds (r : nat) :
  rr_ready m w x ds (Z.of_nat r) -> ds <> [] -> Z.of_nat (r + m) < 2 ^ 31 ->
  exists w' rs, get_rps m w x = Ok (w', rs) /\
    (forall j, (j < m)%nat -> rs !! j = Some (ds !! ((r + j) mod length ds)%nat)) /\
    (m = length ds -> rs ≡ₚ Some <$> ds).
Proof.
  intros Hr Hne Hb. destruct (get_rps_ok m w x ds r Hr Hne Hb) as (w' & Hg). eexists w', _. split; [exact Hg|]. split.
  - intros j Hj. by rewrite list_lookup_fmap, lookup_seq_lt.
  - intros ->. rewrite round_rotates by done. rewrite (Permutation_app_comm _ (Some <$> take _ ds)).
    by rewrite <- fmap_app, take_drop.
Qed.

(** The position is an int that wraps: with two or more servers, at most
    three calls after it has reached its maximum the remainder is negative and
    the array is read before its start. *)
Theorem round_robin_wraps w x ds :
  rr_ready 3 w x ds (2 ^ 31 - 1) -> (2 <= length ds)%nat -> get_rps 3 w x = Fault OutOfBounds.
Proof.
  intros Hr Hl. assert (Hne : ds <> []) by (intros ->; simpl in Hl; lia).
  assert (Hneg : forall m w r v, w_heap w !! x = Some (OPData v) -> spd_nserver v = Z.of_nat (length ds) -> spd_rrpos v = r ->
    r < 0 -> Z.rem r (Z.of_nat (length ds)) <> 0 -> get_rps (S m) w x = Fault OutOfBounds).
  { intros m w0 r v Hx Hn Hrr Hr0 Hrem. cbn [get_rps]. unfold svrpool_get_rp_server. rewrite (proj2 (get_pdata_Ok w0 x v) Hx). cbn [bind].
    rewrite Hn, Hrr, (proj2 (Z.eqb_neq _ 0)) by lia. pose proof (Z.rem_nonpos r (Z.of_nat (length ds)) ltac:(lia) ltac:(lia)).
    by rewrite (proj2 (arr_get_Fault (spd_servers v) _ OutOfBounds)) by (split; [done|lia]). }
  rewrite get_rps_S. destruct (rr_step 2 w x ds _ Hr Hne ltac:(lia)) as (w1 & -> & Hr1). cbn [bind].
  change (s32 (2 ^ 31 - 1 + 1)) with (- 2 ^ 31) in Hr1. destruct Hr1 as ((v1 & Hx1 & Hs1 & Hn1 & Hp1) & Hd1).
  destruct (decide (Z.rem (- 2 ^ 31) (Z.of_nat (length ds)) = 0)) as [Hz|Hnz]; [|by rewrite (Hneg 1%nat w1 (- 2 ^ 31) v1)].
  (* the second call reads servers[0] *)
  destruct ds as [|d ds']; [done|]. set (ds := d :: ds') in *. destruct (Hd1 d ltac:(left)) as (dv & Hdv & Hc).
  assert (Hxd : x <> d) by (intros <-; congruence).
  assert (Hget : arr_get (spd_servers v1) 0 = Ok (Some d)) by (rewrite Hs1; done).
  rewrite get_rps_S. unfold svrpool_get_rp_server at 1. rewrite (proj2 (get_pdata_Ok w1 x v1) Hx1). cbn [bind].
  rewrite Hn1, Hp1, (proj2 (Z.eqb_neq _ 0)), Hz, Hget by lia. cbn [bind]. set (o := OPData _).
  unfold server_clone_data at 1. rewrite (proj2 (get_data_Ok _ d dv)) by (simpl; by rewrite lookup_insert_ne). cbn [bind].
  change (s32 (- 2 ^ 31 + 1)) with (- (2 ^ 31 - 1)) in o.
  erewrite (Hneg 0%nat _ (- (2 ^ 31 - 1))); [done|simpl; rewrite lookup_insert_ne by done; apply lookup_insert_eq|done|done|lia|].
  rewrite Z.rem_opp_l by lia. rewrite Z.rem_opp_l in Hz by lia. rewrite Z.rem_mod_nonneg in * by lia. intros Hz'.
  assert (Hd0 : (Z.of_nat (length ds) | 1)).
  { replace 1 with (2 ^ 31 - (2 ^ 31 - 1)) by lia. apply Z.divide_sub_r; apply Z.mod_divide; lia. }
  apply Z.divide_pos_le in Hd0; lia.
Qed.

(** Two servers of weights 6 and 9, their data 3 and 4, the running data 5. *)
Definition demo_server (weight : Z) : obj :=
  OServer {| sv_cfg := {| sc_address := addr0; sc_weight := weight; sc_ssl := false; sc_cert := false |}; sv_nconn := 0; sv_refcnt := 1 |}.
Definition demo_data (s : positive) : obj := OData {| sd_server := Some s; sd_sslctx := false; sd_nconn := 0; sd_refcnt := 0 |}.
Definition demo_pdata (r : Z) : svrpool_data_t :=
  {| spd_servers := (Some <$> [3%positive; 4%positive]) ++ replicate (Z.to_nat MAX_SERVER - 2) None; spd_nserver := 2; spd_gcd := 0;
     spd_rrpos := r; spd_refcnt := 0 |}.
Definition demo_world (r : Z) : world :=
  {| w_heap := <[1%positive := demo_server 6]> (<[2%positive := demo_server 9]> (<[3%positive := demo_data 1]>
       (<[4%positive := demo_data 2]> {[5%positive := OPData (demo_pdata r)]})));
     w_next := 6; w_oom := []; w_ssl := []; w_nctx := 0 |}.

Lemma demo_ready m r : Z.of_nat m < 2 ^ 31 -> rr_ready m (demo_world r) 5 [3%positive; 4%positive] r.
Proof.
  intros Hm. split; [by exists (demo_pdata r)|]. intros d Hd. rewrite !elem_of_cons in Hd.
  destruct Hd as [->|[->|Hd%elem_of_nil]]; [..|done]; eexists; (split; [reflexivity|]); simpl; lia.
Qed.

Lemma round_robin_fair_witness :
  exists w' rs, get_rps 2 (demo_world 1) 5 = Ok (w', rs) /\
    (forall j, (j < 2)%nat -> rs !! j = Some ([3%positive; 4%positive] !! ((1 + j) mod 2)%nat)) /\
    (2%nat = 2%nat -> rs ≡ₚ Some <$> [3%positive; 4%positive]).
Proof. refine (round_robin_fair 2 (demo_world 1) 5 [3%positive; 4%positive] 1 _ _ _); [by apply demo_ready|done|done]. Defined.

Lemma round_robin_wraps_witness : get_rps 3 (demo_world (2 ^ 31 - 1)) 5 = Fault OutOfBounds.
Proof. refine (round_robin_wraps (demo_world (2 ^ 31 - 1)) 5 [3%positive; 4%positive] _ _); [by apply demo_ready|simpl; lia]. Defined.

Lemma spdata_calc_gcd_weights_witness :
  exists w' d', spdata_calc_gcd (demo_world 0) (Some 5%positive) = Ok (w', 0) /\ w_heap w' !! 5%positive = Some (OPData d') /\
    (forall c, 0 < spd_gcd d' /\ ((exists v, v ∈ [6; 9] /\ v <> 0) -> (c | spd_gcd d') <-> forall v, v ∈ [6; 9] -> (c | v))).
Proof.
  refine (spdata_calc_gcd_weights (demo_world 0) 5 (demo_pdata 0) [3%positive; 4%positive] [6; 9] _ _ _ _ _); [reflexivity..|].
  repeat constructor; done.
Defined.

(** A pool without servers divides by zero. *)
Example round_robin_empty w x v :
  w_heap w !! x = Some (OPData v) -> spd_nserver v = 0 -> svrpool_get_rp_server w (Some x) = Fault DivByZero.
Proof. intros Hx Hn. unfold svrpool_get_rp_server. rewrite (proj2 (get_pdata_Ok w x v) Hx). cbn [bind]. by rewrite Hn. Qed.
End SvrPoolClaims.
