(* ===== verification/RefCount.v ===== *)
(** * Counted objects: maps whose counters equal the references to them

    [counted] relates a map of counted objects to the number of references to
    every address; its lemmas are the effect of taking, giving back, creating and
    freeing one reference.  [kstep] says that a call into svrpool.c never changes
    the kind of an address it was given; every function of svrpool.c satisfies
    it, so references of other components keep their type. *)
From S2P Require Import Prelude CLib IpAddr SvrPool SvrPoolProofs.

Module RefCount.
Import SvrPool SvrPoolProofs.

(** ** Typed references

    A reference to an object of one of the C types of the proxy. *)
Inductive rk : Type := RCa | RCert | RLtn | RLtd | RPl | RPool | RPData | RData.
#[global] Instance rk_eq_dec : EqDecision rk.
Proof. solve_decision. Defined.
Abbreviation rf := (rk * positive)%type.

Definition cnt (r : rf) (l : list rf) : nat := length (filter (fun y => y = r) l).
(** One reference. *)
Definition one (r s : rf) : nat := if decide (s = r) then 1 else 0.

Lemma one_eq r : one r r = 1%nat.
Proof. unfold one. by rewrite decide_True. Qed.
Lemma one_ne r s : s <> r -> one r s = 0%nat.
Proof. intros. unfold one. by rewrite decide_False. Qed.
Lemma cnt_nil r : cnt r [] = 0%nat.
Proof. done. Qed.
Lemma cnt_cons r s l : cnt r (s :: l) = (one s r + cnt r l)%nat.
Proof. unfold cnt, one. rewrite filter_cons. destruct (decide (s = r)), (decide (r = s)); (congruence || done). Qed.
Lemma cnt_app r l m : cnt r (l ++ m) = (cnt r l + cnt r m)%nat.
Proof. unfold cnt. by rewrite filter_app, length_app. Qed.
Lemma cnt_elem r l : r ∈ l <-> (0 < cnt r l)%nat.
Proof.
  induction l as [|s l IH]; [rewrite cnt_nil; split; [by intros ?%elem_of_nil|lia]|].
  rewrite cnt_cons, elem_of_cons, IH. unfold one. destruct (decide (r = s)) as [->|]; naive_solver lia.
Qed.
Lemma cnt_perm r l m : l ≡ₚ m -> cnt r l = cnt r m.
Proof. intros H. unfold cnt. by rewrite H. Qed.

(** The reference held in a pointer field, NULL or not. *)
Definition oref (K : rk) (o : option positive) : list rf := match o with Some x => [(K, x)] | None => [] end.

Lemma cnt_oref r K o : cnt r (oref K o) = match o with Some x => one (K, x) r | None => 0%nat end.
Proof. destruct o; simpl; [rewrite cnt_cons, cnt_nil; lia|done]. Qed.

(** ** References held by the values of a map *)
Section msum.
Context {V : Type} (f : V -> list rf).

Definition msum (h : gmap positive V) (r : rf) : nat := map_fold (fun _ v n => (cnt r (f v) + n)%nat) 0%nat h.

Lemma msum_new h i v r : h !! i = None -> msum (<[i := v]> h) r = (cnt r (f v) + msum h r)%nat.
Proof. intros Hi. unfold msum. rewrite map_fold_insert_L; [done| |done]. intros. lia. Qed.
Lemma msum_delete h i v r : h !! i = Some v -> msum h r = (cnt r (f v) + msum (delete i h) r)%nat.
Proof. intros Hi. unfold msum. rewrite (map_fold_delete_L _ _ i v h); [done| |done]. intros. lia. Qed.
Lemma msum_update h i v v' r :
  h !! i = Some v -> (msum (<[i := v']> h) r + cnt r (f v) = msum h r + cnt r (f v'))%nat.
Proof.
  intros Hi. rewrite (msum_delete h i v r Hi), (msum_delete _ i v' r (lookup_insert_eq h i v')), delete_insert_eq. lia.
Qed.
Lemma msum_same h i v v' r : h !! i = Some v -> f v' = f v -> msum (<[i := v']> h) r = msum h r.
Proof. intros Hi Hf. pose proof (msum_update h i v v' r Hi) as H. rewrite Hf in H. lia. Qed.
Lemma msum_elem h i v r : h !! i = Some v -> r ∈ f v -> (0 < msum h r)%nat.
Proof. intros Hi Hx%cnt_elem. rewrite (msum_delete h i v r Hi). lia. Qed.
Lemma msum_inv h r : (0 < msum h r)%nat -> exists i v, h !! i = Some v /\ r ∈ f v.
Proof.
  unfold msum. apply (map_fold_weak_ind (fun n h => (0 < n)%nat -> exists i v, h !! i = Some v /\ r ∈ f v)); [lia|].
  intros i v h' n Hn IH Hlt. destruct (decide (r ∈ f v)) as [Hin|Hnin]; [exists i, v; split; [apply lookup_insert_eq|done]|].
  assert (cnt r (f v) = 0)%nat by (destruct (decide (0 < cnt r (f v))%nat) as [H%cnt_elem|]; [done|lia]).
  destruct IH as (j & u & Hj & Hu); [lia|]. exists j, u. rewrite lookup_insert_ne; [done|]. intros <-. congruence.
Qed.
End msum.

(** ** Counters *)
Section counted.
Context {V : Type} (rc : V -> Z).

Definition counted (k : Z) (h : gmap positive V) (R : positive -> nat) : Prop :=
  forall x, match h !! x with
            | Some v => rc v + 1 = Z.of_nat (R x) /\ 0 <= rc v <= k
            | None => R x = 0%nat
            end.

#[global] Instance counted_proper k h : Proper (pointwise_relation positive eq ==> iff) (counted k h).
Proof. intros R R' HR. split; intros Hc x; specialize (Hc x); pose proof (HR x) as Hx; destruct (h !! x); by rewrite ?Hx in * || rewrite <- ?Hx. Qed.

Lemma counted_ext k h R R' : counted k h R -> (forall x, R' x = R x) -> counted k h R'.
Proof. intros Hc HR. by rewrite (counted_proper k h R' R HR). Qed.

Lemma counted_mono k k' h R : k <= k' -> counted k h R -> counted k' h R.
Proof. intros Hk Hc x. specialize (Hc x). destruct (h !! x); [lia|done]. Qed.

Lemma counted_live k h R x : counted k h R -> (0 < R x)%nat -> exists v, h !! x = Some v /\ 0 <= rc v <= k.
Proof. intros Hc Hx. specialize (Hc x). destruct (h !! x) as [v|]; [exists v; split; [done|lia]|lia]. Qed.

Lemma counted_at k h R x v : counted k h R -> h !! x = Some v -> rc v + 1 = Z.of_nat (R x) /\ 0 <= rc v <= k.
Proof. intros Hc Hx. specialize (Hc x). by rewrite Hx in Hc. Qed.

Lemma counted_empty k : counted k ∅ (fun _ => 0%nat).
Proof. intros x. by rewrite lookup_empty. Qed.

(** The counter of [x] follows the references to [x]; the others are left alone. *)
Lemma counted_put k k' h R R' x v v' :
  counted k h R -> h !! x = Some v -> k <= k' -> 0 <= rc v' <= k' ->
  (forall y, Z.of_nat (R' y) = Z.of_nat (R y) + if decide (y = x) then rc v' - rc v else 0) ->
  counted k' (<[x := v']> h) R'.
Proof.
  intros Hc Hx Hk Hv HR y. pose proof (Hc y) as Hy. specialize (HR y). destruct (decide (y = x)) as [->|Hne].
  - rewrite lookup_insert_eq. rewrite Hx in Hy. lia.
  - rewrite lookup_insert_ne by done. destruct (h !! y); lia.
Qed.

Lemma counted_new k h R x v :
  counted k h R -> h !! x = None -> rc v = 0 -> 0 <= k -> counted k (<[x := v]> h) (fun y => (if decide (y = x) then 1 else 0) + R y)%nat.
Proof.
  intros Hc Hx Hv Hk y. pose proof (Hc y) as Hy. destruct (decide (y = x)) as [->|Hne].
  - rewrite lookup_insert_eq. rewrite Hx in Hy. lia.
  - rewrite lookup_insert_ne by done. exact Hy.
Qed.

Lemma counted_delete k h R R' x v :
  counted k h R -> h !! x = Some v -> rc v = 0 -> (forall y, R y = (if decide (y = x) then 1 else 0) + R' y)%nat -> counted k (delete x h) R'.
Proof.
  intros Hc Hx Hv HR y. pose proof (Hc y) as Hy. specialize (HR y). destruct (decide (y = x)) as [->|Hne].
  - rewrite lookup_delete_eq. rewrite Hx in Hy. lia.
  - rewrite lookup_delete_ne by done. by rewrite HR in Hy.
Qed.

Lemma counted_none k h R : counted k h R -> (forall x, R x = 0%nat) -> h = ∅.
Proof.
  intros Hc HR. apply map_empty. intros x. specialize (Hc x). destruct (h !! x) as [v|]; [|done].
  rewrite HR in Hc. lia.
Qed.
End counted.

(** ** Kinds are stable

    The kind of an object, and for running data of a pool the number of its
    servers: what no call changes for an object that existed before it.  [n]
    bounds the addresses that are watched. *)
Definition tag (o : obj) : kind * Z := (kind_of o, match o with OPData d => spd_nserver d | _ => 0 end).

Definition kstep (n : positive) (w w' : world) : Prop :=
  (w_next w <= w_next w')%positive /\
  ((n <= w_next w)%positive -> forall y o', (y < n)%positive -> w_heap w' !! y = Some o' ->
    exists o, w_heap w !! y = Some o /\ tag o = tag o').

Lemma kstep_refl n w : kstep n w w.
Proof. split; [lia|]. intros _ y o' _ Hy. by exists o'. Qed.
Lemma kstep_trans n w1 w2 w3 : kstep n w1 w2 -> kstep n w2 w3 -> kstep n w1 w3.
Proof.
  intros [Hn1 H1] [Hn2 H2]. split; [lia|]. intros Hn y o' Hy Ho. destruct (H2 ltac:(lia) y o' Hy Ho) as (o2 & Hy2 & HK).
  destruct (H1 Hn y o2 Hy Hy2) as (o1 & Hy1 & HK1). exists o1. split; [done|congruence].
Qed.
Lemma kstep_put n w x o o' : w_heap w !! x = Some o -> tag o' = tag o -> kstep n w (put w x o').
Proof.
  intros Hx HK. split; [simpl; lia|]. intros _ y oy _ Hy. simpl in Hy. destruct (decide (x = y)) as [<-|Hne].
  - rewrite lookup_insert_eq in Hy. injection Hy as <-. by exists o.
  - rewrite lookup_insert_ne in Hy by done. by exists oy.
Qed.
Lemma kstep_put_fresh n w x o : (n <= x)%positive -> kstep n w (put w x o).
Proof. intros Hx. split; [simpl; lia|]. intros _ y oy Hy Ho. simpl in Ho. rewrite lookup_insert_ne in Ho by lia. by exists oy. Qed.
Lemma kstep_hfree n w x : kstep n w (hfree w x).
Proof. split; [simpl; lia|]. intros _ y oy _ Hy. simpl in Hy. apply lookup_delete_Some in Hy as [_ Hy]. by exists oy. Qed.
Lemma kstep_calloc n w o w' r : calloc w o = (w', r) -> kstep n w w'.
Proof.
  unfold calloc. destruct (w_oom w) as [|[] ?]; intros [= <- <-]; (split; [simpl; lia|]); intros Hn y oy Hy Ho; simpl in *;
    try (rewrite lookup_insert_ne in Ho by lia); by exists oy.
Qed.
Lemma kstep_ctx n w w' b : ctx_alloc w = (w', b) -> kstep n w w'.
Proof. intros [= <- <-]. split; [simpl; lia|]. intros _ y oy _ Ho. by exists oy. Qed.
Lemma kstep_any w w' : (forall n, (n <= w_next w)%positive -> kstep n w w') -> forall n, kstep n w w'.
Proof. intros H n. split; [apply (H 1%positive); lia|]. intros Hle. by apply H. Qed.
Lemma calloc_next w o w' p : calloc w o = (w', Some p) -> p = w_next w.
Proof. unfold calloc. destruct (w_oom w) as [|[] ?]; by intros [= _ <-]. Qed.

(** Symbolic execution: every world the code passes through is one step further. *)
Ltac kput :=
  match goal with
  | H : get_server ?w ?p = Ok _ |- kstep _ _ (put ?w ?p (OServer _)) => eapply kstep_put; [apply get_server_Ok, H|done]
  | H : get_data ?w ?p = Ok _ |- kstep _ _ (put ?w ?p (OData _)) => eapply kstep_put; [apply get_data_Ok, H|done]
  | H : get_pool ?w ?p = Ok _ |- kstep _ _ (put ?w ?p (OPool _)) => eapply kstep_put; [apply get_pool_Ok, H|done]
  | H : get_pdata ?w ?p = Ok _ |- kstep _ _ (put ?w ?p (OPData _)) => eapply kstep_put; [apply get_pdata_Ok, H|done]
  end.
Ltac ksolve :=
  repeat match goal with
  | |- kstep _ ?w ?w => apply kstep_refl
  | |- kstep _ _ (put ?w ?p _) => eapply kstep_trans; [|kput]
  | |- kstep _ _ (hfree _ _) => eapply kstep_trans; [|apply kstep_hfree]
  | H : calloc ?w _ = (?v, _) |- kstep _ _ ?v => eapply kstep_trans; [|by eapply kstep_calloc]; clear H
  | H : ctx_alloc ?w = (?v, _) |- kstep _ _ ?v => eapply kstep_trans; [|by eapply kstep_ctx]; clear H
  | H : kstep _ ?v ?w |- kstep _ _ ?w => eapply kstep_trans; [|exact H]
  | |- kstep _ _ (if ?b then _ else _) => destruct b
  end.
Ltac kinv :=
  repeat match goal with
  | H : context [let (_, _) := ?x in _] |- _ => destruct x eqn:?
  | H : match ?o with Some _ => _ | None => _ end = Ok _ |- _ => destruct o eqn:?
  | H : (_, _) = (_, _) |- _ => injection H as ? ?; subst
  | H : Ok (_, _) = Ok (_, _) |- _ => injection H as ? ?; subst
  | _ => progress inv_ok
  end.

Lemma server_clone_k n w s w' r : server_clone w s = Ok (w', r) -> kstep n w w'.
Proof. unfold server_clone. intros H. kinv; ksolve. Qed.
Lemma server_free_k n w s w' r : server_free w s = Ok (w', r) -> kstep n w w'.
Proof. unfold server_free. intros H. kinv; ksolve. Qed.
Lemma server_alloc_data_k n w s w' r : server_alloc_data w s = Ok (w', r) -> kstep n w w'.
Proof.
  unfold server_alloc_data. intros H. kinv;
    repeat match goal with
    | H : server_clone _ _ = Ok _ |- _ => apply (server_clone_k n) in H
    | H : server_free _ _ = Ok _ |- _ => apply (server_free_k n) in H
    end; ksolve.
Qed.
Lemma server_clone_data_k n w s w' r : server_clone_data w s = Ok (w', r) -> kstep n w w'.
Proof. unfold server_clone_data. intros H. kinv; ksolve. Qed.
Lemma server_free_data_k n w s w' r : server_free_data w s = Ok (w', r) -> kstep n w w'.
Proof.
  unfold server_free_data. intros H. kinv;
    repeat match goal with H : server_free _ _ = Ok _ |- _ => apply (server_free_k n) in H end; ksolve.
Qed.
Lemma svrpool_clone_k n w s w' r : svrpool_clone w s = Ok (w', r) -> kstep n w w'.
Proof. unfold svrpool_clone. intros H. kinv; ksolve. Qed.
Lemma free_servers_k n l w p w' : free_servers w p l = Ok w' -> kstep n w w'.
Proof.
  revert w. induction l as [|s l IH]; intros w; cbn [free_servers]; intros H; kinv; [ksolve|].
  apply IH in H. match goal with H : server_free _ _ = Ok _ |- _ => apply (server_free_k n) in H end. ksolve.
Qed.
Lemma svrpool_free_k n w s w' r : svrpool_free w s = Ok (w', r) -> kstep n w w'.
Proof.
  unfold svrpool_free. intros H. kinv;
    repeat match goal with H : free_servers _ _ _ = Ok _ |- _ => apply (free_servers_k n) in H end; ksolve.
Qed.
Lemma alloc_servers_k n l w p i w' r : alloc_servers w p l i = Ok (w', r) -> kstep n w w'.
Proof.
  revert w i. induction l as [|s l IH]; intros w i; cbn [alloc_servers]; intros H; kinv; [ksolve|].
  apply IH in H. match goal with H : server_alloc_data _ _ = Ok _ |- _ => apply (server_alloc_data_k n) in H end. ksolve.
Qed.
Lemma spdata_calc_gcd_k n w s w' r : spdata_calc_gcd w s = Ok (w', r) -> kstep n w w'.
Proof. unfold spdata_calc_gcd. intros H. kinv; ksolve. Qed.
Lemma svrpool_alloc_data_k n w s w' r : svrpool_alloc_data w s = Ok (w', r) -> kstep n w w'.
Proof.
  unfold svrpool_alloc_data. intros H. revert n. apply kstep_any. intros n Hn. kinv; [|ksolve..].
  match goal with H : calloc _ _ = (_, Some ?p) |- _ => assert (Hp : p = w_next w) by (by eapply calloc_next); subst p end.
  repeat match goal with
  | H : alloc_servers _ _ _ _ = Ok _ |- _ => apply (alloc_servers_k n) in H
  | H : spdata_calc_gcd _ _ = Ok _ |- _ => apply (spdata_calc_gcd_k n) in H
  end.
  ksolve. eapply kstep_trans; [|by apply kstep_put_fresh]. ksolve.
Qed.
Lemma svrpool_clone_data_k n w s w' r : svrpool_clone_data w s = Ok (w', r) -> kstep n w w'.
Proof. unfold svrpool_clone_data. intros H. kinv; ksolve. Qed.
Lemma free_datas_k n m w p i w' : free_datas m w p i = Ok w' -> kstep n w w'.
Proof.
  revert w i. induction m as [|m IH]; intros w i; cbn [free_datas]; intros H; kinv; [ksolve|].
  apply IH in H. match goal with H : server_free_data _ _ = Ok _ |- _ => apply (server_free_data_k n) in H end. ksolve.
Qed.
Lemma svrpool_free_data_k n w s w' r : svrpool_free_data w s = Ok (w', r) -> kstep n w w'.
Proof.
  unfold svrpool_free_data. intros H. kinv;
    repeat match goal with H : free_datas _ _ _ _ = Ok _ |- _ => apply (free_datas_k n) in H end; ksolve.
Qed.
Lemma get_rp_k n w s w' r : svrpool_get_rp_server w s = Ok (w', r) -> kstep n w w'.
Proof.
  unfold svrpool_get_rp_server. intros H. kinv;
    repeat match goal with H : server_clone_data _ _ = Ok _ |- _ => apply (server_clone_data_k n) in H end; ksolve.
Qed.
Lemma get_tp_k n w s d w' r : svrpool_get_tp_server w s d = Ok (w', r) -> kstep n w w'.
Proof.
  unfold svrpool_get_tp_server. intros H. kinv;
    repeat match goal with H : server_clone_data _ _ = Ok _ |- _ => apply (server_clone_data_k n) in H end; ksolve.
Qed.
Lemma cfg_add_server_k n w sp a b c w' r : cfg_add_server w sp a b c = Ok (w', r) -> kstep n w w'.
Proof. unfold cfg_add_server, server_alloc. intros H. kinv; ksolve. Qed.

(** A live address keeps its tag, hence its kind. *)
Lemma kstep_tag w w' y o o' :
  kstep (w_next w) w w' -> fresh_ok w -> w_heap w !! y = Some o -> w_heap w' !! y = Some o' -> tag o' = tag o.
Proof.
  intros [_ Hk] Hf Hy Hy'. destruct (Hk ltac:(lia) y o' (Hf y o Hy) Hy') as (o2 & Hy2 & HK2). congruence.
Qed.
Lemma kstep_kind w w' y o' K :
  kstep (w_next w) w w' -> fresh_ok w -> kind_at (w_heap w) y K -> w_heap w' !! y = Some o' -> kind_at (w_heap w') y K.
Proof.
  intros Hk Hf (o & Hy & HK) Hy'. exists o'. split; [done|]. pose proof (kstep_tag w w' y o o' Hk Hf Hy Hy') as Ht.
  unfold tag in Ht. congruence.
Qed.
End RefCount.
