(* ===== verification/Policy.v ===== *)
(** * Policies, listeners and certificate sets: counted objects of the proxy

    Model of src/code/network/proxy/utils: policy.c, the configuration part of
    listener.c and the counted part of certset.c, and session_get_server of
    session.c.  The heap of svrpool.c is [pw]; the objects of the other types
    live in maps beside it, one map per C type.  All allocations draw from the
    same script and the same addresses.  A [char] array that is only used as a
    C string is its string, and [strcpy] checks its room. *)
From S2P Require Import Prelude CLib IpAddr SvrPool.

Module Policy.
Import IpAddr SvrPool.

Definition MAX_NAME : Z := 32.
Definition PATH_MAX : Z := 4096.

(** [strcpy] into an array of [n] characters. *)
Definition strcpy (n : Z) (s : cstr) : res cstr :=
  if Z.of_nat (length s) <? n then Ok s else Fault OutOfBounds.

(** ** Data *)

(** cert_type_e *)
Definition CERT_X509 : Z := 0.
Definition CERT_PKCS12 : Z := 1.

(** The union of cert_t: x509.cert and pkcs12 are the same bytes ([c_file]). *)
Record cert_t : Type := { c_type : Z; c_file : cstr; c_pkey : cstr }.
Record certset_t : Type := {
  ct_name : cstr; ct_domain : cstr; ct_cert : cert_t; ct_intcalist : list positive; ct_nintca : Z;
  ct_calist : list positive; ct_nca : Z; ct_crl : cstr; ct_refcnt : Z }.

Record listener_cfg_t : Type := { lc_name : cstr; lc_address : ip_port_t; lc_ssl : bool; lc_cert : option positive }.
Record listener_t : Type := { lt_cfg : listener_cfg_t; lt_refcnt : Z }.
Record listener_data_t : Type := { ld_sslctx : bool; ld_refcnt : Z }.

Definition PL_MODE_REVERSE : Z := 0.
Definition PL_MODE_TRAPT : Z := 1.
Definition PL_MODE_TPROXY : Z := 2.

Record policy_cfg_t : Type := { pc_name : cstr; pc_mode : Z; pc_listener : option positive; pc_svrpool : option positive }.
Record policy_data_t : Type := { pd_ltndata : option positive; pd_spdata : option positive }.
Record policy_t : Type := { pl_cfg : policy_cfg_t; pl_data : policy_data_t; pl_refcnt : Z }.

Record pworld : Type := {
  pw : world;
  pw_cas : gmap positive cstr;
  pw_certs : gmap positive certset_t;
  pw_ltns : gmap positive listener_t;
  pw_ltds : gmap positive listener_data_t;
  pw_pls : gmap positive policy_t }.

Definition set_pw (w : pworld) (v : world) : pworld :=
  {| pw := v; pw_cas := pw_cas w; pw_certs := pw_certs w; pw_ltns := pw_ltns w; pw_ltds := pw_ltds w; pw_pls := pw_pls w |}.
Definition set_cas (w : pworld) (h : gmap positive cstr) : pworld :=
  {| pw := pw w; pw_cas := h; pw_certs := pw_certs w; pw_ltns := pw_ltns w; pw_ltds := pw_ltds w; pw_pls := pw_pls w |}.
Definition set_certs (w : pworld) (h : gmap positive certset_t) : pworld :=
  {| pw := pw w; pw_cas := pw_cas w; pw_certs := h; pw_ltns := pw_ltns w; pw_ltds := pw_ltds w; pw_pls := pw_pls w |}.
Definition set_ltns (w : pworld) (h : gmap positive listener_t) : pworld :=
  {| pw := pw w; pw_cas := pw_cas w; pw_certs := pw_certs w; pw_ltns := h; pw_ltds := pw_ltds w; pw_pls := pw_pls w |}.
Definition set_ltds (w : pworld) (h : gmap positive listener_data_t) : pworld :=
  {| pw := pw w; pw_cas := pw_cas w; pw_certs := pw_certs w; pw_ltns := pw_ltns w; pw_ltds := h; pw_pls := pw_pls w |}.
Definition set_pls (w : pworld) (h : gmap positive policy_t) : pworld :=
  {| pw := pw w; pw_cas := pw_cas w; pw_certs := pw_certs w; pw_ltns := pw_ltns w; pw_ltds := pw_ltds w; pw_pls := h |}.

(** The address of the next block, unless calloc fails. *)
Definition new_block (w : pworld) : pworld * option positive :=
  let v := pw w in
  let v' n := {| w_heap := w_heap v; w_next := n; w_oom := tail (w_oom v); w_ssl := w_ssl v; w_nctx := w_nctx v |} in
  match w_oom v with
  | true :: _ => (set_pw w (v' (w_next v)), None)
  | _ => (set_pw w (v' (Pos.succ (w_next v))), Some (w_next v))
  end.

(** A call into svrpool.c. *)
Definition on_pw {A} (w : pworld) (r : res (world * A)) : res (pworld * A) :=
  do (v, a) <- r; Ok (set_pw w v, a).

Definition get_cert (w : pworld) (p : positive) : res certset_t := deref (pw_certs w !! p).
Definition get_ltn (w : pworld) (p : positive) : res listener_t := deref (pw_ltns w !! p).
Definition get_ltd (w : pworld) (p : positive) : res listener_data_t := deref (pw_ltds w !! p).
Definition get_pl (w : pworld) (p : positive) : res policy_t := deref (pw_pls w !! p).
Definition put_cert (w : pworld) (p : positive) (c : certset_t) : pworld := set_certs w (<[p := c]> (pw_certs w)).
Definition put_ltn (w : pworld) (p : positive) (c : listener_t) : pworld := set_ltns w (<[p := c]> (pw_ltns w)).
Definition put_ltd (w : pworld) (p : positive) (c : listener_data_t) : pworld := set_ltds w (<[p := c]> (pw_ltds w)).
Definition put_pl (w : pworld) (p : positive) (c : policy_t) : pworld := set_pls w (<[p := c]> (pw_pls w)).

(** ** certset.c *)

(** The result of calloc is not checked; the name is cut to PATH_MAX - 1. *)
Definition cacert_alloc (w : pworld) (cafile : option cstr) : res (pworld * option positive) :=
  match cafile with
  | None => Ok (w, None)
  | Some f =>
      let (w, p) := new_block w in
      match p with
      | None => Fault NullDeref
      | Some p => Ok (set_cas w (<[p := strncpy f (Z.to_nat (PATH_MAX - 1))]> (pw_cas w)), Some p)
      end
  end.

Definition cacert_free (w : pworld) (ca : option positive) : res (pworld * Z) :=
  match ca with
  | None => Ok (w, -1)
  | Some p => do _ <- deref (pw_cas w !! p); Ok (set_cas w (delete p (pw_cas w)), 0)
  end.

Definition zero_certset : certset_t :=
  {| ct_name := []; ct_domain := []; ct_cert := {| c_type := CERT_X509; c_file := []; c_pkey := [] |};
     ct_intcalist := []; ct_nintca := 0; ct_calist := []; ct_nca := 0; ct_crl := []; ct_refcnt := 0 |}.

Definition certset_alloc (w : pworld) : pworld * option positive :=
  let (w, p) := new_block w in
  match p with
  | None => (w, None)
  | Some p => (put_cert w p zero_certset, Some p)
  end.

Definition cert_ref (c : certset_t) (r : Z) : certset_t :=
  {| ct_name := ct_name c; ct_domain := ct_domain c; ct_cert := ct_cert c; ct_intcalist := ct_intcalist c; ct_nintca := ct_nintca c;
     ct_calist := ct_calist c; ct_nca := ct_nca c; ct_crl := ct_crl c; ct_refcnt := r |}.

Definition certset_clone (w : pworld) (cert : option positive) : res (pworld * option positive) :=
  match cert with
  | None => Ok (w, None)
  | Some p => do c <- get_cert w p; Ok (put_cert w p (cert_ref c (s32 (ct_refcnt c + 1))), cert)
  end.

(** CBLIST_FOR_EACH_SAFE with CBLIST_DEL and cacert_free. *)
Fixpoint free_cas (w : pworld) (l : list positive) : res pworld :=
  match l with
  | [] => Ok w
  | ca :: l => do (w, _) <- cacert_free w (Some ca); free_cas w l
  end.

Definition certset_free (w : pworld) (cert : option positive) : res (pworld * Z) :=
  match cert with
  | None => Ok (w, -1)
  | Some p =>
      do c <- get_cert w p;
      let refcnt := ct_refcnt c in
      let w := put_cert w p (cert_ref c (s32 (refcnt - 1))) in
      if refcnt =? 0 then
        do w <- free_cas w (ct_intcalist c);
        do w <- free_cas w (ct_calist c);
        Ok (set_certs w (delete p (pw_certs w)), 0)
      else Ok (w, 0)
  end.

(** certset_alloc_ctx reads the files of the set through OpenSSL. *)
Definition certset_alloc_ctx (w : pworld) (cert : positive) : res (pworld * bool) :=
  do _ <- get_cert w cert;
  let (v, ok) := ctx_alloc (pw w) in Ok (set_pw w v, ok).

(** ** listener.c *)
Definition zero_address : ip_port_t := {| ipp_ip := {| ip_family := 0; ip_bytes := replicate 16 0 |}; ipp_port := 0 |}.

Definition listener_alloc (w : pworld) : pworld * option positive :=
  let (w, p) := new_block w in
  match p with
  | None => (w, None)
  | Some p =>
      (put_ltn w p {| lt_cfg := {| lc_name := []; lc_address := zero_address; lc_ssl := false; lc_cert := None |}; lt_refcnt := 0 |}, Some p)
  end.

Definition ltn_ref (l : listener_t) (r : Z) : listener_t := {| lt_cfg := lt_cfg l; lt_refcnt := r |}.

Definition listener_clone (w : pworld) (ltn : option positive) : res (pworld * option positive) :=
  match ltn with
  | None => Ok (w, None)
  | Some p => do l <- get_ltn w p; Ok (put_ltn w p (ltn_ref l (s32 (lt_refcnt l + 1))), ltn)
  end.

(** The certificate set of the listener is not released. *)
Definition listener_free (w : pworld) (ltn : option positive) : res (pworld * Z) :=
  match ltn with
  | None => Ok (w, -1)
  | Some p =>
      do l <- get_ltn w p;
      let refcnt := lt_refcnt l in
      let w := put_ltn w p (ltn_ref l (s32 (refcnt - 1))) in
      Ok (if refcnt =? 0 then set_ltns w (delete p (pw_ltns w)) else w, 0)
  end.

Definition listener_alloc_data (w : pworld) (ltn : option positive) : res (pworld * option positive) :=
  match ltn with
  | None => Ok (w, None)
  | Some lp =>
      let (w, p) := new_block w in
      match p with
      | None => Ok (w, None)
      | Some p =>
          let w := put_ltd w p {| ld_sslctx := false; ld_refcnt := 0 |} in
          do l <- get_ltn w lp;
          match lc_ssl (lt_cfg l), lc_cert (lt_cfg l) with
          | true, Some cert =>
              do (w, ctx) <- certset_alloc_ctx w cert;
              if negb ctx then Ok (set_ltds w (delete p (pw_ltds w)), None)
              else Ok (put_ltd w p {| ld_sslctx := ctx; ld_refcnt := 0 |}, Some p)
          | _, _ => Ok (w, Some p)
          end
      end
  end.

Definition ltd_ref (l : listener_data_t) (r : Z) : listener_data_t := {| ld_sslctx := ld_sslctx l; ld_refcnt := r |}.

Definition listener_clone_data (w : pworld) (ltd : option positive) : res (pworld * option positive) :=
  match ltd with
  | None => Ok (w, None)
  | Some p => do l <- get_ltd w p; Ok (put_ltd w p (ltd_ref l (s32 (ld_refcnt l + 1))), ltd)
  end.

(** ssl_ctx_free: one context less. *)
Definition ssl_ctx_free (w : pworld) : pworld :=
  let v := pw w in
  set_pw w {| w_heap := w_heap v; w_next := w_next v; w_oom := w_oom v; w_ssl := w_ssl v; w_nctx := w_nctx v - 1 |}.

Definition listener_free_data (w : pworld) (ltd : option positive) : res (pworld * Z) :=
  match ltd with
  | None => Ok (w, -1)
  | Some p =>
      do l <- get_ltd w p;
      let refcnt := ld_refcnt l in
      let w := put_ltd w p (ltd_ref l (s32 (refcnt - 1))) in
      if refcnt =? 0 then
        let w := if ld_sslctx l then ssl_ctx_free w else w in
        Ok (set_ltds w (delete p (pw_ltds w)), 0)
      else Ok (w, 0)
  end.

(** ** policy.c *)
Definition policy_alloc (w : pworld) : pworld * option positive :=
  let (w, p) := new_block w in
  match p with
  | None => (w, None)
  | Some p =>
      (put_pl w p {| pl_cfg := {| pc_name := []; pc_mode := 0; pc_listener := None; pc_svrpool := None |};
                     pl_data := {| pd_ltndata := None; pd_spdata := None |}; pl_refcnt := 0 |}, Some p)
  end.

Definition pl_set_data (pl : policy_t) (ltd spd : option positive) : policy_t :=
  {| pl_cfg := pl_cfg pl; pl_data := {| pd_ltndata := ltd; pd_spdata := spd |}; pl_refcnt := pl_refcnt pl |}.
Definition pl_ref (pl : policy_t) (r : Z) : policy_t := {| pl_cfg := pl_cfg pl; pl_data := pl_data pl; pl_refcnt := r |}.

Definition policy_clone (w : pworld) (pl : option positive) : res (pworld * option positive) :=
  match pl with
  | None => Ok (w, None)
  | Some p => do l <- get_pl w p; Ok (put_pl w p (pl_ref l (s32 (pl_refcnt l + 1))), pl)
  end.

Definition policy_init_data (w : pworld) (pl : option positive) : res (pworld * Z) :=
  match pl with
  | None => Ok (w, -1)
  | Some p =>
      do l <- get_pl w p;
      match pc_listener (pl_cfg l), pc_svrpool (pl_cfg l) with
      | Some ltn, Some sp =>
          do (w, spd) <- on_pw w (svrpool_alloc_data (pw w) (Some sp));
          do l <- get_pl w p;
          let w := put_pl w p (pl_set_data l (pd_ltndata (pl_data l)) spd) in
          match spd with
          | None => Ok (w, -1)
          | Some _ =>
              do (w, ltd) <- listener_alloc_data w (Some ltn);
              do l <- get_pl w p;
              let w := put_pl w p (pl_set_data l ltd (pd_spdata (pl_data l))) in
              match ltd with None => Ok (w, -1) | Some _ => Ok (w, 0) end
          end
      | _, _ => Ok (w, -1)
      end
  end.

Definition policy_free_data (w : pworld) (pl : option positive) : res (pworld * Z) :=
  match pl with
  | None => Ok (w, -1)
  | Some p =>
      do l <- get_pl w p;
      do w <- match pd_spdata (pl_data l) with
              | Some spd =>
                  do (w, _) <- on_pw w (svrpool_free_data (pw w) (Some spd));
                  do l <- get_pl w p;
                  Ok (put_pl w p (pl_set_data l (pd_ltndata (pl_data l)) None))
              | None => Ok w
              end;
      do l <- get_pl w p;
      do w <- match pd_ltndata (pl_data l) with
              | Some ltd =>
                  do (w, _) <- listener_free_data w (Some ltd);
                  do l <- get_pl w p;
                  Ok (put_pl w p (pl_set_data l None (pd_spdata (pl_data l))))
              | None => Ok w
              end;
      Ok (w, 0)
  end.

Definition policy_free (w : pworld) (pl : option positive) : res (pworld * Z) :=
  match pl with
  | None => Ok (w, -1)
  | Some p =>
      do l <- get_pl w p;
      let refcnt := pl_refcnt l in
      let w := put_pl w p (pl_ref l (s32 (refcnt - 1))) in
      if refcnt =? 0 then
        do w <- match pc_listener (pl_cfg l) with
                | Some ltn => do (w, _) <- listener_free w (Some ltn); Ok w
                | None => Ok w
                end;
        do w <- match pc_svrpool (pl_cfg l) with
                | Some sp => do (w, _) <- on_pw w (svrpool_free (pw w) (Some sp)); Ok w
                | None => Ok w
                end;
        do (w, _) <- policy_free_data w (Some p);
        Ok (set_pls w (delete p (pw_pls w)), 0)
      else Ok (w, 0)
  end.

Definition policy_clone_spdata (w : pworld) (pl : option positive) : res (pworld * option positive) :=
  match pl with
  | None => Ok (w, None)
  | Some p =>
      do l <- get_pl w p;
      match pd_spdata (pl_data l) with
      | None => Ok (w, None)
      | Some spd => on_pw w (svrpool_clone_data (pw w) (Some spd))
      end
  end.

Definition policy_clone_ltndata (w : pworld) (pl : option positive) : res (pworld * option positive) :=
  match pl with
  | None => Ok (w, None)
  | Some p =>
      do l <- get_pl w p;
      match pd_ltndata (pl_data l) with
      | None => Ok (w, None)
      | Some ltd => listener_clone_data w (Some ltd)
      end
  end.

(** ** session.c: the server of a session

    Of a session, what this file counts: its policy and the data of its server.
    [local] is the address the client connected to; the result carries the
    address of the server for the second connection, and [ssl] is the outcome of
    ssl_alloc. *)
Record session_ref : Type := { ss_policy : option positive; ss_svrdata : option positive }.

Definition session_get_server (w : pworld) (s : session_ref) (local : ip_port_t) (ssl : bool) :
    res (pworld * session_ref * option ip_port_t * Z) :=
  match ss_policy s with
  | None => Fault AssertFailed
  | Some p =>
      do (w, spd) <- policy_clone_spdata w (Some p);
      match spd with
      | None => Ok (w, s, None, -1)
      | Some _ =>
          do l <- get_pl w p;
          do (w, sd) <- (if pc_mode (pl_cfg l) =? PL_MODE_REVERSE then on_pw w (svrpool_get_rp_server (pw w) spd)
                         else on_pw w (svrpool_get_tp_server (pw w) spd (Some local)));
          do (w, _) <- on_pw w (svrpool_free_data (pw w) spd);
          match sd with
          | None => Ok (w, s, None, -1)
          | Some d =>
              do dd <- get_data (pw w) d;
              match sd_server dd with
              | None => Fault AssertFailed
              | Some q =>
                  let s := {| ss_policy := ss_policy s; ss_svrdata := sd |} in
                  do sv <- get_server (pw w) q;
                  let peer := Some (sc_address (sv_cfg sv)) in
                  if sc_ssl (sv_cfg sv) && negb ssl then Ok (w, s, peer, -1) else Ok (w, s, peer, 0)
              end
          end
      end
  end.

(** What session_free gives back, once neither connection has a queued task. *)
Definition session_release (w : pworld) (s : session_ref) : res pworld :=
  match ss_policy s with
  | None => Fault AssertFailed
  | Some p =>
      do (w, _) <- policy_free w (Some p);
      match ss_svrdata s with
      | Some d => do (w, _) <- on_pw w (server_free_data (pw w) (Some d)); Ok w
      | None => Ok w
      end
  end.
End Policy.
