(* ===== verification/PolicyProofs.v ===== *)
(** * The counting invariant of policies, listeners and certificate sets

    [pinv k w g]: the counter of every object is the number of references to it
    less one, where [g] are the references held outside the objects; references
    lead to live objects of their type.  Every operation of Policy.v keeps it and
    changes [g] by the references it hands out or takes back. *)
From S2P Require Import Prelude CLib IpAddr SvrPool SvrPoolProofs SvrPoolData SvrPoolClaims RefCount Policy.

Module PolicyProofs.
Import SvrPool SvrPoolProofs SvrPoolData SvrPoolClaims RefCount Policy.

(** ** The invariant *)
Definition pl_out (p : policy_t) : list rf :=
  oref RLtn (pc_listener (pl_cfg p)) ++ oref RPool (pc_svrpool (pl_cfg p)) ++
  oref RLtd (pd_ltndata (pl_data p)) ++ oref RPData (pd_spdata (pl_data p)).
Definition ltn_out (l : listener_t) : list rf := oref RCert (lc_cert (lt_cfg l)).
Definition ct_out (c : certset_t) : list rf := pair RCa <$> (ct_intcalist c ++ ct_calist c).

Lemma ltn_out_ref l n : ltn_out (ltn_ref l n) = ltn_out l.
Proof. done. Qed.
Lemma pl_out_ref l n : pl_out (pl_ref l n) = pl_out l.
Proof. done. Qed.
Lemma ct_out_ref l n : ct_out (cert_ref l n) = ct_out l.
Proof. done. Qed.

(** All references to [r]. *)
Definition total (w : pworld) (g : list rf) (r : rf) : nat :=
  cnt r g + msum pl_out (pw_pls w) r + msum ltn_out (pw_ltns w) r + msum ct_out (pw_certs w) r.

Definition sp_kind (K : rk) : option kind :=
  match K with RPool => Some KPool | RPData => Some KPData | RData => Some KData | _ => None end.

(** A reference of the kind K to x is good: x is of its type, and running data of
    a pool has a server. *)
Definition good (h : gmap positive obj) (K : rk) (x : positive) : Prop :=
  match sp_kind K with Some K' => kind_at h x K' | None => True end /\
  (K = RPData -> forall d, h !! x = Some (OPData d) -> spd_nserver d <> 0).

Definition below (w : pworld) : Prop :=
  forall x, (w_next (pw w) <= x)%positive ->
    pw_cas w !! x = None /\ pw_certs w !! x = None /\ pw_ltns w !! x = None /\ pw_ltds w !! x = None /\ pw_pls w !! x = None.

Record hinv (k : Z) (w : pworld) (R : rf -> nat) : Prop := {
  hi_ca : counted (fun _ => 0) k (pw_cas w) (fun x => R (RCa, x));
  hi_cert : counted ct_refcnt k (pw_certs w) (fun x => R (RCert, x));
  hi_ltn : counted lt_refcnt k (pw_ltns w) (fun x => R (RLtn, x));
  hi_ltd : counted ld_refcnt k (pw_ltds w) (fun x => R (RLtd, x));
  hi_pl : counted pl_refcnt k (pw_pls w) (fun x => R (RPl, x));
  hi_sp : exists own, winv [] k (pw w) own /\ forall x, occ x own = (R (RPool, x) + R (RPData, x) + R (RData, x))%nat;
  hi_good K x : (0 < R (K, x))%nat -> good (w_heap (pw w)) K x;
  hi_below : below w }.

Definition pinv (k : Z) (w : pworld) (g : list rf) : Prop := hinv k w (total w g).

Lemma hinv_ext k w R R' : hinv k w R -> (forall r, R' r = R r) -> hinv k w R'.
Proof.
  intros Hi HR. split; try (eapply counted_ext; [apply Hi|intros x; simpl; by rewrite HR]).
  - destruct (hi_sp _ _ _ Hi) as (own & Hw & Ho). exists own. split; [done|]. intros x. by rewrite Ho, !HR.
  - intros K x. rewrite HR. by apply (hi_good _ _ _ Hi).
  - apply Hi.
Qed.

#[global] Instance hinv_proper k w : Proper (pointwise_relation rf eq ==> iff) (hinv k w).
Proof. intros R R' HR. split; intros H; by eapply hinv_ext; [exact H|]. Qed.

Lemma total_perm w g g' : g ≡ₚ g' -> forall r, total w g r = total w g' r.
Proof. intros Hg r. unfold total. by rewrite (cnt_perm r g g' Hg). Qed.

#[global] Instance pinv_proper k w : Proper ((≡ₚ) ==> iff) (pinv k w).
Proof. intros g g' Hg. apply hinv_proper. intros r. by apply total_perm. Qed.

Lemma hinv_mono k k' w R : k <= k' -> hinv k w R -> hinv k' w R.
Proof.
  intros Hk Hi. split; try (eapply counted_mono; [exact Hk|apply Hi]); [|apply Hi..].
  destruct (hi_sp _ _ _ Hi) as (own & Hw & Ho). exists own. split; [by eapply winv_mono|done].
Qed.

Lemma pinv_mono k k' w g : k <= k' -> pinv k w g -> pinv k' w g.
Proof. apply hinv_mono. Qed.

(** ** One map changes *)
Lemma counted_inc {V} (rc : V -> Z) k h (R : rf -> nat) K x v v' :
  counted rc k h (fun y => R (K, y)) -> h !! x = Some v -> rc v' = rc v + 1 ->
  counted rc (k + 1) (<[x := v']> h) (fun y => one (K, x) (K, y) + R (K, y))%nat.
Proof.
  intros Hc Hx Hv. pose proof (counted_at _ _ _ _ _ _ Hc Hx). eapply counted_put; [exact Hc|exact Hx|lia|lia|].
  intros y. unfold one. destruct (decide (y = x)) as [->|Hne]; [rewrite decide_True by done; lia|rewrite decide_False by congruence; lia].
Qed.

Lemma counted_dec {V} (rc : V -> Z) k h (R : rf -> nat) R' K x v v' :
  counted rc k h (fun y => R (K, y)) -> h !! x = Some v -> rc v <> 0 -> rc v' = rc v - 1 ->
  (forall y, R (K, y) = one (K, x) (K, y) + R' (K, y))%nat -> counted rc k (<[x := v']> h) (fun y => R' (K, y)).
Proof.
  intros Hc Hx Hv Hv' HR. pose proof (counted_at _ _ _ _ _ _ Hc Hx). eapply counted_put; [exact Hc|exact Hx|lia|lia|].
  intros y. simpl. rewrite HR. unfold one. destruct (decide (y = x)) as [->|Hne]; [rewrite decide_True by done; lia|rewrite decide_False by congruence; lia].
Qed.

Lemma counted_gone {V} (rc : V -> Z) k h (R : rf -> nat) R' K x v :
  counted rc k h (fun y => R (K, y)) -> h !! x = Some v -> rc v = 0 ->
  (forall y, R (K, y) = one (K, x) (K, y) + R' (K, y))%nat -> counted rc k (delete x h) (fun y => R' (K, y)).
Proof.
  intros Hc Hx Hv HR. eapply counted_delete; [exact Hc|exact Hx|done|]. intros y. simpl. rewrite HR. unfold one.
  destruct (decide (y = x)) as [->|Hne]; [by rewrite decide_True|by rewrite decide_False by congruence].
Qed.

Lemma counted_fresh {V} (rc : V -> Z) k h (R : rf -> nat) K x v :
  counted rc k h (fun y => R (K, y)) -> h !! x = None -> rc v = 0 -> 0 <= k ->
  counted rc k (<[x := v]> h) (fun y => one (K, x) (K, y) + R (K, y))%nat.
Proof.
  intros Hc Hx Hv Hk. eapply counted_ext; [by eapply counted_new|]. intros y. simpl. unfold one.
  destruct (decide (y = x)) as [->|Hne]; [by rewrite decide_True|by rewrite decide_False by congruence].
Qed.

(** The references of the other kinds are as before. *)
Definition same_but (K : rk) (R R' : rf -> nat) : Prop := forall r, r.1 <> K -> R' r = R r.

Ltac untouched Hi HR Hk Hb :=
  lazymatch goal with
  | |- counted _ _ _ _ => eapply counted_mono; [exact Hk|]; eapply counted_ext; [apply Hi|]; intros ?; simpl; by rewrite HR
  | |- ex _ => destruct (hi_sp _ _ _ Hi) as (own & Hw & Ho); exists own; split; [by eapply winv_mono|]; intros ?; by rewrite !HR
  | |- below _ => intros x Hx; destruct (hi_below _ _ _ Hi x Hx) as (?&?&?&?&?); simpl; split_and!; auto
  | |- _ => intros K y; destruct (sp_kind K) eqn:HK; [rewrite HR by (by destruct K); by apply (hi_good _ _ _ Hi)|by destruct K]
  end.

Lemma hinv_set_cas k k' w R R' h :
  hinv k w R -> k <= k' -> same_but RCa R R' -> counted (fun _ => 0) k' h (fun x => R' (RCa, x)) ->
  (forall x, (w_next (pw w) <= x)%positive -> h !! x = None) -> hinv k' (set_cas w h) R'.
Proof.
  intros Hi Hk HR Hc Hb. split; try exact Hc; untouched Hi HR Hk Hb.
Qed.
Lemma hinv_set_certs k k' w R R' h :
  hinv k w R -> k <= k' -> same_but RCert R R' -> counted ct_refcnt k' h (fun x => R' (RCert, x)) ->
  (forall x, (w_next (pw w) <= x)%positive -> h !! x = None) -> hinv k' (set_certs w h) R'.
Proof.
  intros Hi Hk HR Hc Hb. split; try exact Hc; untouched Hi HR Hk Hb.
Qed.
Lemma hinv_set_ltns k k' w R R' h :
  hinv k w R -> k <= k' -> same_but RLtn R R' -> counted lt_refcnt k' h (fun x => R' (RLtn, x)) ->
  (forall x, (w_next (pw w) <= x)%positive -> h !! x = None) -> hinv k' (set_ltns w h) R'.
Proof.
  intros Hi Hk HR Hc Hb. split; try exact Hc; untouched Hi HR Hk Hb.
Qed.
Lemma hinv_set_ltds k k' w R R' h :
  hinv k w R -> k <= k' -> same_but RLtd R R' -> counted ld_refcnt k' h (fun x => R' (RLtd, x)) ->
  (forall x, (w_next (pw w) <= x)%positive -> h !! x = None) -> hinv k' (set_ltds w h) R'.
Proof.
  intros Hi Hk HR Hc Hb. split; try exact Hc; untouched Hi HR Hk Hb.
Qed.
Lemma hinv_set_pls k k' w R R' h :
  hinv k w R -> k <= k' -> same_but RPl R R' -> counted pl_refcnt k' h (fun x => R' (RPl, x)) ->
  (forall x, (w_next (pw w) <= x)%positive -> h !! x = None) -> hinv k' (set_pls w h) R'.
Proof.
  intros Hi Hk HR Hc Hb. split; try exact Hc; untouched Hi HR Hk Hb.
Qed.

(** Counting goals: which of the references are the same? *)
Ltac count := unfold one in *; repeat case_decide; simplify_eq/=; try (done || lia).

Lemma hi_kind k w R K K' x : hinv k w R -> sp_kind K = Some K' -> (0 < R (K, x))%nat -> kind_at (w_heap (pw w)) x K'.
Proof. intros Hi HK Hx. destruct (hi_good _ _ _ Hi K x Hx) as [Hg _]. by rewrite HK in Hg. Qed.

(** References that were good stay good while their object lives. *)
Lemma good_kstep w v K x o :
  good (w_heap w) K x -> kstep (w_next w) w v -> fresh_ok w -> w_heap v !! x = Some o -> good (w_heap v) K x.
Proof.
  intros [Hg Hn] Hk Hf Ho. split; [destruct (sp_kind K); [by eapply kstep_kind|done]|].
  intros -> d Hd. simpl in Hg. apply kind_pdata in Hg as (d0 & Hd0).
  pose proof (kstep_tag _ _ x _ _ Hk Hf Hd0 Hd) as [= ->]. by apply Hn.
Qed.

Lemma hinv_set_pw k k' w R R' v own :
  hinv k w R -> k <= k' -> kstep (w_next (pw w)) (pw w) v -> winv [] k' v own ->
  (forall x, occ x own = (R' (RPool, x) + R' (RPData, x) + R' (RData, x))%nat) ->
  (forall r, sp_kind r.1 = None -> R' r = R r) ->
  (forall K x, (0 < R' (K, x))%nat -> R (K, x) = 0%nat -> good (w_heap v) K x) ->
  hinv k' (set_pw w v) R'.
Proof.
  intros Hi Hk Hks Hw Ho HR Hnew. split; try (eapply counted_mono; [exact Hk|]; eapply counted_ext; [apply Hi|]; intros ?; simpl; by rewrite HR).
  - by exists own.
  - intros K x Hx. destruct (decide (R (K, x) = 0%nat)) as [E|E]; [by eapply Hnew|].
    destruct (sp_kind K) eqn:HK; [|by destruct K].
    assert (Hl : (0 < occ x own)%nat) by (rewrite Ho; destruct K; simplify_eq/=; lia).
    apply occ_elem in Hl. destruct (inv_live _ _ _ _ x (proj1 Hw) Hl) as (o & Hl').
    destruct (hi_sp _ _ _ Hi) as (own0 & (_ & Hf & _) & _).
    eapply good_kstep; [|exact Hks|exact Hf|exact Hl']. apply (hi_good _ _ _ Hi). lia.
  - intros x Hx. apply (hi_below _ _ _ Hi). simpl in Hx. destruct Hks as [Hn _]. lia.
Qed.

(** A reference into the heap of svrpool.c, set apart from the others. *)
Lemma sp_take k w R K K' x :
  hinv k w R -> sp_kind K = Some K' -> (0 < R (K, x))%nat ->
  exists own, winv [] k (pw w) (x :: own) /\ kind_at (w_heap (pw w)) x K' /\
    forall y, (one (K, x) (K, y) + occ y own = R (RPool, y) + R (RPData, y) + R (RData, y))%nat.
Proof.
  intros Hi HK Hx. destruct (hi_sp _ _ _ Hi) as (own & Hw & Ho).
  assert (Hin : x ∈ own) by (apply occ_elem; rewrite Ho; destruct K; simplify_eq/=; lia).
  exists (rm x own). split; [by apply winv_rm|]. split; [by eapply (hi_kind _ _ _ _ _ _ Hi)|].
  intros y. rewrite <- Ho, <- (occ_rm x own y Hin), occ_cons. count.
Qed.

Lemma sp_all k w R : hinv k w R -> exists own, winv [] k (pw w) own /\ forall x, occ x own = (R (RPool, x) + R (RPData, x) + R (RData, x))%nat.
Proof. apply hi_sp. Qed.

Lemma total_cons w g s r : total w (s :: g) r = (one s r + total w g r)%nat.
Proof. unfold total. rewrite cnt_cons. lia. Qed.
Lemma total_app w g g' r : total w (g ++ g') r = (cnt r g + total w g' r)%nat.
Proof. unfold total. rewrite cnt_app. lia. Qed.
Lemma total_set_pw w v g r : total (set_pw w v) g r = total w g r.
Proof. done. Qed.
Lemma held w g r : r ∈ g -> (0 < total w g r)%nat.
Proof. intros ?%cnt_elem. unfold total. lia. Qed.

(** ** Calls into svrpool.c *)
Lemma pinv_set_pw k k' w g g' v own :
  pinv k w g -> k <= k' -> kstep (w_next (pw w)) (pw w) v -> winv [] k' v own ->
  (forall x, occ x own = (total w g' (RPool, x) + total w g' (RPData, x) + total w g' (RData, x))%nat) ->
  (forall r, sp_kind r.1 = None -> cnt r g' = cnt r g) ->
  (forall K x, (0 < cnt (K, x) g')%nat -> cnt (K, x) g = 0%nat -> good (w_heap v) K x) ->
  pinv k' (set_pw w v) g'.
Proof.
  intros Hi Hk Hks Hw Ho Hr Hn. eapply hinv_set_pw; [exact Hi|done..| |].
  - intros r HK. unfold total. simpl. by rewrite Hr.
  - intros K x Hx Hz. apply Hn; unfold total in *; simpl in *; lia.
Qed.

(** A call that hands out the reference (K, x), one that takes it back, and one
    that does neither. *)
Lemma sp_gain k k' w g K K' x v own :
  pinv k w g -> k <= k' -> sp_kind K = Some K' -> kstep (w_next (pw w)) (pw w) v -> winv [] k' v (x :: own) ->
  (forall y, occ y own = (total w g (RPool, y) + total w g (RPData, y) + total w g (RData, y))%nat) ->
  good (w_heap v) K x -> pinv k' (set_pw w v) ((K, x) :: g).
Proof.
  intros Hi Hk HK Hks Hw Ho Hx. eapply pinv_set_pw; [exact Hi|exact Hk|exact Hks|exact Hw| | |].
  - intros y. rewrite occ_cons, !total_cons, Ho. destruct K; simplify_eq/=; count.
  - intros [K0 y] HK0. rewrite cnt_cons. destruct K; simplify_eq/=; count.
  - intros K0 y Hy Hz. rewrite cnt_cons, Hz in Hy. assert ((K0, y) = (K, x)) as [= -> ->] by count. done.
Qed.

Lemma sp_lose k k' w g K K' x v own :
  pinv k w ((K, x) :: g) -> k <= k' -> sp_kind K = Some K' -> kstep (w_next (pw w)) (pw w) v -> winv [] k' v own ->
  (forall y, one (K, x) (K, y) + occ y own = total w ((K, x) :: g) (RPool, y) + total w ((K, x) :: g) (RPData, y) + total w ((K, x) :: g) (RData, y))%nat ->
  pinv k' (set_pw w v) g.
Proof.
  intros Hi Hk HK Hks Hw Ho. eapply pinv_set_pw; [exact Hi|exact Hk|exact Hks|exact Hw| | |].
  - intros y. specialize (Ho y). rewrite !total_cons in Ho. destruct K; simplify_eq/=; count.
  - intros [K0 y] HK0. rewrite cnt_cons. destruct K; simplify_eq/=; count.
  - intros K0 y Hy Hz. rewrite cnt_cons in Hz. lia.
Qed.

Lemma sp_same k k' w g v own :
  pinv k w g -> k <= k' -> kstep (w_next (pw w)) (pw w) v -> winv [] k' v own ->
  (forall y, occ y own = (total w g (RPool, y) + total w g (RPData, y) + total w g (RData, y))%nat) -> pinv k' (set_pw w v) g.
Proof.
  intros Hi Hk Hks Hw Ho. eapply pinv_set_pw; [exact Hi|exact Hk|exact Hks|exact Hw|done|done|]. intros. lia.
Qed.

(** The kind of a reference that was there before the call. *)
Lemma sp_old k k' w g K x v own :
  pinv k w g -> (0 < total w g (K, x))%nat -> kstep (w_next (pw w)) (pw w) v -> winv [] k' v own -> x ∈ own ->
  good (w_heap v) K x.
Proof.
  intros Hi Hx Hks Hw Hin. destruct (inv_live _ _ _ _ x (proj1 Hw) Hin) as (o & Hl).
  destruct (sp_all _ _ _ Hi) as (own0 & (_ & Hf & _) & _).
  eapply good_kstep; [by apply (hi_good _ _ _ Hi)|exact Hks|exact Hf|exact Hl].
Qed.

Lemma pool_clone_ok k w g x :
  k + 1 < 2 ^ 31 -> pinv k w g -> (0 < total w g (RPool, x))%nat ->
  exists v, svrpool_clone (pw w) (Some x) = Ok (v, Some x) /\ pinv (k + 1) (set_pw w v) ((RPool, x) :: g).
Proof.
  intros Hk Hi Hx. destruct (sp_all _ _ _ Hi) as (own & Hw & Ho).
  destruct (svrpool_clone_ok k (pw w) own x) as (v & Hv & Hw'); [done..|by eapply (hi_kind _ _ _ RPool KPool _ Hi)|].
  exists v. split; [done|]. pose proof (svrpool_clone_k (w_next (pw w)) _ _ _ _ Hv) as Hs.
  eapply sp_gain; [exact Hi|lia|done|exact Hs|exact Hw'|exact Ho|]. eapply sp_old; [exact Hi|done..|exact Hw'|by left].
Qed.

Lemma pool_free_ok k w g x :
  k < 2 ^ 31 -> pinv k w ((RPool, x) :: g) ->
  exists v, svrpool_free (pw w) (Some x) = Ok (v, 0) /\ pinv k (set_pw w v) g.
Proof.
  intros Hk Hi. destruct (sp_take _ _ _ RPool KPool x Hi) as (own & Hw & Hx & Ho); [done|apply held; by left|].
  destruct (svrpool_free_ok [] k (pw w) own x) as (v & Hv & Hw'); [done..|].
  exists v. split; [done|]. eapply sp_lose; [exact Hi|lia|done|by eapply svrpool_free_k|exact Hw'|exact Ho].
Qed.

Lemma pdata_clone_ok k w g x :
  k + 1 < 2 ^ 31 -> pinv k w g -> (0 < total w g (RPData, x))%nat ->
  exists v, svrpool_clone_data (pw w) (Some x) = Ok (v, Some x) /\ pinv (k + 1) (set_pw w v) ((RPData, x) :: g).
Proof.
  intros Hk Hi Hx. destruct (sp_all _ _ _ Hi) as (own & Hw & Ho).
  destruct (svrpool_clone_data_ok k (pw w) own x) as (v & Hv & Hw'); [done..|by eapply (hi_kind _ _ _ RPData KPData _ Hi)|].
  exists v. split; [done|]. pose proof (svrpool_clone_data_k (w_next (pw w)) _ _ _ _ Hv) as Hs.
  eapply sp_gain; [exact Hi|lia|done|exact Hs|exact Hw'|exact Ho|]. eapply sp_old; [exact Hi|done..|exact Hw'|by left].
Qed.

Lemma pdata_free_ok k w g x :
  k < 2 ^ 31 -> pinv k w ((RPData, x) :: g) ->
  exists v, svrpool_free_data (pw w) (Some x) = Ok (v, 0) /\ pinv k (set_pw w v) g /\ kstep (w_next (pw w)) (pw w) v.
Proof.
  intros Hk Hi. destruct (sp_take _ _ _ RPData KPData x Hi) as (own & Hw & Hx & Ho); [done|apply held; by left|].
  destruct (svrpool_free_data_ok k (pw w) own x) as (v & Hv & Hw'); [done..|]. exists v. split; [done|].
  pose proof (svrpool_free_data_k (w_next (pw w)) _ _ _ _ Hv) as Hs. split; [|done].
  eapply sp_lose; [exact Hi|lia|done|exact Hs|exact Hw'|exact Ho].
Qed.

Lemma data_free_ok k w g x :
  k < 2 ^ 31 -> pinv k w ((RData, x) :: g) ->
  exists v, server_free_data (pw w) (Some x) = Ok (v, 0) /\ pinv k (set_pw w v) g.
Proof.
  intros Hk Hi. destruct (sp_take _ _ _ RData KData x Hi) as (own & Hw & Hx & Ho); [done|apply held; by left|].
  destruct (server_free_data_ok [] k (pw w) own x) as (v & Hv & Hw' & _); [done..|].
  exists v. split; [done|]. eapply sp_lose; [exact Hi|lia|done|by eapply server_free_data_k|exact Hw'|exact Ho].
Qed.

(** A pool with at least one server, and not more than the array of the running
    data has room for. *)
Definition pool_fit (w : world) (x : positive) : Prop :=
  exists p, w_heap w !! x = Some (OPool p) /\ 0 < Z.of_nat (length (sp_svrlist p)) <= MAX_SERVER.

Lemma pdata_alloc_ok k w g x :
  0 <= k -> k + 257 < 2 ^ 31 -> pinv k w g -> pool_fit (pw w) x ->
  exists v y, svrpool_alloc_data (pw w) (Some x) = Ok (v, Some y) /\ pinv (k + 257) (set_pw w v) ((RPData, y) :: g).
Proof.
  intros Hk0 Hk Hi (p & Hp & Hs). destruct (sp_all _ _ _ Hi) as (own & Hw & Ho).
  destruct (svrpool_alloc_data_spec k (pw w) own x p) as (v & y & Hv & Hw' & d & Hd & Hn); [done..|lia|].
  exists v, y. split; [done|].
  eapply sp_gain; [exact Hi|lia|done|by eapply svrpool_alloc_data_k|exact Hw'|exact Ho|].
  split; [by eexists|]. intros _ d'. rewrite Hd. intros [= <-]. lia.
Qed.

Lemma clone_data_kind w s w' d : server_clone_data w s = Ok (w', Some d) -> kind_at (w_heap w') d KData.
Proof.
  unfold server_clone_data. intros H. kinv; try done. eexists. split; [apply lookup_insert_eq|done].
Qed.
Lemma get_rp_kind w s w' d : svrpool_get_rp_server w s = Ok (w', Some d) -> kind_at (w_heap w') d KData.
Proof. unfold svrpool_get_rp_server. intros H. kinv; try done. by eapply clone_data_kind. Qed.
Lemma get_tp_kind w s a w' d : svrpool_get_tp_server w s a = Ok (w', Some d) -> kind_at (w_heap w') d KData.
Proof. unfold svrpool_get_tp_server. intros H. kinv; try done. by eapply clone_data_kind. Qed.

Lemma get_rp_gain k w g x :
  k + 1 < 2 ^ 31 -> pinv k w g -> (0 < total w g (RPData, x))%nat ->
  exists v d, svrpool_get_rp_server (pw w) (Some x) = Ok (v, Some d) /\ pinv (k + 1) (set_pw w v) ((RData, d) :: g).
Proof.
  intros Hk Hi Hx. destruct (sp_all _ _ _ Hi) as (own & Hw & Ho). destruct (hi_good _ _ _ Hi RPData x Hx) as [Hkd Hn].
  destruct (kind_pdata _ _ Hkd) as (p & Hp).
  destruct (get_rp_ok k (pw w) own x p) as (v & d & Hv & Hw'); [done..|by apply Hn|]. exists v, d. split; [done|].
  eapply sp_gain; [exact Hi|lia|done|by eapply get_rp_k|exact Hw'|exact Ho|split; [by eapply get_rp_kind|done]].
Qed.

Lemma get_tp_gain k w g x dest :
  k + 1 < 2 ^ 31 -> pinv k w g -> (0 < total w g (RPData, x))%nat ->
  exists v r, svrpool_get_tp_server (pw w) (Some x) (Some dest) = Ok (v, r) /\ pinv (k + 1) (set_pw w v) (oref RData r ++ g).
Proof.
  intros Hk Hi Hx. destruct (sp_all _ _ _ Hi) as (own & Hw & Ho).
  destruct (get_tp_ok k (pw w) own x dest) as (v & r & Hv & Hw'); [done..|by eapply (hi_kind _ _ _ RPData KPData _ Hi)|]. exists v, r. split; [done|].
  pose proof (get_tp_k (w_next (pw w)) _ _ _ _ _ Hv) as Hs. destruct r as [d|]; cbn [oref option_list app] in *.
  - eapply sp_gain; [exact Hi|lia|done|exact Hs|exact Hw'|exact Ho|split; [by eapply get_tp_kind|done]].
  - eapply sp_same; [exact Hi|lia|exact Hs|exact Hw'|exact Ho].
Qed.

(** ** Allocation *)
Definition absent (w : pworld) (p : positive) : Prop :=
  pw_cas w !! p = None /\ pw_certs w !! p = None /\ pw_ltns w !! p = None /\ pw_ltds w !! p = None /\ pw_pls w !! p = None.

Lemma new_block_ok k w g :
  pinv k w g -> exists v p, new_block w = (set_pw w v, Some p) /\ pinv k (set_pw w v) g /\ absent w p /\
    w_next v = Pos.succ p /\ w_heap v = w_heap (pw w).
Proof.
  intros Hi. destruct (sp_all _ _ _ Hi) as (own & (Hw & Hf & Ho & Hs) & Hocc). unfold new_block.
  assert (Hpinv : forall v, w_heap v = w_heap (pw w) -> w_next v = Pos.succ (w_next (pw w)) -> Forall (eq false) (w_oom v) -> w_ssl v = w_ssl (pw w) ->
            pinv k (set_pw w v) g).
  { intros v Hh Hn Hoom Hssl. eapply (sp_same k k w g v own); [done|lia| |split; [by rewrite Hh|]|done].
    - split; [lia|]. intros _ y o' _ Hy. rewrite Hh in Hy. by exists o'.
    - split; [|split; [done|by rewrite Hssl]]. intros x o Hx. rewrite Hh in Hx. specialize (Hf x o Hx). rewrite Hn. lia. }
  destruct (w_oom (pw w)) as [|[] l] eqn:E; [|by apply Forall_cons in Ho as [? _]|];
    eexists _, (w_next (pw w)); (split; [done|]);
    (split; [apply Hpinv; simpl; try done|split; [exact (hi_below _ _ _ Hi (w_next (pw w)) (Pos.le_refl _))|by split]]).
  by apply Forall_cons in Ho as [_ ?].
Qed.

Lemma below_insert {V} (h : gmap positive V) n p v :
  (p < n)%positive -> (forall x, (n <= x)%positive -> h !! x = None) -> forall x, (n <= x)%positive -> <[p := v]> h !! x = None.
Proof. intros Hp Hh x Hx. rewrite lookup_insert_ne by lia. by apply Hh. Qed.
Lemma below_delete {V} (h : gmap positive V) n p :
  (forall x, (n <= x)%positive -> h !! x = None) -> forall x, (n <= x)%positive -> delete p h !! x = None.
Proof. intros Hh x Hx. apply lookup_delete_None. right. by apply Hh. Qed.
Lemma below_live {V} (h : gmap positive V) n p v :
  (forall x, (n <= x)%positive -> h !! x = None) -> h !! p = Some v -> (p < n)%positive.
Proof. intros Hh Hp. destruct (decide (p < n)%positive); [done|]. rewrite Hh in Hp by lia. done. Qed.

Lemma below_certs k w R x : hinv k w R -> (w_next (pw w) <= x)%positive -> pw_certs w !! x = None.
Proof. intros Hi Hx. apply (hi_below _ _ _ Hi x Hx). Qed.
Lemma below_cas k w R x : hinv k w R -> (w_next (pw w) <= x)%positive -> pw_cas w !! x = None.
Proof. intros Hi Hx. apply (hi_below _ _ _ Hi x Hx). Qed.
Lemma below_ltns k w R x : hinv k w R -> (w_next (pw w) <= x)%positive -> pw_ltns w !! x = None.
Proof. intros Hi Hx. apply (hi_below _ _ _ Hi x Hx). Qed.
Lemma below_ltds k w R x : hinv k w R -> (w_next (pw w) <= x)%positive -> pw_ltds w !! x = None.
Proof. intros Hi Hx. apply (hi_below _ _ _ Hi x Hx). Qed.
Lemma below_pls k w R x : hinv k w R -> (w_next (pw w) <= x)%positive -> pw_pls w !! x = None.
Proof. intros Hi Hx. apply (hi_below _ _ _ Hi x Hx). Qed.
#[local] Hint Resolve below_certs below_cas below_ltns below_ltds below_pls : core.

(** An update of a map that leaves what the objects refer to, or changes it. *)
Lemma total_put_ltn w p l l' g r :
  pw_ltns w !! p = Some l -> (total (put_ltn w p l') g r + cnt r (ltn_out l) = total w g r + cnt r (ltn_out l'))%nat.
Proof. intros Hp. unfold total. simpl. pose proof (msum_update ltn_out _ p l l' r Hp). lia. Qed.
Lemma total_put_cert w p l l' g r :
  pw_certs w !! p = Some l -> (total (put_cert w p l') g r + cnt r (ct_out l) = total w g r + cnt r (ct_out l'))%nat.
Proof. intros Hp. unfold total. simpl. pose proof (msum_update ct_out _ p l l' r Hp). lia. Qed.
Lemma total_put_pl w p l l' g r :
  pw_pls w !! p = Some l -> (total (put_pl w p l') g r + cnt r (pl_out l) = total w g r + cnt r (pl_out l'))%nat.
Proof. intros Hp. unfold total. simpl. pose proof (msum_update pl_out _ p l l' r Hp). lia. Qed.

(** ** listener.c *)
Lemma listener_alloc_ok k w g :
  0 <= k -> pinv k w g -> exists v p l, listener_alloc w = (put_ltn (set_pw w v) p l, Some p) /\ w_heap v = w_heap (pw w) /\ pw_ltns w !! p = None /\
    lt_cfg l = {| lc_name := []; lc_address := zero_address; lc_ssl := false; lc_cert := None |} /\ pinv k (put_ltn (set_pw w v) p l) ((RLtn, p) :: g).
Proof.
  intros Hk Hi. destruct (new_block_ok k w g Hi) as (v & p & Hn & Hi1 & (_ & _ & Ha & _) & Hnext & Hh). unfold listener_alloc. rewrite Hn.
  set (l := Build_listener_t _ _). exists v, p, l. split; [done|]. split; [done|]. split; [done|]. split; [done|].
  assert (HR : forall r, total (put_ltn (set_pw w v) p l) ((RLtn, p) :: g) r = (one (RLtn, p) r + total (set_pw w v) g r)%nat).
  { intros r. rewrite total_cons. unfold total. simpl. rewrite (msum_new ltn_out) by done. change (cnt r (ltn_out l)) with 0%nat. lia. }
  eapply hinv_ext; [|exact HR]. eapply hinv_set_ltns; [exact Hi1|lia|intros r Hr; count| |].
  - by eapply (counted_fresh lt_refcnt); [apply (hi_ltn _ _ _ Hi1)|..].
  - simpl. eapply below_insert; [rewrite Hnext; lia|]. intros x. apply (below_ltns _ _ _ x Hi1).
Qed.

Lemma listener_clone_ok k w g p :
  k + 1 < 2 ^ 31 -> pinv k w g -> (0 < total w g (RLtn, p))%nat ->
  exists l, pw_ltns w !! p = Some l /\ listener_clone w (Some p) = Ok (put_ltn w p (ltn_ref l (lt_refcnt l + 1)), Some p) /\
    pinv (k + 1) (put_ltn w p (ltn_ref l (lt_refcnt l + 1))) ((RLtn, p) :: g).
Proof.
  intros Hk Hi Hp. destruct (counted_live _ _ _ _ _ (hi_ltn _ _ _ Hi) Hp) as (l & Hl & Hr). exists l. split; [done|].
  unfold listener_clone, get_ltn. rewrite Hl. cbn [deref bind]. rewrite s32_small by lia. split; [done|].
  assert (HR : forall r, total (put_ltn w p (ltn_ref l (lt_refcnt l + 1))) ((RLtn, p) :: g) r = (one (RLtn, p) r + total w g r)%nat).
  { intros r. rewrite total_cons. pose proof (total_put_ltn w p l (ltn_ref l (lt_refcnt l + 1)) g r Hl) as H. rewrite ltn_out_ref in H. lia. }
  eapply hinv_ext; [|exact HR]. eapply hinv_set_ltns; [exact Hi|lia|intros r Hr'; count| |].
  - by eapply (counted_inc lt_refcnt); [apply (hi_ltn _ _ _ Hi)|..].
  - eapply below_insert; [|eauto]. eapply below_live; [|exact Hl]. eauto.
Qed.

(** The reference of a listener that goes away to its certificate set stays. *)
Lemma listener_free_ok k w g p :
  k < 2 ^ 31 -> pinv k w ((RLtn, p) :: g) ->
  exists h lost, listener_free w (Some p) = Ok (set_ltns w h, 0) /\ pinv k (set_ltns w h) (lost ++ g) /\ Forall (fun r => r.1 = RCert) lost /\
    (forall y, y <> p -> h !! y = pw_ltns w !! y) /\ (forall l, h !! p = Some l -> exists l0, pw_ltns w !! p = Some l0 /\ lt_cfg l = lt_cfg l0).
Proof.
  intros Hk Hi. destruct (counted_live _ _ _ _ p (hi_ltn _ _ _ Hi)) as (l & Hl & Hr); [apply held; by left|].
  unfold listener_free, get_ltn. rewrite Hl. cbn [deref bind]. rewrite s32_small by lia. set (l' := ltn_ref l (lt_refcnt l - 1)).
  assert (HR : forall r, total (put_ltn w p l') g r = total w g r).
  { intros r. pose proof (total_put_ltn w p l l' g r Hl) as H. unfold l' in *. rewrite ltn_out_ref in H. lia. }
  destruct (Z.eqb_spec (lt_refcnt l) 0) as [E|E].
  - eexists (delete p (pw_ltns w)), (ltn_out l). split_and!.
    + unfold put_ltn, set_ltns. simpl. by rewrite delete_insert_eq.
    + assert (HR' : forall r, total (set_ltns w (delete p (pw_ltns w))) (ltn_out l ++ g) r = total w g r).
      { intros r. unfold total. simpl. rewrite cnt_app, (msum_delete ltn_out (pw_ltns w) p l r Hl). lia. }
      eapply hinv_ext; [|exact HR']. eapply hinv_set_ltns; [exact Hi|lia| | |].
      * intros r Hr'. rewrite total_cons. count.
      * eapply (counted_gone lt_refcnt); [apply (hi_ltn _ _ _ Hi)|done|done|]. intros y. apply total_cons.
      * apply below_delete. eauto.
    + unfold ltn_out. destruct (lc_cert (lt_cfg l)); repeat constructor.
    + intros y Hy. by rewrite lookup_delete_ne.
    + intros l0. by rewrite lookup_delete_eq.
  - exists (<[p := l']> (pw_ltns w)), []. split_and!; [done| |constructor| |].
    + eapply hinv_ext; [|exact HR]. eapply hinv_set_ltns; [exact Hi|lia| | |].
      * intros r Hr'. rewrite total_cons. count.
      * eapply (counted_dec lt_refcnt); [apply (hi_ltn _ _ _ Hi)|exact Hl|done|done|]. intros y. apply total_cons.
      * eapply below_insert; [|eauto]. eapply below_live; [|exact Hl]. eauto.
    + intros y Hy. by rewrite lookup_insert_ne.
    + intros l0. rewrite lookup_insert_eq. intros [= <-]. by exists l.
Qed.
End PolicyProofs.
