(* ===== verification/PolicyOps.v ===== *)
(** * Every operation of policy.c, listener.c and certset.c keeps the counts

    Running data of listeners, certificate sets, policies, the choice of a
    server for a session, and the release of a session. *)
From S2P Require Import Prelude CLib IpAddr SvrPool SvrPoolProofs SvrPoolData SvrPoolClaims RefCount Policy PolicyProofs.

Module PolicyOps.
Import SvrPool SvrPoolProofs SvrPoolData SvrPoolClaims RefCount Policy PolicyProofs.
#[local] Hint Resolve below_certs below_cas below_ltns below_ltds below_pls : core.

(** ** Running data of a listener *)
Lemma pinv_ctx k w g :
  pinv k w g -> exists v, ctx_alloc (pw w) = (v, true) /\ w_heap v = w_heap (pw w) /\ pinv k (set_pw w v) g.
Proof.
  intros Hi. destruct (sp_all _ _ _ Hi) as (own & Hw & Ho). destruct (ctx_alloc_ok [] k (pw w) own Hw) as (v & Hv & Hh & Hw').
  exists v. split; [done|]. split; [done|]. eapply sp_same; [exact Hi|lia|by eapply kstep_ctx|exact Hw'|exact Ho].
Qed.

Lemma pinv_nctx k w g : pinv k w g -> pinv k (ssl_ctx_free w) g.
Proof.
  intros Hi. destruct (sp_all _ _ _ Hi) as (own & Hw & Ho). unfold ssl_ctx_free. eapply sp_same; [exact Hi|lia| |exact Hw|exact Ho].
  split; [simpl; lia|]. intros _ y o' _ Hy. by exists o'.
Qed.

Lemma total_set_ltds w h g r : total (set_ltds w h) g r = total w g r.
Proof. done. Qed.

Lemma put_ltd_new k w g p l :
  0 <= k -> pinv k w g -> pw_ltds w !! p = None -> (p < w_next (pw w))%positive -> ld_refcnt l = 0 -> pinv k (put_ltd w p l) ((RLtd, p) :: g).
Proof.
  intros Hk Hi Hp Hlt Hl. eapply (hinv_ext k _ (fun r => one (RLtd, p) r + total w g r)%nat); [|intros r; by rewrite total_cons].
  eapply hinv_set_ltds; [exact Hi|lia|intros r Hr; count| |].
  - by eapply (counted_fresh ld_refcnt); [apply (hi_ltd _ _ _ Hi)|..].
  - eapply below_insert; [done|eauto].
Qed.

Lemma put_ltd_same k w g p l l' :
  pinv k w g -> pw_ltds w !! p = Some l -> ld_refcnt l' = ld_refcnt l -> pinv k (put_ltd w p l') g.
Proof.
  intros Hi Hp Hl. pose proof (counted_at _ _ _ _ _ _ (hi_ltd _ _ _ Hi) Hp).
  eapply hinv_set_ltds; [exact Hi|lia|done| |].
  - eapply counted_put; [apply (hi_ltd _ _ _ Hi)|exact Hp|lia|lia|]. intros y. rewrite Hl. change (total (put_ltd w p l') g) with (total w g). case_decide; lia.
  - eapply below_insert; [|eauto]. eapply below_live; [|exact Hp]. eauto.
Qed.

Lemma listener_alloc_data_ok k w g lp :
  0 <= k -> pinv k w g -> (0 < total w g (RLtn, lp))%nat ->
  exists v p l, listener_alloc_data w (Some lp) = Ok (put_ltd (set_pw w v) p l, Some p) /\ w_heap v = w_heap (pw w) /\
    pinv k (put_ltd (set_pw w v) p l) ((RLtd, p) :: g).
Proof.
  intros Hk Hi Hlp. destruct (new_block_ok k w g Hi) as (v & p & Hn & Hi1 & (_ & _ & _ & Ha & _) & Hnext & Hh).
  unfold listener_alloc_data. rewrite Hn. destruct (counted_live _ _ _ _ _ (hi_ltn _ _ _ Hi) Hlp) as (l & Hl & _).
  unfold get_ltn. change (pw_ltns (put_ltd _ _ _)) with (pw_ltns w). rewrite Hl. cbn [deref bind].
  set (l0 := {| ld_sslctx := false; ld_refcnt := 0 |}).
  assert (Hi2 : pinv k (put_ltd (set_pw w v) p l0) ((RLtd, p) :: g)) by (apply put_ltd_new; try done; simpl; lia).
  destruct (lc_ssl (lt_cfg l)); [|by eexists v, p, l0]. destruct (lc_cert (lt_cfg l)) as [c|] eqn:Hc; [|by eexists v, p, l0].
  unfold certset_alloc_ctx, get_cert. change (pw_certs (put_ltd _ _ _)) with (pw_certs w).
  destruct (counted_live _ _ _ _ c (hi_cert _ _ _ Hi)) as (cs & -> & _).
  { unfold total. pose proof (msum_elem ltn_out (pw_ltns w) lp l (RCert, c) Hl). unfold ltn_out in *. rewrite Hc in *. simpl in *.
    assert (0 < msum ltn_out (pw_ltns w) (RCert, c))%nat by (apply H; by left). unfold ltn_out in *. lia. }
  cbn [deref bind]. destruct (pinv_ctx _ _ _ Hi2) as (v' & Hv' & Hh' & Hi3). rewrite Hv'. cbn [negb].
  eexists v', p, {| ld_sslctx := true; ld_refcnt := 0 |}. split; [|split].
  - unfold put_ltd, set_ltds, set_pw. simpl. by rewrite insert_insert_eq.
  - simpl in Hh'. congruence.
  - pose proof (put_ltd_same k _ _ p l0 {| ld_sslctx := true; ld_refcnt := 0 |} Hi3 ltac:(apply lookup_insert_eq) eq_refl) as H.
    unfold put_ltd, set_ltds, set_pw in *. simpl in *. by rewrite insert_insert_eq in H.
Qed.

Lemma listener_clone_data_ok k w g p :
  k + 1 < 2 ^ 31 -> pinv k w g -> (0 < total w g (RLtd, p))%nat ->
  exists l, listener_clone_data w (Some p) = Ok (put_ltd w p l, Some p) /\ pinv (k + 1) (put_ltd w p l) ((RLtd, p) :: g).
Proof.
  intros Hk Hi Hp. destruct (counted_live _ _ _ _ _ (hi_ltd _ _ _ Hi) Hp) as (l & Hl & Hr).
  unfold listener_clone_data, get_ltd. rewrite Hl. cbn [deref bind]. rewrite s32_small by lia. eexists. split; [done|].
  eapply (hinv_ext (k + 1) _ (fun r => one (RLtd, p) r + total w g r)%nat); [|intros r; by rewrite total_cons].
  eapply hinv_set_ltds; [exact Hi|lia|intros r Hr'; count| |].
  - by eapply (counted_inc ld_refcnt); [apply (hi_ltd _ _ _ Hi)|..].
  - eapply below_insert; [|eauto]. eapply below_live; [|exact Hl]. eauto.
Qed.

(** The new state, away from the heap of svrpool.c and the listener data. *)
Definition ltd_step (w w' : pworld) : Prop :=
  exists v h, w' = set_ltds (set_pw w v) h /\ w_heap v = w_heap (pw w) /\ w_next v = w_next (pw w).

Lemma listener_free_data_ok k w g p :
  k < 2 ^ 31 -> pinv k w ((RLtd, p) :: g) ->
  exists w', listener_free_data w (Some p) = Ok (w', 0) /\ ltd_step w w' /\ pinv k w' g.
Proof.
  intros Hk Hi. destruct (counted_live _ _ _ _ p (hi_ltd _ _ _ Hi)) as (l & Hl & Hr); [apply held; by left|].
  unfold listener_free_data, get_ltd. rewrite Hl. cbn [deref bind]. rewrite s32_small by lia.
  assert (Hdel : ld_refcnt l = 0 -> pinv k (set_ltds w (delete p (pw_ltds w))) g).
  { intros E. eapply hinv_set_ltds; [exact Hi|lia| | |].
    - intros r Hr'. rewrite total_cons, total_set_ltds. count.
    - eapply (counted_gone ld_refcnt); [apply (hi_ltd _ _ _ Hi)|done|done|]. intros y. by rewrite total_cons.
    - apply below_delete. eauto. }
  destruct (Z.eqb_spec (ld_refcnt l) 0) as [E|E].
  - eexists. split; [done|]. destruct (ld_sslctx l); simpl; unfold put_ltd, ssl_ctx_free, set_ltds, set_pw; simpl; rewrite delete_insert_eq.
    + split; [by eexists _, _|]. apply (pinv_nctx _ _ _ (Hdel E)).
    + split; [by exists (pw w), (delete p (pw_ltds w))|]. apply (Hdel E).
  - eexists. split; [done|]. split; [by exists (pw w); eexists|].
    eapply hinv_set_ltds; [exact Hi|lia| | |].
    + intros r Hr'. rewrite total_cons. unfold put_ltd. rewrite total_set_ltds. count.
    + eapply (counted_dec ld_refcnt); [apply (hi_ltd _ _ _ Hi)|exact Hl|done|done|]. intros y. by rewrite total_cons.
    + eapply below_insert; [|eauto]. eapply below_live; [|exact Hl]. eauto.
Qed.

(** ** certset.c *)
Lemma certset_alloc_ok k w g :
  0 <= k -> pinv k w g -> exists v p, certset_alloc w = (put_cert (set_pw w v) p zero_certset, Some p) /\ w_heap v = w_heap (pw w) /\
    pw_certs w !! p = None /\ pinv k (put_cert (set_pw w v) p zero_certset) ((RCert, p) :: g).
Proof.
  intros Hk Hi. destruct (new_block_ok k w g Hi) as (v & p & Hn & Hi1 & (_ & Ha & _) & Hnext & Hh). unfold certset_alloc. rewrite Hn.
  exists v, p. split; [done|]. split; [done|]. split; [done|].
  assert (HR : forall r, total (put_cert (set_pw w v) p zero_certset) ((RCert, p) :: g) r = (one (RCert, p) r + total (set_pw w v) g r)%nat).
  { intros r. rewrite total_cons. unfold total. simpl. rewrite (msum_new ct_out) by done. change (cnt r (ct_out _)) with 0%nat. lia. }
  eapply hinv_ext; [|exact HR]. eapply hinv_set_certs; [exact Hi1|lia|intros r Hr; count| |].
  - by eapply (counted_fresh ct_refcnt); [apply (hi_cert _ _ _ Hi1)|..].
  - simpl. eapply below_insert; [rewrite Hnext; lia|]. intros x. apply (below_certs _ _ _ x Hi1).
Qed.

Lemma certset_clone_ok k w g p :
  k + 1 < 2 ^ 31 -> pinv k w g -> (0 < total w g (RCert, p))%nat ->
  exists c, pw_certs w !! p = Some c /\ certset_clone w (Some p) = Ok (put_cert w p (cert_ref c (ct_refcnt c + 1)), Some p) /\
    pinv (k + 1) (put_cert w p (cert_ref c (ct_refcnt c + 1))) ((RCert, p) :: g).
Proof.
  intros Hk Hi Hp. destruct (counted_live _ _ _ _ _ (hi_cert _ _ _ Hi) Hp) as (l & Hl & Hr). exists l. split; [done|].
  unfold certset_clone, get_cert. rewrite Hl. cbn [deref bind]. rewrite s32_small by lia. split; [done|].
  assert (HR : forall r, total (put_cert w p (cert_ref l (ct_refcnt l + 1))) ((RCert, p) :: g) r = (one (RCert, p) r + total w g r)%nat).
  { intros r. rewrite total_cons. pose proof (total_put_cert w p l (cert_ref l (ct_refcnt l + 1)) g r Hl) as H. rewrite ct_out_ref in H. lia. }
  eapply hinv_ext; [|exact HR]. eapply hinv_set_certs; [exact Hi|lia|intros r Hr'; count| |].
  - by eapply (counted_inc ct_refcnt); [apply (hi_cert _ _ _ Hi)|..].
  - eapply below_insert; [|eauto]. eapply below_live; [|exact Hl]. eauto.
Qed.

(** ** An object changes what it refers to: references move between it and [g] *)
Lemma pinv_put_pl k w g g' p l l' :
  pinv k w g -> pw_pls w !! p = Some l -> pl_refcnt l' = pl_refcnt l ->
  (forall r, cnt r g' + cnt r (pl_out l') = cnt r g + cnt r (pl_out l))%nat -> pinv k (put_pl w p l') g'.
Proof.
  intros Hi Hp Hc Hr. pose proof (counted_at _ _ _ _ _ _ (hi_pl _ _ _ Hi) Hp).
  assert (HR : forall r, total (put_pl w p l') g' r = total w g r).
  { intros r. specialize (Hr r). pose proof (total_put_pl w p l l' g' r Hp). unfold total in *. simpl in *. lia. }
  eapply hinv_ext; [|exact HR]. eapply hinv_set_pls; [exact Hi|lia|done| |].
  - eapply counted_put; [apply (hi_pl _ _ _ Hi)|exact Hp|lia|lia|]. intros y. rewrite Hc. case_decide; lia.
  - eapply below_insert; [|eauto]. eapply below_live; [|exact Hp]. eauto.
Qed.
Lemma pinv_put_ltn k w g g' p l l' :
  pinv k w g -> pw_ltns w !! p = Some l -> lt_refcnt l' = lt_refcnt l ->
  (forall r, cnt r g' + cnt r (ltn_out l') = cnt r g + cnt r (ltn_out l))%nat -> pinv k (put_ltn w p l') g'.
Proof.
  intros Hi Hp Hc Hr. pose proof (counted_at _ _ _ _ _ _ (hi_ltn _ _ _ Hi) Hp).
  assert (HR : forall r, total (put_ltn w p l') g' r = total w g r).
  { intros r. specialize (Hr r). pose proof (total_put_ltn w p l l' g' r Hp). unfold total in *. simpl in *. lia. }
  eapply hinv_ext; [|exact HR]. eapply hinv_set_ltns; [exact Hi|lia|done| |].
  - eapply counted_put; [apply (hi_ltn _ _ _ Hi)|exact Hp|lia|lia|]. intros y. rewrite Hc. case_decide; lia.
  - eapply below_insert; [|eauto]. eapply below_live; [|exact Hp]. eauto.
Qed.
Lemma pinv_put_cert k w g g' p l l' :
  pinv k w g -> pw_certs w !! p = Some l -> ct_refcnt l' = ct_refcnt l ->
  (forall r, cnt r g' + cnt r (ct_out l') = cnt r g + cnt r (ct_out l))%nat -> pinv k (put_cert w p l') g'.
Proof.
  intros Hi Hp Hc Hr. pose proof (counted_at _ _ _ _ _ _ (hi_cert _ _ _ Hi) Hp).
  assert (HR : forall r, total (put_cert w p l') g' r = total w g r).
  { intros r. specialize (Hr r). pose proof (total_put_cert w p l l' g' r Hp). unfold total in *. simpl in *. lia. }
  eapply hinv_ext; [|exact HR]. eapply hinv_set_certs; [exact Hi|lia|done| |].
  - eapply counted_put; [apply (hi_cert _ _ _ Hi)|exact Hp|lia|lia|]. intros y. rewrite Hc. case_decide; lia.
  - eapply below_insert; [|eauto]. eapply below_live; [|exact Hp]. eauto.
Qed.

Lemma cacert_alloc_ok k w g f :
  0 <= k -> pinv k w g -> exists v p h, cacert_alloc w (Some f) = Ok (set_cas (set_pw w v) h, Some p) /\ w_heap v = w_heap (pw w) /\
    pinv k (set_cas (set_pw w v) h) ((RCa, p) :: g).
Proof.
  intros Hk Hi. destruct (new_block_ok k w g Hi) as (v & p & Hn & Hi1 & (Ha & _) & Hnext & Hh). unfold cacert_alloc. rewrite Hn.
  eexists v, p, _. split; [done|]. split; [done|].
  eapply (hinv_ext k _ (fun r => one (RCa, p) r + total w g r)%nat); [|intros r; by rewrite total_cons].
  eapply hinv_set_cas; [exact Hi1|lia|intros r Hr; rewrite total_set_pw; count| |].
  - by eapply (counted_fresh (fun _ => 0)); [apply (hi_ca _ _ _ Hi1)|..].
  - simpl. eapply below_insert; [rewrite Hnext; lia|]. intros x. apply (below_cas _ _ _ x Hi1).
Qed.

(** ** policy.c *)
Lemma policy_alloc_ok k w g :
  0 <= k -> pinv k w g -> exists v p l, policy_alloc w = (put_pl (set_pw w v) p l, Some p) /\ w_heap v = w_heap (pw w) /\ pw_pls w !! p = None /\
    pl_cfg l = {| pc_name := []; pc_mode := 0; pc_listener := None; pc_svrpool := None |} /\ pl_data l = {| pd_ltndata := None; pd_spdata := None |} /\
    pinv k (put_pl (set_pw w v) p l) ((RPl, p) :: g).
Proof.
  intros Hk Hi. destruct (new_block_ok k w g Hi) as (v & p & Hn & Hi1 & (_ & _ & _ & _ & Ha) & Hnext & Hh). unfold policy_alloc. rewrite Hn.
  set (l := Build_policy_t _ _ _). exists v, p, l. split_and!; [done..|].
  assert (HR : forall r, total (put_pl (set_pw w v) p l) ((RPl, p) :: g) r = (one (RPl, p) r + total (set_pw w v) g r)%nat).
  { intros r. rewrite total_cons. unfold total. simpl. rewrite (msum_new pl_out) by done. change (cnt r (pl_out l)) with 0%nat. lia. }
  eapply hinv_ext; [|exact HR]. eapply hinv_set_pls; [exact Hi1|lia|intros r Hr; count| |].
  - by eapply (counted_fresh pl_refcnt); [apply (hi_pl _ _ _ Hi1)|..].
  - simpl. eapply below_insert; [rewrite Hnext; lia|]. intros x. apply (below_pls _ _ _ x Hi1).
Qed.

Lemma policy_clone_ok k w g p :
  k + 1 < 2 ^ 31 -> pinv k w g -> (0 < total w g (RPl, p))%nat ->
  exists l, pw_pls w !! p = Some l /\ policy_clone w (Some p) = Ok (put_pl w p (pl_ref l (pl_refcnt l + 1)), Some p) /\
    pinv (k + 1) (put_pl w p (pl_ref l (pl_refcnt l + 1))) ((RPl, p) :: g).
Proof.
  intros Hk Hi Hp. destruct (counted_live _ _ _ _ _ (hi_pl _ _ _ Hi) Hp) as (l & Hl & Hr). exists l. split; [done|].
  unfold policy_clone, get_pl. rewrite Hl. cbn [deref bind]. rewrite s32_small by lia. split; [done|].
  assert (HR : forall r, total (put_pl w p (pl_ref l (pl_refcnt l + 1))) ((RPl, p) :: g) r = (one (RPl, p) r + total w g r)%nat).
  { intros r. rewrite total_cons. pose proof (total_put_pl w p l (pl_ref l (pl_refcnt l + 1)) g r Hl) as H. rewrite pl_out_ref in H. lia. }
  eapply hinv_ext; [|exact HR]. eapply hinv_set_pls; [exact Hi|lia|intros r Hr'; count| |].
  - by eapply (counted_inc pl_refcnt); [apply (hi_pl _ _ _ Hi)|..].
  - eapply below_insert; [|eauto]. eapply below_live; [|exact Hl]. eauto.
Qed.

(** The calls policy_free makes do not look at the policies. *)
Lemma listener_free_frame w P s w' r :
  listener_free w s = Ok (w', r) -> listener_free (set_pls w P) s = Ok (set_pls w' P, r).
Proof.
  destruct s as [p|]; [|by intros [= <- <-]]. unfold listener_free, get_ltn. simpl.
  destruct (pw_ltns w !! p) as [l|]; [|done]. simpl. intros [= <- <-]. by destruct (_ =? 0).
Qed.
Lemma listener_free_data_frame w P s w' r :
  listener_free_data w s = Ok (w', r) -> listener_free_data (set_pls w P) s = Ok (set_pls w' P, r).
Proof.
  destruct s as [p|]; [|by intros [= <- <-]]. unfold listener_free_data, get_ltd. simpl.
  destruct (pw_ltds w !! p) as [l|]; [|done]. simpl. destruct (_ =? 0); intros [= <- <-]; [|done]. by destruct (ld_sslctx l).
Qed.

Lemma pls_set w P : pw_pls (set_pls w P) = P.
Proof. done. Qed.

(** policy_free_data on a policy whose references are counted outside. *)
Lemma free_data_frame k w g P p l :
  k < 2 ^ 31 -> pinv k w (oref RLtd (pd_ltndata (pl_data l)) ++ oref RPData (pd_spdata (pl_data l)) ++ g) -> P !! p = Some l ->
  exists w', policy_free_data (set_pls w P) (Some p) = Ok (set_pls w' (<[p := pl_set_data l None None]> P), 0) /\ pinv k w' g /\
    pw_pls w' = pw_pls w /\ pw_ltns w' = pw_ltns w /\ pw_certs w' = pw_certs w.
Proof.
  intros Hk Hi Hp. unfold policy_free_data, get_pl. change (pw_pls (set_pls w P)) with P. rewrite Hp. cbn [deref bind].
  assert (HA : exists w1, match pd_spdata (pl_data l) with
              | Some spd => do (w, _) <- on_pw (set_pls w P) (svrpool_free_data (pw (set_pls w P)) (Some spd));
                  do l <- deref (pw_pls w !! p); Ok (put_pl w p (pl_set_data l (pd_ltndata (pl_data l)) None))
              | None => Ok (set_pls w P) end = Ok (set_pls w1 (<[p := pl_set_data l (pd_ltndata (pl_data l)) None]> P)) /\
            pinv k w1 (oref RLtd (pd_ltndata (pl_data l)) ++ g) /\ pw_pls w1 = pw_pls w /\ pw_ltns w1 = pw_ltns w /\ pw_certs w1 = pw_certs w).
  { destruct (pd_spdata (pl_data l)) as [x|] eqn:Hx; simpl in Hi.
    - rewrite <- Permutation_middle in Hi.
      destruct (pdata_free_ok k w _ x Hk Hi) as (v & Hv & Hi' & _). change (pw (set_pls w P)) with (pw w). rewrite Hv. cbn [bind on_pw]. simpl. rewrite Hp. cbn [deref bind].
      exists (set_pw w v). by split.
    - exists w. split; [|done]. rewrite insert_id; [done|]. rewrite Hp. destruct l as [? [] ?]. simpl in *. by subst. }
  destruct HA as (w1 & -> & Hi1 & Hp1 & Hl1 & Hc1). cbn [bind]. rewrite pls_set, lookup_insert_eq. cbn [deref bind pl_data pl_set_data pd_ltndata].
  destruct (pd_ltndata (pl_data l)) as [x|] eqn:Hx; simpl in Hi1.
  - destruct (listener_free_data_ok k w1 g x Hk Hi1) as (w2 & Hf & (v & h & -> & Hh & Hn) & Hi2).
    rewrite (listener_free_data_frame _ _ _ _ _ Hf). cbn [bind]. rewrite pls_set, lookup_insert_eq. cbn [deref bind].
    eexists. split; [|split; [exact Hi2|done]]. unfold put_pl, set_pls. simpl. by rewrite insert_insert_eq.
  - exists w1. by split.
Qed.

Ltac counts := intros r; rewrite ?cnt_app, ?cnt_cons, ?cnt_nil; unfold pl_out, ltn_out; simpl; rewrite ?cnt_app, ?cnt_oref, ?cnt_cons, ?cnt_nil; lia.

Lemma policy_free_data_ok k w g p l :
  k < 2 ^ 31 -> pinv k w g -> pw_pls w !! p = Some l ->
  exists w', policy_free_data w (Some p) = Ok (w', 0) /\ pinv k w' g /\ pw_pls w' = <[p := pl_set_data l None None]> (pw_pls w).
Proof.
  intros Hk Hi Hp. set (gw := put_pl w p (pl_set_data l None None)).
  assert (Hg : pinv k gw (oref RLtd (pd_ltndata (pl_data l)) ++ oref RPData (pd_spdata (pl_data l)) ++ g)) by (eapply pinv_put_pl; [exact Hi|exact Hp|done|counts]).
  destruct (free_data_frame k gw g (pw_pls w) p l Hk Hg Hp) as (w' & Hf & Hi' & Hp' & _).
  replace (set_pls gw (pw_pls w)) with w in Hf by (by destruct w). eexists. split; [exact Hf|]. split; [|done].
  replace (set_pls w' _) with w'; [done|]. change (<[p := pl_set_data l None None]> (pw_pls w)) with (pw_pls gw). rewrite <- Hp'. by destruct w'.
Qed.

Lemma policy_free_ok k w g p :
  k < 2 ^ 31 -> pinv k w ((RPl, p) :: g) ->
  exists w' lost, policy_free w (Some p) = Ok (w', 0) /\ pinv k w' (lost ++ g) /\ Forall (fun r => r.1 = RCert) lost.
Proof.
  intros Hk Hi. destruct (counted_live _ _ _ _ p (hi_pl _ _ _ Hi)) as (l & Hl & Hr); [apply held; by left|].
  unfold policy_free, get_pl. rewrite Hl. cbn [deref bind]. rewrite s32_small by lia. set (l' := pl_ref l (pl_refcnt l - 1)).
  destruct (Z.eqb_spec (pl_refcnt l) 0) as [E|E].
  2: { exists (put_pl w p l'), []. split_and!; [done| |constructor].
    assert (HR : forall r, total (put_pl w p l') g r = total w g r).
    { intros r. pose proof (total_put_pl w p l l' g r Hl) as H. unfold l' in *. rewrite pl_out_ref in H. lia. }
    eapply hinv_ext; [|exact HR]. eapply hinv_set_pls; [exact Hi|lia| | |].
    - intros r Hr'. rewrite total_cons. count.
    - eapply (counted_dec pl_refcnt); [apply (hi_pl _ _ _ Hi)|exact Hl|done|done|]. intros y. by rewrite total_cons.
    - eapply below_insert; [|eauto]. eapply below_live; [|exact Hl]. eauto. }
  (* the policy is gone, its references are held by nobody *)
  set (gw := set_pls w (delete p (pw_pls w))). set (P := <[p := l']> (pw_pls w)).
  assert (Hg : pinv k gw (pl_out l ++ g)).
  { assert (HR : forall r, total gw (pl_out l ++ g) r = total w g r).
    { intros r. unfold total. simpl. rewrite cnt_app, (msum_delete pl_out (pw_pls w) p l r Hl). lia. }
    eapply hinv_ext; [|exact HR]. eapply hinv_set_pls; [exact Hi|lia| | |].
    - intros r Hr'. rewrite total_cons. count.
    - eapply (counted_gone pl_refcnt); [apply (hi_pl _ _ _ Hi)|done|done|]. intros y. by rewrite total_cons.
    - apply below_delete. eauto. }
  change (put_pl w p l') with (set_pls gw P). unfold pl_out in Hg. rewrite <- !app_assoc in Hg.
  assert (H1 : exists w1 lost, match pc_listener (pl_cfg l) with
      | Some ltn => do (w, _) <- listener_free (set_pls gw P) (Some ltn); Ok w | None => Ok (set_pls gw P) end = Ok (set_pls w1 P) /\
      pinv k w1 (oref RPool (pc_svrpool (pl_cfg l)) ++ oref RLtd (pd_ltndata (pl_data l)) ++ oref RPData (pd_spdata (pl_data l)) ++ (lost ++ g)) /\
      Forall (fun r => r.1 = RCert) lost /\ pw_pls w1 = delete p (pw_pls w)).
  { destruct (pc_listener (pl_cfg l)) as [x|]; [|by exists gw, []].
    destruct (listener_free_ok k gw _ x Hk Hg) as (h & lost & Hf & Hi1 & Hlost & _). rewrite (listener_free_frame _ P _ _ _ Hf). cbn [bind].
    exists (set_ltns gw h), lost. split; [done|]. split; [|done]. eapply pinv_proper; [|exact Hi1]. solve_Permutation. }
  destruct H1 as (w1 & lost & -> & Hi1 & Hlost & Hp1). cbn [bind].
  assert (H2 : exists w2, match pc_svrpool (pl_cfg l) with
      | Some sp => do (w, _) <- on_pw (set_pls w1 P) (svrpool_free (pw (set_pls w1 P)) (Some sp)); Ok w | None => Ok (set_pls w1 P) end = Ok (set_pls w2 P) /\
      pinv k w2 (oref RLtd (pd_ltndata (pl_data l)) ++ oref RPData (pd_spdata (pl_data l)) ++ (lost ++ g)) /\ pw_pls w2 = delete p (pw_pls w)).
  { destruct (pc_svrpool (pl_cfg l)) as [x|]; [|by exists w1].
    destruct (pool_free_ok k w1 _ x Hk Hi1) as (v & Hv & Hi2). change (pw (set_pls w1 P)) with (pw w1). rewrite Hv. cbn [bind on_pw]. by exists (set_pw w1 v). }
  destruct H2 as (w2 & -> & Hi2 & Hp2). cbn [bind].
  destruct (free_data_frame k w2 (lost ++ g) P p l' Hk Hi2 ltac:(apply lookup_insert_eq)) as (w3 & -> & Hi3 & Hp3 & _). cbn [bind].
  exists w3, lost. split; [|done]. do 3 f_equal. rewrite pls_set. unfold P. rewrite insert_insert_eq, delete_insert_eq, <- Hp2, <- Hp3. by destruct w3.
Qed.

Lemma policy_clone_spdata_ok k w g p l :
  k + 1 < 2 ^ 31 -> pinv k w g -> pw_pls w !! p = Some l ->
  exists v, policy_clone_spdata w (Some p) = Ok (set_pw w v, pd_spdata (pl_data l)) /\ pinv (k + 1) (set_pw w v) (oref RPData (pd_spdata (pl_data l)) ++ g).
Proof.
  intros Hk Hi Hp. unfold policy_clone_spdata, get_pl. rewrite Hp. cbn [deref bind]. destruct (pd_spdata (pl_data l)) as [x|] eqn:Hx.
  - destruct (pdata_clone_ok k w g x Hk Hi) as (v & -> & Hi').
    { unfold total. pose proof (msum_elem pl_out (pw_pls w) p l (RPData, x) Hp) as H. lapply H; [lia|]. unfold pl_out. rewrite Hx. set_solver. }
    cbn [bind on_pw]. by exists v.
  - exists (pw w). split; [by destruct w|]. eapply pinv_mono; [|by destruct w]. lia.
Qed.

Lemma policy_clone_ltndata_ok k w g p l :
  k + 1 < 2 ^ 31 -> pinv k w g -> pw_pls w !! p = Some l ->
  exists h, policy_clone_ltndata w (Some p) = Ok (set_ltds w h, pd_ltndata (pl_data l)) /\ pinv (k + 1) (set_ltds w h) (oref RLtd (pd_ltndata (pl_data l)) ++ g).
Proof.
  intros Hk Hi Hp. unfold policy_clone_ltndata, get_pl. rewrite Hp. cbn [deref bind]. destruct (pd_ltndata (pl_data l)) as [x|] eqn:Hx.
  - destruct (listener_clone_data_ok k w g x Hk Hi) as (l' & -> & Hi').
    { unfold total. pose proof (msum_elem pl_out (pw_pls w) p l (RLtd, x) Hp) as H. lapply H; [lia|]. unfold pl_out. rewrite Hx. set_solver. }
    by eexists.
  - exists (pw_ltds w). split; [by destruct w|]. eapply pinv_mono; [|by destruct w]. lia.
Qed.

(** Both kinds of running data are made; the policy had none. *)
Lemma policy_init_data_ok k w g p l ltn sp :
  0 <= k -> k + 257 < 2 ^ 31 -> pinv k w g -> pw_pls w !! p = Some l -> pc_listener (pl_cfg l) = Some ltn -> pc_svrpool (pl_cfg l) = Some sp ->
  pl_data l = {| pd_ltndata := None; pd_spdata := None |} -> pool_fit (pw w) sp ->
  exists w' v ltd spd, policy_init_data w (Some p) = Ok (w', 0) /\ pinv (k + 257) w' g /\ pw_pls w' = <[p := pl_set_data l (Some ltd) (Some spd)]> (pw_pls w) /\
    pw_ltns w' = pw_ltns w /\ pw_certs w' = pw_certs w /\ svrpool_alloc_data (pw w) (Some sp) = Ok (v, Some spd) /\ w_heap (pw w') = w_heap v.
Proof.
  intros Hk0 Hk Hi Hp Hltn Hsp Hd Hfit. unfold policy_init_data, get_pl. rewrite Hp. cbn [deref bind]. rewrite Hltn, Hsp.
  destruct (pdata_alloc_ok k w g sp Hk0 Hk Hi Hfit) as (v & spd & Hv & Hi1). rewrite Hv. cbn [bind on_pw].
  change (pw_pls (set_pw w v)) with (pw_pls w). rewrite Hp. cbn [deref bind]. rewrite Hd. cbn [pd_ltndata].
  set (l1 := pl_set_data l None (Some spd)).
  assert (Hi2 : pinv (k + 257) (put_pl (set_pw w v) p l1) g).
  { eapply pinv_put_pl; [exact Hi1|exact Hp|done|]. intros r. rewrite cnt_cons. unfold pl_out. rewrite Hd. simpl. rewrite !cnt_app, cnt_cons, !cnt_nil. lia. }
  destruct (listener_alloc_data_ok (k + 257) (put_pl (set_pw w v) p l1) g ltn) as (v' & ltd & ld & Hl & Hh & Hi3); [lia|exact Hi2| |].
  { unfold total. pose proof (msum_elem pl_out (pw_pls (put_pl (set_pw w v) p l1)) p l1 (RLtn, ltn) ltac:(apply lookup_insert_eq)) as H.
    lapply H; [lia|]. unfold pl_out. simpl. rewrite Hltn. set_solver. }
  rewrite Hl. cbn [bind]. change (pw_pls (put_ltd (set_pw (put_pl (set_pw w v) p l1) v') ltd ld)) with (<[p := l1]> (pw_pls w)).
  rewrite lookup_insert_eq. cbn [deref bind].
  eexists _, v, ltd, spd. split; [done|]. split_and!; [|simpl; by rewrite insert_insert_eq|done|done|done|exact Hh].
  eapply pinv_put_pl; [exact Hi3|apply lookup_insert_eq|done|]. intros r. rewrite cnt_cons. unfold pl_out. simpl. rewrite !cnt_app, !cnt_cons, !cnt_nil. lia.
Qed.

(** ** Sessions *)
Definition ss_out (s : session_ref) : list rf := oref RPl (ss_policy s) ++ oref RData (ss_svrdata s).

(** The chosen server is one of the pool's servers, held by the session; without
    running data, or if no server has the address, nothing changes. *)
Lemma session_get_server_ok k w g p l local ssl :
  0 <= k -> k + 2 < 2 ^ 31 -> pinv k w g -> pw_pls w !! p = Some l ->
  exists w' s' peer rc, session_get_server w {| ss_policy := Some p; ss_svrdata := None |} local ssl = Ok (w', s', peer, rc) /\
    pinv (k + 2) w' (oref RData (ss_svrdata s') ++ g) /\ ss_policy s' = Some p /\ (is_Some peer <-> is_Some (ss_svrdata s')) /\ pw_pls w' = pw_pls w.
Proof.
  intros Hk0 Hk Hi Hp. unfold session_get_server. cbn [ss_policy].
  destruct (policy_clone_spdata_ok k w g p l ltac:(lia) Hi Hp) as (v & -> & Hi1). cbn [bind].
  destruct (pd_spdata (pl_data l)) as [x|]; cbn [oref app] in Hi1.
  2: { eexists _, _, None, (-1). split; [done|]. split_and!; [eapply pinv_mono; [|exact Hi1]; lia|done|simpl; by split; intros [? ?]|done]. }
  unfold get_pl. change (pw_pls (set_pw w v)) with (pw_pls w). rewrite Hp. cbn [deref bind].
  assert (Hget : exists v1 r, (if pc_mode (pl_cfg l) =? PL_MODE_REVERSE then on_pw (set_pw w v) (svrpool_get_rp_server (pw (set_pw w v)) (Some x))
      else on_pw (set_pw w v) (svrpool_get_tp_server (pw (set_pw w v)) (Some x) (Some local))) = Ok (set_pw w v1, r) /\
      pinv (k + 2) (set_pw w v1) (oref RData r ++ (RPData, x) :: g)).
  { destruct (_ =? _).
    - destruct (get_rp_gain (k + 1) (set_pw w v) ((RPData, x) :: g) x) as (v1 & d & -> & Hi2); [lia|done|apply held; by left|].
      exists v1, (Some d). split; [done|]. by replace (k + 2) with (k + 1 + 1) by lia.
    - destruct (get_tp_gain (k + 1) (set_pw w v) ((RPData, x) :: g) x local) as (v1 & d & -> & Hi2); [lia|done|apply held; by left|].
      exists v1, d. split; [done|]. by replace (k + 2) with (k + 1 + 1) by lia. }
  destruct Hget as (v1 & r & -> & Hi2). cbn [bind]. rewrite <- Permutation_middle in Hi2.
  destruct (pdata_free_ok (k + 2) (set_pw w v1) (oref RData r ++ g) x ltac:(lia) Hi2) as (v2 & Hv2 & Hi3 & _). rewrite Hv2. cbn [bind on_pw].
  destruct r as [d|]; [|eexists _, _, None, (-1); split; [done|]; split_and!; [exact Hi3|done|simpl; by split; intros [? ?]|done]].
  change (set_pw (set_pw w v1) v2) with (set_pw w v2) in *. change (pw (set_pw w v2)) with v2.
  pose proof (hi_kind _ _ _ RData KData d Hi3 eq_refl ltac:(apply held; by left)) as Hkd. change (pw (set_pw w v2)) with v2 in Hkd.
  destruct (kind_data _ _ Hkd) as (dd & Hdd). rewrite (proj2 (get_data_Ok v2 d dd) Hdd). cbn [bind].
  destruct (sp_all _ _ _ Hi3) as (own & Hw & _). change (pw (set_pw w v2)) with v2 in Hw.
  pose proof (inv_wf _ _ _ _ (proj1 Hw) d _ ltac:(apply not_elem_of_nil) Hdd) as [q Hq]. rewrite Hq.
  destruct (kind_server _ q (inv_typed _ _ _ _ (proj1 Hw) d _ q Hdd ltac:(simpl; rewrite Hq; by left))) as (sv & Hsv).
  rewrite (proj2 (get_server_Ok v2 q sv) Hsv). cbn [bind].
  destruct (_ && _); (eexists _, _, (Some _), _; split; [done|]; split_and!; [exact Hi3|done|simpl; by split; eauto|done]).
Qed.

Lemma session_release_ok k w g p sd :
  k < 2 ^ 31 -> pinv k w ((RPl, p) :: oref RData sd ++ g) ->
  exists w' lost, session_release w {| ss_policy := Some p; ss_svrdata := sd |} = Ok w' /\ pinv k w' (lost ++ g) /\ Forall (fun r => r.1 = RCert) lost.
Proof.
  intros Hk Hi. unfold session_release. cbn [ss_policy ss_svrdata]. destruct (policy_free_ok k w _ p Hk Hi) as (w1 & lost & -> & Hi1 & Hlost). cbn [bind].
  destruct sd as [d|]; [|by exists w1, lost]. simpl in Hi1. rewrite <- Permutation_middle in Hi1.
  destruct (data_free_ok k w1 _ d Hk Hi1) as (v & Hv & Hi2). rewrite Hv. cbn [bind on_pw]. by exists (set_pw w1 v), lost.
Qed.

(** ** Releasing a certificate set *)
Lemma free_cas_ok k w g C l :
  pinv k w ((pair RCa <$> l) ++ g) ->
  exists w', free_cas (set_certs w C) l = Ok (set_certs w' C) /\ pinv k w' g /\ pw_certs w' = pw_certs w.
Proof.
  revert w. induction l as [|x l IH]; intros w Hi; cbn [free_cas]; [by exists w|]. simpl in Hi.
  destruct (counted_live _ _ _ _ x (hi_ca _ _ _ Hi)) as (f & Hf & _); [apply held; by left|].
  unfold cacert_free. change (pw_cas (set_certs w C)) with (pw_cas w). rewrite Hf. cbn [deref bind].
  change (set_cas (set_certs w C) (delete x (pw_cas w))) with (set_certs (set_cas w (delete x (pw_cas w))) C).
  destruct (IH (set_cas w (delete x (pw_cas w)))) as (w' & -> & Hi' & Hc); [|by exists w'].
  eapply hinv_set_cas; [exact Hi|lia| | |].
  - intros r Hr. rewrite total_cons. unfold total. simpl. count.
  - eapply (counted_gone (fun _ => 0)); [apply (hi_ca _ _ _ Hi)|done|done|]. intros y. by rewrite total_cons.
  - apply below_delete. eauto.
Qed.

Lemma certset_free_ok k w g p :
  k < 2 ^ 31 -> pinv k w ((RCert, p) :: g) -> exists w', certset_free w (Some p) = Ok (w', 0) /\ pinv k w' g.
Proof.
  intros Hk Hi. destruct (counted_live _ _ _ _ p (hi_cert _ _ _ Hi)) as (c & Hc & Hr); [apply held; by left|].
  unfold certset_free, get_cert. rewrite Hc. cbn [deref bind]. rewrite s32_small by lia. set (c' := cert_ref c (ct_refcnt c - 1)).
  destruct (Z.eqb_spec (ct_refcnt c) 0) as [E|E].
  - set (gw := set_certs w (delete p (pw_certs w))). set (C := <[p := c']> (pw_certs w)).
    assert (Hg : pinv k gw (ct_out c ++ g)).
    { assert (HR : forall r, total gw (ct_out c ++ g) r = total w g r).
      { intros r. unfold total. simpl. rewrite cnt_app, (msum_delete ct_out (pw_certs w) p c r Hc). lia. }
      eapply hinv_ext; [|exact HR]. eapply hinv_set_certs; [exact Hi|lia| | |].
      - intros r Hr'. rewrite total_cons. count.
      - eapply (counted_gone ct_refcnt); [apply (hi_cert _ _ _ Hi)|done|done|]. intros y. by rewrite total_cons.
      - apply below_delete. eauto. }
    change (put_cert w p c') with (set_certs gw C). unfold ct_out in Hg. rewrite fmap_app, <- app_assoc in Hg.
    destruct (free_cas_ok k gw _ C (ct_intcalist c) Hg) as (w1 & -> & Hi1 & Hc1). cbn [bind].
    destruct (free_cas_ok k w1 _ C (ct_calist c) Hi1) as (w2 & -> & Hi2 & Hc2). cbn [bind].
    exists w2. split; [|done]. do 3 f_equal. change (pw_certs (set_certs w2 C)) with C. unfold C. rewrite delete_insert_eq.
    change (delete p (pw_certs w)) with (pw_certs gw). rewrite <- Hc1, <- Hc2. by destruct w2.
  - exists (put_cert w p c'). split; [done|].
    assert (HR : forall r, total (put_cert w p c') g r = total w g r).
    { intros r. pose proof (total_put_cert w p c c' g r Hc) as H. unfold c' in *. rewrite ct_out_ref in H. lia. }
    eapply hinv_ext; [|exact HR]. eapply hinv_set_certs; [exact Hi|lia| | |].
    + intros r Hr'. rewrite total_cons. count.
    + eapply (counted_dec ct_refcnt); [apply (hi_cert _ _ _ Hi)|exact Hc|done|done|]. intros y. by rewrite total_cons.
    + eapply below_insert; [|eauto]. eapply below_live; [|exact Hc]. eauto.
Qed.
End PolicyOps.
