(* ===== verification/Proxy.v ===== *)
(** * The proxy object, its lists, and the policy commands of the workers

    Model of src/code/network/proxy/tproxy/proxy.c, of the listening descriptors
    of utils/listener.c (listener_alloc_fd, listener_free_fd, listener_accept),
    and of the command queue of tproxy/worker.c.  The lists of the proxy and of
    the workers are the sequences their cblists hold.  Of a session the model
    keeps what is counted (Policy.v); its data path is in Conn.v.  The blocks of
    commands and of listening descriptors belong to one list each, so only their
    allocation is modelled. *)
From S2P Require Import Prelude CLib IpAddr SvrPool Policy.

Module Proxy.
Import IpAddr SvrPool Policy.

Definition MAX_WORKER : Z := 64.
Definition MAX_CERTSET : Z := 128.
Definition MAX_LISTENER : Z := 128.
Definition MAX_POLICY : Z := 128.
Definition MAX_SVRPOOL : Z := 128.

(** ** Data *)
Record proxy_cfg_t : Type := {
  nworker : Z; nice : Z; naccept : Z; use_splice : Z; use_nbsplice : Z; bind_cpu : Z; bind_cpu_algo : Z; bind_cpu_ht : Z;
  maxconn : Z; debug : Z; flow : Z; http : Z; timestamp : Z }.

Record proxy_t : Type := {
  py_cfg : proxy_cfg_t; py_maxfd : Z;
  py_certlist : list positive; py_ncert : Z;
  py_ltnlist : list positive; py_nlistener : Z;
  py_splist : list positive; py_nsvrpool : Z;
  py_pllist : list positive; py_npolicy : Z }.

Record listener_fd_t : Type := { lfd_fd : Z; lfd_policy : option positive; lfd_ssnlist : list session_ref }.

(** worker_cmd_e *)
Definition WORKER_CMD_ADD_POLICY : Z := 0.
Definition WORKER_CMD_DEL_POLICY : Z := 1.
Record worker_cmd_t : Type := { wc_cmd : Z; wc_arg : option positive }.

(** [wk_delayed] are the sessions whose release waits for a queued task. *)
Record worker_t : Type := {
  wk_lfdlist : list listener_fd_t; wk_cmdlist : list worker_cmd_t; wk_ncmd : Z; wk_delayed : list session_ref }.

(** ** proxy.c: allocation and release *)
Definition proxy_alloc (w : pworld) : pworld * option proxy_t :=
  let (w, p) := new_block w in
  match p with
  | None => (w, None)
  | Some _ =>
      (w, Some {| py_cfg := {| nworker := 1; nice := 0; naccept := 1; use_splice := 0; use_nbsplice := 0; bind_cpu := 0; bind_cpu_algo := 0;
                               bind_cpu_ht := 0; maxconn := 0; debug := 0; flow := 0; http := 0; timestamp := 0 |};
                  py_maxfd := 0; py_certlist := []; py_ncert := 0; py_ltnlist := []; py_nlistener := 0; py_splist := []; py_nsvrpool := 0;
                  py_pllist := []; py_npolicy := 0 |})
  end.

(** CBLIST_FOR_EACH_SAFE with CBLIST_DEL: every element is released. *)
Fixpoint free_listeners (w : pworld) (l : list positive) : res pworld :=
  match l with [] => Ok w | x :: l => do (w, _) <- listener_free w (Some x); free_listeners w l end.
Fixpoint free_svrpools (w : pworld) (l : list positive) : res pworld :=
  match l with [] => Ok w | x :: l => do (w, _) <- on_pw w (svrpool_free (pw w) (Some x)); free_svrpools w l end.
Fixpoint free_policies (w : pworld) (l : list positive) : res pworld :=
  match l with [] => Ok w | x :: l => do (w, _) <- policy_free w (Some x); free_policies w l end.

(** The certificate sets are not released. *)
Definition proxy_free (w : pworld) (py : option proxy_t) : res (pworld * Z) :=
  match py with
  | None => Ok (w, -1)
  | Some py =>
      do w <- free_listeners w (py_ltnlist py);
      do w <- free_svrpools w (py_splist py);
      do w <- free_policies w (py_pllist py);
      Ok (w, 0)
  end.

(** ** proxy.c: the lists *)
Definition set_py_cfg (py : proxy_t) (c : proxy_cfg_t) : proxy_t :=
  {| py_cfg := c; py_maxfd := py_maxfd py; py_certlist := py_certlist py; py_ncert := py_ncert py; py_ltnlist := py_ltnlist py;
     py_nlistener := py_nlistener py; py_splist := py_splist py; py_nsvrpool := py_nsvrpool py; py_pllist := py_pllist py; py_npolicy := py_npolicy py |}.

Definition proxy_add_certset (py : proxy_t) (cert : positive) : proxy_t * Z :=
  if MAX_CERTSET <? py_ncert py then (py, -1)
  else ({| py_cfg := py_cfg py; py_maxfd := py_maxfd py; py_certlist := py_certlist py ++ [cert]; py_ncert := py_ncert py + 1;
           py_ltnlist := py_ltnlist py; py_nlistener := py_nlistener py; py_splist := py_splist py; py_nsvrpool := py_nsvrpool py;
           py_pllist := py_pllist py; py_npolicy := py_npolicy py |}, 0).
Definition proxy_add_listener (py : proxy_t) (ltn : positive) : proxy_t * Z :=
  if MAX_LISTENER <? py_nlistener py then (py, -1)
  else ({| py_cfg := py_cfg py; py_maxfd := py_maxfd py; py_certlist := py_certlist py; py_ncert := py_ncert py;
           py_ltnlist := py_ltnlist py ++ [ltn]; py_nlistener := py_nlistener py + 1; py_splist := py_splist py; py_nsvrpool := py_nsvrpool py;
           py_pllist := py_pllist py; py_npolicy := py_npolicy py |}, 0).
Definition proxy_add_svrpool (py : proxy_t) (sp : positive) : proxy_t * Z :=
  if MAX_SVRPOOL <? py_nsvrpool py then (py, -1)
  else ({| py_cfg := py_cfg py; py_maxfd := py_maxfd py; py_certlist := py_certlist py; py_ncert := py_ncert py;
           py_ltnlist := py_ltnlist py; py_nlistener := py_nlistener py; py_splist := py_splist py ++ [sp]; py_nsvrpool := py_nsvrpool py + 1;
           py_pllist := py_pllist py; py_npolicy := py_npolicy py |}, 0).
Definition proxy_add_policy (py : proxy_t) (pl : positive) : proxy_t * Z :=
  if MAX_POLICY <? py_npolicy py then (py, -1)
  else ({| py_cfg := py_cfg py; py_maxfd := py_maxfd py; py_certlist := py_certlist py; py_ncert := py_ncert py;
           py_ltnlist := py_ltnlist py; py_nlistener := py_nlistener py; py_splist := py_splist py; py_nsvrpool := py_nsvrpool py;
           py_pllist := py_pllist py ++ [pl]; py_npolicy := py_npolicy py + 1 |}, 0).

(** strcmp(a, b) == 0 *)
Definition streq (a b : cstr) : bool := bool_decide (a = b).

(** The search loops, over the names of the objects: one stops at the first
    object of the name, the other goes on and keeps the last. *)
Fixpoint find_stop (name_of : positive -> res cstr) (l : list positive) (name : cstr) : res (option positive) :=
  match l with
  | [] => Ok None
  | x :: l => do n <- name_of x; if streq n name then Ok (Some x) else find_stop name_of l name
  end.
Fixpoint find_all (name_of : positive -> res cstr) (l : list positive) (name : cstr) (r : option positive) : res (option positive) :=
  match l with
  | [] => Ok r
  | x :: l => do n <- name_of x; find_all name_of l name (if streq n name then Some x else r)
  end.

Definition cert_name (w : pworld) (x : positive) : res cstr := do c <- get_cert w x; Ok (ct_name c).
Definition ltn_name (w : pworld) (x : positive) : res cstr := do c <- get_ltn w x; Ok (lc_name (lt_cfg c)).
Definition sp_name (w : pworld) (x : positive) : res cstr := do c <- get_pool (pw w) x; Ok (spc_name (sp_cfg c)).
Definition pl_name (w : pworld) (x : positive) : res cstr := do c <- get_pl w x; Ok (pc_name (pl_cfg c)).

Definition proxy_find_certset (w : pworld) (py : proxy_t) (name : cstr) : res (option positive) := find_stop (cert_name w) (py_certlist py) name.
Definition proxy_find_listener (w : pworld) (py : proxy_t) (name : cstr) : res (option positive) := find_all (ltn_name w) (py_ltnlist py) name None.
Definition proxy_find_svrpool (w : pworld) (py : proxy_t) (name : cstr) : res (option positive) := find_all (sp_name w) (py_splist py) name None.
Definition proxy_find_policy (w : pworld) (py : proxy_t) (name : cstr) : res (option positive) := find_all (pl_name w) (py_pllist py) name None.

(** ** proxy.c: running data *)

(** CBLIST_FOR_EACH with policy_init_data: the first failure ends it. *)
Fixpoint init_policies (w : pworld) (l : list positive) : res (pworld * Z) :=
  match l with
  | [] => Ok (w, 0)
  | x :: l => do (w, rc) <- policy_init_data w (Some x); if negb (rc =? 0) then do _ <- get_pl w x; Ok (w, -1) else init_policies w l
  end.

(** [rlim] is the result of setrlimit. *)
Definition py_init_data (w : pworld) (py : proxy_t) (rlim : Z) : res (pworld * proxy_t * Z) :=
  let maxfd := s32 (maxconn (py_cfg py) * 2 + 100) in
  let py := {| py_cfg := py_cfg py; py_maxfd := maxfd; py_certlist := py_certlist py; py_ncert := py_ncert py; py_ltnlist := py_ltnlist py;
               py_nlistener := py_nlistener py; py_splist := py_splist py; py_nsvrpool := py_nsvrpool py; py_pllist := py_pllist py;
               py_npolicy := py_npolicy py |} in
  if (1024 <? maxfd) && negb (rlim =? 0) then Ok (w, py, -1) else
  do (w, rc) <- init_policies w (py_pllist py); Ok (w, py, rc).

Fixpoint free_policy_datas (w : pworld) (l : list positive) : res pworld :=
  match l with [] => Ok w | x :: l => do (w, _) <- policy_free_data w (Some x); free_policy_datas w l end.
Definition py_free_data (w : pworld) (py : proxy_t) : res (pworld * Z) := do w <- free_policy_datas w (py_pllist py); Ok (w, 0).

(** ** worker.c: commands *)
Definition worker_add_cmd (wk : option worker_t) (cmd : worker_cmd_t) : option worker_t * Z :=
  match wk with
  | None => (None, -1)
  | Some k => (Some {| wk_lfdlist := wk_lfdlist k; wk_cmdlist := wk_cmdlist k ++ [cmd]; wk_ncmd := wk_ncmd k + 1; wk_delayed := wk_delayed k |}, 0)
  end.

(** _py_loop: one command per policy and worker, each with a reference. *)
Fixpoint add_to_workers (n : nat) (i : nat) (w : pworld) (wks : list (option worker_t)) (pl : positive) : res (pworld * list (option worker_t) * Z) :=
  match n with
  | O => Ok (w, wks, 0)
  | S n =>
      let (w, cmd) := new_block w in
      match cmd with
      | None => Ok (w, wks, -1)
      | Some _ =>
          do (w, arg) <- policy_clone w (Some pl);
          do wk <- arr_get wks (Z.of_nat i);
          let (wk, rc) := worker_add_cmd wk {| wc_cmd := WORKER_CMD_ADD_POLICY; wc_arg := arg |} in
          if negb (rc =? 0) then do (w, _) <- policy_free w (Some pl); Ok (w, wks, -1)
          else do wks <- arr_set wks (Z.of_nat i) wk; add_to_workers n (S i) w wks pl
      end
  end.

Fixpoint py_loop_add (w : pworld) (wks : list (option worker_t)) (nworker : Z) (l : list positive) : res (pworld * list (option worker_t) * Z) :=
  match l with
  | [] => Ok (w, wks, 0)
  | pl :: l =>
      do p <- get_pl w pl;
      assert! bool_decide (is_Some (pc_listener (pl_cfg p)));
      assert! bool_decide (is_Some (pc_svrpool (pl_cfg p)));
      do (w, wks, rc) <- add_to_workers (Z.to_nat nworker) 0 w wks pl;
      if negb (rc =? 0) then Ok (w, wks, -1) else py_loop_add w wks nworker l
  end.
Definition py_loop (w : pworld) (wks : list (option worker_t)) (py : proxy_t) : res (pworld * list (option worker_t) * Z) :=
  py_loop_add w wks (nworker (py_cfg py)) (py_pllist py).

(** ** listener.c: listening descriptors *)

(** The answers of the system to one _worker_add_policy: the descriptor of
    sk_tcp_server, whether fd_epoll_map has an item for it, and the result of
    fd_epoll_add_event. *)
Record answers : Type := { an_fd : Z; an_map : bool; an_event : Z }.

Definition listener_alloc_fd (w : pworld) (ltn : option positive) (a : answers) : res (pworld * option listener_fd_t) :=
  match ltn with
  | None => Ok (w, None)
  | Some l =>
      let (w, p) := new_block w in
      match p with
      | None => Ok (w, None)
      | Some _ =>
          do _ <- get_ltn w l;
          if an_fd a <? 0 then Ok (w, None) else Ok (w, Some {| lfd_fd := an_fd a; lfd_policy := None; lfd_ssnlist := [] |})
      end
  end.

(** [busy] says of each session whether a task of its second connection is
    queued: session_free then leaves the rest to that task. *)
Fixpoint free_sessions (w : pworld) (l : list session_ref) (busy : list bool) : res (pworld * list session_ref) :=
  match l with
  | [] => Ok (w, [])
  | s :: l =>
      match busy with
      | true :: busy => do (w, d) <- free_sessions w l busy; Ok (w, s :: d)
      | _ => do w <- session_release w s; free_sessions w l (tail busy)
      end
  end.

Definition listener_free_fd (w : pworld) (lfd : listener_fd_t) (busy : list bool) : res (pworld * list session_ref) :=
  do (w, d) <- free_sessions w (lfd_ssnlist lfd) busy;
  match lfd_policy lfd with
  | Some pl => do (w, _) <- policy_free w (Some pl); Ok (w, d)
  | None => Ok (w, d)
  end.

(** The accepted client of listener_accept; the rest of _ltn_accept is in Worker.v.
    [n] clients are accepted. *)
Fixpoint accept_sessions (n : nat) (w : pworld) (pl : option positive) (l : list session_ref) : res (pworld * list session_ref) :=
  match n with
  | O => Ok (w, l)
  | S n => do (w, p) <- policy_clone w pl; accept_sessions n w pl (l ++ [{| ss_policy := p; ss_svrdata := None |}])
  end.

Definition listener_accept (w : pworld) (lfd : listener_fd_t) (n : nat) : res (pworld * listener_fd_t) :=
  match lfd_policy lfd with
  | None => Fault AssertFailed
  | Some pl =>
      do (w, ltd) <- policy_clone_ltndata w (Some pl);
      do (w, l) <- (if bool_decide (ltd = None) && (0 <? n)%nat then Fault NullDeref   (* ltndata->sslctx *)
                    else accept_sessions n w (lfd_policy lfd) (lfd_ssnlist lfd));
      do (w, _) <- listener_free_data w ltd;
      Ok (w, {| lfd_fd := lfd_fd lfd; lfd_policy := lfd_policy lfd; lfd_ssnlist := l |})
  end.

(** ** worker.c: running commands *)
Definition set_lfdlist (k : worker_t) (l : list listener_fd_t) : worker_t :=
  {| wk_lfdlist := l; wk_cmdlist := wk_cmdlist k; wk_ncmd := wk_ncmd k; wk_delayed := wk_delayed k |}.
Definition add_delayed (k : worker_t) (l : list session_ref) : worker_t :=
  {| wk_lfdlist := wk_lfdlist k; wk_cmdlist := wk_cmdlist k; wk_ncmd := wk_ncmd k; wk_delayed := wk_delayed k ++ l |}.

Definition worker_add_policy (w : pworld) (k : worker_t) (pl : option positive) (a : answers) : res (pworld * worker_t * Z) :=
  match pl with
  | None => Fault AssertFailed
  | Some p =>
      do l <- get_pl w p;
      match pc_listener (pl_cfg l) with
      | None => Fault AssertFailed
      | Some ltn =>
          do (w, lfd) <- listener_alloc_fd w (Some ltn) a;
          match lfd with
          | None => Ok (w, k, -1)
          | Some lfd =>
              let lfd := {| lfd_fd := lfd_fd lfd; lfd_policy := pl; lfd_ssnlist := lfd_ssnlist lfd |} in
              assert! an_map a;
              if negb (an_event a =? 0) then
                do (w, d) <- listener_free_fd w lfd [];
                Ok (w, add_delayed k d, -1)
              else Ok (w, set_lfdlist k (wk_lfdlist k ++ [lfd]), 0)
          end
      end
  end.

(** The first listening descriptor of the policy, and the others. *)
Fixpoint take_lfd (l : list listener_fd_t) (pl : positive) : option (listener_fd_t * list listener_fd_t) :=
  match l with
  | [] => None
  | x :: l =>
      if bool_decide (lfd_policy x = Some pl) then Some (x, l)
      else match take_lfd l pl with Some (y, l) => Some (y, x :: l) | None => None end
  end.

Definition worker_del_policy (w : pworld) (k : worker_t) (pl : option positive) (busy : list bool) : res (pworld * worker_t * Z) :=
  match pl with
  | None => Fault AssertFailed
  | Some p =>
      do _ <- get_pl w p;
      let r := take_lfd (wk_lfdlist k) p in
      do (w, _) <- policy_free w (Some p);
      match r with
      | None => do _ <- get_pl w p; Ok (w, k, -1)     (* the message names the policy *)
      | Some (lfd, rest) =>
          do (w, d) <- listener_free_fd w lfd busy;
          Ok (w, add_delayed (set_lfdlist k rest) d, 0)
      end
  end.

(** The result of a command is not looked at; the message about an unknown one
    reads it after it was freed. *)
Definition worker_run_cmd (w : pworld) (k : worker_t) (cmd : worker_cmd_t) (a : answers) (busy : list bool) : res (pworld * worker_t * Z) :=
  if wc_cmd cmd =? WORKER_CMD_ADD_POLICY then do (w, k, _) <- worker_add_policy w k (wc_arg cmd) a; Ok (w, k, 0)
  else if wc_cmd cmd =? WORKER_CMD_DEL_POLICY then do (w, k, _) <- worker_del_policy w k (wc_arg cmd) busy; Ok (w, k, 0)
  else Fault UseAfterFree.

Fixpoint run_cmds (w : pworld) (k : worker_t) (l : list worker_cmd_t) (env : nat -> answers * list bool) (i : nat) : res (pworld * worker_t) :=
  match l with
  | [] => Ok (w, k)
  | c :: l => do (w, k, _) <- worker_run_cmd w k c (env i).1 (env i).2; run_cmds w k l env (S i)
  end.

(** The commands are taken out under the lock, then run. *)
Definition worker_get_cmd (w : pworld) (k : worker_t) (env : nat -> answers * list bool) : res (pworld * worker_t) :=
  if 0 <? wk_ncmd k then
    run_cmds w {| wk_lfdlist := wk_lfdlist k; wk_cmdlist := []; wk_ncmd := 0; wk_delayed := wk_delayed k |} (wk_cmdlist k) env 0
  else Ok (w, k).

(** _worker_free; sessions that wait for a task are not released. *)
Fixpoint free_lfds (w : pworld) (l : list listener_fd_t) (busy : nat -> list bool) (i : nat) : res (pworld * list session_ref) :=
  match l with
  | [] => Ok (w, [])
  | x :: l =>
      do (w, d) <- listener_free_fd w x (busy i);
      do (w, d') <- free_lfds w l busy (S i);
      Ok (w, d ++ d')
  end.
Definition worker_free (w : pworld) (k : worker_t) (busy : nat -> list bool) : res (pworld * worker_t) :=
  do (w, d) <- free_lfds w (wk_lfdlist k) busy 0; Ok (w, add_delayed (set_lfdlist k []) d).
End Proxy.
