(* ===== verification/ProxyConfig.v ===== *)
(** * proxy_config.c: reading the configuration file

    Model of src/code/network/proxy/utils/proxy_config.c: the line loop with
    fgets and strtok_r, the five sections, and the checks when a section ends.
    A function that returns an int returns the new state and the int (0, or -1
    with a message); [junk] is the content of the uninitialised local variable
    that ip_port_from_str fills. *)
From Stdlib Require Import String.
From S2P Require Import Prelude CLib IpAddr SvrPool Policy Proxy.

Module ProxyConfig.
Import IpAddr SvrPool Policy Proxy.

(** cfg_section_e with the pointer of cfg_pctx_t, which each section gives its type. *)
Inductive cfg_section : Type :=
  | CFG_PROXY
  | CFG_CERTSET (cert : positive)
  | CFG_LISTENER (ltn : positive)
  | CFG_SVRPOOL (sp : positive)
  | CFG_POLICY (pl : positive).
#[global] Instance cfg_section_eq_dec : EqDecision cfg_section.
Proof. solve_decision. Defined.
Record cfg_pctx_t : Type := { px_section : cfg_section; px_lineno : Z }.

Definition cfg_atoi (s : cstr) : Z :=
  let ptr := match s with 45 :: t | 43 :: t => t | _ => s end in
  if forallb isdigit ptr then atoi s else -1.

(** ** Checks of a finished section *)
Definition cfg_check_certset (w : pworld) (p : positive) : res Z :=
  do c <- get_cert w p;
  match ct_name c with
  | [] => Ok (-1)
  | _ =>
      if c_type (ct_cert c) =? CERT_X509 then
        match c_file (ct_cert c), c_pkey (ct_cert c) with
        | [], _ => Ok (-1)
        | _, [] => Ok (-1)
        | _, _ => Ok 0
        end
      else if c_type (ct_cert c) =? CERT_PKCS12 then
        match c_file (ct_cert c) with [] => Ok (-1) | _ => Ok 0 end
      else Ok (-1)
  end.

Definition cfg_check_listener (w : pworld) (p : positive) : res Z :=
  do l <- get_ltn w p;
  match lc_name (lt_cfg l) with
  | [] => Ok (-1)
  | _ =>
      if ip_family (ipp_ip (lc_address (lt_cfg l))) =? 0 then Ok (-1)
      else if lc_ssl (lt_cfg l) then match lc_cert (lt_cfg l) with None => Ok (-1) | Some _ => Ok 0 end
      else Ok 0
  end.

Definition cfg_check_svrpool (w : pworld) (p : positive) : res Z :=
  do sp <- get_pool (pw w) p;
  match spc_name (sp_cfg sp) with
  | [] => Ok (-1)
  | _ => if sp_nserver sp <? 1 then Ok (-1) else Ok 0
  end.

Definition cfg_check_policy (w : pworld) (p : positive) : res Z :=
  do l <- get_pl w p;
  match pc_name (pl_cfg l), pc_listener (pl_cfg l), pc_svrpool (pl_cfg l) with
  | [], _, _ => Ok (-1)
  | _, None, _ => Ok (-1)
  | _, _, None => Ok (-1)
  | _, _, _ => Ok 0
  end.

Definition cfg_check_section (w : pworld) (s : cfg_section) : res Z :=
  match s with
  | CFG_PROXY => Ok 0
  | CFG_CERTSET p => cfg_check_certset w p
  | CFG_LISTENER p => cfg_check_listener w p
  | CFG_SVRPOOL p => cfg_check_svrpool w p
  | CFG_POLICY p => cfg_check_policy w p
  end.

(** ** [proxy] *)
Definition parse_range (args : list cstr) (lo hi : Z) : option Z :=
  match args with
  | [a] => let val := cfg_atoi a in if (val <? lo) || (hi <? val) then None else Some val
  | _ => None
  end.
Definition parse_word (args : list cstr) (table : list (string * Z)) : option Z :=
  match args with
  | [a] => (fix go t := match t with [] => None | (k, v) :: t => if streq a (str k) then Some v else go t end) table
  | _ => None
  end.
Definition yes_no : list (string * Z) := [("yes", 1); ("no", 0)]%string.

(** enums of thread.h *)
Definition THREAD_BIND_RR : Z := 0.
Definition THREAD_BIND_ODD : Z := 1.
Definition THREAD_BIND_EVEN : Z := 2.
Definition THREAD_HT_FULL : Z := 0.
Definition THREAD_HT_LOW : Z := 1.
Definition THREAD_HT_HIGH : Z := 2.

Definition cfg_parse_proxy (c : proxy_cfg_t) (kw : cstr) (args : list cstr) : option proxy_cfg_t :=
  let '(Build_proxy_cfg_t nw ni na us un bc ba bh mc db fl ht ts) := c in
  if streq kw (str "worker") then (fun v => Build_proxy_cfg_t v ni na us un bc ba bh mc db fl ht ts) <$> parse_range args 1 40
  else if streq kw (str "nice") then (fun v => Build_proxy_cfg_t nw v na us un bc ba bh mc db fl ht ts) <$> parse_range args (-20) 19
  else if streq kw (str "naccept") then (fun v => Build_proxy_cfg_t nw ni v us un bc ba bh mc db fl ht ts) <$> parse_range args 1 16
  else if streq kw (str "use_splice") then (fun v => Build_proxy_cfg_t nw ni na v un bc ba bh mc db fl ht ts) <$> parse_word args yes_no
  else if streq kw (str "use_nbsplice") then (fun v => Build_proxy_cfg_t nw ni na us v bc ba bh mc db fl ht ts) <$> parse_word args yes_no
  else if streq kw (str "maxconn") then (fun v => Build_proxy_cfg_t nw ni na us un bc ba bh v db fl ht ts) <$> parse_range args 1 5000000
  else if streq kw (str "bind_cpu") then (fun v => Build_proxy_cfg_t nw ni na us un v ba bh mc db fl ht ts) <$> parse_word args yes_no
  else if streq kw (str "bind_cpu_algo") then
    (fun v => Build_proxy_cfg_t nw ni na us un bc v bh mc db fl ht ts) <$>
      parse_word args [("rr", THREAD_BIND_RR); ("odd", THREAD_BIND_ODD); ("even", THREAD_BIND_EVEN)]%string
  else if streq kw (str "bind_cpu_ht") then
    (fun v => Build_proxy_cfg_t nw ni na us un bc ba v mc db fl ht ts) <$>
      parse_word args [("low", THREAD_HT_LOW); ("high", THREAD_HT_HIGH); ("full", THREAD_HT_FULL)]%string
  else if streq kw (str "debug") then (fun v => Build_proxy_cfg_t nw ni na us un bc ba bh mc v fl ht ts) <$> parse_range args 0 7
  else if streq kw (str "flow") then (fun v => Build_proxy_cfg_t nw ni na us un bc ba bh mc db v ht ts) <$> parse_range args 0 7
  else if streq kw (str "http") then (fun v => Build_proxy_cfg_t nw ni na us un bc ba bh mc db fl v ts) <$> parse_range args 0 7
  else if streq kw (str "timestamp") then (fun v => Build_proxy_cfg_t nw ni na us un bc ba bh mc db fl ht v) <$> parse_word args yes_no
  else None.

(** ** [certset] *)
Definition set_cert (c : certset_t) (x : cert_t) : certset_t :=
  {| ct_name := ct_name c; ct_domain := ct_domain c; ct_cert := x; ct_intcalist := ct_intcalist c; ct_nintca := ct_nintca c;
     ct_calist := ct_calist c; ct_nca := ct_nca c; ct_crl := ct_crl c; ct_refcnt := ct_refcnt c |}.
Definition nonempty (s : cstr) : bool := match s with [] => false | _ => true end.

Definition cfg_parse_certset (w : pworld) (py : proxy_t) (cert : positive) (kw : cstr) (args : list cstr) : res (pworld * Z) :=
  do c <- get_cert w cert;
  match args with
  | [a] =>
      if streq kw (str "name") then
        if MAX_NAME <=? Z.of_nat (length a) then Ok (w, -1)
        else if nonempty (ct_name c) then Ok (w, -1)
        else do f <- proxy_find_certset w py a;
             match f with
             | Some _ => Ok (w, -1)
             | None => do n <- strcpy MAX_NAME a;
                 Ok (put_cert w cert {| ct_name := n; ct_domain := ct_domain c; ct_cert := ct_cert c; ct_intcalist := ct_intcalist c; ct_nintca := ct_nintca c;
                                        ct_calist := ct_calist c; ct_nca := ct_nca c; ct_crl := ct_crl c; ct_refcnt := ct_refcnt c |}, 0)
             end
      else if streq kw (str "domain") then
        if MAX_NAME <=? Z.of_nat (length a) then Ok (w, -1)
        else if nonempty (ct_domain c) then Ok (w, -1)
        else do n <- strcpy MAX_NAME a;
             Ok (put_cert w cert {| ct_name := ct_name c; ct_domain := n; ct_cert := ct_cert c; ct_intcalist := ct_intcalist c; ct_nintca := ct_nintca c;
                                    ct_calist := ct_calist c; ct_nca := ct_nca c; ct_crl := ct_crl c; ct_refcnt := ct_refcnt c |}, 0)
      else if streq kw (str "certificate") then
        if c_type (ct_cert c) =? CERT_PKCS12 then Ok (w, -1)
        else if nonempty (c_file (ct_cert c)) then Ok (w, -1)
        else do n <- strcpy PATH_MAX a;
             Ok (put_cert w cert (set_cert c {| c_type := c_type (ct_cert c); c_file := n; c_pkey := c_pkey (ct_cert c) |}), 0)
      else if streq kw (str "privatekey") then
        if c_type (ct_cert c) =? CERT_PKCS12 then Ok (w, -1)
        else if nonempty (c_pkey (ct_cert c)) then Ok (w, -1)
        else do n <- strcpy PATH_MAX a;
             Ok (put_cert w cert (set_cert c {| c_type := c_type (ct_cert c); c_file := c_file (ct_cert c); c_pkey := n |}), 0)
      else if streq kw (str "pkcs12") then
        if c_type (ct_cert c) =? CERT_PKCS12 then Ok (w, -1)
        else if nonempty (c_file (ct_cert c)) then Ok (w, -1)
        else if nonempty (c_pkey (ct_cert c)) then Ok (w, -1)
        else do n <- strcpy PATH_MAX a;     (* the same bytes as x509.cert; the type stays CERT_X509 *)
             Ok (put_cert w cert (set_cert c {| c_type := c_type (ct_cert c); c_file := n; c_pkey := c_pkey (ct_cert c) |}), 0)
      else if streq kw (str "intca") then
        do (w, ca) <- cacert_alloc w (Some a);
        match ca with
        | None => Ok (w, -1)
        | Some ca =>
            do c <- get_cert w cert;
            Ok (put_cert w cert {| ct_name := ct_name c; ct_domain := ct_domain c; ct_cert := ct_cert c; ct_intcalist := ct_intcalist c ++ [ca];
                                   ct_nintca := s32 (ct_nintca c + 1); ct_calist := ct_calist c; ct_nca := ct_nca c; ct_crl := ct_crl c; ct_refcnt := ct_refcnt c |}, 0)
        end
      else if streq kw (str "ca") then
        do (w, ca) <- cacert_alloc w (Some a);
        match ca with
        | None => Ok (w, -1)
        | Some ca =>
            do c <- get_cert w cert;
            Ok (put_cert w cert {| ct_name := ct_name c; ct_domain := ct_domain c; ct_cert := ct_cert c; ct_intcalist := ct_intcalist c;
                                   ct_nintca := ct_nintca c; ct_calist := ct_calist c ++ [ca]; ct_nca := s32 (ct_nca c + 1); ct_crl := ct_crl c; ct_refcnt := ct_refcnt c |}, 0)
        end
      else if streq kw (str "crl") then
        if nonempty (ct_crl c) then Ok (w, -1)
        else do n <- strcpy PATH_MAX a;
             Ok (put_cert w cert {| ct_name := ct_name c; ct_domain := ct_domain c; ct_cert := ct_cert c; ct_intcalist := ct_intcalist c; ct_nintca := ct_nintca c;
                                    ct_calist := ct_calist c; ct_nca := ct_nca c; ct_crl := n; ct_refcnt := ct_refcnt c |}, 0)
      else Ok (w, -1)
  | _ => Ok (w, -1)
  end.

(** ** Lines and words *)
Definition LINE : Z := 1024.

(** fgets: up to LINE - 1 characters, and not beyond a newline. *)
Fixpoint fgets_loop (n : nat) (txt : list Z) : list Z * list Z :=
  match n, txt with
  | S n, c :: t => if c =? 10 then ([c], t) else let (a, b) := fgets_loop n t in (c :: a, b)
  | _, _ => ([], txt)
  end.
(** The buffer, which was cleared before the call, and what is left of the file. *)
Definition fgets (txt : list Z) : option (list Z * list Z) :=
  match txt with
  | [] => None
  | _ => let (a, b) := fgets_loop (Z.to_nat (LINE - 1)) txt in Some (a ++ replicate (Z.to_nat LINE - length a) 0, b)
  end.

(** The characters before the first NUL. *)
Fixpoint c_string (buf : list Z) : cstr :=
  match buf with [] => [] | c :: t => if c =? 0 then [] else c :: c_string t end.

(** [if (line[strlen(line) - 1] == '\n') line[strlen(line) - 1] = 0;] *)
Definition chomp (buf : list Z) : res cstr :=
  let s := c_string buf in
  let i := Z.of_nat (length s) - 1 in
  do c <- arr_get buf i;
  if c =? 10 then Ok (take (Z.to_nat i) s) else Ok s.

Definition is_delim (c : Z) : bool := (c =? 32) || (c =? 9).
Fixpoint skip_delim (s : cstr) : cstr := match s with c :: t => if is_delim c then skip_delim t else s | [] => [] end.
Fixpoint span_word (s : cstr) : cstr * cstr :=
  match s with
  | [] => ([], [])
  | c :: t => if is_delim c then ([], t) else let (a, b) := span_word t in (c :: a, b)
  end.
(** strtok_r: the next word and the saved pointer. *)
Definition strtok (s : cstr) : option (cstr * cstr) :=
  match skip_delim s with [] => None | s => Some (span_word s) end.

Definition is_comment (t : cstr) : bool := match t with c :: _ => c =? 35 | [] => false end.

(** At most [n] arguments, up to a comment. *)
Fixpoint get_args (n : nat) (s : cstr) : list cstr :=
  match n with
  | O => []
  | S n => match strtok s with
           | None => []
           | Some (t, s) => if is_comment t then [] else t :: get_args n s
           end
  end.

Section with_inet6.
Context `{Inet6} (junk : ip_port_t).

(** ip_port_from_str into the local variable: the address if it returned 0. *)
Definition read_address (a : cstr) : option ip_port_t :=
  match ip_port_from_str (Some junk) (Some a) with
  | (Some addr, rc) => if rc =? 0 then Some addr else None
  | (None, _) => None
  end.

(** ** [listener] *)
Definition set_ltn_cfg (l : listener_t) (c : listener_cfg_t) : listener_t := {| lt_cfg := c; lt_refcnt := lt_refcnt l |}.

Definition cfg_parse_listener (w : pworld) (py : proxy_t) (ltn : positive) (kw : cstr) (args : list cstr) : res (pworld * Z) :=
  do l <- get_ltn w ltn;
  let c := lt_cfg l in
  match args with
  | [a] =>
      if streq kw (str "name") then
        if MAX_NAME <=? Z.of_nat (length a) then Ok (w, -1)
        else if nonempty (lc_name c) then Ok (w, -1)
        else do f <- proxy_find_listener w py a;
             match f with
             | Some _ => Ok (w, -1)
             | None => do n <- strcpy MAX_NAME a;
                 Ok (put_ltn w ltn (set_ltn_cfg l {| lc_name := n; lc_address := lc_address c; lc_ssl := lc_ssl c; lc_cert := lc_cert c |}), 0)
             end
      else if streq kw (str "address") then
        match read_address a with
        | None => Ok (w, -1)
        | Some addr => Ok (put_ltn w ltn (set_ltn_cfg l {| lc_name := lc_name c; lc_address := addr; lc_ssl := lc_ssl c; lc_cert := lc_cert c |}), 0)
        end
      else if streq kw (str "ssl") then
        match parse_word args yes_no with
        | None => Ok (w, -1)
        | Some v => Ok (put_ltn w ltn (set_ltn_cfg l {| lc_name := lc_name c; lc_address := lc_address c; lc_ssl := negb (v =? 0); lc_cert := lc_cert c |}), 0)
        end
      else if streq kw (str "certset") then
        if PATH_MAX <=? Z.of_nat (length a) then Ok (w, -1)
        else do f <- proxy_find_certset w py a;
             match f with
             | None => Ok (w, -1)
             | Some cert =>
                 do (w, r) <- certset_clone w (Some cert);
                 do l <- get_ltn w ltn;
                 Ok (put_ltn w ltn (set_ltn_cfg l {| lc_name := lc_name c; lc_address := lc_address c; lc_ssl := lc_ssl c; lc_cert := r |}), 0)
             end
      else Ok (w, -1)
  | _ => Ok (w, -1)
  end.

(** ** [svrpool] *)
Definition SP_ALGO_RR : Z := 0.
Definition SP_ALGO_WRR : Z := 1.
Definition SP_ALGO_LC : Z := 2.
Definition SP_ALGO_HASH : Z := 3.

Definition put_pool_cfg (w : pworld) (sp : positive) (p : svrpool_t) (c : svrpool_cfg_t) : pworld :=
  set_pw w (put (pw w) sp (OPool {| sp_cfg := c; sp_svrlist := sp_svrlist p; sp_nserver := sp_nserver p; sp_refcnt := sp_refcnt p |})).

Definition cfg_parse_svrpool (w : pworld) (py : proxy_t) (sp : positive) (kw : cstr) (args : list cstr) : res (pworld * Z) :=
  do p <- get_pool (pw w) sp;
  if streq kw (str "name") then
    match args with
    | [a] =>
        if nonempty (spc_name (sp_cfg p)) then Ok (w, -1)
        else do f <- proxy_find_svrpool w py a;
             match f with
             | Some _ => Ok (w, -1)
             | None =>
                 if MAX_NAME <=? Z.of_nat (length a) then Ok (w, -1)
                 else do n <- strcpy MAX_NAME a; Ok (put_pool_cfg w sp p {| spc_name := n; spc_algo := spc_algo (sp_cfg p) |}, 0)
             end
    | _ => Ok (w, -1)
    end
  else if streq kw (str "algo") then
    match parse_word args [("rr", SP_ALGO_RR); ("wrr", SP_ALGO_WRR); ("lc", SP_ALGO_LC); ("hash", SP_ALGO_HASH)]%string with
    | None => Ok (w, -1)
    | Some v => Ok (put_pool_cfg w sp p {| spc_name := spc_name (sp_cfg p); spc_algo := v |}, 0)
    end
  else if streq kw (str "server") then
    match args with
    | [a0; a1; a2] =>
        let val := cfg_atoi a0 in
        if (val <? 1) || (100 <=? val) then Ok (w, -1)
        else match parse_word [a1] [("http", 0); ("https", 1)]%string with
             | None => Ok (w, -1)
             | Some ssl =>
                 match read_address a2 with
                 | None => Ok (w, -1)
                 | Some addr => on_pw w (cfg_add_server (pw w) sp val (negb (ssl =? 0)) addr)
                 end
             end
    | _ => Ok (w, -1)
    end
  else Ok (w, -1).

(** ** [policy] *)
Definition put_pl_cfg (w : pworld) (pl : positive) (l : policy_t) (c : policy_cfg_t) : pworld :=
  put_pl w pl {| pl_cfg := c; pl_data := pl_data l; pl_refcnt := pl_refcnt l |}.

(** Is the listener used by a policy of the list? *)
Fixpoint listener_used (w : pworld) (l : list positive) (ltn : positive) : res bool :=
  match l with
  | [] => Ok false
  | x :: l => do p <- get_pl w x; if bool_decide (pc_listener (pl_cfg p) = Some ltn) then Ok true else listener_used w l ltn
  end.

Definition cfg_parse_policy (w : pworld) (py : proxy_t) (pl : positive) (kw : cstr) (args : list cstr) : res (pworld * Z) :=
  do l <- get_pl w pl;
  let c := pl_cfg l in
  match args with
  | [a] =>
      if streq kw (str "name") then
        if MAX_NAME <=? Z.of_nat (length a) then Ok (w, -1)
        else if nonempty (pc_name c) then Ok (w, -1)
        else do f <- proxy_find_policy w py a;
             match f with
             | Some _ => Ok (w, -1)
             | None => do n <- strcpy MAX_NAME a;
                 Ok (put_pl_cfg w pl l {| pc_name := n; pc_mode := pc_mode c; pc_listener := pc_listener c; pc_svrpool := pc_svrpool c |}, 0)
             end
      else if streq kw (str "mode") then
        match parse_word args [("reverse", PL_MODE_REVERSE); ("trapt", PL_MODE_TRAPT); ("tproxy", PL_MODE_TPROXY)]%string with
        | None => Ok (w, -1)
        | Some m => Ok (put_pl_cfg w pl l {| pc_name := pc_name c; pc_mode := m; pc_listener := pc_listener c; pc_svrpool := pc_svrpool c |}, 0)
        end
      else if streq kw (str "listener") then
        do f <- proxy_find_listener w py a;
        match f with
        | None => Ok (w, -1)
        | Some ltn =>
            do used <- listener_used w (py_pllist py) ltn;
            if used then Ok (w, -1)
            else
              do (w, r) <- listener_clone w (Some ltn);
              do l <- get_pl w pl;
              Ok (put_pl_cfg w pl l {| pc_name := pc_name c; pc_mode := pc_mode c; pc_listener := r; pc_svrpool := pc_svrpool c |}, 0)
        end
      else if streq kw (str "svrpool") then
        do f <- proxy_find_svrpool w py a;
        match f with
        | None => Ok (w, -1)
        | Some sp =>
            do (w, r) <- on_pw w (svrpool_clone (pw w) (Some sp));
            do l <- get_pl w pl;
            Ok (put_pl_cfg w pl l {| pc_name := pc_name c; pc_mode := pc_mode c; pc_listener := pc_listener c; pc_svrpool := r |}, 0)
        end
      else Ok (w, -1)
  | _ => Ok (w, -1)
  end.

(** ** A line *)
Record cfg_state : Type := { cs_w : pworld; cs_py : proxy_t; cs_ctx : cfg_pctx_t }.

Definition set_section (st : cfg_state) (w : pworld) (py : proxy_t) (s : cfg_section) : cfg_state :=
  {| cs_w := w; cs_py := py; cs_ctx := {| px_section := s; px_lineno := px_lineno (cs_ctx st) |} |}.

Definition cfg_parse_line (st : cfg_state) (kw : cstr) (args : list cstr) : res (cfg_state * Z) :=
  let w := cs_w st in let py := cs_py st in let s := px_section (cs_ctx st) in
  if streq kw (str "[proxy]") then
    do rc <- cfg_check_section w s;
    if negb (rc =? 0) then Ok (st, -1) else Ok (set_section st w py CFG_PROXY, 0)
  else if streq kw (str "[certset]") then
    do rc <- cfg_check_section w s;
    if negb (rc =? 0) then Ok (st, -1) else
    let (w, p) := certset_alloc w in
    match p with
    | None => Ok (set_section st w py s, -1)
    | Some p =>
        let (py, rc) := proxy_add_certset py p in
        if negb (rc =? 0) then do (w, _) <- certset_free w (Some p); Ok (set_section st w py s, -1)
        else Ok (set_section st w py (CFG_CERTSET p), 0)
    end
  else if streq kw (str "[listener]") then
    do rc <- cfg_check_section w s;
    if negb (rc =? 0) then Ok (st, -1) else
    let (w, p) := listener_alloc w in
    match p with
    | None => Ok (set_section st w py s, -1)
    | Some p =>
        let (py, rc) := proxy_add_listener py p in
        if negb (rc =? 0) then do (w, _) <- listener_free w (Some p); Ok (set_section st w py s, -1)
        else Ok (set_section st w py (CFG_LISTENER p), 0)
    end
  else if streq kw (str "[svrpool]") then
    do rc <- cfg_check_section w s;
    if negb (rc =? 0) then Ok (st, -1) else
    let (v, p) := svrpool_alloc (pw w) in
    let w := set_pw w v in
    match p with
    | None => Ok (set_section st w py s, -1)
    | Some p =>
        let (py, rc) := proxy_add_svrpool py p in
        if negb (rc =? 0) then do (w, _) <- on_pw w (svrpool_free (pw w) (Some p)); Ok (set_section st w py s, -1)
        else Ok (set_section st w py (CFG_SVRPOOL p), 0)
    end
  else if streq kw (str "[policy]") then
    do rc <- cfg_check_section w s;
    if negb (rc =? 0) then Ok (st, -1) else
    let (w, p) := policy_alloc w in
    match p with
    | None => Ok (set_section st w py s, -1)
    | Some p =>
        let (py, rc) := proxy_add_policy py p in
        if negb (rc =? 0) then do (w, _) <- policy_free w (Some p); Ok (set_section st w py s, -1)
        else Ok (set_section st w py (CFG_POLICY p), 0)
    end
  else
    match s with
    | CFG_PROXY =>
        match cfg_parse_proxy (py_cfg py) kw args with
        | None => Ok (st, -1)
        | Some c => Ok (set_section st w (set_py_cfg py c) s, 0)
        end
    | CFG_CERTSET p => do (w, rc) <- cfg_parse_certset w py p kw args; Ok (set_section st w py s, rc)
    | CFG_LISTENER p => do (w, rc) <- cfg_parse_listener w py p kw args; Ok (set_section st w py s, rc)
    | CFG_SVRPOOL p => do (w, rc) <- cfg_parse_svrpool w py p kw args; Ok (set_section st w py s, rc)
    | CFG_POLICY p => do (w, rc) <- cfg_parse_policy w py p kw args; Ok (set_section st w py s, rc)
    end.

(** ** The file *)
Fixpoint cfg_load_loop (fuel : nat) (txt : list Z) (st : cfg_state) (lineno : Z) : res (cfg_state * Z) :=
  match fuel with
  | O => Fault NoReturn
  | S fuel =>
      match fgets txt with
      | None => do rc <- cfg_check_section (cs_w st) (px_section (cs_ctx st)); Ok (st, if negb (rc =? 0) then -1 else 0)
      | Some (buf, txt) =>
          do last <- arr_get buf (LINE - 1);
          if negb (last =? 10) && negb (last =? 0) then Ok (st, -1) else
          do line <- chomp buf;
          match strtok line with
          | None => cfg_load_loop fuel txt st (lineno + 1)
          | Some (kw, rest) =>
              if is_comment kw then cfg_load_loop fuel txt st (lineno + 1) else
              let args := get_args 4 rest in
              if (4 <=? length args)%nat then Ok (st, -1) else
              do (st, rc) <- cfg_parse_line st kw args;
              if negb (rc =? 0) then Ok (st, -1)
              else cfg_load_loop fuel txt
                     {| cs_w := cs_w st; cs_py := cs_py st; cs_ctx := {| px_section := px_section (cs_ctx st); px_lineno := px_lineno (cs_ctx st) + 1 |} |}
                     (lineno + 1)
          end
      end
  end.

(** [file] is None when fopen fails. *)
Definition cfg_load_file (w : pworld) (py : proxy_t) (file : option (list Z)) : res (pworld * proxy_t * Z) :=
  match file with
  | None => Ok (w, py, -1)
  | Some txt =>
      do (st, rc) <- cfg_load_loop (S (length txt)) txt {| cs_w := w; cs_py := py; cs_ctx := {| px_section := CFG_PROXY; px_lineno := 1 |} |} 1;
      Ok (cs_w st, cs_py st, rc)
  end.

(** main up to proxy_main: _initiate, cfg_load_file, and _release when it fails. *)
Definition main_load (w : pworld) (file : option (list Z)) : res (pworld * option proxy_t * Z) :=
  let (w, py) := proxy_alloc w in
  match py with
  | None => Ok (w, None, -1)
  | Some py =>
      do (w, py, rc) <- cfg_load_file w py file;
      if negb (rc =? 0) then do (w, _) <- proxy_free w (Some py); Ok (w, None, -1)
      else Ok (w, Some py, 0)
  end.
End with_inet6.
End ProxyConfig.
