(* ===== verification/ConfigWords.v ===== *)
(** * The words of a configuration line

    fgets, chomp and strtok_r as used by cfg_load_file: the loop reads the whole
    file in pieces of at most LINE - 1 bytes, and the words of a line are its
    maximal runs of characters that are not delimiters, cut at a comment. *)
From Stdlib Require Import String.
From S2P Require Import Prelude CLib ProxyConfig.

Module ConfigWords.
Import ProxyConfig.

(** ** Lines *)
Lemma fgets_loop_spec n txt a b :
  fgets_loop n txt = (a, b) ->
  txt = a ++ b /\ (length a <= n)%nat /\ (forall i, (S i < length a)%nat -> a !! i <> Some 10) /\
  (b = [] \/ length a = n \/ last a = Some 10).
Proof.
  revert txt a b. induction n as [|n IH]; intros [|c t] a b; cbn [fgets_loop]; try (intros [= <- <-]; split_and!; [done|simpl; lia|simpl; lia|by eauto]).
  destruct (Z.eqb_spec c 10) as [->|Hc].
  - intros [= <- <-]. split_and!; [done|simpl; lia|simpl; lia|]. right. by right.
  - destruct (fgets_loop n t) as [a' b'] eqn:E. intros [= <- <-]. destruct (IH _ _ _ E) as (-> & Hl & Hi & Hb). split_and!; [done|simpl; lia| |].
    + intros [|i] Hlt; [simpl; congruence|]. cbn. apply Hi. simpl in Hlt. lia.
    + destruct Hb as [->|[Hb|Hb]]; [by left|right; left; simpl; lia|]. right. right. destruct a' as [|x a']; [done|]. by rewrite last_cons_cons.
Qed.

Lemma fgets_progress n c t a b : fgets_loop (S n) (c :: t) = (a, b) -> exists a', a = c :: a'.
Proof.
  cbn [fgets_loop]. destruct (c =? 10); [intros [= <- <-]; by exists []|]. destruct (fgets_loop n t). intros [= <- <-]. eauto.
Qed.

Lemma c_string_app s n : Forall (fun c => c <> 0) s -> c_string (s ++ replicate n 0) = s.
Proof. induction 1 as [|c s Hc _ IH]; [by destruct n|]. simpl. rewrite (proj2 (Z.eqb_neq c 0)) by done. by rewrite IH. Qed.

(** A line of a file without NUL: the buffer is not overrun, its last byte is NUL,
    and the line is the piece without its newline. *)
Lemma fgets_ok txt :
  txt <> [] -> Forall (fun c => c <> 0) txt ->
  exists a b, fgets txt = Some (a ++ replicate (Z.to_nat LINE - length a) 0, b) /\ txt = a ++ b /\ (0 < length a < Z.to_nat LINE)%nat /\
    arr_get (a ++ replicate (Z.to_nat LINE - length a) 0) (LINE - 1) = Ok 0 /\
    chomp (a ++ replicate (Z.to_nat LINE - length a) 0) = Ok (if bool_decide (last a = Some 10) then removelast a else a).
Proof.
  intros Hne Hnz. destruct txt as [|c t]; [done|]. unfold fgets. destruct (fgets_loop (Z.to_nat (LINE - 1)) (c :: t)) as [a b] eqn:E.
  destruct (fgets_loop_spec _ _ _ _ E) as (Htxt & Hl & _). change (Z.to_nat (LINE - 1)) with (S 1022) in E. destruct (fgets_progress _ _ _ _ _ E) as (a' & Ha).
  assert (Hlen : (0 < length a < Z.to_nat LINE)%nat) by (split; [rewrite Ha; simpl; lia|unfold LINE in *; lia]).
  exists a, b. split; [done|]. split; [done|]. split; [done|].
  assert (Hz : Forall (fun c => c <> 0) a) by (rewrite Htxt in Hnz; by apply Forall_app in Hnz as [? _]). split.
  - apply arr_get_Ok. split; [unfold LINE; lia|]. rewrite lookup_app_r by (unfold LINE in *; lia). apply lookup_replicate. unfold LINE in *. split; [done|lia].
  - unfold chomp. rewrite c_string_app by done. destruct (lookup_lt_is_Some_2 a (length a - 1)) as [z Hzl]; [lia|].
    rewrite (proj2 (arr_get_Ok _ _ z)); cycle 1.
    { split; [lia|]. replace (Z.to_nat (Z.of_nat (length a) - 1)) with (length a - 1)%nat by lia. rewrite lookup_app_l by lia. done. }
    cbn [bind]. rewrite last_lookup. replace (pred (length a)) with (length a - 1)%nat by lia. rewrite Hzl.
    destruct (Z.eqb_spec z 10) as [->|Hz10]; [|by rewrite bool_decide_eq_false_2 by congruence]. rewrite bool_decide_eq_true_2 by done.
    f_equal. rewrite removelast_firstn_len. f_equal. lia.
Qed.

(** ** Words *)

(** The reference: the pieces between delimiters, without the empty ones. *)
Fixpoint pieces (cur s : cstr) : list cstr :=
  match s with
  | [] => [cur]
  | c :: s => if is_delim c then cur :: pieces [] s else pieces (cur ++ [c]) s
  end.
Definition words (s : cstr) : list cstr := filter (fun t => t <> []) (pieces [] s).
(** The words before the first one that starts a comment. *)
Fixpoint uncomment (l : list cstr) : list cstr :=
  match l with [] => [] | t :: l => if is_comment t then [] else t :: uncomment l end.

Lemma pieces_app cur s : pieces cur s = (cur ++ (span_word s).1) :: match pieces [] s with [] => [] | _ :: l => l end.
Proof.
  revert cur. induction s as [|c s IH]; intros cur; simpl; [by rewrite app_nil_r|].
  destruct (is_delim c); simpl; [by rewrite app_nil_r|]. rewrite IH. rewrite (IH [c]). destruct (span_word s) as [a b]. simpl. by rewrite <- app_assoc.
Qed.

Lemma words_skip s : words s = words (skip_delim s).
Proof. unfold words. induction s as [|c s IH]; [done|]. simpl. destruct (is_delim c) eqn:E; [|simpl; by rewrite E]. rewrite filter_cons, decide_False by naive_solver. done. Qed.

Lemma words_span s : s <> [] -> words s = filter (fun t => t <> []) [(span_word s).1] ++ words (span_word s).2.
Proof.
  unfold words. induction s as [|c s IH]; intros Hne; [done|]. simpl. destruct (is_delim c) eqn:E; [simpl; by rewrite filter_cons, decide_False by naive_solver|].
  destruct s as [|d s]; [simpl; rewrite !filter_cons, !decide_True by done; done|].
  rewrite pieces_app. destruct (span_word (d :: s)) as [a b] eqn:Es. cbn [fst snd] in *. simpl app.
  specialize (IH ltac:(done)). rewrite pieces_app in IH. rewrite Es in IH. cbn [fst snd] in IH. rewrite !filter_cons in *.
  rewrite (decide_True (P := c :: a <> [])) by done. simpl app. f_equal.
  destruct (decide ([] ++ a <> [])) as [Ha|Ha], (decide (a <> [])) as [Ha'|Ha']; simpl in *; try done; by simplify_eq.
Qed.

Lemma skip_delim_head s c t : skip_delim s = c :: t -> is_delim c = false.
Proof. induction s as [|d s IH]; [done|]. simpl. destruct (is_delim d) eqn:E; [done|]. by intros [= -> ->]. Qed.

(** strtok takes the first word. *)
Lemma strtok_words s :
  match strtok s with
  | None => words s = []
  | Some (t, r) => t <> [] /\ words s = t :: words r
  end.
Proof.
  unfold strtok. rewrite (words_skip s). destruct (skip_delim s) as [|c t] eqn:E; [done|].
  pose proof (skip_delim_head _ _ _ E) as Hd. pose proof (words_span (c :: t) ltac:(done)) as Hw.
  destruct (span_word (c :: t)) as [a b] eqn:Es. cbn [fst snd] in Hw.
  assert (Ha : a <> []) by (simpl in Es; rewrite Hd in Es; destruct (span_word t); by injection Es as <- <-).
  split; [done|]. rewrite Hw, filter_cons, decide_True by done. done.
Qed.

(** get_args are the next words, up to a comment and at most [n]. *)
Lemma get_args_words n s : get_args n s = take n (uncomment (words s)).
Proof.
  revert s. induction n as [|n IH]; intros s; [done|]. cbn [get_args]. pose proof (strtok_words s) as H.
  destruct (strtok s) as [[t r]|]; [|by rewrite H]. destruct H as [_ ->]. cbn [uncomment]. destruct (is_comment t); [done|]. by rewrite IH.
Qed.

(** ** Lengths *)
Lemma span_word_length s : (length (span_word s).1 <= length s)%nat /\ (length (span_word s).2 <= length s)%nat.
Proof. induction s as [|c s IH]; simpl; [done|]. destruct (is_delim c); simpl; [lia|]. destruct (span_word s). simpl in *. lia. Qed.
Lemma skip_delim_length s : (length (skip_delim s) <= length s)%nat.
Proof. induction s as [|c s IH]; simpl; [done|]. destruct (is_delim c); simpl; lia. Qed.
Lemma strtok_length s t r : strtok s = Some (t, r) -> t <> [] /\ (length t <= length s)%nat /\ (length r <= length s)%nat.
Proof.
  intros H. pose proof (strtok_words s) as Hw. rewrite H in Hw. split; [tauto|]. unfold strtok in H.
  pose proof (skip_delim_length s). destruct (skip_delim s) as [|c u]; [done|]. assert (Hq : span_word (c :: u) = (t, r)) by congruence. pose proof (span_word_length (c :: u)) as Hs. rewrite Hq in Hs. simpl in *. lia.
Qed.
Lemma get_args_length n s : Forall (fun t => t <> [] /\ (length t <= length s)%nat) (get_args n s).
Proof.
  revert s. induction n as [|n IH]; intros s; [constructor|]. cbn [get_args]. destruct (strtok s) as [[t r]|] eqn:E; [|constructor].
  destruct (strtok_length _ _ _ E) as (Ht & Hl & Hr). destruct (is_comment t); [constructor|]. constructor; [done|].
  eapply Forall_impl; [apply IH|]. simpl. intros x [? ?]. split; [done|lia].
Qed.
End ConfigWords.
