(* ===== verification/ConfigProofs.v ===== *)
(** * A loaded configuration is well formed

    [wf w py cur]: the numbers are in their ranges, every object of the four lists
    is complete except the one of the current section [cur], names are unique,
    and the references of listeners and policies lead into the lists.  [cinv] adds
    the counting invariant.  Every line keeps it, whether it is accepted or not. *)
From Stdlib Require Import String.
From S2P Require Import Prelude CLib IpAddr SvrPool SvrPoolProofs SvrPoolClaims RefCount Policy PolicyProofs PolicyOps Proxy ProxyConfig ConfigWords.

Module ConfigProofs.
Import IpAddr SvrPool SvrPoolProofs SvrPoolClaims RefCount Policy PolicyProofs PolicyOps Proxy ProxyConfig ConfigWords.

(** ** What the configuration says, without counters *)
Definition cv_cert (w : pworld) (x : positive) : option certset_t := (fun c => cert_ref c 0) <$> pw_certs w !! x.
Definition cv_ltn (w : pworld) (x : positive) : option listener_cfg_t := lt_cfg <$> pw_ltns w !! x.
Definition cv_pl (w : pworld) (x : positive) : option (policy_cfg_t * policy_data_t) := (fun l => (pl_cfg l, pl_data l)) <$> pw_pls w !! x.
Definition cv_server (h : gmap positive obj) (x : positive) : option server_cfg_t :=
  match h !! x with Some (OServer s) => Some (sv_cfg s) | _ => None end.
Definition cv_pool (h : gmap positive obj) (x : positive) : option (svrpool_cfg_t * Z * list (option server_cfg_t)) :=
  match h !! x with Some (OPool p) => Some (sp_cfg p, sp_nserver p, cv_server h <$> sp_svrlist p) | _ => None end.

(** ** Well-formed configurations *)
Definition cfg_ok (c : proxy_cfg_t) : Prop :=
  1 <= nworker c <= 40 /\ -20 <= nice c <= 19 /\ 1 <= naccept c <= 16 /\ 0 <= use_splice c <= 1 /\ 0 <= use_nbsplice c <= 1 /\
  0 <= bind_cpu c <= 1 /\ 0 <= bind_cpu_algo c <= 2 /\ 0 <= bind_cpu_ht c <= 2 /\ 0 <= maxconn c <= 5000000 /\
  0 <= debug c <= 7 /\ 0 <= flow c <= 7 /\ 0 <= http c <= 7 /\ 0 <= timestamp c <= 1.

Definition fits (n : cstr) : Prop := Z.of_nat (length n) < MAX_NAME.

Definition cert_ok (c : certset_t) : Prop := fits (ct_name c) /\ fits (ct_domain c) /\ c_type (ct_cert c) = CERT_X509.
Definition cert_done (c : certset_t) : Prop := ct_name c <> [] /\ c_file (ct_cert c) <> [] /\ c_pkey (ct_cert c) <> [].

Definition ltn_ok (py : proxy_t) (l : listener_cfg_t) : Prop := fits (lc_name l) /\ forall c, lc_cert l = Some c -> c ∈ py_certlist py.
Definition ltn_done (l : listener_cfg_t) : Prop :=
  lc_name l <> [] /\ ip_family (ipp_ip (lc_address l)) <> 0 /\ (lc_ssl l = true -> is_Some (lc_cert l)).

Definition pool_ok (v : svrpool_cfg_t * Z * list (option server_cfg_t)) : Prop :=
  fits (spc_name v.1.1) /\ 0 <= spc_algo v.1.1 <= 3 /\ v.1.2 = Z.of_nat (length v.2) /\
  Forall (fun o => exists s, o = Some s /\ 1 <= sc_weight s < 100) v.2.
Definition pool_done (v : svrpool_cfg_t * Z * list (option server_cfg_t)) : Prop := spc_name v.1.1 <> [] /\ 1 <= v.1.2.

Definition pl_ok (py : proxy_t) (v : policy_cfg_t * policy_data_t) : Prop :=
  fits (pc_name v.1) /\ 0 <= pc_mode v.1 <= 2 /\ (forall x, pc_listener v.1 = Some x -> x ∈ py_ltnlist py) /\
  (forall x, pc_svrpool v.1 = Some x -> x ∈ py_splist py) /\ v.2 = {| pd_ltndata := None; pd_spdata := None |}.
Definition pl_done (v : policy_cfg_t * policy_data_t) : Prop := pc_name v.1 <> [] /\ is_Some (pc_listener v.1) /\ is_Some (pc_svrpool v.1).

(** Names are unique, once given. *)
Definition uniq (l : list positive) (name : positive -> option cstr) : Prop :=
  forall x y n, x ∈ l -> y ∈ l -> name x = Some n -> name y = Some n -> n <> [] -> x = y.

Definition n_cert (w : pworld) (x : positive) : option cstr := ct_name <$> cv_cert w x.
Definition n_ltn (w : pworld) (x : positive) : option cstr := lc_name <$> cv_ltn w x.
Definition n_pool (w : pworld) (x : positive) : option cstr := (fun v => spc_name v.1.1) <$> cv_pool (w_heap (pw w)) x.
Definition n_pl (w : pworld) (x : positive) : option cstr := (fun v => pc_name v.1) <$> cv_pl w x.

Definition in_section (py : proxy_t) (s : cfg_section) : Prop :=
  match s with
  | CFG_PROXY => True
  | CFG_CERTSET x => x ∈ py_certlist py
  | CFG_LISTENER x => x ∈ py_ltnlist py
  | CFG_SVRPOOL x => x ∈ py_splist py
  | CFG_POLICY x => x ∈ py_pllist py
  end.

Record wf (w : pworld) (py : proxy_t) (cur : cfg_section) : Prop := {
  wf_cfg : cfg_ok (py_cfg py);
  wf_cert x : x ∈ py_certlist py -> exists c, cv_cert w x = Some c /\ cert_ok c /\ (cur <> CFG_CERTSET x -> cert_done c);
  wf_ltn x : x ∈ py_ltnlist py -> exists l, cv_ltn w x = Some l /\ ltn_ok py l /\ (cur <> CFG_LISTENER x -> ltn_done l);
  wf_pool x : x ∈ py_splist py -> exists v, cv_pool (w_heap (pw w)) x = Some v /\ pool_ok v /\ (cur <> CFG_SVRPOOL x -> pool_done v);
  wf_pl x : x ∈ py_pllist py -> exists v, cv_pl w x = Some v /\ pl_ok py v /\ (cur <> CFG_POLICY x -> pl_done v);
  wf_names : uniq (py_certlist py) (n_cert w) /\ uniq (py_ltnlist py) (n_ltn w) /\ uniq (py_splist py) (n_pool w) /\ uniq (py_pllist py) (n_pl w);
  (** no listener serves two policies *)
  wf_excl x y vx vy l : x ∈ py_pllist py -> y ∈ py_pllist py -> cv_pl w x = Some vx -> cv_pl w y = Some vy ->
    pc_listener vx.1 = Some l -> pc_listener vy.1 = Some l -> x = y;
  wf_nodup : NoDup (py_pllist py);
  wf_cur : in_section py cur }.

(** ** Searching *)
Lemma find_stop_ok name_of nm l name :
  (forall x, x ∈ l -> exists n, name_of x = Ok n /\ nm x = Some n) ->
  exists r, find_stop name_of l name = Ok r /\
    match r with Some x => x ∈ l /\ nm x = Some name | None => forall x, x ∈ l -> nm x <> Some name end.
Proof.
  induction l as [|x l IH]; intros Hl; cbn [find_stop]; [exists None; split; [done|]; by intros x ?%elem_of_nil|].
  destruct (Hl x ltac:(left)) as (n & -> & Hn). cbn [bind]. unfold streq. destruct (decide (n = name)) as [->|Hne].
  - rewrite bool_decide_eq_true_2 by done. exists (Some x). split; [done|]. split; [left|done].
  - rewrite bool_decide_eq_false_2 by done. destruct IH as (r & -> & Hr); [intros y Hy; apply Hl; by right|]. exists r. split; [done|].
    destruct r as [y|]; [split; [right|]; tauto|]. intros y [->|Hy]%elem_of_cons; [congruence|by apply Hr].
Qed.

Lemma find_all_ok name_of nm l name r0 :
  (forall x, x ∈ l -> exists n, name_of x = Ok n /\ nm x = Some n) ->
  exists r, find_all name_of l name r0 = Ok r /\
    ((r = r0 /\ forall x, x ∈ l -> nm x <> Some name) \/ exists x, r = Some x /\ x ∈ l /\ nm x = Some name).
Proof.
  revert r0. induction l as [|x l IH]; intros r0 Hl; cbn [find_all]; [exists r0; split; [done|]; left; split; [done|]; by intros x ?%elem_of_nil|].
  destruct (Hl x ltac:(left)) as (n & -> & Hn). cbn [bind]. unfold streq. destruct (decide (n = name)) as [->|Hne].
  - rewrite bool_decide_eq_true_2 by done. destruct (IH (Some x)) as (r & -> & Hr); [intros y Hy; apply Hl; by right|]. exists r. split; [done|]. right.
    destruct Hr as [[-> _]|(y & -> & ? & ?)]; [exists x|exists y]; (split; [done|]); (split; [|done]); [left|by right].
  - rewrite bool_decide_eq_false_2 by done. destruct (IH r0) as (r & -> & Hr); [intros y Hy; apply Hl; by right|]. exists r. split; [done|].
    destruct Hr as [[-> Hr]|(y & -> & ? & ?)]; [left|right; exists y; split; [done|]; split; [by right|done]].
    split; [done|]. intros y [->|Hy]%elem_of_cons; [congruence|by apply Hr].
Qed.
(** ** Names of listed objects *)
Lemma cert_name_ok w py cur x : wf w py cur -> x ∈ py_certlist py -> exists n, cert_name w x = Ok n /\ n_cert w x = Some n.
Proof.
  intros Hw Hx. destruct (wf_cert _ _ _ Hw x Hx) as (c & Hc & _). unfold cert_name, get_cert, n_cert. unfold cv_cert in *.
  destruct (pw_certs w !! x) as [c0|]; [|done]. injection Hc as <-. by eexists.
Qed.
Lemma ltn_name_ok w py cur x : wf w py cur -> x ∈ py_ltnlist py -> exists n, ltn_name w x = Ok n /\ n_ltn w x = Some n.
Proof.
  intros Hw Hx. destruct (wf_ltn _ _ _ Hw x Hx) as (c & Hc & _). unfold ltn_name, get_ltn, n_ltn. unfold cv_ltn in *.
  destruct (pw_ltns w !! x) as [c0|]; [|done]. injection Hc as <-. by eexists.
Qed.
Lemma sp_name_ok w py cur x : wf w py cur -> x ∈ py_splist py -> exists n, sp_name w x = Ok n /\ n_pool w x = Some n.
Proof.
  intros Hw Hx. destruct (wf_pool _ _ _ Hw x Hx) as (c & Hc & _). unfold sp_name, get_pool, n_pool. unfold cv_pool in *.
  destruct (w_heap (pw w) !! x) as [[]|]; try done. injection Hc as <-. by eexists.
Qed.
Lemma pl_name_ok w py cur x : wf w py cur -> x ∈ py_pllist py -> exists n, pl_name w x = Ok n /\ n_pl w x = Some n.
Proof.
  intros Hw Hx. destruct (wf_pl _ _ _ Hw x Hx) as (c & Hc & _). unfold pl_name, get_pl, n_pl. unfold cv_pl in *.
  destruct (pw_pls w !! x) as [c0|]; [|done]. injection Hc as <-. by eexists.
Qed.

(** ** One object changes *)
Definition upd {A} (f f' : positive -> option A) (p : positive) (a : A) : Prop := f' p = Some a /\ forall x, x <> p -> f' x = f x.

Lemma uniq_ext l nm nm' : (forall x, nm' x = nm x) -> uniq l nm -> uniq l nm'.
Proof. intros Hn Hu x y n Hx Hy. rewrite !Hn. by apply Hu. Qed.

Lemma uniq_upd l (nm nm' : positive -> option cstr) p n :
  uniq l nm -> upd nm nm' p n -> nm p = Some n \/ (forall x, x ∈ l -> nm x <> Some n) -> uniq l nm'.
Proof.
  intros Hu [Hp Hx] Hn x y m Hxl Hyl Hxm Hym Hm. destruct (decide (x = p)) as [->|Hxp], (decide (y = p)) as [->|Hyp]; [done| | |].
  - rewrite Hp in Hxm. injection Hxm as ->. rewrite Hx in Hym by done. destruct Hn as [Hn|Hn]; [by eapply Hu|by destruct (Hn y Hyl)].
  - rewrite Hp in Hym. injection Hym as ->. rewrite Hx in Hxm by done. destruct Hn as [Hn|Hn]; [by eapply Hu|by destruct (Hn x Hxl)].
  - rewrite Hx in Hxm, Hym by done. by eapply Hu.
Qed.

Lemma upd_fmap {A B} (g : A -> B) f f' p a : upd f f' p a -> upd (fun x => g <$> f x) (fun x => g <$> f' x) p (g a).
Proof. intros [Hp Hx]. split; [by rewrite Hp|]. intros x Hne. by rewrite Hx. Qed.

(** The other components of the view. *)
Definition same_certs (w w' : pworld) : Prop := forall x, cv_cert w' x = cv_cert w x.
Definition same_ltns (w w' : pworld) : Prop := forall x, cv_ltn w' x = cv_ltn w x.
Definition same_pools (w w' : pworld) : Prop := forall x, cv_pool (w_heap (pw w')) x = cv_pool (w_heap (pw w)) x.
Definition same_pls (w w' : pworld) : Prop := forall x, cv_pl w' x = cv_pl w x.

Lemma uniq_same w w' py :
  same_certs w w' -> same_ltns w w' -> same_pools w w' -> same_pls w w' ->
  uniq (py_certlist py) (n_cert w) /\ uniq (py_ltnlist py) (n_ltn w) /\ uniq (py_splist py) (n_pool w) /\ uniq (py_pllist py) (n_pl w) ->
  uniq (py_certlist py) (n_cert w') /\ uniq (py_ltnlist py) (n_ltn w') /\ uniq (py_splist py) (n_pool w') /\ uniq (py_pllist py) (n_pl w').
Proof.
  intros H1 H2 H3 H4 (U1 & U2 & U3 & U4). split_and!; (eapply uniq_ext; [|eassumption]); intros x; unfold n_cert, n_ltn, n_pool, n_pl; by rewrite ?H1, ?H2, ?H3, ?H4.
Qed.

Lemma wf_same w w' py cur : same_certs w w' -> same_ltns w w' -> same_pools w w' -> same_pls w w' -> wf w py cur -> wf w' py cur.
Proof.
  intros H1 H2 H3 H4 Hw. split; [apply Hw| | | | |by eapply uniq_same, Hw| |apply Hw..].
  - intros x Hx. rewrite H1. by apply Hw.
  - intros x Hx. rewrite H2. by apply Hw.
  - intros x Hx. rewrite H3. by apply Hw.
  - intros x Hx. rewrite H4. by apply Hw.
  - intros x y vx vy l. rewrite !H4. by apply Hw.
Qed.

Lemma wf_upd_cert w w' py p c :
  wf w py (CFG_CERTSET p) -> upd (cv_cert w) (cv_cert w') p c -> same_ltns w w' -> same_pools w w' -> same_pls w w' -> cert_ok c ->
  n_cert w p = Some (ct_name c) \/ (forall x, x ∈ py_certlist py -> n_cert w x <> Some (ct_name c)) -> wf w' py (CFG_CERTSET p).
Proof.
  intros Hw Hu H2 H3 H4 Hc Hn. destruct (wf_names _ _ _ Hw) as (U1 & U2 & U3 & U4). split; [apply Hw| | | | | | |apply Hw..].
  - intros x Hx. destruct (decide (x = p)) as [->|Hne]; [exists c; split; [apply Hu|]; by split|]. rewrite (proj2 Hu) by done.
    destruct (wf_cert _ _ _ Hw x Hx) as (c0 & ? & ? & ?). by exists c0.
  - intros x Hx. rewrite H2. destruct (wf_ltn _ _ _ Hw x Hx) as (c0 & ? & ? & ?). exists c0. split_and!; auto.
  - intros x Hx. rewrite H3. destruct (wf_pool _ _ _ Hw x Hx) as (c0 & ? & ? & ?). exists c0. split_and!; auto.
  - intros x Hx. rewrite H4. destruct (wf_pl _ _ _ Hw x Hx) as (c0 & ? & ? & ?). exists c0. split_and!; auto.
  - split_and!; [eapply uniq_upd; [exact U1|by apply (upd_fmap ct_name)|done]|eapply uniq_ext; [|eassumption]; intros x; unfold n_ltn, n_pool, n_pl; by rewrite ?H2, ?H3, ?H4..].
  - intros x y vx vy l. rewrite !H4. by apply Hw.
Qed.

Lemma wf_upd_ltn w w' py p c :
  wf w py (CFG_LISTENER p) -> same_certs w w' -> upd (cv_ltn w) (cv_ltn w') p c -> same_pools w w' -> same_pls w w' -> ltn_ok py c ->
  n_ltn w p = Some (lc_name c) \/ (forall x, x ∈ py_ltnlist py -> n_ltn w x <> Some (lc_name c)) -> wf w' py (CFG_LISTENER p).
Proof.
  intros Hw H1 Hu H3 H4 Hc Hn. destruct (wf_names _ _ _ Hw) as (U1 & U2 & U3 & U4). split; [apply Hw| | | | | | |apply Hw..].
  - intros x Hx. rewrite H1. destruct (wf_cert _ _ _ Hw x Hx) as (c0 & ? & ? & ?). exists c0. split_and!; auto.
  - intros x Hx. destruct (decide (x = p)) as [->|Hne]; [exists c; split; [apply Hu|]; by split|]. rewrite (proj2 Hu) by done.
    destruct (wf_ltn _ _ _ Hw x Hx) as (c0 & ? & ? & ?). by exists c0.
  - intros x Hx. rewrite H3. destruct (wf_pool _ _ _ Hw x Hx) as (c0 & ? & ? & ?). exists c0. split_and!; auto.
  - intros x Hx. rewrite H4. destruct (wf_pl _ _ _ Hw x Hx) as (c0 & ? & ? & ?). exists c0. split_and!; auto.
  - split_and!; [|eapply uniq_upd; [exact U2|by apply (upd_fmap lc_name)|done]|..]; (eapply uniq_ext; [|eassumption]; intros x; unfold n_cert, n_pool, n_pl; by rewrite ?H1, ?H3, ?H4).
  - intros x y vx vy l. rewrite !H4. by apply Hw.
Qed.

Lemma wf_upd_pool w w' py p v :
  wf w py (CFG_SVRPOOL p) -> same_certs w w' -> same_ltns w w' -> upd (cv_pool (w_heap (pw w))) (cv_pool (w_heap (pw w'))) p v -> same_pls w w' -> pool_ok v ->
  n_pool w p = Some (spc_name v.1.1) \/ (forall x, x ∈ py_splist py -> n_pool w x <> Some (spc_name v.1.1)) -> wf w' py (CFG_SVRPOOL p).
Proof.
  intros Hw H1 H2 Hu H4 Hc Hn. destruct (wf_names _ _ _ Hw) as (U1 & U2 & U3 & U4). split; [apply Hw| | | | | | |apply Hw..].
  - intros x Hx. rewrite H1. destruct (wf_cert _ _ _ Hw x Hx) as (c0 & ? & ? & ?). exists c0. split_and!; auto.
  - intros x Hx. rewrite H2. destruct (wf_ltn _ _ _ Hw x Hx) as (c0 & ? & ? & ?). exists c0. split_and!; auto.
  - intros x Hx. destruct (decide (x = p)) as [->|Hne]; [exists v; split; [apply Hu|]; by split|]. rewrite (proj2 Hu) by done.
    destruct (wf_pool _ _ _ Hw x Hx) as (c0 & ? & ? & ?). by exists c0.
  - intros x Hx. rewrite H4. destruct (wf_pl _ _ _ Hw x Hx) as (c0 & ? & ? & ?). exists c0. split_and!; auto.
  - split_and!; [| |eapply uniq_upd; [exact U3|by apply (upd_fmap (fun v => spc_name v.1.1))|done]|]; (eapply uniq_ext; [|eassumption]; intros x; unfold n_cert, n_ltn, n_pl; by rewrite ?H1, ?H2, ?H4).
  - intros x y vx vy l. rewrite !H4. by apply Hw.
Qed.

Lemma wf_upd_pl w w' py p v :
  wf w py (CFG_POLICY p) -> same_certs w w' -> same_ltns w w' -> same_pools w w' -> upd (cv_pl w) (cv_pl w') p v -> pl_ok py v ->
  n_pl w p = Some (pc_name v.1) \/ (forall x, x ∈ py_pllist py -> n_pl w x <> Some (pc_name v.1)) ->
  (forall x vx l, x ∈ py_pllist py -> cv_pl w x = Some vx -> pc_listener v.1 = Some l -> pc_listener vx.1 = Some l -> x = p) ->
  wf w' py (CFG_POLICY p).
Proof.
  intros Hw H1 H2 H3 Hu Hc Hn He. destruct (wf_names _ _ _ Hw) as (U1 & U2 & U3 & U4). split; [apply Hw| | | | | | |apply Hw..].
  - intros x Hx. rewrite H1. destruct (wf_cert _ _ _ Hw x Hx) as (c0 & ? & ? & ?). exists c0. split_and!; auto.
  - intros x Hx. rewrite H2. destruct (wf_ltn _ _ _ Hw x Hx) as (c0 & ? & ? & ?). exists c0. split_and!; auto.
  - intros x Hx. rewrite H3. destruct (wf_pool _ _ _ Hw x Hx) as (c0 & ? & ? & ?). exists c0. split_and!; auto.
  - intros x Hx. destruct (decide (x = p)) as [->|Hne]; [exists v; split; [apply Hu|]; by split|]. rewrite (proj2 Hu) by done.
    destruct (wf_pl _ _ _ Hw x Hx) as (c0 & ? & ? & ?). by exists c0.
  - split_and!; [..|eapply uniq_upd; [exact U4|by apply (upd_fmap (fun v => pc_name v.1))|done]]; (eapply uniq_ext; [|eassumption]; intros x; unfold n_cert, n_ltn, n_pool; by rewrite ?H1, ?H2, ?H3).
  - intros x y vx vy l Hx Hy. destruct (decide (x = p)) as [->|Hxp], (decide (y = p)) as [->|Hyp]; [done|..].
    + rewrite (proj1 Hu), (proj2 Hu) by done. intros [= <-] Hvy Hl1 Hl2. symmetry. by eapply He.
    + rewrite (proj1 Hu), (proj2 Hu) by done. intros Hvx [= <-] Hl1 Hl2. by eapply He.
    + rewrite !(proj2 Hu) by done. by apply Hw.
Qed.
End ConfigProofs.
