(* ===== verification/ConfigParse.v ===== *)
(** * Every line of a configuration file keeps the invariant

    The sections one by one, the checks between them, and the line loop: loading
    any text file ends without a fault, and a load that succeeds leaves a
    well-formed configuration whose counters are exact. *)
From Stdlib Require Import String.
From S2P Require Import Prelude CLib IpAddr SvrPool SvrPoolProofs SvrPoolClaims RefCount Policy PolicyProofs PolicyOps Proxy ProxyConfig ConfigWords ConfigProofs.

Module ConfigParse.
Import IpAddr SvrPool SvrPoolProofs SvrPoolClaims RefCount Policy PolicyProofs PolicyOps Proxy ProxyConfig ConfigWords ConfigProofs.

(** ** The references the lists of the proxy hold *)
Definition py_refs (py : proxy_t) : list rf :=
  (pair RCert <$> py_certlist py) ++ (pair RLtn <$> py_ltnlist py) ++ (pair RPool <$> py_splist py) ++ (pair RPl <$> py_pllist py).

(** [lost] are references that nobody will give back: to a certificate set, a
    listener or a pool that was named and then replaced. *)
Record cinv (k : Z) (w : pworld) (py : proxy_t) (cur : cfg_section) (lost : list rf) : Prop := {
  ci_k : 0 <= k;
  ci_inv : pinv k w (py_refs py ++ lost);
  ci_wf : wf w py cur;
  ci_lost : Forall (fun r => r.1 = RCert \/ r.1 = RLtn \/ r.1 = RPool) lost;
  ci_srv x v : x ∈ py_splist py -> cv_pool (w_heap (pw w)) x = Some v -> Z.of_nat (length v.2) <= k }.

Lemma held_cert w py lost x : x ∈ py_certlist py -> (0 < total w (py_refs py ++ lost) (RCert, x))%nat.
Proof. intros Hx. apply held. unfold py_refs. set_solver. Qed.
Lemma held_ltn w py lost x : x ∈ py_ltnlist py -> (0 < total w (py_refs py ++ lost) (RLtn, x))%nat.
Proof. intros Hx. apply held. unfold py_refs. set_solver. Qed.
Lemma held_pool w py lost x : x ∈ py_splist py -> (0 < total w (py_refs py ++ lost) (RPool, x))%nat.
Proof. intros Hx. apply held. unfold py_refs. set_solver. Qed.
Lemma held_pl w py lost x : x ∈ py_pllist py -> (0 < total w (py_refs py ++ lost) (RPl, x))%nat.
Proof. intros Hx. apply held. unfold py_refs. set_solver. Qed.

(** ** The end of a section *)
Definition done_section (w : pworld) (cur : cfg_section) : Prop :=
  match cur with
  | CFG_PROXY => True
  | CFG_CERTSET p => forall c, cv_cert w p = Some c -> cert_done c
  | CFG_LISTENER p => forall c, cv_ltn w p = Some c -> ltn_done c
  | CFG_SVRPOOL p => forall c, cv_pool (w_heap (pw w)) p = Some c -> pool_done c
  | CFG_POLICY p => forall c, cv_pl w p = Some c -> pl_done c
  end.

Lemma wf_finish w py cur : wf w py cur -> done_section w cur -> wf w py CFG_PROXY.
Proof.
  intros Hw Hd. split; [apply Hw| | | | |apply Hw..|done].
  - intros x Hx. destruct (wf_cert _ _ _ Hw x Hx) as (c & Hc & Ho & Hf). exists c. split_and!; [done..|]. intros _.
    destruct (decide (cur = CFG_CERTSET x)) as [->|]; [by apply Hd|by apply Hf].
  - intros x Hx. destruct (wf_ltn _ _ _ Hw x Hx) as (c & Hc & Ho & Hf). exists c. split_and!; [done..|]. intros _.
    destruct (decide (cur = CFG_LISTENER x)) as [->|]; [by apply Hd|by apply Hf].
  - intros x Hx. destruct (wf_pool _ _ _ Hw x Hx) as (c & Hc & Ho & Hf). exists c. split_and!; [done..|]. intros _.
    destruct (decide (cur = CFG_SVRPOOL x)) as [->|]; [by apply Hd|by apply Hf].
  - intros x Hx. destruct (wf_pl _ _ _ Hw x Hx) as (c & Hc & Ho & Hf). exists c. split_and!; [done..|]. intros _.
    destruct (decide (cur = CFG_POLICY x)) as [->|]; [by apply Hd|by apply Hf].
Qed.

Ltac reject := exists (-1); split_and!; [done|by right|by intros ?].

Lemma check_section_ok w py cur :
  wf w py cur -> exists rc, cfg_check_section w cur = Ok rc /\ (rc = 0 \/ rc = -1) /\ (rc = 0 -> done_section w cur).
Proof.
  intros Hw. pose proof (wf_cur _ _ _ Hw) as Hc. destruct cur as [|p|p|p|p]; cbn [cfg_check_section in_section done_section] in *; [by exists 0; auto|..].
  - destruct (wf_cert _ _ _ Hw p Hc) as (c & Hv & (_ & _ & Ht) & _). unfold cfg_check_certset, get_cert. unfold cv_cert in *.
    destruct (pw_certs w !! p) as [c0|]; [|done]. simpl in Hv. injection Hv as <-. cbn [deref bind]. simpl in Ht.
    destruct (ct_name c0) eqn:En; [reject|]. rewrite Ht. cbn [Z.eqb CERT_X509].
    destruct (c_file (ct_cert c0)) eqn:Ef; [reject|]. destruct (c_pkey (ct_cert c0)) eqn:Ek; [reject|].
    exists 0. split_and!; [done|auto|]. intros _ c [= <-]. unfold cert_done. simpl. rewrite En, Ef, Ek. done.
  - destruct (wf_ltn _ _ _ Hw p Hc) as (c & Hv & _). unfold cfg_check_listener, get_ltn. unfold cv_ltn in *.
    destruct (pw_ltns w !! p) as [c0|]; [|done]. simpl in Hv. injection Hv as <-. cbn [deref bind].
    destruct (lc_name (lt_cfg c0)) eqn:En; [reject|]. destruct (Z.eqb_spec (ip_family (ipp_ip (lc_address (lt_cfg c0)))) 0) as [|Hf]; [reject|].
    destruct (lc_ssl (lt_cfg c0)) eqn:Es; [destruct (lc_cert (lt_cfg c0)) eqn:Ek; [|reject]|]; exists 0; (split_and!; [done|auto|]); intros _ c [= <-]; unfold ltn_done;
      rewrite En, Es, ?Ek; split_and!; eauto; done.
  - destruct (wf_pool _ _ _ Hw p Hc) as (c & Hv & _). unfold cfg_check_svrpool, get_pool. unfold cv_pool in *.
    destruct (w_heap (pw w) !! p) as [[]|]; try done. injection Hv as <-. cbn [bind].
    destruct (spc_name (sp_cfg p0)) eqn:En; [reject|]. destruct (Z.ltb_spec (sp_nserver p0) 1); [reject|].
    exists 0. split_and!; [done|auto|]. intros _ c [= <-]. unfold pool_done. simpl. by rewrite En.
  - destruct (wf_pl _ _ _ Hw p Hc) as (c & Hv & _). unfold cfg_check_policy, get_pl. unfold cv_pl in *.
    destruct (pw_pls w !! p) as [c0|]; [|done]. simpl in Hv. injection Hv as <-. cbn [deref bind].
    destruct (pc_name (pl_cfg c0)) eqn:En; [reject|]. destruct (pc_listener (pl_cfg c0)) eqn:El; [|reject].
    destruct (pc_svrpool (pl_cfg c0)) eqn:Es; [|reject]. exists 0. split_and!; [done|auto|]. intros _ c [= <-]. unfold pl_done. simpl. rewrite En, El, Es. eauto.
Qed.

(** ** A new section *)
Lemma uniq_add l (nm nm' : positive -> option cstr) p : uniq l nm -> upd nm nm' p [] -> p ∉ l -> uniq (l ++ [p]) nm'.
Proof.
  intros Hu [Hp Hx] Hnp x y n Hxl Hyl Hxn Hyn Hn. apply elem_of_app in Hxl as [Hxl| ->%list_elem_of_singleton]; [|congruence].
  apply elem_of_app in Hyl as [Hyl| ->%list_elem_of_singleton]; [|congruence].
  rewrite Hx in Hxn by (intros ->; done). rewrite Hx in Hyn by (intros ->; done). by eapply Hu.
Qed.

Lemma wf_add_cert w w' py py' p :
  wf w py CFG_PROXY -> proxy_add_certset py p = (py', 0) -> p ∉ py_certlist py -> upd (cv_cert w) (cv_cert w') p zero_certset ->
  same_ltns w w' -> same_pools w w' -> same_pls w w' -> wf w' py' (CFG_CERTSET p).
Proof.
  intros Hw Hadd Hp Hu H2 H3 H4. unfold proxy_add_certset in Hadd. destruct (_ <? _); [done|]. injection Hadd as <-.
  destruct (wf_names _ _ _ Hw) as (U1 & U2 & U3 & U4). split; cbn [py_cfg py_certlist py_ltnlist py_splist py_pllist in_section]; [apply Hw| | | | | | |apply Hw|set_solver].
  - intros x [Hx| ->%list_elem_of_singleton]%elem_of_app; [|eexists; split; [apply Hu|]; split; [|done]; done].
    rewrite (proj2 Hu) by (intros ->; done). destruct (wf_cert _ _ _ Hw x Hx) as (c & ? & ? & Hf). exists c. split_and!; [done..|]. intros _. by apply Hf.
  - intros x Hx. rewrite H2. destruct (wf_ltn _ _ _ Hw x Hx) as (c & ? & [Hf Hc] & ?). exists c. split_and!; [done|split; [done|set_solver]|auto].
  - intros x Hx. rewrite H3. destruct (wf_pool _ _ _ Hw x Hx) as (c & ? & ? & ?). exists c. split_and!; auto.
  - intros x Hx. rewrite H4. destruct (wf_pl _ _ _ Hw x Hx) as (c & ? & ? & ?). exists c. split_and!; auto.
  - split_and!; [eapply uniq_add; [exact U1|exact (upd_fmap ct_name _ _ _ _ Hu)|done]|eapply uniq_ext; [|eassumption]; intros x; unfold n_ltn, n_pool, n_pl; by rewrite ?H2, ?H3, ?H4..].
  - intros x y vx vy l. rewrite !H4. by apply Hw.
Qed.

Lemma wf_add_ltn w w' py py' p c :
  wf w py CFG_PROXY -> proxy_add_listener py p = (py', 0) -> p ∉ py_ltnlist py -> same_certs w w' -> upd (cv_ltn w) (cv_ltn w') p c ->
  lc_name c = [] -> lc_cert c = None -> same_pools w w' -> same_pls w w' -> wf w' py' (CFG_LISTENER p).
Proof.
  intros Hw Hadd Hp H1 Hu Hcn Hcc H3 H4. unfold proxy_add_listener in Hadd. destruct (_ <? _); [done|]. injection Hadd as <-.
  destruct (wf_names _ _ _ Hw) as (U1 & U2 & U3 & U4). split; cbn [py_cfg py_certlist py_ltnlist py_splist py_pllist in_section]; [apply Hw| | | | | | |apply Hw|set_solver].
  - intros x Hx. rewrite H1. destruct (wf_cert _ _ _ Hw x Hx) as (c0 & ? & ? & ?). exists c0. split_and!; auto.
  - intros x [Hx| ->%list_elem_of_singleton]%elem_of_app.
    + rewrite (proj2 Hu) by (intros ->; done). destruct (wf_ltn _ _ _ Hw x Hx) as (c0 & ? & ? & Hf). exists c0. split_and!; [done..|]. intros _. by apply Hf.
    + exists c. split; [apply Hu|]. split; [|done]. split; [unfold fits; by rewrite Hcn|]. rewrite Hcc. done.
  - intros x Hx. rewrite H3. destruct (wf_pool _ _ _ Hw x Hx) as (c0 & ? & ? & ?). exists c0. split_and!; auto.
  - intros x Hx. rewrite H4. destruct (wf_pl _ _ _ Hw x Hx) as (c0 & ? & (Hf & Hm & Hl & Hs & Hd) & ?). exists c0. split_and!; [done| |auto].
    split_and!; try done; cbn [py_ltnlist py_splist]; set_solver.
  - split_and!; [|eapply uniq_add; [exact U2| |done]; rewrite <- Hcn; exact (upd_fmap lc_name _ _ _ _ Hu)|..]; (eapply uniq_ext; [|eassumption]; intros x; unfold n_cert, n_pool, n_pl; by rewrite ?H1, ?H3, ?H4).
  - intros x y vx vy l. rewrite !H4. by apply Hw.
Qed.

Lemma wf_add_pool w w' py py' p v :
  wf w py CFG_PROXY -> proxy_add_svrpool py p = (py', 0) -> p ∉ py_splist py -> same_certs w w' -> same_ltns w w' ->
  upd (cv_pool (w_heap (pw w))) (cv_pool (w_heap (pw w'))) p v -> v = ({| spc_name := []; spc_algo := 0 |}, 0, []) -> same_pls w w' -> wf w' py' (CFG_SVRPOOL p).
Proof.
  intros Hw Hadd Hp H1 H2 Hu -> H4. unfold proxy_add_svrpool in Hadd. destruct (_ <? _); [done|]. injection Hadd as <-.
  destruct (wf_names _ _ _ Hw) as (U1 & U2 & U3 & U4). split; cbn [py_cfg py_certlist py_ltnlist py_splist py_pllist in_section]; [apply Hw| | | | | | |apply Hw|set_solver].
  - intros x Hx. rewrite H1. destruct (wf_cert _ _ _ Hw x Hx) as (c0 & ? & ? & ?). exists c0. split_and!; auto.
  - intros x Hx. rewrite H2. destruct (wf_ltn _ _ _ Hw x Hx) as (c0 & ? & ? & ?). exists c0. split_and!; auto.
  - intros x [Hx| ->%list_elem_of_singleton]%elem_of_app.
    + rewrite (proj2 Hu) by (intros ->; done). destruct (wf_pool _ _ _ Hw x Hx) as (c0 & ? & ? & Hf). exists c0. split_and!; [done..|]. intros _. by apply Hf.
    + eexists. split; [apply Hu|]. split; [|done]. split_and!; [done..|constructor].
  - intros x Hx. rewrite H4. destruct (wf_pl _ _ _ Hw x Hx) as (c0 & ? & (Hf & Hm & Hl & Hs & Hd) & ?). exists c0. split_and!; [done| |auto].
    split_and!; try done; cbn [py_ltnlist py_splist]; set_solver.
  - split_and!; [| |eapply uniq_add; [exact U3|exact (upd_fmap (fun v => spc_name v.1.1) _ _ _ _ Hu)|done]|]; (eapply uniq_ext; [|eassumption]; intros x; unfold n_cert, n_ltn, n_pl; by rewrite ?H1, ?H2, ?H4).
  - intros x y vx vy l. rewrite !H4. by apply Hw.
Qed.

Lemma wf_add_pl w w' py py' p v :
  wf w py CFG_PROXY -> proxy_add_policy py p = (py', 0) -> p ∉ py_pllist py -> same_certs w w' -> same_ltns w w' -> same_pools w w' ->
  upd (cv_pl w) (cv_pl w') p v ->
  v = ({| pc_name := []; pc_mode := 0; pc_listener := None; pc_svrpool := None |}, {| pd_ltndata := None; pd_spdata := None |}) -> wf w' py' (CFG_POLICY p).
Proof.
  intros Hw Hadd Hp H1 H2 H3 Hu ->. unfold proxy_add_policy in Hadd. destruct (_ <? _); [done|]. injection Hadd as <-.
  destruct (wf_names _ _ _ Hw) as (U1 & U2 & U3 & U4). split; cbn [py_cfg py_certlist py_ltnlist py_splist py_pllist in_section]; [apply Hw| | | | | | | |set_solver].
  - intros x Hx. rewrite H1. destruct (wf_cert _ _ _ Hw x Hx) as (c0 & ? & ? & ?). exists c0. split_and!; auto.
  - intros x Hx. rewrite H2. destruct (wf_ltn _ _ _ Hw x Hx) as (c0 & ? & ? & ?). exists c0. split_and!; auto.
  - intros x Hx. rewrite H3. destruct (wf_pool _ _ _ Hw x Hx) as (c0 & ? & ? & ?). exists c0. split_and!; auto.
  - intros x [Hx| ->%list_elem_of_singleton]%elem_of_app.
    + rewrite (proj2 Hu) by (intros ->; done). destruct (wf_pl _ _ _ Hw x Hx) as (c0 & ? & ? & Hf). exists c0. split_and!; [done..|]. intros _. by apply Hf.
    + eexists. split; [apply Hu|]. split; [|done]. by split_and!.
  - split_and!; [..|eapply uniq_add; [exact U4|exact (upd_fmap (fun v => pc_name v.1) _ _ _ _ Hu)|done]]; (eapply uniq_ext; [|eassumption]; intros x; unfold n_cert, n_ltn, n_pool; by rewrite ?H1, ?H2, ?H3).
  - intros x y vx vy l Hx Hy Hvx Hvy Hlx Hly. destruct (decide (x = p)) as [->|Hxp]; [rewrite (proj1 Hu) in Hvx; by injection Hvx as <-|].
    destruct (decide (y = p)) as [->|Hyp]; [rewrite (proj1 Hu) in Hvy; by injection Hvy as <-|].
    rewrite (proj2 Hu) in Hvx, Hvy by done. apply elem_of_app in Hx as [Hx|?%list_elem_of_singleton]; [|done].
    apply elem_of_app in Hy as [Hy|?%list_elem_of_singleton]; [|done]. by eapply (wf_excl _ _ _ Hw).
  - apply NoDup_app. split_and!; [apply Hw| |apply NoDup_singleton]. intros x Hx ->%list_elem_of_singleton. done.
Qed.
(** ** The views of an updated map *)
Lemma upd_put_cert w p c : upd (cv_cert w) (cv_cert (put_cert w p c)) p (cert_ref c 0).
Proof. split; unfold cv_cert; simpl; [by rewrite lookup_insert_eq|]. intros x Hx. by rewrite lookup_insert_ne. Qed.
Lemma upd_put_ltn w p c : upd (cv_ltn w) (cv_ltn (put_ltn w p c)) p (lt_cfg c).
Proof. split; unfold cv_ltn; simpl; [by rewrite lookup_insert_eq|]. intros x Hx. by rewrite lookup_insert_ne. Qed.
Lemma upd_put_pl w p c : upd (cv_pl w) (cv_pl (put_pl w p c)) p (pl_cfg c, pl_data c).
Proof. split; unfold cv_pl; simpl; [by rewrite lookup_insert_eq|]. intros x Hx. by rewrite lookup_insert_ne. Qed.

(** Counters are not part of the view. *)
Lemma same_put_cert w p c n : pw_certs w !! p = Some c -> same_certs w (put_cert w p (cert_ref c n)).
Proof. intros Hp x. unfold cv_cert. simpl. destruct (decide (x = p)) as [->|Hx]; [by rewrite lookup_insert_eq, Hp|by rewrite lookup_insert_ne]. Qed.
Lemma same_put_ltn w p c n : pw_ltns w !! p = Some c -> same_ltns w (put_ltn w p (ltn_ref c n)).
Proof. intros Hp x. unfold cv_ltn. simpl. destruct (decide (x = p)) as [->|Hx]; [by rewrite lookup_insert_eq, Hp|by rewrite lookup_insert_ne]. Qed.

Lemma cv_pool_heap (w w' : pworld) : w_heap (pw w') = w_heap (pw w) -> same_pools w w'.
Proof. intros Hh x. by rewrite Hh. Qed.

(** A line was read: accepted or not, the invariant holds. *)
Definition step_ok (k : Z) (py : proxy_t) (cur : cfg_section) (r : res (pworld * Z)) : Prop :=
  exists w' rc lost, r = Ok (w', rc) /\ (rc = 0 \/ rc = -1) /\ cinv (k + 1) w' py cur lost.

Lemma cinv_mono k k' w py cur lost : k <= k' -> cinv k w py cur lost -> cinv k' w py cur lost.
Proof.
  intros Hk [H0 Hi Hw Hl Hs]. split; [lia|by eapply pinv_mono|done|done|]. intros x v Hx Hv. specialize (Hs x v Hx Hv). lia.
Qed.
Lemma step_fail k w py cur lost : cinv k w py cur lost -> step_ok k py cur (Ok (w, -1)).
Proof. intros Hc. exists w, (-1), lost. split_and!; [done|by right|]. eapply cinv_mono; [|exact Hc]. lia. Qed.

Definition arg_ok (t : cstr) : Prop := t <> [] /\ Z.of_nat (length t) < LINE.

Lemma strcpy_ok n a : Z.of_nat (length a) < n -> strcpy n a = Ok a.
Proof. intros Ha. unfold strcpy. by rewrite (proj2 (Z.ltb_lt _ _) Ha). Qed.
Lemma strcpy_path a : arg_ok a -> strcpy PATH_MAX a = Ok a.
Proof. intros [_ Ha]. apply strcpy_ok. unfold PATH_MAX, LINE in *. lia. Qed.

(** ** [certset] *)
Lemma cert_step k w py p lost c c' :
  cinv k w py (CFG_CERTSET p) lost -> pw_certs w !! p = Some c -> ct_refcnt c' = ct_refcnt c -> ct_out c' = ct_out c -> cert_ok c' ->
  ct_name c' = ct_name c \/ (forall x, x ∈ py_certlist py -> n_cert w x <> Some (ct_name c')) ->
  step_ok k py (CFG_CERTSET p) (Ok (put_cert w p c', 0)).
Proof.
  intros [H0 Hi Hw Hl Hs] Hp Hr Ho Hok Hn. exists (put_cert w p c'), 0, lost. split_and!; [done|by left|]. split; [lia| | |done|].
  - eapply pinv_mono; [|eapply pinv_put_cert; [exact Hi|exact Hp|done|by rewrite Ho]]. lia.
  - eapply wf_upd_cert; [exact Hw|apply upd_put_cert|done..|]. destruct Hn as [Hn|Hn]; [left|by right].
    unfold n_cert, cv_cert. rewrite Hp. simpl. by rewrite Hn.
  - intros x v Hx Hv. specialize (Hs x v Hx Hv). lia.
Qed.

Lemma parse_certset_ok k w py p lost kw args :
  cinv k w py (CFG_CERTSET p) lost -> Forall arg_ok args -> step_ok k py (CFG_CERTSET p) (cfg_parse_certset w py p kw args).
Proof.
  intros Hc Ha. pose proof (step_fail _ _ _ _ _ Hc) as Hfail. pose proof (ci_wf _ _ _ _ _ Hc) as Hw.
  destruct (wf_cert _ _ _ Hw p (wf_cur _ _ _ Hw)) as (c0 & Hv & (Hn & Hd & Ht) & _). unfold cfg_parse_certset, get_cert. unfold cv_cert in Hv.
  destruct (pw_certs w !! p) as [c|] eqn:Hp; [|done]. simpl in Hv. injection Hv as <-. simpl in Hn, Hd, Ht. cbn [deref bind].
  destruct args as [|a [|? ?]]; [done| |done]. apply Forall_cons in Ha as [Ha _].
  destruct (streq kw (str "name")).
  { destruct (Z.leb_spec MAX_NAME (Z.of_nat (length a))) as [|Hlt]; [done|]. destruct (nonempty _); [done|].
    destruct (find_stop_ok (cert_name w) (n_cert w) (py_certlist py) a) as (r & Hf & Hr); [intros x; by apply cert_name_ok with (cur := CFG_CERTSET p)|].
    unfold proxy_find_certset. rewrite Hf. cbn [bind]. destruct r as [y|]; [done|]. rewrite strcpy_ok by done. cbn [bind].
    eapply cert_step; [exact Hc|exact Hp|done|done|done|by right]. }
  destruct (streq kw (str "domain")).
  { destruct (Z.leb_spec MAX_NAME (Z.of_nat (length a))) as [|Hlt]; [done|]. destruct (nonempty _); [done|]. rewrite strcpy_ok by done. cbn [bind].
    eapply cert_step; [exact Hc|exact Hp|done|done|done|by left]. }
  destruct (streq kw (str "certificate")).
  { rewrite Ht. cbn [Z.eqb CERT_X509 CERT_PKCS12]. destruct (nonempty _); [done|]. rewrite strcpy_path by done. cbn [bind].
    eapply cert_step; [exact Hc|exact Hp|done|done|done|by left]. }
  destruct (streq kw (str "privatekey")).
  { rewrite Ht. cbn [Z.eqb CERT_X509 CERT_PKCS12]. destruct (nonempty _); [done|]. rewrite strcpy_path by done. cbn [bind].
    eapply cert_step; [exact Hc|exact Hp|done|done|done|by left]. }
  destruct (streq kw (str "pkcs12")).
  { rewrite Ht. cbn [Z.eqb CERT_X509 CERT_PKCS12]. destruct (nonempty _); [done|]. destruct (nonempty _); [done|]. rewrite strcpy_path by done. cbn [bind].
    eapply cert_step; [exact Hc|exact Hp|done|done|done|by left]. }
  destruct Hc as [H0 Hi _ Hl Hs].
  assert (Hca : exists v ca h, cacert_alloc w (Some a) = Ok (set_cas (set_pw w v) h, Some ca) /\
    forall c', ct_refcnt c' = ct_refcnt c -> (forall r, cnt r (ct_out c') = one (RCa, ca) r + cnt r (ct_out c))%nat -> ct_name c' = ct_name c -> cert_ok c' ->
      step_ok k py (CFG_CERTSET p) (Ok (put_cert (set_cas (set_pw w v) h) p c', 0))).
  { destruct (cacert_alloc_ok k w _ a H0 Hi) as (v & ca & h & Hal & Hh & Hi1). exists v, ca, h. split; [done|]. intros c' Hr Ho Hnn Hok.
    exists (put_cert (set_cas (set_pw w v) h) p c'), 0, lost. split_and!; [done|by left|]. split; [lia| | |done|].
    - eapply (pinv_mono k); [lia|]. eapply pinv_put_cert; [exact Hi1|exact Hp|done|]. intros r. rewrite cnt_cons, Ho. lia.
    - eapply wf_upd_cert; [exact Hw|exact (upd_put_cert (set_cas (set_pw w v) h) p c')|done|by apply cv_pool_heap|done|done|].
      left. unfold n_cert, cv_cert. rewrite Hp. simpl. by rewrite Hnn.
    - intros x v0 Hx. simpl. rewrite Hh. intros Hv. specialize (Hs x v0 Hx Hv). lia. }
  destruct Hca as (v & ca & h & Hal & Hstep).
  destruct (streq kw (str "intca")).
  { rewrite Hal. cbn [bind]. change (pw_certs (set_cas (set_pw w v) h)) with (pw_certs w). rewrite Hp. cbn [deref bind]. apply Hstep; try done.
    intros r. unfold ct_out. simpl. rewrite <- app_assoc, !fmap_app. simpl. rewrite !cnt_app, cnt_cons. lia. }
  destruct (streq kw (str "ca")).
  { rewrite Hal. cbn [bind]. change (pw_certs (set_cas (set_pw w v) h)) with (pw_certs w). rewrite Hp. cbn [deref bind]. apply Hstep; try done.
    intros r. unfold ct_out. simpl. rewrite app_assoc, !fmap_app. simpl. rewrite !cnt_app, cnt_cons, cnt_nil. lia. }
  destruct (streq kw (str "crl")); [|done]. destruct (nonempty _); [done|]. rewrite strcpy_path by done. cbn [bind].
  eapply (cert_step k w py p lost); [by split|exact Hp|done|done|done|by left].
Qed.
End ConfigParse.
