(* ===== verification/ConfigLines.v ===== *)
(** * Configuration lines of listeners, pools and policies, and the whole file *)
From Stdlib Require Import String.
From S2P Require Import Prelude CLib IpAddr SvrPool SvrPoolProofs SvrPoolClaims RefCount Policy PolicyProofs PolicyOps Proxy ProxyConfig ConfigWords ConfigProofs ConfigParse.

Module ConfigLines.
Import IpAddr SvrPool SvrPoolProofs SvrPoolClaims RefCount Policy PolicyProofs PolicyOps Proxy ProxyConfig ConfigWords ConfigProofs ConfigParse.

Lemma parse_word_dom args table v (P : Z -> Prop) : parse_word args table = Some v -> Forall (fun kv => P kv.2) table -> P v.
Proof.
  unfold parse_word. destruct args as [|a [|? ?]]; [done| |done]. intros H Ht. induction Ht as [|[k x] t Hx _ IH]; [done|].
  destruct (streq a (str k)); [by injection H as <-|by apply IH].
Qed.
Lemma parse_range_dom args lo hi v : parse_range args lo hi = Some v -> lo <= v <= hi.
Proof.
  unfold parse_range. destruct args as [|a [|? ?]]; [done| |done]. destruct (Z.ltb_spec (cfg_atoi a) lo), (Z.ltb_spec hi (cfg_atoi a)); simpl; try done.
  intros [= <-]. lia.
Qed.

(** ** [proxy] *)
Lemma parse_proxy_ok c kw args c' : cfg_ok c -> cfg_parse_proxy c kw args = Some c' -> cfg_ok c'.
Proof.
  intros Hc. unfold cfg_parse_proxy. destruct c. unfold cfg_ok in *. simpl in Hc.
  repeat match goal with |- context [if streq kw ?s then _ else _] => destruct (streq kw s) end;
    try (by intros [=]);
    intros (v & Hv & ->)%fmap_Some; simpl;
    first [ apply parse_range_dom in Hv; lia
          | apply (parse_word_dom _ _ _ (fun z => 0 <= z <= 1)) in Hv; [lia|by repeat constructor]
          | apply (parse_word_dom _ _ _ (fun z => 0 <= z <= 2)) in Hv; [lia|by repeat constructor] ].
Qed.

Section with_inet6.
Context `{Inet6} (junk : ip_port_t).

(** ** [listener] *)
Lemma ltn_step k w py p lost l l' :
  cinv k w py (CFG_LISTENER p) lost -> pw_ltns w !! p = Some l -> lt_refcnt l' = lt_refcnt l -> lc_cert (lt_cfg l') = lc_cert (lt_cfg l) -> fits (lc_name (lt_cfg l')) ->
  lc_name (lt_cfg l') = lc_name (lt_cfg l) \/ (forall x, x ∈ py_ltnlist py -> n_ltn w x <> Some (lc_name (lt_cfg l'))) ->
  step_ok k py (CFG_LISTENER p) (Ok (put_ltn w p l', 0)).
Proof.
  intros [H0 Hi Hw Hl Hs] Hp Hr Ho Hok Hn. exists (put_ltn w p l'), 0, lost. split_and!; [done|by left|]. split; [lia| | |done|].
  - eapply (pinv_mono k); [lia|]. eapply pinv_put_ltn; [exact Hi|exact Hp|done|]. unfold ltn_out. by rewrite Ho.
  - eapply wf_upd_ltn; [exact Hw|done|apply upd_put_ltn|done|done| |].
    + destruct (wf_ltn _ _ _ Hw p (wf_cur _ _ _ Hw)) as (c0 & Hv & [_ Hce] & _). unfold cv_ltn in Hv. rewrite Hp in Hv. injection Hv as <-.
      split; [done|]. by rewrite Ho.
    + destruct Hn as [Hn|Hn]; [left|by right]. unfold n_ltn, cv_ltn. rewrite Hp. simpl. by rewrite Hn.
  - intros x v Hx Hv. specialize (Hs x v Hx Hv). lia.
Qed.

Lemma parse_listener_ok k w py p lost kw args :
  k + 1 < 2 ^ 31 -> cinv k w py (CFG_LISTENER p) lost -> Forall arg_ok args -> step_ok k py (CFG_LISTENER p) (cfg_parse_listener junk w py p kw args).
Proof.
  intros Hk Hc Ha. pose proof (step_fail _ _ _ _ _ Hc) as Hfail. pose proof (ci_wf _ _ _ _ _ Hc) as Hw.
  destruct (wf_ltn _ _ _ Hw p (wf_cur _ _ _ Hw)) as (c0 & Hv & (Hn & Hce) & _). unfold cfg_parse_listener, get_ltn. unfold cv_ltn in Hv.
  destruct (pw_ltns w !! p) as [l|] eqn:Hp; [|done]. simpl in Hv. injection Hv as <-. cbn [deref bind].
  destruct args as [|a [|? ?]]; [done| |done]. apply Forall_cons in Ha as [Ha _].
  destruct (streq kw (str "name")).
  { destruct (Z.leb_spec MAX_NAME (Z.of_nat (length a))) as [|Hlt]; [done|]. destruct (nonempty _); [done|].
    destruct (find_all_ok (ltn_name w) (n_ltn w) (py_ltnlist py) a None) as (r & Hf & Hr); [intros x; by apply ltn_name_ok with (cur := CFG_LISTENER p)|].
    unfold proxy_find_listener. rewrite Hf. cbn [bind]. destruct r as [y|]; [done|]. destruct Hr as [[_ Hr]|(y & ? & _)]; [|done].
    rewrite strcpy_ok by done. cbn [bind]. eapply ltn_step; [exact Hc|exact Hp|done|done|done|by right]. }
  destruct (streq kw (str "address")).
  { destruct (read_address junk a); [|done]. eapply ltn_step; [exact Hc|exact Hp|done|done|done|by left]. }
  destruct (streq kw (str "ssl")).
  { destruct (parse_word [a] yes_no); [|done]. eapply ltn_step; [exact Hc|exact Hp|done|done|done|by left]. }
  destruct (streq kw (str "certset")); [|done]. destruct (_ <=? _); [done|].
  destruct (find_stop_ok (cert_name w) (n_cert w) (py_certlist py) a) as (r & Hf & Hr); [intros x; by apply cert_name_ok with (cur := CFG_LISTENER p)|].
  unfold proxy_find_certset. rewrite Hf. cbn [bind]. destruct r as [y|]; [|done]. destruct Hr as [Hy _]. destruct Hc as [H0 Hi _ Hl Hs].
  destruct (certset_clone_ok k w _ y Hk Hi (held_cert w py lost y Hy)) as (c & Hyc & -> & Hi1). cbn [bind].
  change (pw_ltns (put_cert w y _)) with (pw_ltns w). rewrite Hp. cbn [deref bind]. set (w1 := put_cert w y _) in *. set (l' := set_ltn_cfg _ _).
  exists (put_ltn w1 p l'), 0, (oref RCert (lc_cert (lt_cfg l)) ++ lost). split_and!; [done|by left|]. split; [lia| | | |].
  - eapply pinv_put_ltn; [exact Hi1|exact Hp|done|]. intros r. unfold ltn_out, l'. simpl. rewrite !cnt_app, !cnt_cons, cnt_nil, cnt_app. lia.
  - eapply wf_upd_ltn; [exact Hw|exact (same_put_cert w y c _ Hyc)|exact (upd_put_ltn w1 p l')|done|done| |].
    + split; [done|]. intros c' [= <-]. done.
    + left. unfold n_ltn, cv_ltn. by rewrite Hp.
  - apply Forall_app. split; [|done]. destruct (lc_cert (lt_cfg l)); repeat constructor.
  - intros x v Hx Hv. specialize (Hs x v Hx Hv). lia.
Qed.

(** ** [policy] *)
Lemma pl_step k w py p lost l l' :
  cinv k w py (CFG_POLICY p) lost -> pw_pls w !! p = Some l -> pl_refcnt l' = pl_refcnt l -> pl_data l' = pl_data l ->
  pc_listener (pl_cfg l') = pc_listener (pl_cfg l) -> pc_svrpool (pl_cfg l') = pc_svrpool (pl_cfg l) -> 0 <= pc_mode (pl_cfg l') <= 2 -> fits (pc_name (pl_cfg l')) ->
  pc_name (pl_cfg l') = pc_name (pl_cfg l) \/ (forall x, x ∈ py_pllist py -> n_pl w x <> Some (pc_name (pl_cfg l'))) ->
  step_ok k py (CFG_POLICY p) (Ok (put_pl w p l', 0)).
Proof.
  intros [H0 Hi Hw Hl Hs] Hp Hr Hd Hol Hos Hm Hok Hn. exists (put_pl w p l'), 0, lost. split_and!; [done|by left|].
  destruct (wf_pl _ _ _ Hw p (wf_cur _ _ _ Hw)) as (c0 & Hv & (_ & _ & Hll & Hss & Hdd) & _). pose proof Hv as Hv0. unfold cv_pl in Hv. rewrite Hp in Hv. injection Hv as <-. simpl in *.
  split; [lia| | |done|].
  - eapply (pinv_mono k); [lia|]. eapply pinv_put_pl; [exact Hi|exact Hp|done|]. unfold pl_out. by rewrite Hol, Hos, Hd.
  - eapply wf_upd_pl; [exact Hw|done|done|done|apply upd_put_pl| | |].
    + split_and!; simpl; [done|lia|lia|by rewrite Hol|by rewrite Hos|congruence].
    + destruct Hn as [Hn|Hn]; [left|by right]. unfold n_pl, cv_pl. rewrite Hp. simpl. by rewrite Hn.
    + simpl. intros x vx l0 Hx Hvx Hl1 Hl2. rewrite Hol in Hl1. eapply (wf_excl _ _ _ Hw x p vx _ l0); [done|apply (wf_cur _ _ _ Hw)|done|exact Hv0|done|done].
  - intros x v Hx Hv. specialize (Hs x v Hx Hv). lia.
Qed.

Lemma listener_used_ok w py cur l ltn :
  wf w py cur -> (forall x, x ∈ l -> x ∈ py_pllist py) ->
  exists b, listener_used w l ltn = Ok b /\ (b = false -> forall x v, x ∈ l -> cv_pl w x = Some v -> pc_listener v.1 <> Some ltn).
Proof.
  intros Hw. induction l as [|x l IH]; intros Hl; cbn [listener_used]; [exists false; split; [done|]; by intros _ x v ?%elem_of_nil|].
  destruct (wf_pl _ _ _ Hw x (Hl x ltac:(left))) as (v & Hv & _). unfold get_pl. pose proof Hv as Hv0. unfold cv_pl in Hv. destruct (pw_pls w !! x) as [c|]; [|done].
  injection Hv as <-. cbn [deref bind]. destruct (decide (pc_listener (pl_cfg c) = Some ltn)) as [E|E].
  - rewrite bool_decide_eq_true_2 by done. by exists true.
  - rewrite bool_decide_eq_false_2 by done. destruct IH as (b & -> & Hb); [intros y Hy; apply Hl; by right|]. exists b. split; [done|].
    intros -> y v [->|Hy]%elem_of_cons Hv; [|by eapply Hb]. rewrite Hv0 in Hv. by injection Hv as <-.
Qed.

(** Counters of pools are not part of the view. *)
Lemma cv_server_pool h x p p' s : h !! x = Some (OPool p) -> cv_server (<[x := OPool p']> h) s = cv_server h s.
Proof. intros Hx. unfold cv_server. destruct (decide (s = x)) as [->|Hne]; [by rewrite lookup_insert_eq, Hx|by rewrite lookup_insert_ne]. Qed.
Lemma cv_pool_put h x p p' :
  h !! x = Some (OPool p) -> sp_svrlist p' = sp_svrlist p -> upd (cv_pool h) (cv_pool (<[x := OPool p']> h)) x (sp_cfg p', sp_nserver p', cv_server h <$> sp_svrlist p).
Proof.
  intros Hx Hs.
  assert (Hf : forall l, (cv_server (<[x := OPool p']> h) <$> l) = (cv_server h <$> l)) by (intros l; apply list_fmap_ext; intros ? s _; by eapply cv_server_pool).
  split; unfold cv_pool.
  - rewrite lookup_insert_eq, Hs. by rewrite Hf.
  - intros y Hy. rewrite lookup_insert_ne by done. destruct (h !! y) as [[]|]; try done. by rewrite Hf.
Qed.
Lemma same_pool_ref w x v r : svrpool_clone (pw w) (Some x) = Ok (v, r) -> same_pools w (set_pw w v).
Proof.
  unfold svrpool_clone. intros Hc. inv_ok. match goal with E : get_pool _ _ = Ok ?p |- _ => apply get_pool_Ok in E; rename p into q, E into Hx end.
  intros y. simpl. destruct (cv_pool_put _ _ _ (pool_ref q (s32 (sp_refcnt q + 1))) Hx eq_refl) as [Hp Hn]. destruct (decide (y = x)) as [->|Hy]; [|by apply Hn].
  rewrite Hp. unfold cv_pool. by rewrite Hx.
Qed.

Lemma parse_policy_ok k w py p lost kw args :
  k + 1 < 2 ^ 31 -> cinv k w py (CFG_POLICY p) lost -> Forall arg_ok args -> step_ok k py (CFG_POLICY p) (cfg_parse_policy w py p kw args).
Proof.
  intros Hk Hc Ha. pose proof (step_fail _ _ _ _ _ Hc) as Hfail. pose proof (ci_wf _ _ _ _ _ Hc) as Hw.
  destruct (wf_pl _ _ _ Hw p (wf_cur _ _ _ Hw)) as (c0 & Hv & (Hn & Hm & Hll & Hss & Hdd) & _). pose proof Hv as Hv0. unfold cfg_parse_policy, get_pl. unfold cv_pl in Hv.
  destruct (pw_pls w !! p) as [l|] eqn:Hp; [|done]. simpl in Hv. injection Hv as <-. simpl in Hn, Hm, Hll, Hss, Hdd. cbn [deref bind].
  destruct args as [|a [|? ?]]; [done| |done]. apply Forall_cons in Ha as [Ha _].
  destruct (streq kw (str "name")).
  { destruct (Z.leb_spec MAX_NAME (Z.of_nat (length a))) as [|Hlt]; [done|]. destruct (nonempty _); [done|].
    destruct (find_all_ok (pl_name w) (n_pl w) (py_pllist py) a None) as (r & Hf & Hr); [intros x; by apply pl_name_ok with (cur := CFG_POLICY p)|].
    unfold proxy_find_policy. rewrite Hf. cbn [bind]. destruct r as [y|]; [done|]. destruct Hr as [[_ Hr]|(y & ? & _)]; [|done].
    rewrite strcpy_ok by done. cbn [bind]. eapply pl_step; [exact Hc|exact Hp|done..|by right]. }
  destruct (streq kw (str "mode")).
  { destruct (parse_word [a] _) as [m|] eqn:Hpw; [|done]. apply (parse_word_dom _ _ _ (fun z => 0 <= z <= 2)) in Hpw; [|by repeat constructor].
    eapply pl_step; [exact Hc|exact Hp|done..|by left]. }
  destruct (streq kw (str "listener")).
  { destruct (find_all_ok (ltn_name w) (n_ltn w) (py_ltnlist py) a None) as (r & Hf & Hr); [intros x; by apply ltn_name_ok with (cur := CFG_POLICY p)|].
    unfold proxy_find_listener. rewrite Hf. cbn [bind]. destruct r as [y|]; [|done]. destruct Hr as [[? _]|(y' & [= <-] & Hy & _)]; [done|].
    destruct (listener_used_ok w py (CFG_POLICY p) (py_pllist py) y Hw ltac:(done)) as (b & -> & Hb). cbn [bind]. destruct b; [done|].
    destruct Hc as [H0 Hi _ Hl Hs]. destruct (listener_clone_ok k w _ y Hk Hi (held_ltn w py lost y Hy)) as (lt & Hyl & -> & Hi1). cbn [bind].
    change (pw_pls (put_ltn w y _)) with (pw_pls w). rewrite Hp. cbn [deref bind]. set (w1 := put_ltn w y _) in *. unfold put_pl_cfg. set (l' := Build_policy_t _ _ _).
    exists (put_pl w1 p l'), 0, (oref RLtn (pc_listener (pl_cfg l)) ++ lost). split_and!; [done|by left|]. split; [lia| | | |].
    - eapply pinv_put_pl; [exact Hi1|exact Hp|done|]. intros r. unfold pl_out, l'. simpl. rewrite !cnt_app, !cnt_cons, !cnt_app. lia.
    - eapply wf_upd_pl; [exact Hw|done|exact (same_put_ltn w y lt _ Hyl)|done|exact (upd_put_pl w1 p l')| | |].
      + split_and!; simpl; try done; try lia. intros x [= <-]. done.
      + left. unfold n_pl, cv_pl. by rewrite Hp.
      + simpl. intros x vx l0 Hx Hvx [= <-] Hl2. by destruct (Hb eq_refl x vx Hx Hvx).
    - apply Forall_app. split; [|done]. destruct (pc_listener (pl_cfg l)); repeat constructor; simpl; tauto.
    - intros x v Hx Hv. specialize (Hs x v Hx Hv). lia. }
  destruct (streq kw (str "svrpool")); [|done].
  destruct (find_all_ok (sp_name w) (n_pool w) (py_splist py) a None) as (r & Hf & Hr); [intros x; by apply sp_name_ok with (cur := CFG_POLICY p)|].
  unfold proxy_find_svrpool. rewrite Hf. cbn [bind]. destruct r as [y|]; [|done]. destruct Hr as [[? _]|(y' & [= <-] & Hy & _)]; [done|].
  destruct Hc as [H0 Hi _ Hl Hs]. destruct (pool_clone_ok k w _ y Hk Hi (held_pool w py lost y Hy)) as (v & Hv & Hi1). rewrite Hv. cbn [bind on_pw].
  change (pw_pls (set_pw w v)) with (pw_pls w). rewrite Hp. cbn [deref bind]. unfold put_pl_cfg. set (l' := Build_policy_t _ _ _).
  exists (put_pl (set_pw w v) p l'), 0, (oref RPool (pc_svrpool (pl_cfg l)) ++ lost). pose proof (same_pool_ref _ _ _ _ Hv) as Hsame. split_and!; [done|by left|]. split; [lia| | | |].
  - eapply pinv_put_pl; [exact Hi1|exact Hp|done|]. intros r. unfold pl_out, l'. simpl. rewrite !cnt_app, !cnt_cons, !cnt_app. lia.
  - eapply wf_upd_pl; [exact Hw|done|done|exact Hsame|exact (upd_put_pl (set_pw w v) p l')| | |].
    + split_and!; simpl; try done; try lia. intros x [= <-]. done.
    + left. unfold n_pl, cv_pl. by rewrite Hp.
    + simpl. intros x vx l0 Hx Hvx Hl1 Hl2. eapply (wf_excl _ _ _ Hw x p vx _ l0); [done|apply (wf_cur _ _ _ Hw)|done|exact Hv0|done|done].
  - apply Forall_app. split; [|done]. destruct (pc_svrpool (pl_cfg l)); repeat constructor; simpl; tauto.
  - intros x v0 Hx. change (w_heap (pw (put_pl (set_pw w v) p l'))) with (w_heap (pw (set_pw w v))). rewrite Hsame. intros Hv1. specialize (Hs x v0 Hx Hv1). lia.
Qed.

(** ** [svrpool] *)
Lemma cfg_add_server_heap k w own sp p weight ssl addr :
  0 <= k -> winv [] k w own -> w_heap w !! sp = Some (OPool p) ->
  exists w' s sv, cfg_add_server w sp weight ssl addr = Ok (w', 0) /\ w_heap w !! s = None /\ sc_weight (sv_cfg sv) = weight /\
    w_heap w' = <[sp := OPool {| sp_cfg := sp_cfg p; sp_svrlist := sp_svrlist p ++ [s]; sp_nserver := s32 (sp_nserver p + 1); sp_refcnt := sp_refcnt p |}]>
                  (<[s := OServer sv]> (w_heap w)).
Proof.
  intros Hk Hw Hp. unfold cfg_add_server, server_alloc.
  destruct (calloc_ok [] k w own (OServer {| sv_cfg := SvrPool.zero_cfg; sv_nconn := 0; sv_refcnt := 0 |})) as (w1 & s & -> & Hfs & Hh1 & _); [done..|].
  unfold get_server. rewrite Hh1, lookup_insert_eq. cbn [bind sv_cfg sv_nconn sv_refcnt].
  assert (Hne : s <> sp) by congruence. unfold get_pool, put, set_heap. simpl. rewrite Hh1, insert_insert_eq, lookup_insert_ne, Hp by done. cbn [bind].
  eexists _, s, _. split; [done|]. split; [done|]. split; [|done]. done.
Qed.

Lemma pool_step k w py p lost v v' :
  cinv k w py (CFG_SVRPOOL p) lost -> pinv k (set_pw w v) (py_refs py ++ lost) -> upd (cv_pool (w_heap (pw w))) (cv_pool (w_heap v)) p v' -> pool_ok v' ->
  Z.of_nat (length v'.2) <= k + 1 -> n_pool w p = Some (spc_name v'.1.1) \/ (forall x, x ∈ py_splist py -> n_pool w x <> Some (spc_name v'.1.1)) ->
  step_ok k py (CFG_SVRPOOL p) (Ok (set_pw w v, 0)).
Proof.
  intros [H0 Hi Hw Hl Hs] Hi' Hu Hok Hlen Hn. exists (set_pw w v), 0, lost. split_and!; [done|by left|]. split; [lia| | |done|].
  - eapply (pinv_mono k); [lia|done].
  - by eapply wf_upd_pool.
  - intros x u Hx Hv. simpl in Hv. destruct (decide (x = p)) as [->|Hne]; [rewrite (proj1 Hu) in Hv; by injection Hv as <-|].
    rewrite (proj2 Hu) in Hv by done. specialize (Hs x u Hx Hv). lia.
Qed.

Lemma put_pool_cfg_inv k w g sp p c :
  pinv k w g -> w_heap (pw w) !! sp = Some (OPool p) -> pinv k (put_pool_cfg w sp p c) g.
Proof.
  intros Hi Hp. destruct (sp_all _ _ _ Hi) as (own & Hw & Ho). unfold put_pool_cfg. eapply sp_same; [exact Hi|lia|by eapply kstep_put| |exact Ho].
  pose proof (inv_pos _ _ _ _ (proj1 Hw) sp _ Hp). eapply winv_count; [exact Hw|exact Hp|done|done|lia|done|intros y; apply occ_same|done].
Qed.

Lemma parse_svrpool_ok k w py p lost kw args :
  k + 1 < 2 ^ 31 -> cinv k w py (CFG_SVRPOOL p) lost -> Forall arg_ok args -> step_ok k py (CFG_SVRPOOL p) (cfg_parse_svrpool junk w py p kw args).
Proof.
  intros Hk Hc Ha. pose proof (step_fail _ _ _ _ _ Hc) as Hfail. pose proof (ci_wf _ _ _ _ _ Hc) as Hw. pose proof (wf_cur _ _ _ Hw) as Hcur. simpl in Hcur.
  destruct (wf_pool _ _ _ Hw p Hcur) as (c0 & Hv & (Hn & Hal & Hlen & Hsv) & _). pose proof Hv as Hv0. pose proof (ci_srv _ _ _ _ _ Hc p c0 Hcur Hv) as Hsrv.
  unfold cfg_parse_svrpool, get_pool. unfold cv_pool in Hv.
  destruct (w_heap (pw w) !! p) as [[| |sp|]|] eqn:Hp; try done. injection Hv as <-. simpl in Hn, Hal, Hlen, Hsv, Hsrv. cbn [bind].
  assert (Hcfg : forall c, fits (spc_name c) -> 0 <= spc_algo c <= 3 -> n_pool w p = Some (spc_name c) \/ (forall x, x ∈ py_splist py -> n_pool w x <> Some (spc_name c)) ->
            step_ok k py (CFG_SVRPOOL p) (Ok (put_pool_cfg w p sp c, 0))).
  { intros c Hf Ha' Hnn. eapply (pool_step k w py p lost _ (c, sp_nserver sp, cv_server (w_heap (pw w)) <$> sp_svrlist sp));
      [exact Hc|by eapply put_pool_cfg_inv; [apply Hc|]| | | |exact Hnn].
    - by apply (cv_pool_put _ _ sp {| sp_cfg := c; sp_svrlist := sp_svrlist sp; sp_nserver := sp_nserver sp; sp_refcnt := sp_refcnt sp |}).
    - unfold pool_ok; simpl. split_and!; try done; lia.
    - simpl. lia. }
  destruct (streq kw (str "name")).
  { destruct args as [|a [|? ?]]; [done| |done]. destruct (nonempty _); [done|].
    destruct (find_all_ok (sp_name w) (n_pool w) (py_splist py) a None) as (r & Hf & Hr); [intros x; by apply sp_name_ok with (cur := CFG_SVRPOOL p)|].
    unfold proxy_find_svrpool. rewrite Hf. cbn [bind]. destruct r as [y|]; [done|]. destruct Hr as [[_ Hr]|(y & ? & _)]; [|done].
    destruct (Z.leb_spec MAX_NAME (Z.of_nat (length a))) as [|Hlt]; [done|]. rewrite strcpy_ok by done. cbn [bind]. apply Hcfg; [done|done|by right]. }
  destruct (streq kw (str "algo")).
  { destruct (parse_word args _) as [m|] eqn:Hpw; [|done]. apply (parse_word_dom _ _ _ (fun z => 0 <= z <= 3)) in Hpw; [|by repeat constructor].
    apply Hcfg; [done|done|]. left. unfold n_pool. by rewrite Hv0. }
  destruct (streq kw (str "server")); [|done]. destruct args as [|a0 [|a1 [|a2 [|? ?]]]]; try done.
  destruct (Z.ltb_spec (cfg_atoi a0) 1) as [|Hlo], (Z.leb_spec 100 (cfg_atoi a0)) as [|Hhi]; cbn [orb]; try done.
  destruct (parse_word [a1] _) as [ssl|]; [|done]. destruct (read_address junk a2) as [addr|]; [|done].
  destruct Hc as [H0 Hi _ Hl Hs]. destruct (sp_all _ _ _ Hi) as (own & Hwi & Ho).
  destruct (cfg_add_server_heap k (pw w) own p sp (cfg_atoi a0) (negb (ssl =? 0)) addr H0 Hwi Hp) as (v & s & sv & Hadd & Hfs & Hwt & Hh).
  destruct (cfg_add_server_ok k (pw w) own p (cfg_atoi a0) (negb (ssl =? 0)) addr H0 Hwi ltac:(by eexists)) as (v2 & Hadd2 & Hwi2).
  rewrite Hadd in Hadd2. injection Hadd2 as <-. rewrite Hadd. cbn [bind on_pw]. rewrite length_fmap in Hlen, Hsrv.
  assert (Hold : forall l : list positive, (forall t, t ∈ l -> kind_at (w_heap (pw w)) t KServer) -> (cv_server (w_heap v) <$> l) = (cv_server (w_heap (pw w)) <$> l)).
  { intros l Hkl. apply list_fmap_ext. intros i t Ht. apply list_elem_of_lookup_2 in Ht. destruct (Hkl t Ht) as (o & Ht' & Hko). rewrite Hh.
    unfold cv_server. rewrite lookup_insert_ne by (intros ->; rewrite Hp in Ht'; by injection Ht' as <-). rewrite lookup_insert_ne by congruence. done. }
  eapply (pool_step k w py p lost v (sp_cfg sp, s32 (sp_nserver sp + 1), (cv_server (w_heap (pw w)) <$> sp_svrlist sp) ++ [Some (sv_cfg sv)])); [by split| | | | |].
  - eapply sp_same; [exact Hi|lia|by eapply cfg_add_server_k|exact Hwi2|exact Ho].
  - assert (Hsnew : cv_server (w_heap v) s = Some (sv_cfg sv)) by (rewrite Hh; unfold cv_server; rewrite lookup_insert_ne by congruence; by rewrite lookup_insert_eq).
    split.
    + unfold cv_pool. rewrite Hh at 1. rewrite lookup_insert_eq. cbn [sp_cfg sp_nserver sp_svrlist]. rewrite fmap_app. simpl. rewrite Hsnew, Hold; [done|].
      intros t Ht. by apply (inv_typed _ _ _ _ (proj1 Hwi) p _ t Hp).
    + intros y Hy. unfold cv_pool. rewrite Hh at 1. rewrite lookup_insert_ne by done.
      destruct (decide (y = s)) as [->|Hys]; [by rewrite lookup_insert_eq, Hfs|]. rewrite lookup_insert_ne by done.
      destruct (w_heap (pw w) !! y) as [[| |q|]|] eqn:Hyq; try done. rewrite Hold; [done|]. intros t Ht. by apply (inv_typed _ _ _ _ (proj1 Hwi) y _ t Hyq).
  - split_and!; simpl; [done|lia|lia| |].
    + rewrite s32_small by lia. rewrite length_app, length_fmap. simpl. lia.
    + apply Forall_app. split; [done|]. repeat constructor. eexists. split; [done|]. rewrite Hwt. lia.
  - simpl. rewrite length_app, length_fmap. simpl. lia.
  - left. simpl. unfold n_pool. by rewrite Hv0.
Qed.

(** ** New sections *)
Definition lost_kind (r : rf) : Prop := r.1 = RCert \/ r.1 = RLtn \/ r.1 = RPool.

Lemma pinv_cnt k w g g' : pinv k w g -> (forall r, cnt r g' = cnt r g) -> pinv k w g'.
Proof. intros Hi Hc. eapply hinv_ext; [exact Hi|]. intros r. unfold total. by rewrite Hc. Qed.

Lemma py_refs_cnt py r :
  cnt r (py_refs py) = (cnt r (pair RCert <$> py_certlist py) + cnt r (pair RLtn <$> py_ltnlist py) + cnt r (pair RPool <$> py_splist py) + cnt r (pair RPl <$> py_pllist py))%nat.
Proof. unfold py_refs. rewrite !cnt_app. lia. Qed.

Lemma fresh_cert w py cur x : wf w py cur -> pw_certs w !! x = None -> x ∉ py_certlist py.
Proof. intros Hw Hx Hin. destruct (wf_cert _ _ _ Hw x Hin) as (c & Hc & _). unfold cv_cert in Hc. by rewrite Hx in Hc. Qed.
Lemma fresh_ltn w py cur x : wf w py cur -> pw_ltns w !! x = None -> x ∉ py_ltnlist py.
Proof. intros Hw Hx Hin. destruct (wf_ltn _ _ _ Hw x Hin) as (c & Hc & _). unfold cv_ltn in Hc. by rewrite Hx in Hc. Qed.
Lemma fresh_pool w py cur x : wf w py cur -> w_heap (pw w) !! x = None -> x ∉ py_splist py.
Proof. intros Hw Hx Hin. destruct (wf_pool _ _ _ Hw x Hin) as (c & Hc & _). unfold cv_pool in Hc. by rewrite Hx in Hc. Qed.
Lemma fresh_pl w py cur x : wf w py cur -> pw_pls w !! x = None -> x ∉ py_pllist py.
Proof. intros Hw Hx Hin. destruct (wf_pl _ _ _ Hw x Hin) as (c & Hc & _). unfold cv_pl in Hc. by rewrite Hx in Hc. Qed.

Lemma pool_alloc_ok k w g :
  0 <= k -> pinv k w g -> exists v p, svrpool_alloc (pw w) = (v, Some p) /\ w_heap (pw w) !! p = None /\ pinv k (set_pw w v) ((RPool, p) :: g) /\
    upd (cv_pool (w_heap (pw w))) (cv_pool (w_heap v)) p ({| spc_name := []; spc_algo := 0 |}, 0, []).
Proof.
  intros Hk Hi. destruct (sp_all _ _ _ Hi) as (own & Hw & Ho). unfold svrpool_alloc. set (o := OPool _).
  destruct (calloc_ok [] k (pw w) own o) as (v & p & Hal & Hf & Hh & Hw'); [done..|]. exists v, p. split; [done|]. split; [done|]. split.
  - eapply sp_gain; [exact Hi|lia|done|by eapply kstep_calloc| |exact Ho|].
    + apply (winv_done _ _ _ _ p); [done|]. intros o'. rewrite Hh, lookup_insert_eq. by intros [= <-].
    + split; [|done]. exists o. split; [rewrite Hh; apply lookup_insert_eq|done].
  - assert (Hs : forall l : list positive, (cv_server (<[p := o]> (w_heap (pw w))) <$> l) = (cv_server (w_heap (pw w)) <$> l)).
    { intros l. apply list_fmap_ext. intros _ t _. unfold cv_server. destruct (decide (t = p)) as [->|Hne]; [by rewrite lookup_insert_eq, Hf|by rewrite lookup_insert_ne]. }
    rewrite Hh. split; unfold cv_pool; [by rewrite lookup_insert_eq|]. intros x Hx. rewrite lookup_insert_ne by done. destruct (w_heap (pw w) !! x) as [[]|]; try done. by rewrite Hs.
Qed.

(** A line: after an error only the counters matter. *)
Definition line_ok (k : Z) (r : res (cfg_state * Z)) : Prop :=
  exists st rc lost, r = Ok (st, rc) /\ (rc = 0 \/ rc = -1) /\ pinv k (cs_w st) (py_refs (cs_py st) ++ lost) /\ Forall lost_kind lost /\
    (rc = 0 -> cinv k (cs_w st) (cs_py st) (px_section (cs_ctx st)) lost).

Lemma line_fail k k' w py cur lost st :
  k <= k' -> cinv k w py cur lost -> cs_w st = w -> cs_py st = py -> line_ok k' (Ok (st, -1)).
Proof. intros Hk [_ Hi _ Hl _] <- <-. exists st, (-1), lost. split_and!; [done|by right|by eapply pinv_mono|done|done]. Qed.

Lemma line_new k st w py s lost :
  cinv k w py s lost -> line_ok k (Ok (set_section st w py s, 0)).
Proof. intros Hc. exists (set_section st w py s), 0, lost. split_and!; [done|by left|apply Hc|apply Hc|done]. Qed.

Lemma line_bad k st w py s lost :
  pinv k w (py_refs py ++ lost) -> Forall lost_kind lost -> line_ok k (Ok (set_section st w py s, -1)).
Proof. intros Hi Hl. exists (set_section st w py s), (-1), lost. split_and!; [done|by right|done|done|done]. Qed.

Lemma line_step k st py s r : step_ok k py s r -> line_ok (k + 1) (do (w, rc) <- r; Ok (set_section st w py s, rc)).
Proof.
  intros (w' & rc & lost & -> & Hrc & Hc). cbn [bind]. exists (set_section st w' py s), rc, lost. split_and!; [done|done|apply Hc|apply Hc|done].
Qed.

(** The lists grow by one reference. *)
Lemma add_refs k w py py' r lost :
  pinv k w (r :: py_refs py ++ lost) -> (forall q, cnt q (py_refs py') = one r q + cnt q (py_refs py))%nat -> pinv k w (py_refs py' ++ lost).
Proof. intros Hi Hq. eapply pinv_cnt; [exact Hi|]. intros q. rewrite cnt_cons, !cnt_app, Hq. lia. Qed.

Lemma new_certset k st w py s lost :
  k + 1 < 2 ^ 31 -> cinv k w py CFG_PROXY lost ->
  line_ok (k + 1) (let (w, p) := certset_alloc w in
    match p with
    | None => Ok (set_section st w py s, -1)
    | Some p =>
        let (py, rc) := proxy_add_certset py p in
        if negb (rc =? 0) then do (w, _) <- certset_free w (Some p); Ok (set_section st w py s, -1)
        else Ok (set_section st w py (CFG_CERTSET p), 0)
    end).
Proof.
  intros Hk [H0 Hi Hw Hl Hs]. destruct (certset_alloc_ok k w _ H0 Hi) as (v & p & -> & Hh & Hf & Hi1). destruct (proxy_add_certset py p) as [py' rc] eqn:Hadd.
  unfold proxy_add_certset in Hadd. destruct (_ <? _) eqn:Hm; injection Hadd as <- <-; cbn [negb Z.eqb].
  - destruct (certset_free_ok k _ _ p ltac:(lia) Hi1) as (w' & -> & Hi2). cbn [bind]. eapply line_bad; [eapply (pinv_mono k); [lia|exact Hi2]|done].
  - eapply line_new. set (py' := Build_proxy_t _ _ _ _ _ _ _ _ _ _). split; [lia| | |exact Hl|].
    + eapply (pinv_mono k); [lia|]. eapply add_refs; [exact Hi1|]. intros q. rewrite !py_refs_cnt. simpl. rewrite fmap_app, cnt_app. simpl. rewrite cnt_cons, cnt_nil. lia.
    + eapply (wf_add_cert w _ py py' p); [exact Hw|unfold proxy_add_certset; by rewrite Hm|by eapply fresh_cert|exact (upd_put_cert (set_pw w v) p zero_certset)|done|by apply cv_pool_heap|done].
    + intros x u Hx. simpl. rewrite Hh. intros Hv. specialize (Hs x u Hx Hv). lia.
Qed.

Lemma new_listener k st w py s lost :
  k + 1 < 2 ^ 31 -> cinv k w py CFG_PROXY lost ->
  line_ok (k + 1) (let (w, p) := listener_alloc w in
    match p with
    | None => Ok (set_section st w py s, -1)
    | Some p =>
        let (py, rc) := proxy_add_listener py p in
        if negb (rc =? 0) then do (w, _) <- listener_free w (Some p); Ok (set_section st w py s, -1)
        else Ok (set_section st w py (CFG_LISTENER p), 0)
    end).
Proof.
  intros Hk [H0 Hi Hw Hl Hs]. destruct (listener_alloc_ok k w _ H0 Hi) as (v & p & l & -> & Hh & Hf & Hcfg & Hi1). destruct (proxy_add_listener py p) as [py' rc] eqn:Hadd.
  unfold proxy_add_listener in Hadd. destruct (_ <? _) eqn:Hm; injection Hadd as <- <-; cbn [negb Z.eqb].
  - destruct (listener_free_ok k _ _ p ltac:(lia) Hi1) as (h & lost' & -> & Hi2 & Hl' & _). cbn [bind]. eapply (line_bad _ _ _ _ _ (lost' ++ lost)).
    + eapply (pinv_mono k); [lia|]. eapply pinv_cnt; [exact Hi2|]. intros r. rewrite !cnt_app. lia.
    + apply Forall_app. split; [|done]. eapply Forall_impl; [exact Hl'|]. intros r ?. by left.
  - eapply line_new. set (py' := Build_proxy_t _ _ _ _ _ _ _ _ _ _). split; [lia| | |exact Hl|].
    + eapply (pinv_mono k); [lia|]. eapply add_refs; [exact Hi1|]. intros q. rewrite !py_refs_cnt. simpl. rewrite fmap_app, cnt_app. simpl. rewrite cnt_cons, cnt_nil. lia.
    + eapply (wf_add_ltn w _ py py' p); [exact Hw|unfold proxy_add_listener; by rewrite Hm|by eapply fresh_ltn|done|exact (upd_put_ltn (set_pw w v) p l)|by rewrite Hcfg|by rewrite Hcfg|by apply cv_pool_heap|done].
    + intros x u Hx. simpl. rewrite Hh. intros Hv. specialize (Hs x u Hx Hv). lia.
Qed.

Lemma new_svrpool k st w py s lost :
  k + 1 < 2 ^ 31 -> cinv k w py CFG_PROXY lost ->
  line_ok (k + 1) (let (v, p) := svrpool_alloc (pw w) in
    let w := set_pw w v in
    match p with
    | None => Ok (set_section st w py s, -1)
    | Some p =>
        let (py, rc) := proxy_add_svrpool py p in
        if negb (rc =? 0) then do (w, _) <- on_pw w (svrpool_free (pw w) (Some p)); Ok (set_section st w py s, -1)
        else Ok (set_section st w py (CFG_SVRPOOL p), 0)
    end).
Proof.
  intros Hk [H0 Hi Hw Hl Hs]. destruct (pool_alloc_ok k w _ H0 Hi) as (v & p & -> & Hf & Hi1 & Hu). destruct (proxy_add_svrpool py p) as [py' rc] eqn:Hadd.
  unfold proxy_add_svrpool in Hadd. destruct (_ <? _) eqn:Hm; injection Hadd as <- <-; cbn [negb Z.eqb].
  - destruct (pool_free_ok k _ _ p ltac:(lia) Hi1) as (v' & Hv' & Hi2). rewrite Hv'. cbn [bind on_pw]. eapply line_bad; [eapply (pinv_mono k); [lia|exact Hi2]|done].
  - eapply line_new. set (py' := Build_proxy_t _ _ _ _ _ _ _ _ _ _). split; [lia| | |exact Hl|].
    + eapply (pinv_mono k); [lia|]. eapply add_refs; [exact Hi1|]. intros q. rewrite !py_refs_cnt. simpl. rewrite fmap_app, cnt_app. simpl. rewrite cnt_cons, cnt_nil. lia.
    + eapply (wf_add_pool w _ py py' p); [exact Hw|unfold proxy_add_svrpool; by rewrite Hm|by eapply fresh_pool|done|done|exact Hu|done|done].
    + intros x u Hx Hv. simpl in Hx, Hv. destruct (decide (x = p)) as [->|Hne]; [rewrite (proj1 Hu) in Hv; injection Hv as <-; simpl; lia|].
      rewrite (proj2 Hu) in Hv by done. apply elem_of_app in Hx as [Hx|?%list_elem_of_singleton]; [|done]. specialize (Hs x u Hx Hv). lia.
Qed.

Lemma new_policy k st w py s lost :
  k + 1 < 2 ^ 31 -> cinv k w py CFG_PROXY lost ->
  line_ok (k + 1) (let (w, p) := policy_alloc w in
    match p with
    | None => Ok (set_section st w py s, -1)
    | Some p =>
        let (py, rc) := proxy_add_policy py p in
        if negb (rc =? 0) then do (w, _) <- policy_free w (Some p); Ok (set_section st w py s, -1)
        else Ok (set_section st w py (CFG_POLICY p), 0)
    end).
Proof.
  intros Hk [H0 Hi Hw Hl Hs]. destruct (policy_alloc_ok k w _ H0 Hi) as (v & p & l & -> & Hh & Hf & Hcfg & Hdat & Hi1). destruct (proxy_add_policy py p) as [py' rc] eqn:Hadd.
  unfold proxy_add_policy in Hadd. destruct (_ <? _) eqn:Hm; injection Hadd as <- <-; cbn [negb Z.eqb].
  - destruct (policy_free_ok k _ _ p ltac:(lia) Hi1) as (w' & lost' & -> & Hi2 & Hl'). cbn [bind]. eapply (line_bad _ _ _ _ _ (lost' ++ lost)).
    + eapply (pinv_mono k); [lia|]. eapply pinv_cnt; [exact Hi2|]. intros r. rewrite !cnt_app. lia.
    + apply Forall_app. split; [|done]. eapply Forall_impl; [exact Hl'|]. intros r ?. by left.
  - eapply line_new. set (py' := Build_proxy_t _ _ _ _ _ _ _ _ _ _). split; [lia| | |exact Hl|].
    + eapply (pinv_mono k); [lia|]. eapply add_refs; [exact Hi1|]. intros q. rewrite !py_refs_cnt. simpl. rewrite fmap_app, cnt_app. simpl. rewrite cnt_cons, cnt_nil. lia.
    + eapply (wf_add_pl w _ py py' p); [exact Hw|unfold proxy_add_policy; by rewrite Hm|by eapply fresh_pl|done|done|by apply cv_pool_heap|exact (upd_put_pl (set_pw w v) p l)|by rewrite Hcfg, Hdat].
    + intros x u Hx. simpl. rewrite Hh. intros Hv. specialize (Hs x u Hx Hv). lia.
Qed.

(** ** A line *)
Lemma parse_line_ok k st lost kw args :
  k + 1 < 2 ^ 31 -> cinv k (cs_w st) (cs_py st) (px_section (cs_ctx st)) lost -> Forall arg_ok args -> line_ok (k + 1) (cfg_parse_line junk st kw args).
Proof.
  intros Hk Hc Ha. destruct st as [w py [cur n]]. simpl in Hc. pose proof (ci_wf _ _ _ _ _ Hc) as Hw.
  destruct (check_section_ok w py cur Hw) as (rc & Hchk & Hrc & Hdone).
  assert (Hfin : rc = 0 -> cinv k w py CFG_PROXY lost) by (intros E; destruct Hc; split; try done; eapply wf_finish; eauto).
  assert (Hbad : line_ok (k + 1) (Ok ({| cs_w := w; cs_py := py; cs_ctx := {| px_section := cur; px_lineno := n |} |}, -1))) by (eapply (line_fail k); [lia|exact Hc|done|done]).
  unfold cfg_parse_line. cbn [cs_w cs_py cs_ctx px_section].
  destruct (streq kw (str "[proxy]")).
  { rewrite Hchk. cbn [bind]. destruct Hrc as [-> | ->]; cbn [negb Z.eqb]; [|done]. eapply line_new, (cinv_mono k); [lia|auto]. }
  destruct (streq kw (str "[certset]")); [rewrite Hchk; cbn [bind]; destruct Hrc as [-> | ->]; cbn [negb Z.eqb]; [by eapply new_certset; auto|done]|].
  destruct (streq kw (str "[listener]")); [rewrite Hchk; cbn [bind]; destruct Hrc as [-> | ->]; cbn [negb Z.eqb]; [by eapply new_listener; auto|done]|].
  destruct (streq kw (str "[svrpool]")); [rewrite Hchk; cbn [bind]; destruct Hrc as [-> | ->]; cbn [negb Z.eqb]; [by eapply new_svrpool; auto|done]|].
  destruct (streq kw (str "[policy]")); [rewrite Hchk; cbn [bind]; destruct Hrc as [-> | ->]; cbn [negb Z.eqb]; [by eapply new_policy; auto|done]|].
  destruct cur as [|p|p|p|p].
  - destruct (cfg_parse_proxy (py_cfg py) kw args) as [c|] eqn:Hp; [|done]. eapply line_new.
    destruct Hc as [H0 Hi _ Hl Hs]. split; [lia|by eapply (pinv_mono k); [lia|]| |done|].
    + destruct Hw. split; try done. by eapply parse_proxy_ok.
    + intros x v Hx Hv. specialize (Hs x v Hx Hv). lia.
  - eapply line_step, parse_certset_ok; eauto.
  - eapply line_step, parse_listener_ok; eauto.
  - eapply line_step, parse_svrpool_ok; eauto.
  - eapply line_step, parse_policy_ok; eauto.
Qed.

(** ** The file *)
Lemma args_ok (a : list Z) rest line kw :
  (length a < Z.to_nat LINE)%nat -> line = (if bool_decide (last a = Some 10) then removelast a else a) -> strtok line = Some (kw, rest) ->
  Forall arg_ok (get_args 4 rest).
Proof.
  intros Hl -> Hs. destruct (strtok_length _ _ _ Hs) as (_ & _ & Hr). eapply Forall_impl; [apply get_args_length|]. intros t [? Ht]. split; [done|].
  assert (length (removelast a) <= length a)%nat by (rewrite removelast_firstn_len, length_take; lia). case_bool_decide; unfold LINE in *; lia.
Qed.

Lemma load_loop_ok fuel txt k st lost n :
  Forall (fun c => c <> 0) txt -> (length txt < fuel)%nat -> k + Z.of_nat (length txt) < 2 ^ 31 - 1 ->
  cinv k (cs_w st) (cs_py st) (px_section (cs_ctx st)) lost ->
  exists st' rc lost', cfg_load_loop junk fuel txt st n = Ok (st', rc) /\ (rc = 0 \/ rc = -1) /\ Forall lost_kind lost' /\
    pinv (k + Z.of_nat (length txt)) (cs_w st') (py_refs (cs_py st') ++ lost') /\
    (rc = 0 -> wf (cs_w st') (cs_py st') CFG_PROXY).
Proof.
  revert txt k st lost n. induction fuel as [|fuel IH]; intros txt k st lost n Hz Hf Hk Hc; [lia|]. cbn [cfg_load_loop].
  destruct (decide (txt = [])) as [->|Hne].
  { cbn [fgets]. destruct (check_section_ok _ _ _ (ci_wf _ _ _ _ _ Hc)) as (rc & -> & Hrc & Hd). cbn [bind]. eexists st, _, lost. split; [done|].
    split; [destruct Hrc as [-> | ->]; simpl; auto|]. split; [apply Hc|]. split; [eapply pinv_mono; [|apply Hc]; simpl; lia|].
    destruct Hrc as [-> | ->]; [|done]. intros _. eapply wf_finish; [apply Hc|auto]. }
  destruct (fgets_ok txt Hne Hz) as (a & b & -> & -> & Hal & -> & ->). rewrite length_app in *. apply Forall_app in Hz as [_ Hzb]. cbn [bind negb Z.eqb andb].
  assert (Hrec : forall k' st' lost' n', k' <= k + 1 -> cinv k' (cs_w st') (cs_py st') (px_section (cs_ctx st')) lost' ->
    exists st'' rc lost'', cfg_load_loop junk fuel b st' n' = Ok (st'', rc) /\ (rc = 0 \/ rc = -1) /\ Forall lost_kind lost'' /\
      pinv (k + Z.of_nat (length a + length b)) (cs_w st'') (py_refs (cs_py st'') ++ lost'') /\ (rc = 0 -> wf (cs_w st'') (cs_py st'') CFG_PROXY)).
  { intros k' st' lost' n' Hk' Hc'. destruct (IH b k' st' lost' n' Hzb ltac:(lia) ltac:(lia) Hc') as (st'' & rc & lost'' & ? & ? & ? & ? & ?).
    exists st'', rc, lost''. split_and!; try done. eapply pinv_mono; [|done]. lia. }
  set (line := if bool_decide (last a = Some 10) then removelast a else a).
  destruct (strtok line) as [[kw rest]|] eqn:Hs; [|by apply (Hrec k _ lost); [lia|]]. destruct (is_comment kw); [by apply (Hrec k _ lost); [lia|]|].
  assert (Hargs : Forall arg_ok (get_args 4 rest)) by (eapply args_ok; [|done|exact Hs]; lia).
  destruct (4 <=? length (get_args 4 rest))%nat.
  { exists st, (-1), lost. split_and!; [done|by right|apply Hc|eapply pinv_mono; [|apply Hc]; lia|done]. }
  destruct (parse_line_ok k st lost kw (get_args 4 rest) ltac:(lia) Hc Hargs) as (st' & rc & lost' & -> & Hrc & Hi' & Hl' & Hc'). cbn [bind].
  destruct Hrc as [-> | ->]; cbn [negb Z.eqb]; [by apply (Hrec (k + 1) _ lost'); [lia|apply Hc']|].
  exists st', (-1), lost'. split_and!; [done|by right|done|eapply pinv_mono; [|exact Hi']; lia|done].
Qed.
End with_inet6.
End ConfigLines.
