(* ===== verification/System.v ===== *)
(** * The running proxy: the proxy object, its workers and their sessions

    A run of tproxyd after its configuration was loaded: proxy_main makes the
    running data, the workers start, take commands, accept clients, choose
    servers, release sessions and stop, and main releases the proxy.  [act] runs
    one of these steps with the functions of Proxy.v and Policy.v; [guard] is what
    the program's structure gives (a worker handles its own descriptors, the
    proxy is released after its workers have stopped).  [sy_lost] records the
    references that no one can give back any more. *)
From S2P Require Import Prelude CLib IpAddr SvrPool RefCount Policy PolicyProofs PolicyOps Proxy.

Module System.
Import IpAddr SvrPool RefCount Policy PolicyProofs PolicyOps Proxy.

(** Before proxy_main, while workers run, after they were joined, released. *)
Inductive phase : Type := Loaded | Running | Stopped | Released.
#[global] Instance phase_eq_dec : EqDecision phase.
Proof. solve_decision. Defined.

Record sys : Type := { sy_w : pworld; sy_py : proxy_t; sy_wks : list (option worker_t); sy_phase : phase; sy_lost : list rf }.

Inductive action : Type :=
  | AInit (rlim : Z)                                   (* _py_init_data *)
  | AStart (i : nat)                                   (* a worker thread is up *)
  | ALoop                                              (* _py_loop hands out the policies *)
  | ADel (i : nat) (pl : positive)                     (* a command to drop a policy *)
  | AGetCmd (i : nat) (env : nat -> answers * list bool)
  | AAccept (i j : nat) (n : nat)
  | AGetServer (i j m : nat) (local : ip_port_t) (ssl : bool)
  | AEnd (i j m : nat)                                 (* session_free, no task queued *)
  | ALate (i m : nat)                                  (* session_free by the queued task *)
  | AStop (i : nat) (busy : nat -> list bool)          (* _worker_free *)
  | AFreeData                                          (* _py_free_data *)
  | ARelease.                                          (* proxy_free *)

Definition set_w (s : sys) (w : pworld) : sys :=
  {| sy_w := w; sy_py := sy_py s; sy_wks := sy_wks s; sy_phase := sy_phase s; sy_lost := sy_lost s |}.
Definition set_wk (s : sys) (w : pworld) (i : nat) (k : option worker_t) (lost : list rf) : sys :=
  {| sy_w := w; sy_py := sy_py s; sy_wks := <[i := k]> (sy_wks s); sy_phase := sy_phase s; sy_lost := lost ++ sy_lost s |}.
Definition set_lfd (k : worker_t) (j : nat) (x : listener_fd_t) : worker_t := set_lfdlist k (<[j := x]> (wk_lfdlist k)).

Definition the_worker (s : sys) (i : nat) : option worker_t := match sy_wks s !! i with Some (Some k) => Some k | _ => None end.
Definition the_lfd (s : sys) (i j : nat) : option (worker_t * listener_fd_t) :=
  match the_worker s i with Some k => (pair k) <$> wk_lfdlist k !! j | None => None end.

(** Policies whose listening socket could not be made: worker_add_policy returns
    with the reference of the command. *)
Fixpoint failed_cmds (l : list worker_cmd_t) (env : nat -> answers * list bool) (i : nat) : list rf :=
  match l with
  | [] => []
  | c :: l => (if (wc_cmd c =? WORKER_CMD_ADD_POLICY) && (an_fd (env i).1 <? 0) then oref RPl (wc_arg c) else []) ++ failed_cmds l env (S i)
  end.

Definition ss_refs (l : list session_ref) : list rf := l ≫= ss_out.
Definition cmd_refs (l : list worker_cmd_t) : list rf := l ≫= fun c => oref RPl (wc_arg c).
Definition lfd_refs (x : listener_fd_t) : list rf := oref RPl (lfd_policy x) ++ ss_refs (lfd_ssnlist x).
Definition wk_refs (k : worker_t) : list rf := (wk_lfdlist k ≫= lfd_refs) ++ cmd_refs (wk_cmdlist k) ++ ss_refs (wk_delayed k).

Definition act (s : sys) (a : action) : res sys :=
  let w := sy_w s in let py := sy_py s in
  match a with
  | AInit rlim =>
      do (w, py, rc) <- py_init_data w py rlim;
      Ok {| sy_w := w; sy_py := py; sy_wks := sy_wks s; sy_phase := if rc =? 0 then Running else Stopped; sy_lost := sy_lost s |}
  | AStart i => Ok (set_wk s w i (Some {| wk_lfdlist := []; wk_cmdlist := []; wk_ncmd := 0; wk_delayed := [] |}) [])
  | ALoop => do (w, wks, _) <- py_loop w (sy_wks s) py; Ok {| sy_w := w; sy_py := py; sy_wks := wks; sy_phase := sy_phase s; sy_lost := sy_lost s |}
  | ADel i pl =>
      do (w, arg) <- policy_clone w (Some pl);
      let (k, _) := worker_add_cmd (the_worker s i) {| wc_cmd := WORKER_CMD_DEL_POLICY; wc_arg := arg |} in
      Ok (set_wk s w i k [])
  | AGetCmd i env =>
      match the_worker s i with
      | Some k => do (w, k') <- worker_get_cmd w k env; Ok (set_wk s w i (Some k') (if 0 <? wk_ncmd k then failed_cmds (wk_cmdlist k) env 0 else []))
      | None => Ok s
      end
  | AAccept i j n =>
      match the_lfd s i j with
      | Some (k, x) => do (w, x) <- listener_accept w x n; Ok (set_wk s w i (Some (set_lfd k j x)) [])
      | None => Ok s
      end
  | AGetServer i j m local ssl =>
      match the_lfd s i j with
      | Some (k, x) =>
          match lfd_ssnlist x !! m with
          | Some ss =>
              do (w, ss, _, _) <- session_get_server w ss local ssl;
              Ok (set_wk s w i (Some (set_lfd k j {| lfd_fd := lfd_fd x; lfd_policy := lfd_policy x; lfd_ssnlist := <[m := ss]> (lfd_ssnlist x) |})) [])
          | None => Ok s
          end
      | None => Ok s
      end
  | AEnd i j m =>
      match the_lfd s i j with
      | Some (k, x) =>
          match lfd_ssnlist x !! m with
          | Some ss =>
              do w <- session_release w ss;
              Ok (set_wk s w i (Some (set_lfd k j {| lfd_fd := lfd_fd x; lfd_policy := lfd_policy x; lfd_ssnlist := delete m (lfd_ssnlist x) |})) [])
          | None => Ok s
          end
      | None => Ok s
      end
  | ALate i m =>
      match the_worker s i with
      | Some k =>
          match wk_delayed k !! m with
          | Some ss =>
              do w <- session_release w ss;
              Ok (set_wk s w i (Some {| wk_lfdlist := wk_lfdlist k; wk_cmdlist := wk_cmdlist k; wk_ncmd := wk_ncmd k; wk_delayed := delete m (wk_delayed k) |}) [])
          | None => Ok s
          end
      | None => Ok s
      end
  | AStop i busy =>
      match the_worker s i with
      | Some k => do (w, k) <- worker_free w k busy; Ok (set_wk s w i None (cmd_refs (wk_cmdlist k) ++ ss_refs (wk_delayed k)))
      | None => Ok s
      end
  | AFreeData => do (w, _) <- py_free_data w py; Ok {| sy_w := w; sy_py := py; sy_wks := sy_wks s; sy_phase := Stopped; sy_lost := sy_lost s |}
  | ARelease => do (w, _) <- proxy_free w (Some py); Ok {| sy_w := w; sy_py := py; sy_wks := sy_wks s; sy_phase := Released; sy_lost := sy_lost s |}
  end.

Definition no_workers (s : sys) : Prop := Forall (fun k => k = None) (sy_wks s).

(** The session still has no server; a server is chosen once. *)
Definition fresh_session (s : sys) (i j m : nat) : Prop :=
  forall k x ss, the_lfd s i j = Some (k, x) -> lfd_ssnlist x !! m = Some ss -> ss_svrdata ss = None.

Definition guard (s : sys) (a : action) : Prop :=
  match a with
  | AInit _ => sy_phase s = Loaded
  | AStart i => sy_phase s = Running /\ sy_wks s !! i = Some None
  | ALoop => sy_phase s = Running
  | ADel i pl => sy_phase s = Running /\ is_Some (the_worker s i) /\ pl ∈ py_pllist (sy_py s)
  | AAccept i j n => sy_phase s = Running /\ (n <= 16)%nat
  | AGetServer i j m _ _ => sy_phase s = Running /\ fresh_session s i j m
  | AGetCmd _ _ | AEnd _ _ _ | ALate _ _ | AStop _ _ => sy_phase s = Running
  | AFreeData => sy_phase s = Running /\ no_workers s
  | ARelease => (sy_phase s = Stopped \/ sy_phase s = Loaded) /\ no_workers s
  end.

(** The pool of the policy has more servers than the array of the running data has
    places. *)
Definition big_pool (w : pworld) (pl : positive) : bool :=
  match pw_pls w !! pl with
  | Some l =>
      match pc_svrpool (pl_cfg l) with
      | Some sp => match w_heap (pw w) !! sp with Some (OPool p) => MAX_SERVER <? Z.of_nat (length (sp_svrlist p)) | _ => false end
      | None => false
      end
  | None => false
  end.

(** A command to add a policy whose listening descriptor has no item in the
    descriptor map. *)
Fixpoint unmapped (l : list worker_cmd_t) (env : nat -> answers * list bool) (i : nat) : bool :=
  match l with
  | [] => false
  | c :: l => (wc_cmd c =? WORKER_CMD_ADD_POLICY) && negb (an_fd (env i).1 <? 0) && negb (an_map (env i).1) || unmapped l env (S i)
  end.

(** The steps that fail: running data for too large a pool, and assert(fi) of
    _worker_add_policy. *)
Definition faults (s : sys) (a : action) : option fault :=
  match a with
  | AInit rlim =>
      if (1024 <? s32 (maxconn (py_cfg (sy_py s)) * 2 + 100)) && negb (rlim =? 0) then None
      else if existsb (big_pool (sy_w s)) (py_pllist (sy_py s)) then Some OutOfBounds else None
  | AGetCmd i env =>
      match the_worker s i with
      | Some k => if (0 <? wk_ncmd k) && unmapped (wk_cmdlist k) env 0 then Some AssertFailed else None
      | None => None
      end
  | _ => None
  end.

(** How much a step can add to a counter. *)
Definition cost (s : sys) (a : action) : Z :=
  match a with
  | AInit _ => 257 * Z.of_nat (length (py_pllist (sy_py s)))
  | ALoop => Z.of_nat (Z.to_nat (nworker (py_cfg (sy_py s)))) * Z.of_nat (length (py_pllist (sy_py s)))
  | _ => 20
  end.

(** [n] bounds the references taken so far. *)
Inductive reach (s0 : sys) : Z -> sys -> Prop :=
  | reach_start : reach s0 0 s0
  | reach_step n s a s' : reach s0 n s -> guard s a -> act s a = Ok s' -> reach s0 (n + cost s a) s'.
End System.
