(* ===== verification/SystemProofs.v ===== *)
(** * The invariant of the running proxy, and that every step keeps it *)
From S2P Require Import Prelude CLib IpAddr SvrPool SvrPoolProofs SvrPoolClaims RefCount Policy PolicyProofs PolicyOps Proxy ProxyConfig ConfigProofs ConfigParse ConfigLines System.

Module SystemProofs.
Import IpAddr SvrPool SvrPoolProofs SvrPoolClaims RefCount Policy PolicyProofs PolicyOps Proxy ProxyConfig ConfigProofs ConfigParse ConfigLines System.

(** ** Policies keep their configuration and running data while they live *)
Definition pls_le (w w' : pworld) : Prop :=
  forall p l', pw_pls w' !! p = Some l' -> exists l, pw_pls w !! p = Some l /\ pl_cfg l' = pl_cfg l /\ pl_data l' = pl_data l.

Lemma pls_le_refl w : pls_le w w.
Proof. intros p l Hp. by exists l. Qed.
Lemma pls_le_eq w w' : pw_pls w' = pw_pls w -> pls_le w w'.
Proof. intros E p l Hp. rewrite E in Hp. by exists l. Qed.
Lemma pls_le_trans w1 w2 w3 : pls_le w1 w2 -> pls_le w2 w3 -> pls_le w1 w3.
Proof. intros H1 H2 p l Hp. destruct (H2 p l Hp) as (l2 & Hp2 & E1 & E2). destruct (H1 p l2 Hp2) as (l1 & Hp1 & E3 & E4). exists l1. split_and!; congruence. Qed.
Lemma pls_le_put w p l n : pw_pls w !! p = Some l -> pls_le w (put_pl w p (pl_ref l n)).
Proof.
  intros Hp q l' Hq. simpl in Hq. destruct (decide (q = p)) as [->|Hne]; [rewrite lookup_insert_eq in Hq; injection Hq as <-; by exists l|].
  rewrite lookup_insert_ne in Hq by done. by exists l'.
Qed.

Lemma on_pw_pls {A} w (r : res (world * A)) w' a : on_pw w r = Ok (w', a) -> pw_pls w' = pw_pls w.
Proof. unfold on_pw. destruct r as [[v x]|]; [|done]. by intros [= <- <-]. Qed.
Lemma listener_free_pls w s w' r : listener_free w s = Ok (w', r) -> pw_pls w' = pw_pls w.
Proof. destruct s; [|by intros [= <- <-]]. unfold listener_free. intros H. inv_ok. by destruct (_ =? 0). Qed.
Lemma listener_free_data_pls w s w' r : listener_free_data w s = Ok (w', r) -> pw_pls w' = pw_pls w.
Proof. destruct s; [|by intros [= <- <-]]. unfold listener_free_data. intros H. inv_ok; try done. by destruct (ld_sslctx _). Qed.
Lemma policy_free_data_pls w p w' r q : policy_free_data w (Some p) = Ok (w', r) -> q <> p -> pw_pls w' !! q = pw_pls w !! q.
Proof.
  unfold policy_free_data. intros H Hq. apply bind_Ok in H as (l & Hl & H). apply bind_Ok in H as (w1 & H1 & H). apply bind_Ok in H as (l1 & Hl1 & H).
  apply bind_Ok in H as (w2 & H2 & H). injection H as <- <-.
  assert (E1 : pw_pls w1 !! q = pw_pls w !! q).
  { destruct (pd_spdata _); [|by injection H1 as <-]. apply bind_Ok in H1 as ([w3 x] & H3%on_pw_pls & H1). apply bind_Ok in H1 as (? & _ & H1). injection H1 as <-.
    simpl. rewrite lookup_insert_ne by done. by rewrite H3. }
  rewrite <- E1. destruct (pd_ltndata _); [|by injection H2 as <-]. apply bind_Ok in H2 as ([w3 x] & H3%listener_free_data_pls & H2). apply bind_Ok in H2 as (? & _ & H2).
  injection H2 as <-. simpl. rewrite lookup_insert_ne by done. by rewrite H3.
Qed.
Lemma policy_free_le w s w' r : policy_free w s = Ok (w', r) -> pls_le w w'.
Proof.
  destruct s as [p|]; [|intros [= <- <-]; apply pls_le_refl]. unfold policy_free. intros H. apply bind_Ok in H as (l & Hl & H). apply deref_Ok in Hl.
  destruct (_ =? 0); [|injection H as <- <-; by apply pls_le_put].
  apply bind_Ok in H as (w1 & H1 & H). apply bind_Ok in H as (w2 & H2 & H). apply bind_Ok in H as ([w3 x] & H3 & H). injection H as <- <-.
  assert (E1 : pw_pls w1 = <[p := pl_ref l (s32 (pl_refcnt l - 1))]> (pw_pls w)).
  { destruct (pc_listener _); [|by injection H1 as <-]. apply bind_Ok in H1 as ([w4 ?] & H4%listener_free_pls & H1). injection H1 as <-. by rewrite H4. }
  assert (E2 : pw_pls w2 = pw_pls w1).
  { destruct (pc_svrpool _); [|by injection H2 as <-]. apply bind_Ok in H2 as ([w4 ?] & H4%on_pw_pls & H2). injection H2 as <-. done. }
  intros q l' Hq. simpl in Hq. apply lookup_delete_Some in Hq as [Hne Hq]. rewrite (policy_free_data_pls _ _ _ _ q H3) in Hq by done.
  rewrite E2, E1, lookup_insert_ne in Hq by done. by exists l'.
Qed.

Definition is_cert (r : rf) : Prop := r.1 = RCert.

(** ** Sessions and listening descriptors *)
Definition ss_wf (s : session_ref) : Prop := is_Some (ss_policy s).
Definition lfd_wf (x : listener_fd_t) : Prop := is_Some (lfd_policy x) /\ Forall ss_wf (lfd_ssnlist x).
Definition cmd_wf (c : worker_cmd_t) : Prop := is_Some (wc_arg c) /\ (wc_cmd c = WORKER_CMD_ADD_POLICY \/ wc_cmd c = WORKER_CMD_DEL_POLICY).
Definition wk_wf (k : worker_t) : Prop :=
  Forall lfd_wf (wk_lfdlist k) /\ Forall cmd_wf (wk_cmdlist k) /\ wk_ncmd k = Z.of_nat (length (wk_cmdlist k)) /\ Forall ss_wf (wk_delayed k).

(** An operation that gives [out] back, keeps [left], and may lose references to
    certificate sets. *)
Definition gives (k : Z) (w w' : pworld) (left : list rf) : Prop :=
  exists lost, pinv k w' (lost ++ left) /\ Forall is_cert lost /\ pls_le w w'.

Lemma policy_free_gives k w g p :
  k < 2 ^ 31 -> pinv k w ((RPl, p) :: g) -> exists w', policy_free w (Some p) = Ok (w', 0) /\ gives k w w' g.
Proof.
  intros Hk Hi. destruct (policy_free_ok k w g p Hk Hi) as (w' & lost & Hf & Hi' & Hl). exists w'. split; [done|]. exists lost.
  split_and!; [done..|by eapply policy_free_le].
Qed.

Lemma session_release_gives k w g s :
  k < 2 ^ 31 -> ss_wf s -> pinv k w (ss_out s ++ g) -> exists w', session_release w s = Ok w' /\ gives k w w' g.
Proof.
  intros Hk [p Hp] Hi. destruct s as [pl sd]. simpl in Hp. subst pl. destruct (session_release_ok k w g p sd Hk Hi) as (w' & lost & Hf & Hi' & Hl).
  exists w'. split; [done|]. exists lost. split_and!; [done..|]. unfold session_release in Hf. cbn [ss_policy ss_svrdata] in Hf.
  apply bind_Ok in Hf as ([w1 r] & H1%policy_free_le & Hf). destruct sd; [|by injection Hf as <-]. apply bind_Ok in Hf as ([w2 ?] & H2%on_pw_pls & Hf). injection Hf as <-.
  eapply pls_le_trans; [exact H1|by apply pls_le_eq].
Qed.

Lemma free_sessions_gives k l w g busy :
  k < 2 ^ 31 -> Forall ss_wf l -> pinv k w (ss_refs l ++ g) ->
  exists w' d, free_sessions w l busy = Ok (w', d) /\ gives k w w' (ss_refs d ++ g) /\ Forall ss_wf d.
Proof.
  intros Hk Hl. revert w g busy. induction Hl as [|s l Hs Hl IH]; intros w g busy Hi; cbn [free_sessions].
  { exists w, []. split; [done|]. split; [|constructor]. exists []. split_and!; [done|constructor|apply pls_le_refl]. }
  unfold ss_refs in Hi. rewrite bind_cons, <- app_assoc in Hi. fold (ss_refs l) in Hi.
  assert (Hrel : exists w' d, (do w <- session_release w s; free_sessions w l (tail busy)) = Ok (w', d) /\ gives k w w' (ss_refs d ++ g) /\ Forall ss_wf d).
  { destruct (session_release_gives k w _ s Hk Hs Hi) as (w1 & -> & (lost & Hi1 & Hlost & Hle)). cbn [bind].
    destruct (IH w1 (lost ++ g) (tail busy)) as (w' & d & Hf & (lost' & Hi2 & Hlost' & Hle') & Hd).
    { eapply pinv_cnt; [exact Hi1|]. intros r. rewrite !cnt_app. lia. }
    exists w', d. split; [done|]. split; [|done]. exists (lost' ++ lost). split_and!; [|by apply Forall_app|by eapply pls_le_trans].
    eapply pinv_cnt; [exact Hi2|]. intros r. rewrite !cnt_app. lia. }
  destruct busy as [|[] busy]; [exact Hrel| |exact Hrel]. clear Hrel.
  destruct (IH w (ss_out s ++ g) busy) as (w' & d & -> & (lost & Hi1 & Hlost & Hle) & Hd).
  { eapply pinv_cnt; [exact Hi|]. intros r. rewrite !cnt_app. lia. }
  cbn [bind]. exists w', (s :: d). split; [done|]. split; [|by constructor]. exists lost. split_and!; [|done..].
  eapply pinv_cnt; [exact Hi1|]. intros r. unfold ss_refs. rewrite bind_cons, !cnt_app. lia.
Qed.

Lemma listener_free_fd_gives k w g x busy :
  k < 2 ^ 31 -> lfd_wf x -> pinv k w (lfd_refs x ++ g) ->
  exists w' d, listener_free_fd w x busy = Ok (w', d) /\ gives k w w' (ss_refs d ++ g) /\ Forall ss_wf d.
Proof.
  intros Hk [[p Hp] Hs] Hi. unfold listener_free_fd, lfd_refs in *. rewrite Hp in *. simpl in Hi.
  destruct (free_sessions_gives k (lfd_ssnlist x) w ((RPl, p) :: g) busy Hk Hs) as (w1 & d & -> & (lost & Hi1 & Hlost & Hle) & Hd).
  { eapply pinv_cnt; [exact Hi|]. intros r. rewrite !cnt_cons, !cnt_app, cnt_cons. lia. }
  cbn [bind]. destruct (policy_free_gives k w1 (lost ++ ss_refs d ++ g) p Hk) as (w2 & -> & (lost' & Hi2 & Hlost' & Hle')).
  { eapply pinv_cnt; [exact Hi1|]. intros r. rewrite !cnt_cons, !cnt_app, cnt_cons. lia. }
  cbn [bind]. exists w2, d. split; [done|]. split; [|done]. exists (lost' ++ lost). split_and!; [|by apply Forall_app|by eapply pls_le_trans].
  eapply pinv_cnt; [exact Hi2|]. intros r. rewrite !cnt_app. lia.
Qed.

Lemma free_lfds_gives k l w g busy i :
  k < 2 ^ 31 -> Forall lfd_wf l -> pinv k w ((l ≫= lfd_refs) ++ g) ->
  exists w' d, free_lfds w l busy i = Ok (w', d) /\ gives k w w' (ss_refs d ++ g) /\ Forall ss_wf d.
Proof.
  intros Hk Hl. revert w g i. induction Hl as [|x l Hx Hl IH]; intros w g i Hi; cbn [free_lfds].
  { exists w, []. split; [done|]. split; [|constructor]. exists []. split_and!; [done|constructor|apply pls_le_refl]. }
  rewrite bind_cons, <- app_assoc in Hi. destruct (listener_free_fd_gives k w _ x (busy i) Hk Hx Hi) as (w1 & d & -> & (lost & Hi1 & Hlost & Hle) & Hd). cbn [bind].
  destruct (IH w1 (lost ++ ss_refs d ++ g) (S i)) as (w2 & d' & -> & (lost' & Hi2 & Hlost' & Hle') & Hd').
  { eapply pinv_cnt; [exact Hi1|]. intros r. rewrite !cnt_app. lia. }
  cbn [bind]. exists w2, (d ++ d'). split; [done|]. split; [|by apply Forall_app]. exists (lost' ++ lost). split_and!; [|by apply Forall_app|by eapply pls_le_trans].
  eapply pinv_cnt; [exact Hi2|]. intros r. unfold ss_refs. rewrite bind_app, !cnt_app. lia.
Qed.

Ltac recount := let r := fresh "r" in intros r; unfold wk_refs, cmd_refs, ss_refs; simpl; rewrite ?bind_app, ?bind_cons; simpl; rewrite ?cnt_app, ?cnt_cons, ?cnt_nil, ?cnt_app, ?cnt_cons, ?cnt_nil; try lia.
Ltac perm Hi := eapply pinv_cnt; [exact Hi|recount].

(** ** Running policies *)
Definition runs (w : pworld) (py : proxy_t) : Prop :=
  forall p l, pw_pls w !! p = Some l -> p ∈ py_pllist py /\ is_Some (pc_listener (pl_cfg l)) /\ is_Some (pc_svrpool (pl_cfg l)) /\
    is_Some (pd_ltndata (pl_data l)) /\ is_Some (pd_spdata (pl_data l)).
Lemma runs_le w w' py : pls_le w w' -> runs w py -> runs w' py.
Proof. intros Hle Hr p l' Hp. destruct (Hle p l' Hp) as (l & Hp0 & E1 & E2). rewrite E1, E2. by apply Hr. Qed.

Lemma live_pl k w g p : pinv k w g -> (RPl, p) ∈ g -> exists l, pw_pls w !! p = Some l.
Proof. intros Hi Hp. destruct (counted_live _ _ _ _ p (hi_pl _ _ _ Hi)) as (l & Hl & _); [by apply held|eauto]. Qed.

(** ** Commands *)
Definition failed_add (c : worker_cmd_t) (a : answers) : list rf :=
  if (wc_cmd c =? WORKER_CMD_ADD_POLICY) && (an_fd a <? 0) then oref RPl (wc_arg c) else [].

Lemma add_policy_ok k w py wk g p a :
  k < 2 ^ 31 -> runs w py -> wk_wf wk -> pinv k w ((RPl, p) :: wk_refs wk ++ g) ->
  if negb (an_fd a <? 0) && negb (an_map a) then worker_add_policy w wk (Some p) a = Fault AssertFailed
  else exists w' wk' rc, worker_add_policy w wk (Some p) a = Ok (w', wk', rc) /\ gives k w w' ((if an_fd a <? 0 then [(RPl, p)] else []) ++ wk_refs wk' ++ g) /\
    wk_wf wk' /\ wk_cmdlist wk' = wk_cmdlist wk.
Proof.
  intros Hk Hr (Hw1 & Hw2 & Hw3 & Hw4) Hi. destruct (live_pl _ _ _ p Hi) as (l & Hl); [by left|]. destruct (Hr p l Hl) as (_ & [ltn Hltn] & _).
  unfold worker_add_policy, get_pl. rewrite Hl. cbn [deref bind]. rewrite Hltn. unfold listener_alloc_fd.
  destruct (new_block_ok k w _ Hi) as (v & x & -> & Hi1 & _ & _ & Hh). unfold get_ltn. change (pw_ltns (set_pw w v)) with (pw_ltns w).
  destruct (counted_live _ _ _ _ ltn (hi_ltn _ _ _ Hi)) as (lt & -> & _).
  { unfold total. pose proof (msum_elem pl_out (pw_pls w) p l (RLtn, ltn) Hl) as H. lapply H; [lia|]. unfold pl_out. rewrite Hltn. set_solver. }
  cbn [deref bind]. destruct (an_fd a <? 0); cbn [bind negb andb].
  { eexists _, wk, _. split; [done|]. split; [|done]. exists []. split_and!; [perm Hi1|constructor|by apply pls_le_eq]. }
  destruct (an_map a); cbn [negb]; [|done]. set (lfd := Build_listener_fd_t _ _ _). destruct (an_event a =? 0); cbn [negb].
  - eexists _, _, 0. split; [done|]. split; [|split; [|done]].
    + exists []. split_and!; [|constructor|by apply pls_le_eq]. unfold set_lfdlist. perm Hi1.
    + split_and!; simpl; try done. apply Forall_app. split; [done|]. repeat constructor. by eexists.
  - assert (Hlw : lfd_wf lfd) by (split; [by eexists|constructor]).
    destruct (listener_free_fd_gives k (set_pw w v) (wk_refs wk ++ g) lfd [] Hk Hlw) as (w2 & d & Hf & (lost & Hi2 & Hlost & Hle) & Hd); [perm Hi1|].
    rewrite Hf. cbn [bind]. eexists _, _, (-1). split; [done|]. split; [|split; [|done]].
    + exists lost. split_and!; [|done|exact Hle]. unfold add_delayed. perm Hi2.
    + split_and!; simpl; try done. by apply Forall_app.
Qed.

Lemma take_lfd_perm l p x rest : take_lfd l p = Some (x, rest) -> l ≡ₚ x :: rest.
Proof.
  revert x rest. induction l as [|y l IH]; intros x rest; cbn [take_lfd]; [done|]. case_bool_decide; [by intros [= <- <-]|].
  destruct (take_lfd l p) as [[z r]|]; [|done]. intros [= <- <-]. rewrite (IH z r eq_refl). apply Permutation_swap.
Qed.

Lemma del_policy_ok k w py wk g p busy :
  k < 2 ^ 31 -> runs w py -> wk_wf wk -> (forall x, x ∈ py_pllist py -> (RPl, x) ∈ g) -> pinv k w ((RPl, p) :: wk_refs wk ++ g) ->
  exists w' wk' rc, worker_del_policy w wk (Some p) busy = Ok (w', wk', rc) /\ gives k w w' (wk_refs wk' ++ g) /\ wk_wf wk' /\ wk_cmdlist wk' = wk_cmdlist wk.
Proof.
  intros Hk Hr (Hw1 & Hw2 & Hw3 & Hw4) Hg Hi. destruct (live_pl _ _ _ p Hi) as (l & Hl); [by left|]. destruct (Hr p l Hl) as (Hin & _).
  unfold worker_del_policy. unfold get_pl at 1. rewrite Hl. cbn [deref bind].
  destruct (policy_free_gives k w _ p Hk Hi) as (w1 & -> & (lost & Hi1 & Hlost & Hle)). cbn [bind].
  destruct (take_lfd (wk_lfdlist wk) p) as [[x rest]|] eqn:Ht.
  - apply take_lfd_perm in Ht. rewrite Ht in Hw1. apply Forall_cons in Hw1 as [Hx Hrest].
    destruct (listener_free_fd_gives k w1 (lost ++ (rest ≫= lfd_refs) ++ cmd_refs (wk_cmdlist wk) ++ ss_refs (wk_delayed wk) ++ g) x busy Hk Hx)
      as (w2 & d & -> & (lost' & Hi2 & Hlost' & Hle') & Hd).
    { eapply pinv_cnt; [exact Hi1|]. intros r. unfold wk_refs. rewrite !cnt_app.
      assert (E : cnt r (wk_lfdlist wk ≫= lfd_refs) = (cnt r (lfd_refs x) + cnt r (rest ≫= lfd_refs))%nat) by (rewrite <- cnt_app, <- bind_cons; by apply cnt_perm; rewrite Ht). lia. }
    cbn [bind]. eexists _, _, 0. split; [done|]. split; [|split; [|done]].
    + exists (lost' ++ lost). split_and!; [perm Hi2|by apply Forall_app|by eapply pls_le_trans].
    + split_and!; simpl; try done. by apply Forall_app.
  - destruct (live_pl _ _ _ p Hi1) as (l' & Hl'); [apply elem_of_app; right; apply elem_of_app; right; auto|].
    unfold get_pl. rewrite Hl'. cbn [deref bind]. eexists w1, wk, (-1). split; [done|]. split; [|done]. exists lost. split_and!; done.
Qed.

Lemma run_cmds_ok k l w py wk g env i :
  k < 2 ^ 31 -> runs w py -> wk_wf wk -> (forall x, x ∈ py_pllist py -> (RPl, x) ∈ g) -> Forall cmd_wf l ->
  pinv k w (cmd_refs l ++ wk_refs wk ++ g) ->
  if unmapped l env i then run_cmds w wk l env i = Fault AssertFailed
  else exists w' wk', run_cmds w wk l env i = Ok (w', wk') /\ gives k w w' (failed_cmds l env i ++ wk_refs wk' ++ g) /\ wk_wf wk' /\ wk_cmdlist wk' = wk_cmdlist wk.
Proof.
  intros Hk Hr Hwf Hg Hl. revert w wk g i Hr Hwf Hg. induction Hl as [|c l Hc Hl IH]; intros w wk g i Hr Hwf Hg Hi; cbn [run_cmds unmapped].
  { exists w, wk. split; [done|]. split; [|done]. exists []. split_and!; [perm Hi|constructor|apply pls_le_refl]. }
  destruct Hc as [[p Hp] Hc].
  assert (Hi' : pinv k w ((RPl, p) :: wk_refs wk ++ cmd_refs l ++ g)) by (eapply pinv_cnt; [exact Hi|]; unfold cmd_refs; rewrite bind_cons, Hp; recount).
  assert (Hstep : if (wc_cmd c =? WORKER_CMD_ADD_POLICY) && negb (an_fd (env i).1 <? 0) && negb (an_map (env i).1) then worker_run_cmd w wk c (env i).1 (env i).2 = Fault AssertFailed
     else exists w' wk', worker_run_cmd w wk c (env i).1 (env i).2 = Ok (w', wk', 0) /\
     gives k w w' (failed_add c (env i).1 ++ wk_refs wk' ++ cmd_refs l ++ g) /\ wk_wf wk' /\ wk_cmdlist wk' = wk_cmdlist wk).
  { unfold worker_run_cmd, failed_add. rewrite Hp. destruct Hc as [-> | ->]; cbn [Z.eqb WORKER_CMD_ADD_POLICY WORKER_CMD_DEL_POLICY andb oref].
    - pose proof (add_policy_ok k w py wk (cmd_refs l ++ g) p (env i).1 Hk Hr Hwf Hi') as Ha. destruct (negb (an_fd (env i).1 <? 0) && negb (an_map (env i).1)); [by rewrite Ha|].
      destruct Ha as (w' & wk' & rc & -> & Hgv & Hwf' & Hcl). cbn [bind]. by exists w', wk'.
    - destruct (del_policy_ok k w py wk (cmd_refs l ++ g) p (env i).2 Hk Hr Hwf) as (w' & wk' & rc & -> & Hgv & Hwf' & Hcl);
        [intros x Hx; apply elem_of_app; auto|exact Hi'|]. cbn [bind]. by exists w', wk'. }
  destruct ((wc_cmd c =? WORKER_CMD_ADD_POLICY) && negb (an_fd (env i).1 <? 0) && negb (an_map (env i).1)); cbn [orb]; [by rewrite Hstep|].
  destruct Hstep as (w1 & wk1 & -> & (lost & Hi1 & Hlost & Hle) & Hwf1 & Hcl1). cbn [bind].
  assert (Hrec : pinv k w1 (cmd_refs l ++ wk_refs wk1 ++ lost ++ failed_add c (env i).1 ++ g)) by (perm Hi1).
  specialize (IH w1 wk1 (lost ++ failed_add c (env i).1 ++ g) (S i) ltac:(by eapply runs_le) Hwf1 ltac:(intros x Hx; set_solver) Hrec).
  destruct (unmapped l env (S i)); [done|]. destruct IH as (w2 & wk2 & -> & (lost' & Hi2 & Hlost' & Hle') & Hwf2 & Hcl2).
  exists w2, wk2. split; [done|]. split; [|split; [done|congruence]]. exists (lost' ++ lost). split_and!; [|by apply Forall_app|by eapply pls_le_trans].
  eapply pinv_cnt; [exact Hi2|]. cbn [failed_cmds]. fold (failed_add c (env i).1). recount.
Qed.

(** ** Accepting clients *)
Lemma accept_sessions_ok n k w g p l :
  k + Z.of_nat n < 2 ^ 31 -> (RPl, p) ∈ g -> Forall ss_wf l -> pinv k w (ss_refs l ++ g) ->
  exists w' l', accept_sessions n w (Some p) l = Ok (w', l') /\ pinv (k + Z.of_nat n) w' (ss_refs l' ++ g) /\ Forall ss_wf l' /\ pls_le w w'.
Proof.
  revert k w l. induction n as [|n IH]; intros k w l Hk Hp Hl Hi; cbn [accept_sessions].
  { exists w, l. split_and!; [done| |done|apply pls_le_refl]. eapply pinv_mono; [|exact Hi]. lia. }
  destruct (policy_clone_ok k w _ p ltac:(lia) Hi) as (pl & Hpl & -> & Hi1); [apply held; set_solver|]. cbn [bind].
  destruct (IH (k + 1) (put_pl w p (pl_ref pl (pl_refcnt pl + 1))) (l ++ [{| ss_policy := Some p; ss_svrdata := None |}])) as (w' & l' & -> & Hi2 & Hl' & Hle).
  { lia. } { done. } { apply Forall_app. split; [done|]. repeat constructor. by eexists. } { eapply pinv_cnt; [exact Hi1|]. recount. }
  exists w', l'. split_and!; [done| |done|]. { by replace (k + Z.of_nat (S n)) with (k + 1 + Z.of_nat n) by lia. }
  eapply pls_le_trans; [by apply pls_le_put|exact Hle].
Qed.

Lemma listener_accept_ok k w py g x n :
  (n <= 16)%nat -> 0 <= k -> k + 20 < 2 ^ 31 -> runs w py -> lfd_wf x -> pinv k w (lfd_refs x ++ g) ->
  exists w' x', listener_accept w x n = Ok (w', x') /\ pinv (k + 20) w' (lfd_refs x' ++ g) /\ lfd_wf x' /\ pls_le w w'.
Proof.
  intros Hn Hk0 Hk Hr [[p Hp] Hs] Hi. unfold listener_accept, lfd_refs in *. rewrite Hp in *. cbn [oref app] in Hi.
  destruct (live_pl _ _ _ p Hi) as (l & Hl); [by left|]. destruct (Hr p l Hl) as (_ & _ & _ & [ltd Hltd] & _).
  destruct (policy_clone_ltndata_ok k w _ p l ltac:(lia) Hi Hl) as (h & -> & Hi1). rewrite Hltd in *. cbn [bind oref app] in *.
  destruct (accept_sessions_ok n (k + 1) (set_ltds w h) ((RLtd, ltd) :: (RPl, p) :: g) p (lfd_ssnlist x)) as (w2 & l' & Ha & Hi2 & Hl' & Hle).
  { lia. } { set_solver. } { done. } { perm Hi1. }
  rewrite bool_decide_eq_false_2 by done. cbn [andb]. rewrite Ha. cbn [bind].
  destruct (listener_free_data_ok (k + 1 + Z.of_nat n) w2 ((RPl, p) :: ss_refs l' ++ g) ltd) as (w3 & Hf & _ & Hi3); [lia|perm Hi2|]. rewrite Hf. cbn [bind].
  eexists _, _. split; [done|]. split_and!; [|split; [by eexists|done]|].
  - simpl. eapply (pinv_mono (k + 1 + Z.of_nat n)); [lia|exact Hi3].
  - eapply pls_le_trans; [apply (pls_le_eq w (set_ltds w h)); done|]. eapply pls_le_trans; [exact Hle|]. apply pls_le_eq. by eapply listener_free_data_pls.
Qed.
End SystemProofs.
