(* ===== verification/SystemSteps.v ===== *)
(** * The steps of the main thread: running data, hand-out of policies, release *)
From S2P Require Import Prelude CLib IpAddr SvrPool SvrPoolProofs SvrPoolData SvrPoolClaims RefCount Policy PolicyProofs PolicyOps Proxy ProxyConfig ConfigProofs ConfigParse ConfigLines System SystemProofs.

Module SystemSteps.
Import IpAddr SvrPool SvrPoolProofs SvrPoolData SvrPoolClaims RefCount Policy PolicyProofs PolicyOps Proxy ProxyConfig ConfigProofs ConfigParse ConfigLines System SystemProofs.

(** ** Making running data leaves the pools alone *)
Definition pkeep (w w' : world) : Prop :=
  fresh_ok w -> fresh_ok w' /\ forall y p, w_heap w !! y = Some (OPool p) -> w_heap w' !! y = Some (OPool p).

Lemma pkeep_refl w : pkeep w w.
Proof. intros Hf. by split. Qed.
Lemma pkeep_trans w1 w2 w3 : pkeep w1 w2 -> pkeep w2 w3 -> pkeep w1 w3.
Proof. intros H1 H2 Hf. destruct (H1 Hf) as [Hf2 Hp1]. destruct (H2 Hf2) as [Hf3 Hp2]. split; [done|]. intros y p Hy. by apply Hp2, Hp1. Qed.
Lemma pkeep_put w x o o' : w_heap w !! x = Some o -> kind_of o <> KPool -> pkeep w (put w x o').
Proof.
  intros Hx Hk Hf. split.
  - intros y oy Hy. simpl in *. destruct (decide (y = x)) as [->|Hne]; [by eapply Hf|]. rewrite lookup_insert_ne in Hy by done. by eapply Hf.
  - intros y p Hy. simpl. rewrite lookup_insert_ne; [done|]. intros ->. rewrite Hx in Hy. injection Hy as ->. done.
Qed.
Lemma pkeep_hfree w x o : w_heap w !! x = Some o -> kind_of o <> KPool -> pkeep w (hfree w x).
Proof.
  intros Hx Hk Hf. split; [intros y oy Hy; simpl in *; apply lookup_delete_Some in Hy as [_ Hy]; by eapply Hf|].
  intros y p Hy. simpl. rewrite lookup_delete_ne; [done|]. intros ->. rewrite Hx in Hy. injection Hy as ->. done.
Qed.
Lemma pkeep_calloc w o w' r : calloc w o = (w', r) -> pkeep w w'.
Proof.
  unfold calloc. intros Hc Hf. destruct (w_oom w) as [|[] ?]; injection Hc as <- <-; (split; [|try done]); simpl.
  all: try (intros y oy Hy; simpl in *; destruct (decide (y = w_next w)) as [->|Hne]; [lia|]; rewrite lookup_insert_ne in Hy by done; specialize (Hf y oy Hy); lia).
  - intros y p Hy. rewrite lookup_insert_ne; [done|]. intros <-. specialize (Hf _ _ Hy). lia.
  - intros y oy Hy. by eapply Hf.
  - intros y p Hy. rewrite lookup_insert_ne; [done|]. intros <-. specialize (Hf _ _ Hy). lia.
Qed.
Lemma pkeep_ctx w w' b : ctx_alloc w = (w', b) -> pkeep w w'.
Proof. intros [= <- <-] Hf. by split. Qed.

Ltac pput :=
  match goal with
  | H : get_server ?w ?p = Ok _ |- pkeep _ (put ?w ?p _) => eapply pkeep_put; [apply get_server_Ok, H|done]
  | H : get_data ?w ?p = Ok _ |- pkeep _ (put ?w ?p _) => eapply pkeep_put; [apply get_data_Ok, H|done]
  | H : get_pdata ?w ?p = Ok _ |- pkeep _ (put ?w ?p _) => eapply pkeep_put; [apply get_pdata_Ok, H|done]
  | H : get_data ?w ?p = Ok _ |- pkeep _ (hfree ?w ?p) => eapply pkeep_hfree; [apply get_data_Ok, H|done]
  | |- pkeep _ (hfree (put ?w ?p (OServer _)) ?p) => eapply (pkeep_hfree _ _ (OServer _)); [apply lookup_insert_eq|done]
  end.
Ltac psolve :=
  repeat match goal with
  | |- pkeep ?w ?w => apply pkeep_refl
  | |- pkeep _ (put _ _ _) => eapply pkeep_trans; [|pput]
  | |- pkeep _ (hfree _ _) => eapply pkeep_trans; [|pput]
  | H : calloc ?w _ = (?v, _) |- pkeep _ ?v => eapply pkeep_trans; [|by eapply pkeep_calloc]; clear H
  | H : ctx_alloc ?w = (?v, _) |- pkeep _ ?v => eapply pkeep_trans; [|by eapply pkeep_ctx]; clear H
  | H : pkeep ?v ?w |- pkeep _ ?w => eapply pkeep_trans; [|exact H]
  | |- pkeep _ (if ?b then _ else _) => destruct b
  end.

Lemma server_clone_p w s w' r : server_clone w s = Ok (w', r) -> pkeep w w'.
Proof. unfold server_clone. intros H. kinv; psolve. Qed.
Lemma server_free_p w s w' r : server_free w s = Ok (w', r) -> pkeep w w'.
Proof. unfold server_free. intros H. kinv; psolve. Qed.
Lemma server_alloc_data_p w s w' r : server_alloc_data w s = Ok (w', r) -> pkeep w w'.
Proof.
  unfold server_alloc_data. intros H. kinv;
    repeat match goal with
    | H : server_clone _ _ = Ok _ |- _ => apply server_clone_p in H
    | H : server_free _ _ = Ok _ |- _ => apply server_free_p in H
    end; psolve.
Qed.
Lemma alloc_servers_p l w p i w' r : alloc_servers w p l i = Ok (w', r) -> pkeep w w'.
Proof.
  revert w i. induction l as [|s l IH]; intros w i; cbn [alloc_servers]; intros H; kinv; [psolve|].
  apply IH in H. match goal with H : server_alloc_data _ _ = Ok _ |- _ => apply server_alloc_data_p in H end. psolve.
Qed.
Lemma spdata_calc_gcd_p w s w' r : spdata_calc_gcd w s = Ok (w', r) -> pkeep w w'.
Proof. unfold spdata_calc_gcd. intros H. kinv; psolve. Qed.
Lemma svrpool_alloc_data_p w s w' r : svrpool_alloc_data w s = Ok (w', r) -> pkeep w w'.
Proof.
  unfold svrpool_alloc_data. intros H. kinv;
    repeat match goal with
    | H : alloc_servers _ _ _ _ = Ok _ |- _ => apply alloc_servers_p in H
    | H : spdata_calc_gcd _ _ = Ok _ |- _ => apply spdata_calc_gcd_p in H
    end; psolve.
Qed.

(** ** _py_init_data *)
Definition ready (w : pworld) (p : positive) : Prop :=
  exists l ltn sp, pw_pls w !! p = Some l /\ pc_listener (pl_cfg l) = Some ltn /\ pc_svrpool (pl_cfg l) = Some sp /\
    pl_data l = {| pd_ltndata := None; pd_spdata := None |} /\ exists q, w_heap (pw w) !! sp = Some (OPool q) /\ (0 < length (sp_svrlist q))%nat.

(** Running data for too large a pool. *)
Lemma policy_init_data_over k w g p :
  0 <= k -> k + 257 < 2 ^ 31 -> pinv k w g -> ready w p -> big_pool w p = true -> policy_init_data w (Some p) = Fault OutOfBounds.
Proof.
  intros Hk0 Hk Hi (l & ltn & sp & Hp & Hltn & Hsp & _ & (q & Hq & _)). unfold big_pool. rewrite Hp, Hsp, Hq. intros Hb%Z.ltb_lt.
  unfold policy_init_data, get_pl. rewrite Hp. cbn [deref bind]. rewrite Hltn, Hsp. destruct (sp_all _ _ _ Hi) as (own & Hw & _).
  rewrite (svrpool_alloc_data_over k (pw w) own sp q); [done|done|done|done|done|]. unfold MAX_SERVER in *. lia.
Qed.

Lemma init_policies_ok l k w g :
  0 <= k -> k + 257 * Z.of_nat (length l) < 2 ^ 31 -> NoDup l -> (forall p, p ∈ l -> ready w p) -> pinv k w g ->
  if existsb (big_pool w) l then init_policies w l = Fault OutOfBounds
  else exists w', init_policies w l = Ok (w', 0) /\ pinv (k + 257 * Z.of_nat (length l)) w' g /\
    (forall p, p ∉ l -> pw_pls w' !! p = pw_pls w !! p) /\
    (forall p pl', p ∈ l -> pw_pls w' !! p = Some pl' -> exists pl, pw_pls w !! p = Some pl /\ pl_cfg pl' = pl_cfg pl /\ is_Some (pd_ltndata (pl_data pl')) /\ is_Some (pd_spdata (pl_data pl'))).
Proof.
  revert k w. induction l as [|p l IH]; intros k w Hk0 Hk Hnd Hr Hi; cbn [init_policies existsb].
  { exists w. split_and!; [done|eapply pinv_mono; [|exact Hi]; simpl; lia|done|]. by intros p pl' ?%elem_of_nil. }
  apply NoDup_cons in Hnd as [Hp Hnd]. cbn [length] in Hk. destruct (big_pool w p) eqn:Hbig; cbn [orb].
  { by rewrite (policy_init_data_over k w g p Hk0 ltac:(lia) Hi (Hr p ltac:(left)) Hbig). }
  destruct (Hr p ltac:(left)) as (pl & ltn & sp & Hpl & Hltn & Hsp & Hd & (q & Hq & Hlen)).
  assert (Hfit : pool_fit (pw w) sp) by (exists q; split; [done|]; unfold big_pool in Hbig; rewrite Hpl, Hsp, Hq in Hbig; apply Z.ltb_ge in Hbig; lia).
  destruct (policy_init_data_ok k w g p pl ltn sp Hk0 ltac:(lia) Hi Hpl Hltn Hsp Hd Hfit) as (w1 & v & ltd & spd & -> & Hi1 & Hpls & _ & _ & Hal & Hh). cbn [bind negb Z.eqb].
  assert (Hpool : forall y pp, w_heap (pw w) !! y = Some (OPool pp) -> w_heap (pw w1) !! y = Some (OPool pp)).
  { intros y pp Hy. rewrite Hh. destruct (sp_all _ _ _ Hi) as (own & (_ & Hf & _) & _). by apply (svrpool_alloc_data_p _ _ _ _ Hal Hf). }
  assert (Hr1 : forall q', q' ∈ l -> ready w1 q' /\ big_pool w1 q' = big_pool w q').
  { intros q' Hq'. destruct (Hr q' ltac:(by right)) as (ql & qt & qs & Hql & ? & Hqs & ? & (qp & Hqp & ?)). assert (Hne : q' <> p) by (intros ->; done).
    assert (Hql1 : pw_pls w1 !! q' = Some ql) by (by rewrite Hpls, lookup_insert_ne). split; [exists ql, qt, qs; split_and!; try done; exists qp; auto|].
    unfold big_pool. by rewrite Hql1, Hql, Hqs, (Hpool _ _ Hqp), Hqp. }
  assert (Hex : existsb (big_pool w1) l = existsb (big_pool w) l).
  { clear -Hr1. induction l as [|y l IHl]; [done|]. cbn [existsb]. rewrite (proj2 (Hr1 y ltac:(left))). f_equal. apply IHl. intros q' Hq'. apply Hr1. by right. }
  specialize (IH (k + 257) w1 ltac:(lia) ltac:(lia) Hnd (fun q' H' => proj1 (Hr1 q' H')) Hi1). rewrite Hex in IH.
  destruct (existsb (big_pool w) l); [done|]. destruct IH as (w2 & -> & Hi2 & Hout & Hin). clear dependent q.
  exists w2. split_and!; [done|eapply pinv_mono; [|exact Hi2]; cbn [length]; lia| |].
  - intros q [Hqp Hq]%not_elem_of_cons. rewrite Hout by done. by rewrite Hpls, lookup_insert_ne.
  - intros q pl' [->|Hq]%elem_of_cons Hpl'.
    + rewrite Hout, Hpls, lookup_insert_eq in Hpl' by done. injection Hpl' as <-. exists pl. simpl. eauto.
    + assert (Hne : q <> p) by (intros ->; done). destruct (Hin q pl' Hq Hpl') as (pl0 & Hpl0 & ? & ? & ?). rewrite Hpls, lookup_insert_ne in Hpl0 by done. by exists pl0.
Qed.

(** ** _py_free_data and proxy_free *)
Lemma free_policy_datas_ok l k w g :
  k < 2 ^ 31 -> (forall p, p ∈ l -> (RPl, p) ∈ g) -> pinv k w g -> exists w', free_policy_datas w l = Ok w' /\ pinv k w' g.
Proof.
  intros Hk. revert w. induction l as [|p l IH]; intros w Hl Hi; cbn [free_policy_datas]; [eauto|].
  destruct (live_pl _ _ _ p Hi) as (pl & Hpl); [apply Hl; left|]. destruct (policy_free_data_ok k w g p pl Hk Hi Hpl) as (w1 & -> & Hi1 & _). cbn [bind].
  apply IH; [|done]. intros q Hq. apply Hl. by right.
Qed.

Lemma free_listeners_ok l k w g :
  k < 2 ^ 31 -> pinv k w ((pair RLtn <$> l) ++ g) -> exists w' lost, free_listeners w l = Ok w' /\ pinv k w' (lost ++ g) /\ Forall is_cert lost.
Proof.
  intros Hk. revert w g. induction l as [|p l IH]; intros w g Hi; cbn [free_listeners]; [by exists w, []|]. rewrite fmap_cons, <- app_comm_cons in Hi.
  destruct (listener_free_ok k w _ p Hk Hi) as (h & lost & -> & Hi1 & Hl & _). cbn [bind]. destruct (IH (set_ltns w h) (lost ++ g)) as (w' & lost' & -> & Hi2 & Hl').
  { eapply pinv_cnt; [exact Hi1|]. intros r. rewrite !cnt_app. lia. }
  exists w', (lost' ++ lost). split_and!; [done| |by apply Forall_app]. eapply pinv_cnt; [exact Hi2|]. intros r. rewrite !cnt_app. lia.
Qed.

Lemma free_svrpools_ok l k w g :
  k < 2 ^ 31 -> pinv k w ((pair RPool <$> l) ++ g) -> exists w', free_svrpools w l = Ok w' /\ pinv k w' g.
Proof.
  intros Hk. revert w. induction l as [|p l IH]; intros w Hi; cbn [free_svrpools]; [by exists w|]. rewrite fmap_cons, <- app_comm_cons in Hi.
  destruct (pool_free_ok k w _ p Hk Hi) as (v & Hv & Hi1). rewrite Hv. cbn [bind on_pw]. by apply IH.
Qed.

Lemma free_policies_ok l k w g :
  k < 2 ^ 31 -> pinv k w ((pair RPl <$> l) ++ g) -> exists w' lost, free_policies w l = Ok w' /\ pinv k w' (lost ++ g) /\ Forall is_cert lost.
Proof.
  intros Hk. revert w g. induction l as [|p l IH]; intros w g Hi; cbn [free_policies]; [by exists w, []|]. rewrite fmap_cons, <- app_comm_cons in Hi.
  destruct (policy_free_ok k w _ p Hk Hi) as (w1 & lost & -> & Hi1 & Hl). cbn [bind]. destruct (IH w1 (lost ++ g)) as (w' & lost' & -> & Hi2 & Hl').
  { eapply pinv_cnt; [exact Hi1|]. intros r. rewrite !cnt_app. lia. }
  exists w', (lost' ++ lost). split_and!; [done| |by apply Forall_app]. eapply pinv_cnt; [exact Hi2|]. intros r. rewrite !cnt_app. lia.
Qed.

(** What remains of the references of the proxy are those to certificate sets. *)
Lemma proxy_free_ok k w py g :
  k < 2 ^ 31 -> pinv k w (py_refs py ++ g) ->
  exists w' certs, proxy_free w (Some py) = Ok (w', 0) /\ pinv k w' (certs ++ g) /\ Forall is_cert certs.
Proof.
  intros Hk Hi. unfold proxy_free. set (C := pair RCert <$> py_certlist py).
  destruct (free_listeners_ok (py_ltnlist py) k w (C ++ (pair RPool <$> py_splist py) ++ (pair RPl <$> py_pllist py) ++ g) Hk) as (w1 & l1 & -> & Hi1 & Hl1).
  { eapply pinv_cnt; [exact Hi|]. intros r. unfold py_refs. fold C. rewrite !cnt_app. lia. }
  cbn [bind]. destruct (free_svrpools_ok (py_splist py) k w1 (l1 ++ C ++ (pair RPl <$> py_pllist py) ++ g) Hk) as (w2 & -> & Hi2).
  { eapply pinv_cnt; [exact Hi1|]. intros r. rewrite !cnt_app. lia. }
  cbn [bind]. destruct (free_policies_ok (py_pllist py) k w2 (l1 ++ C ++ g) Hk) as (w3 & l3 & -> & Hi3 & Hl3).
  { eapply pinv_cnt; [exact Hi2|]. intros r. rewrite !cnt_app. lia. }
  cbn [bind]. exists w3, (l3 ++ l1 ++ C). split_and!; [done| |].
  - eapply pinv_cnt; [exact Hi3|]. intros r. rewrite !cnt_app. lia.
  - apply Forall_app. split; [done|]. apply Forall_app. split; [done|]. unfold C. apply Forall_fmap, Forall_true. by intros x.
Qed.
End SystemSteps.
