(* ===== verification/SystemInv.v ===== *)
(** * The invariant of the running proxy, and that every step keeps it *)
From S2P Require Import Prelude CLib IpAddr SvrPool SvrPoolProofs SvrPoolClaims RefCount Policy PolicyProofs PolicyOps Proxy ProxyConfig ConfigProofs ConfigParse ConfigLines System SystemProofs SystemSteps.

Module SystemInv.
Import IpAddr SvrPool SvrPoolProofs SvrPoolClaims RefCount Policy PolicyProofs PolicyOps Proxy ProxyConfig ConfigProofs ConfigParse ConfigLines System SystemProofs SystemSteps.

(** ** References held in one place of a list *)
Lemma cnt_bind_insert {A} (f : A -> list rf) l i x y r :
  l !! i = Some x -> (cnt r (<[i := y]> l ≫= f) + cnt r (f x) = cnt r (l ≫= f) + cnt r (f y))%nat.
Proof.
  revert i. induction l as [|z l IH]; intros [|i] Hi; [done|done|injection Hi as ->; rewrite bind_cons, cnt_app|specialize (IH i Hi); rewrite bind_cons, cnt_app].
  - change (<[0%nat := y]> (x :: l)) with (y :: l). rewrite bind_cons, cnt_app. lia.
  - change (<[S i := y]> (z :: l)) with (z :: <[i := y]> l). rewrite bind_cons, cnt_app. lia.
Qed.
Lemma cnt_bind_delete {A} (f : A -> list rf) l i x r :
  l !! i = Some x -> (cnt r (delete i l ≫= f) + cnt r (f x) = cnt r (l ≫= f))%nat.
Proof.
  revert i. induction l as [|z l IH]; intros [|i] Hi; [done|done|injection Hi as ->; rewrite bind_cons, cnt_app|specialize (IH i Hi); rewrite bind_cons, cnt_app].
  - change (delete 0%nat (x :: l)) with l. lia.
  - change (delete (S i) (z :: l)) with (z :: delete i l). rewrite bind_cons, cnt_app. lia.
Qed.

(** ** Handing out the policies *)
Definition slot_refs (o : option worker_t) : list rf := match o with Some k => wk_refs k | None => [] end.
Definition wks_refs (l : list (option worker_t)) : list rf := l ≫= slot_refs.
Definition slot_wf (o : option worker_t) : Prop := match o with Some k => wk_wf k | None => True end.

Lemma add_to_workers_ok n i k w wks g p :
  k + Z.of_nat n < 2 ^ 31 -> (i + n <= length wks)%nat -> (RPl, p) ∈ g -> Forall slot_wf wks -> pinv k w (wks_refs wks ++ g) ->
  exists w' wks' rc lost, add_to_workers n i w wks p = Ok (w', wks', rc) /\ pinv (k + Z.of_nat n) w' (wks_refs wks' ++ lost ++ g) /\ Forall is_cert lost /\
    Forall slot_wf wks' /\ pls_le w w' /\ length wks' = length wks.
Proof.
  revert i k w wks g. induction n as [|n IH]; intros i k w wks g Hk Hl Hp Hwf Hi; cbn [add_to_workers].
  { exists w, wks, 0, []. split_and!; try done; [|apply pls_le_refl]. eapply pinv_mono; [|exact Hi]. lia. }
  destruct (new_block_ok k w _ Hi) as (v & x & -> & Hi1 & _). set (w1 := set_pw w v) in *.
  destruct (policy_clone_ok k w1 _ p ltac:(lia) Hi1) as (pl & Hpl & -> & Hi2); [apply held; set_solver|]. cbn [bind].
  set (w2 := put_pl w1 p (pl_ref pl (pl_refcnt pl + 1))) in *. assert (Hle : pls_le w w2) by (eapply pls_le_trans; [by apply (pls_le_eq w w1)|by apply pls_le_put]).
  destruct (lookup_lt_is_Some_2 wks i) as [o Ho]; [lia|]. rewrite (arr_get_nat _ _ _ Ho). cbn [bind]. pose proof (Forall_lookup_1 _ _ _ _ Hwf Ho) as Hwo.
  destruct o as [wk|]; cbn [worker_add_cmd negb Z.eqb].
  - set (wk' := Build_worker_t _ _ _ _). assert (Hset : arr_set wks (Z.of_nat i) (Some wk') = Ok (<[i := Some wk']> wks)) by (apply arr_set_Ok; rewrite Nat2Z.id; split; [lia|done]).
    rewrite Hset. cbn [bind].
    destruct (IH (S i) (k + 1) w2 (<[i := Some wk']> wks) g) as (w' & wks' & rc & lost & -> & Hi3 & Hlost & Hwf' & Hle' & Hlen).
    { lia. } { rewrite length_insert. lia. } { done. }
    { apply Forall_insert; [done|]. destruct Hwo as (H1 & H2 & H3 & H4). split_and!; simpl; try done.
      - apply Forall_app. split; [done|]. constructor; [|constructor]. split; [by eexists|by left].
      - rewrite length_app. simpl. lia. }
    { eapply pinv_cnt; [exact Hi2|]. intros r. rewrite cnt_cons, !cnt_app. pose proof (cnt_bind_insert slot_refs wks i (Some wk) (Some wk') r Ho) as H. unfold wks_refs.
      cbn [slot_refs] in H. assert (cnt r (wk_refs wk') = one (RPl, p) r + cnt r (wk_refs wk))%nat by (subst wk'; revert r H; recount). lia. }
    exists w', wks', rc, lost. rewrite length_insert in Hlen. split_and!; try done; [by replace (k + Z.of_nat (S n)) with (k + 1 + Z.of_nat n) by lia|by eapply pls_le_trans].
  - destruct (policy_free_gives (k + 1) w2 _ p ltac:(lia) Hi2) as (w3 & -> & (lost & Hi3 & Hlost & Hle')). cbn [bind].
    exists w3, wks, (-1), lost. split_and!; try done; [|by eapply pls_le_trans]. eapply pinv_mono; [|perm Hi3]. lia.
Qed.

Lemma py_loop_add_ok l k w py wks g n :
  0 <= n -> n <= Z.of_nat (length wks) -> k + n * Z.of_nat (length l) < 2 ^ 31 -> (forall p, p ∈ l -> (RPl, p) ∈ g) -> runs w py -> Forall slot_wf wks ->
  pinv k w (wks_refs wks ++ g) ->
  exists w' wks' rc lost, py_loop_add w wks n l = Ok (w', wks', rc) /\ pinv (k + n * Z.of_nat (length l)) w' (wks_refs wks' ++ lost ++ g) /\ Forall is_cert lost /\
    Forall slot_wf wks' /\ pls_le w w' /\ length wks' = length wks.
Proof.
  intros Hn0. revert k w wks g. induction l as [|p l IH]; intros k w wks g Hn Hk Hl Hr Hwf Hi; cbn [py_loop_add].
  { exists w, wks, 0, []. split_and!; try done; [|apply pls_le_refl]. eapply pinv_mono; [|exact Hi]. simpl. lia. }
  cbn [length] in *. destruct (live_pl _ _ _ p Hi) as (pl & Hpl); [apply elem_of_app; right; apply Hl; left|]. destruct (Hr p pl Hpl) as (_ & Hltn & Hsp & _).
  unfold get_pl. rewrite Hpl. cbn [deref bind]. rewrite !bool_decide_eq_true_2 by done. cbn [bind].
  destruct (add_to_workers_ok (Z.to_nat n) 0 k w wks g p) as (w1 & wks1 & rc & lost & -> & Hi1 & Hlost & Hwf1 & Hle1 & Hlen1); [nia|lia|apply Hl; left|done..|].
  cbn [bind]. rewrite Z2Nat.id in Hi1 by done. destruct (negb (rc =? 0)).
  { exists w1, wks1, (-1), lost. split_and!; try done. eapply pinv_mono; [|exact Hi1]. nia. }
  destruct (IH (k + n) w1 wks1 (lost ++ g)) as (w2 & wks2 & rc2 & lost2 & -> & Hi2 & Hlost2 & Hwf2 & Hle2 & Hlen2).
  { lia. } { lia. } { intros q Hq. apply elem_of_app. right. apply Hl. by right. } { by eapply runs_le. } { done. } { done. }
  exists w2, wks2, rc2, (lost2 ++ lost). split_and!; [done| |by apply Forall_app|done|by eapply pls_le_trans|congruence].
  eapply pinv_mono; [|perm Hi2]. lia.
Qed.

(** ** The invariant *)
Definition held_by (s : sys) : list rf := match sy_phase s with Released => [] | _ => py_refs (sy_py s) end.

Definition phase_ok (s : sys) : Prop :=
  match sy_phase s with
  | Loaded => (forall p, p ∈ py_pllist (sy_py s) -> ready (sy_w s) p) /\ NoDup (py_pllist (sy_py s)) /\
              (forall p l, pw_pls (sy_w s) !! p = Some l -> p ∈ py_pllist (sy_py s)) /\ no_workers s
  | Running => runs (sy_w s) (sy_py s)
  | Stopped | Released => no_workers s
  end.

Record sinv (k : Z) (s : sys) (certs : list rf) : Prop := {
  si_k : 0 <= k;
  si_inv : pinv k (sy_w s) (held_by s ++ wks_refs (sy_wks s) ++ sy_lost s ++ certs);
  si_certs : Forall is_cert certs;
  si_wks : Forall slot_wf (sy_wks s);
  si_n : 0 <= nworker (py_cfg (sy_py s)) <= Z.of_nat (length (sy_wks s));
  si_phase : phase_ok s }.

Lemma no_workers_refs s : no_workers s -> wks_refs (sy_wks s) = [].
Proof. unfold no_workers, wks_refs. induction 1 as [|o l -> Hl IH]; [done|]. by rewrite bind_cons. Qed.

(** *** One worker's step *)
Definition others (s : sys) (i : nat) (certs : list rf) : list rf :=
  py_refs (sy_py s) ++ wks_refs (<[i := None]> (sy_wks s)) ++ sy_lost s ++ certs.

Lemma the_worker_slot s i wk : the_worker s i = Some wk -> sy_wks s !! i = Some (Some wk).
Proof. unfold the_worker. destruct (sy_wks s !! i) as [[]|]; congruence. Qed.

Lemma sinv_focus k s certs i o :
  sinv k s certs -> sy_phase s = Running -> sy_wks s !! i = Some o ->
  pinv k (sy_w s) (slot_refs o ++ others s i certs) /\ slot_wf o /\ runs (sy_w s) (sy_py s).
Proof.
  intros Hs Hp Hi. split_and!.
  - eapply pinv_cnt; [apply Hs|]. intros r. unfold held_by, others. rewrite Hp, !cnt_app. pose proof (cnt_bind_insert slot_refs _ i o None r Hi) as H0. cbn [slot_refs] in H0. rewrite cnt_nil in H0. unfold wks_refs. lia.
  - eapply Forall_lookup_1; [apply Hs|done].
  - pose proof (si_phase _ _ _ Hs) as H. unfold phase_ok in H. by rewrite Hp in H.
Qed.

Lemma sinv_unfocus k k' s certs i o w' o' out lost :
  sinv k s certs -> sy_phase s = Running -> sy_wks s !! i = Some o -> k <= k' ->
  pinv k' w' (lost ++ out ++ slot_refs o' ++ others s i certs) -> Forall is_cert lost -> slot_wf o' -> pls_le (sy_w s) w' ->
  sinv k' (set_wk s w' i o' out) (lost ++ certs).
Proof.
  intros Hs Hp Hi Hk Hi' Hl Hwf Hle. split; simpl.
  - destruct Hs. lia.
  - eapply pinv_cnt; [exact Hi'|]. intros r. unfold held_by, others. simpl. rewrite Hp, !cnt_app. unfold wks_refs.
    pose proof (cnt_bind_insert slot_refs _ i o o' r Hi). pose proof (cnt_bind_insert slot_refs _ i o None r Hi) as H0. cbn [slot_refs] in H0. rewrite cnt_nil in H0. lia.
  - apply Forall_app. split; [done|apply Hs].
  - apply Forall_insert; [apply Hs|done].
  - rewrite length_insert. apply Hs.
  - pose proof (si_phase _ _ _ Hs) as H. unfold phase_ok in *. simpl. rewrite Hp in *. by eapply runs_le.
Qed.

(** The worker's step as [gives] states it. *)
Lemma sinv_gives k s certs i o w' o' out :
  sinv k s certs -> sy_phase s = Running -> sy_wks s !! i = Some o -> slot_wf o' ->
  gives k (sy_w s) w' (out ++ slot_refs o' ++ others s i certs) -> exists certs', sinv (k + 20) (set_wk s w' i o' out) certs'.
Proof.
  intros Hs Hp Hi Hwf (lost & Hi' & Hl & Hle). exists (lost ++ certs). eapply sinv_unfocus; try done; [lia|]. eapply pinv_mono; [|exact Hi']. lia.
Qed.

Lemma sinv_stay k k' s certs : k <= k' -> sinv k s certs -> sinv k' s certs.
Proof. intros Hk [H1 H2 H3 H4 H5 H6]. split; try done; [lia|by eapply pinv_mono]. Qed.

Lemma others_pl s i certs p : p ∈ py_pllist (sy_py s) -> (RPl, p) ∈ others s i certs.
Proof. intros Hp. unfold others, py_refs. set_solver. Qed.

(** *** The steps *)
Definition act_keeps (k : Z) (s : sys) (a : action) : Prop :=
  match faults s a with
  | Some f => act s a = Fault f
  | None => exists s' certs', act s a = Ok s' /\ sinv (k + cost s a) s' certs'
  end.

Lemma act_init k s certs rlim :
  sinv k s certs -> guard s (AInit rlim) -> k + cost s (AInit rlim) < 2 ^ 31 -> act_keeps k s (AInit rlim).
Proof.
  intros Hs Hg Hk. unfold act_keeps. cbn [act guard cost faults] in *. pose proof (si_phase _ _ _ Hs) as Hp. unfold phase_ok in Hp. rewrite Hg in Hp.
  destruct Hp as (Hr & Hnd & Hdom & Hnw). pose proof (si_inv _ _ _ Hs) as Hi. pose proof (si_k _ _ _ Hs) as Hk0. unfold held_by in Hi. rewrite Hg in Hi.
  unfold py_init_data. set (py' := Build_proxy_t _ _ _ _ _ _ _ _ _ _).
  assert (Hstop : forall w', pinv (k + 257 * Z.of_nat (length (py_pllist (sy_py s)))) w' (py_refs (sy_py s) ++ wks_refs (sy_wks s) ++ sy_lost s ++ certs) ->
    forall ph, ph <> Released -> (ph = Running -> runs w' py') -> ph <> Loaded ->
    sinv (k + 257 * Z.of_nat (length (py_pllist (sy_py s)))) {| sy_w := w'; sy_py := py'; sy_wks := sy_wks s; sy_phase := ph; sy_lost := sy_lost s |} certs).
  { intros w' Hi' ph Hph Hrun Hld. split; simpl; [lia| |apply Hs..|].
    - unfold held_by. simpl. by destruct ph.
    - unfold phase_ok. simpl. destruct ph; try done. by apply Hrun. }
  destruct ((1024 <? py_maxfd py') && negb (rlim =? 0)) eqn:E.
  { subst py'. cbn [py_maxfd] in E. rewrite E. cbn [bind]. eexists _, certs. split; [done|]. apply Hstop; try done. eapply pinv_mono; [|exact Hi]. lia. }
  subst py'. cbn [py_maxfd] in E. rewrite E. cbn [bind py_pllist].
  pose proof (init_policies_ok (py_pllist (sy_py s)) k (sy_w s) _ Hk0 ltac:(lia) Hnd Hr Hi) as Hinit.
  destruct (existsb _ _); [by rewrite Hinit|]. destruct Hinit as (w' & -> & Hi' & Hout & Hin). cbn [bind].
  eexists _, certs. split; [done|]. apply Hstop; [exact Hi'|done| |done]. intros _ p l Hpl. cbn [py_pllist].
  destruct (decide (p ∈ py_pllist (sy_py s))) as [Hp|Hp].
  - destruct (Hin p l Hp Hpl) as (l0 & Hl0 & -> & ? & ?). destruct (Hr p Hp) as (l1 & ltn & sp & Hl1 & Hltn & Hsp & _). rewrite Hl0 in Hl1. injection Hl1 as <-.
    rewrite Hltn, Hsp. by eauto 10.
  - rewrite Hout in Hpl by done. by destruct Hp; eapply Hdom.
Qed.

Lemma act_loop k s certs : sinv k s certs -> guard s ALoop -> k + cost s ALoop < 2 ^ 31 -> act_keeps k s ALoop.
Proof.
  intros Hs Hg Hk. unfold act_keeps. cbn [act guard cost] in *. pose proof (si_phase _ _ _ Hs) as Hp. unfold phase_ok in Hp. rewrite Hg in Hp.
  pose proof (si_n _ _ _ Hs) as Hn. pose proof (si_inv _ _ _ Hs) as Hi. unfold held_by in Hi. rewrite Hg in Hi. unfold py_loop. rewrite Z2Nat.id in * by lia.
  destruct (py_loop_add_ok (py_pllist (sy_py s)) k (sy_w s) (sy_py s) (sy_wks s) (py_refs (sy_py s) ++ sy_lost s ++ certs) (nworker (py_cfg (sy_py s))))
    as (w' & wks' & rc & lost & -> & Hi' & Hl & Hwf & Hle & Hlen); [lia|lia|lia| |done|apply Hs|perm Hi|].
  { intros p Hp'. unfold py_refs. set_solver. }
  cbn [bind]. eexists _, (lost ++ certs). split; [done|]. split; simpl.
  - destruct Hs. nia.
  - unfold held_by. simpl. rewrite Hg. perm Hi'.
  - apply Forall_app. split; [done|apply Hs].
  - done.
  - by rewrite Hlen.
  - unfold phase_ok. simpl. rewrite Hg. by eapply runs_le.
Qed.

Lemma act_start k s certs i : sinv k s certs -> guard s (AStart i) -> act_keeps k s (AStart i).
Proof.
  intros Hs [Hg Hi]. unfold act_keeps. cbn [act cost]. destruct (sinv_focus _ _ _ _ _ Hs Hg Hi) as (Hi1 & _ & Hr).
  eexists. destruct (sinv_gives k s certs i None (sy_w s) (Some {| wk_lfdlist := []; wk_cmdlist := []; wk_ncmd := 0; wk_delayed := [] |}) [] Hs Hg Hi) as (c & Hc).
  - split_and!; simpl; done || constructor.
  - exists []. split_and!; [done|constructor|apply pls_le_refl].
  - exists c. by split.
Qed.

Lemma act_del k s certs i p : sinv k s certs -> guard s (ADel i p) -> k + 20 < 2 ^ 31 -> act_keeps k s (ADel i p).
Proof.
  intros Hs (Hg & [wk Hwk] & Hp) Hk. unfold act_keeps. cbn [act cost]. pose proof (the_worker_slot _ _ _ Hwk) as Hi.
  destruct (sinv_focus _ _ _ _ _ Hs Hg Hi) as (Hi1 & (H1 & H2 & H3 & H4) & Hr).
  destruct (policy_clone_ok k (sy_w s) _ p ltac:(lia) Hi1) as (pl & Hpl & -> & Hi2); [apply held; apply elem_of_app; right; by apply others_pl|].
  cbn [bind]. rewrite Hwk. cbn [worker_add_cmd]. eexists _, ([] ++ certs). split; [done|].
  eapply (sinv_unfocus k (k + 20)); try done; [lia| | |by apply pls_le_put].
  - eapply pinv_mono; [|eapply pinv_cnt; [exact Hi2|]]; [lia|]. cbn [slot_refs]. recount.
  - split_and!; simpl; try done; [apply Forall_app; split; [done|]; constructor; [|constructor]; split; [by eexists|by right]|rewrite length_app; simpl; lia].
Qed.

Lemma act_get_cmd k s certs i env : sinv k s certs -> guard s (AGetCmd i env) -> k + 20 < 2 ^ 31 -> act_keeps k s (AGetCmd i env).
Proof.
  intros Hs Hg Hk. unfold act_keeps. cbn [act cost guard faults] in *. destruct (the_worker s i) as [wk|] eqn:Hwk; [|exists s, certs; split; [done|]; eapply sinv_stay; [|done]; lia].
  pose proof (the_worker_slot _ _ _ Hwk) as Hi. destruct (sinv_focus _ _ _ _ _ Hs Hg Hi) as (Hi1 & (H1 & H2 & H3 & H4) & Hr).
  unfold worker_get_cmd. destruct (0 <? wk_ncmd wk) eqn:E; cbn [bind andb].
  - set (wk0 := Build_worker_t _ _ _ _). assert (Hwk0 : wk_wf wk0) by (split_and!; simpl; done || constructor).
    assert (Hi0 : pinv k (sy_w s) (cmd_refs (wk_cmdlist wk) ++ wk_refs wk0 ++ others s i certs)) by (subst wk0; cbn [slot_refs] in Hi1; perm Hi1).
    pose proof (run_cmds_ok k (wk_cmdlist wk) (sy_w s) (sy_py s) wk0 (others s i certs) env 0 ltac:(lia) Hr Hwk0 ltac:(intros x Hx; by apply others_pl) H2 Hi0) as Hcmds.
    destruct (unmapped _ _ _); [by rewrite Hcmds|]. destruct Hcmds as (w' & wk' & -> & Hgv & Hwf & _). cbn [bind]. destruct (sinv_gives k s certs i (Some wk) w' (Some wk') (failed_cmds (wk_cmdlist wk) env 0) Hs Hg Hi Hwf Hgv) as (c & Hc). by exists (set_wk s w' i (Some wk') (failed_cmds (wk_cmdlist wk) env 0)), c.
  - destruct (sinv_gives k s certs i (Some wk) (sy_w s) (Some wk) [] Hs Hg Hi) as (c & Hc); [done|exists []; split_and!; [done|constructor|apply pls_le_refl]|].
    eexists _, c. by split.
Qed.

Lemma act_stop k s certs i busy : sinv k s certs -> guard s (AStop i busy) -> k + 20 < 2 ^ 31 -> act_keeps k s (AStop i busy).
Proof.
  intros Hs Hg Hk. unfold act_keeps. cbn [act cost guard] in *. destruct (the_worker s i) as [wk|] eqn:Hwk; [|exists s, certs; split; [done|]; eapply sinv_stay; [|done]; lia].
  pose proof (the_worker_slot _ _ _ Hwk) as Hi. destruct (sinv_focus _ _ _ _ _ Hs Hg Hi) as (Hi1 & (H1 & H2 & H3 & H4) & Hr). unfold worker_free.
  destruct (free_lfds_gives k (wk_lfdlist wk) (sy_w s) (cmd_refs (wk_cmdlist wk) ++ ss_refs (wk_delayed wk) ++ others s i certs) busy 0) as (w' & d & -> & (lost & Hi2 & Hl & Hle) & Hd).
  { lia. } { done. } { cbn [slot_refs] in Hi1. unfold wk_refs in Hi1. by rewrite <- !app_assoc in Hi1. }
  cbn [bind]. eexists. destruct (sinv_gives k s certs i (Some wk) w' None (cmd_refs (wk_cmdlist wk) ++ ss_refs (wk_delayed wk ++ d)) Hs Hg Hi) as (c & Hc); [done| |by exists c].
  exists lost. split_and!; [|done..]. cbn [slot_refs]. perm Hi2.
Qed.

(** *** Steps on one listening descriptor *)
Lemma the_lfd_slot s i j wk x : the_lfd s i j = Some (wk, x) -> sy_wks s !! i = Some (Some wk) /\ wk_lfdlist wk !! j = Some x.
Proof.
  unfold the_lfd. destruct (the_worker s i) as [k|] eqn:Hk; [|done]. intros H. destruct (wk_lfdlist k !! j) as [y|] eqn:Hj; [|done]. injection H as -> ->.
  split; [by apply the_worker_slot|done].
Qed.

Definition rest_lfd (s : sys) (i j : nat) (wk : worker_t) (certs : list rf) : list rf :=
  (delete j (wk_lfdlist wk) ≫= lfd_refs) ++ cmd_refs (wk_cmdlist wk) ++ ss_refs (wk_delayed wk) ++ others s i certs.

Lemma lfd_focus k s certs i j wk x :
  sinv k s certs -> sy_phase s = Running -> the_lfd s i j = Some (wk, x) ->
  pinv k (sy_w s) (lfd_refs x ++ rest_lfd s i j wk certs) /\ lfd_wf x /\ runs (sy_w s) (sy_py s).
Proof.
  intros Hs Hg (Hi & Hj)%the_lfd_slot. destruct (sinv_focus _ _ _ _ _ Hs Hg Hi) as (Hi1 & (H1 & _) & Hr). split_and!; [|by eapply Forall_lookup_1|done].
  eapply pinv_cnt; [exact Hi1|]. intros r. cbn [slot_refs]. unfold wk_refs, rest_lfd. rewrite !cnt_app. pose proof (cnt_bind_delete lfd_refs _ j x r Hj). lia.
Qed.

Lemma lfd_unfocus k s certs i j wk x w' x' lost :
  sinv k s certs -> sy_phase s = Running -> the_lfd s i j = Some (wk, x) ->
  pinv (k + 20) w' (lost ++ lfd_refs x' ++ rest_lfd s i j wk certs) -> Forall is_cert lost -> lfd_wf x' -> pls_le (sy_w s) w' ->
  exists certs', sinv (k + 20) (set_wk s w' i (Some (set_lfd wk j x')) []) certs'.
Proof.
  intros Hs Hg (Hi & Hj)%the_lfd_slot Hi' Hl Hx Hle. destruct (sinv_focus _ _ _ _ _ Hs Hg Hi) as (_ & (H1 & H2 & H3 & H4) & _).
  exists (lost ++ certs). eapply sinv_unfocus; try done; [lia| |].
  - eapply pinv_cnt; [exact Hi'|]. intros r. cbn [slot_refs app]. unfold wk_refs, rest_lfd, set_lfd. cbn [set_lfdlist wk_lfdlist wk_cmdlist wk_delayed]. rewrite !cnt_app.
    pose proof (cnt_bind_delete lfd_refs _ j x r Hj). pose proof (cnt_bind_insert lfd_refs _ j x x' r Hj). lia.
  - split_and!; simpl; try done. by apply Forall_insert.
Qed.

Lemma act_accept k s certs i j n : sinv k s certs -> guard s (AAccept i j n) -> k + 20 < 2 ^ 31 -> act_keeps k s (AAccept i j n).
Proof.
  intros Hs (Hg & Hn) Hk. unfold act_keeps. cbn [act cost]. destruct (the_lfd s i j) as [[wk x]|] eqn:Hx; [|exists s, certs; split; [done|]; eapply sinv_stay; [|done]; lia].
  destruct (lfd_focus _ _ _ _ _ _ _ Hs Hg Hx) as (Hi1 & Hwf & Hr).
  destruct (listener_accept_ok k (sy_w s) (sy_py s) _ x n Hn (si_k _ _ _ Hs) Hk Hr Hwf Hi1) as (w' & x' & -> & Hi2 & Hwf' & Hle). cbn [bind].
  destruct (lfd_unfocus k s certs i j wk x w' x' [] Hs Hg Hx) as (c & Hc); try done. by eexists _, c.
Qed.

Lemma act_get_server k s certs i j m local ssl :
  sinv k s certs -> guard s (AGetServer i j m local ssl) -> k + 20 < 2 ^ 31 -> act_keeps k s (AGetServer i j m local ssl).
Proof.
  intros Hs (Hg & Hfr) Hk. unfold act_keeps. cbn [act cost]. assert (Hstay : exists s' c, Ok s = Ok s' /\ sinv (k + 20) s' c) by (exists s, certs; split; [done|]; eapply sinv_stay; [|done]; lia).
  destruct (the_lfd s i j) as [[wk x]|] eqn:Hx; [|exact Hstay]. destruct (lfd_ssnlist x !! m) as [ss|] eqn:Hm; [|exact Hstay]. clear Hstay.
  destruct (lfd_focus _ _ _ _ _ _ _ Hs Hg Hx) as (Hi1 & [Hpl Hss] & Hr). pose proof (Forall_lookup_1 _ _ _ _ Hss Hm) as [p Hp].
  pose proof (Hfr wk x ss Hx Hm) as Hsd. destruct ss as [pl sd]. simpl in Hp, Hsd. subst pl sd.
  destruct (live_pl _ _ _ p Hi1) as (l & Hl).
  { apply elem_of_app. left. unfold lfd_refs, ss_refs. apply elem_of_app. right. apply list_elem_of_bind. exists {| ss_policy := Some p; ss_svrdata := None |}. split; [by left|by eapply list_elem_of_lookup_2]. }
  destruct (session_get_server_ok k (sy_w s) _ p l local ssl (si_k _ _ _ Hs) ltac:(lia) Hi1 Hl) as (w' & s' & peer & rc & -> & Hi2 & Hp' & _ & Hpls). cbn [bind].
  destruct (lfd_unfocus k s certs i j wk x w' {| lfd_fd := lfd_fd x; lfd_policy := lfd_policy x; lfd_ssnlist := <[m := s']> (lfd_ssnlist x) |} [] Hs Hg Hx) as (c & Hc); [|done| | |by eexists _, c].
  - eapply pinv_mono; [|eapply pinv_cnt; [exact Hi2|]]; [lia|]. intros r. unfold lfd_refs, ss_refs. cbn [lfd_policy lfd_ssnlist app]. rewrite !cnt_app.
    pose proof (cnt_bind_insert ss_out _ m _ s' r Hm) as H. unfold ss_out in H at 2 4. rewrite Hp' in H. cbn [ss_policy ss_svrdata] in H. rewrite !cnt_app in H. simpl in H. rewrite !cnt_cons, !cnt_nil in H. lia.
  - split; [done|]. apply Forall_insert; [done|]. unfold ss_wf. by rewrite Hp'.
  - by apply pls_le_eq.
Qed.

Lemma act_end k s certs i j m : sinv k s certs -> guard s (AEnd i j m) -> k + 20 < 2 ^ 31 -> act_keeps k s (AEnd i j m).
Proof.
  intros Hs Hg Hk. unfold act_keeps. cbn [act cost guard] in *. assert (Hstay : exists s' c, Ok s = Ok s' /\ sinv (k + 20) s' c) by (exists s, certs; split; [done|]; eapply sinv_stay; [|done]; lia).
  destruct (the_lfd s i j) as [[wk x]|] eqn:Hx; [|exact Hstay]. destruct (lfd_ssnlist x !! m) as [ss|] eqn:Hm; [|exact Hstay]. clear Hstay.
  destruct (lfd_focus _ _ _ _ _ _ _ Hs Hg Hx) as (Hi1 & [Hpl Hss] & Hr). pose proof (Forall_lookup_1 _ _ _ _ Hss Hm) as Hwf.
  destruct (session_release_gives k (sy_w s) (oref RPl (lfd_policy x) ++ ss_refs (delete m (lfd_ssnlist x)) ++ rest_lfd s i j wk certs) ss) as (w' & -> & (lost & Hi2 & Hl & Hle)); [lia|done| |].
  { eapply pinv_cnt; [exact Hi1|]. intros r. unfold lfd_refs, ss_refs. rewrite !cnt_app. pose proof (cnt_bind_delete ss_out _ m _ r Hm). lia. }
  cbn [bind].
  destruct (lfd_unfocus k s certs i j wk x w' {| lfd_fd := lfd_fd x; lfd_policy := lfd_policy x; lfd_ssnlist := delete m (lfd_ssnlist x) |} lost Hs Hg Hx) as (c & Hc); try done; [| |by eexists _, c].
  - eapply pinv_mono; [|eapply pinv_cnt; [exact Hi2|]]; [lia|]. intros r. unfold lfd_refs. cbn [lfd_policy lfd_ssnlist]. rewrite !cnt_app. lia.
  - split; [done|]. by apply Forall_delete.
Qed.

Lemma act_late k s certs i m : sinv k s certs -> guard s (ALate i m) -> k + 20 < 2 ^ 31 -> act_keeps k s (ALate i m).
Proof.
  intros Hs Hg Hk. unfold act_keeps. cbn [act cost guard] in *. assert (Hstay : exists s' c, Ok s = Ok s' /\ sinv (k + 20) s' c) by (exists s, certs; split; [done|]; eapply sinv_stay; [|done]; lia).
  destruct (the_worker s i) as [wk|] eqn:Hwk; [|exact Hstay]. destruct (wk_delayed wk !! m) as [ss|] eqn:Hm; [|exact Hstay]. clear Hstay.
  pose proof (the_worker_slot _ _ _ Hwk) as Hi. destruct (sinv_focus _ _ _ _ _ Hs Hg Hi) as (Hi1 & (H1 & H2 & H3 & H4) & Hr).
  destruct (session_release_gives k (sy_w s) ((wk_lfdlist wk ≫= lfd_refs) ++ cmd_refs (wk_cmdlist wk) ++ ss_refs (delete m (wk_delayed wk)) ++ others s i certs) ss)
    as (w' & -> & (lost & Hi2 & Hl & Hle)); [lia|by eapply Forall_lookup_1| |].
  { eapply pinv_cnt; [exact Hi1|]. intros r. cbn [slot_refs]. unfold wk_refs, ss_refs. rewrite !cnt_app. pose proof (cnt_bind_delete ss_out _ m _ r Hm). lia. }
  cbn [bind]. set (wk' := Build_worker_t _ _ _ _). destruct (sinv_gives k s certs i (Some wk) w' (Some wk') [] Hs Hg Hi) as (c & Hc); [| |by eexists _, c].
  - split_and!; simpl; try done. by apply Forall_delete.
  - exists lost. split_and!; [|done..]. subst wk'. cbn [slot_refs app]. perm Hi2.
Qed.

Lemma act_free_data k s certs : sinv k s certs -> guard s AFreeData -> k + 20 < 2 ^ 31 -> act_keeps k s AFreeData.
Proof.
  intros Hs (Hg & Hnw) Hk. unfold act_keeps. cbn [act cost]. pose proof (si_inv _ _ _ Hs) as Hi. unfold held_by in Hi. rewrite Hg in Hi. unfold py_free_data.
  destruct (free_policy_datas_ok (py_pllist (sy_py s)) k (sy_w s) (py_refs (sy_py s) ++ wks_refs (sy_wks s) ++ sy_lost s ++ certs)) with (3 := Hi) as (w' & -> & Hi'); [lia|intros p Hp; unfold py_refs; set_solver|].
  cbn [bind]. eexists _, certs. split; [done|]. split; simpl; [destruct Hs; lia|eapply pinv_mono; [|exact Hi']; lia|apply Hs..|done].
Qed.

Lemma act_release k s certs : sinv k s certs -> guard s ARelease -> k + 20 < 2 ^ 31 -> act_keeps k s ARelease.
Proof.
  intros Hs (Hg & Hnw) Hk. unfold act_keeps. cbn [act cost]. pose proof (si_inv _ _ _ Hs) as Hi.
  destruct (proxy_free_ok k (sy_w s) (sy_py s) (wks_refs (sy_wks s) ++ sy_lost s ++ certs)) as (w' & c & -> & Hi' & Hc); [lia| |].
  { unfold held_by in Hi. by destruct Hg as [Hg|Hg]; rewrite Hg in Hi. }
  cbn [bind]. eexists _, (c ++ certs). split; [done|]. split; simpl; [destruct Hs; lia| |by apply Forall_app; split; [done|apply Hs]|apply Hs..|done].
  unfold held_by. simpl. eapply pinv_mono; [|perm Hi']. lia.
Qed.

Lemma sys_act_ok k s certs a : sinv k s certs -> guard s a -> k + cost s a < 2 ^ 31 -> act_keeps k s a.
Proof.
  destruct a; intros Hs Hg Hk; cbn [cost] in Hk;
    eauto using act_init, act_start, act_loop, act_del, act_get_cmd, act_accept, act_get_server, act_end, act_late, act_stop, act_free_data, act_release.
Qed.

Lemma cost_nonneg s a : 0 <= cost s a.
Proof. destruct a; simpl; lia. Qed.

Lemma reach_ok k s0 certs n s :
  sinv k s0 certs -> reach s0 n s -> k + n < 2 ^ 31 -> exists certs', sinv (k + n) s certs'.
Proof.
  intros Hs. induction 1 as [|n s a s' Hr IH Hg Ha]; intros Hn; [exists certs; by rewrite Z.add_0_r|].
  pose proof (cost_nonneg s a). destruct IH as (c & Hc); [lia|].
  pose proof (sys_act_ok (k + n) s c a Hc Hg ltac:(lia)) as Hk. unfold act_keeps in Hk. destruct (faults s a); [congruence|].
  destruct Hk as (s1 & c' & Ha' & Hc'). rewrite Ha in Ha'. injection Ha' as <-. exists c'.
  by replace (k + (n + cost s a)) with (k + n + cost s a) by lia.
Qed.
End SystemInv.
