(* ===== verification/ConfigClaims.v ===== *)
(** * What loading a configuration file gives

    The loader is the fold of the parser over the words of the lines; on every
    text without NUL it returns, and an accepted file is a well-formed
    configuration. *)
From Stdlib Require Import String.
From S2P Require Import Prelude CLib IpAddr IpText SvrPool SvrPoolProofs SvrPoolClaims RefCount Policy PolicyProofs PolicyOps Proxy ProxyConfig ConfigWords ConfigProofs ConfigParse ConfigLines SystemProofs SystemSteps.

Module ConfigClaims.
Import IpAddr IpText SvrPool SvrPoolProofs SvrPoolClaims RefCount Policy PolicyProofs PolicyOps Proxy ProxyConfig ConfigWords ConfigProofs ConfigParse ConfigLines SystemProofs SystemSteps.

(** ** The reference: lines, their words, and the parser over them *)
Fixpoint lines (s : list Z) : list cstr :=
  match s with
  | [] => [[]]
  | c :: t => if c =? 10 then [] :: lines t else match lines t with l :: ls => (c :: l) :: ls | [] => [[c]] end
  end.

Section with_inet6.
Context `{Inet6} (junk : ip_port_t).

Fixpoint load_lines (ls : list cstr) (st : cfg_state) : res (cfg_state * Z) :=
  match ls with
  | [] => do rc <- cfg_check_section (cs_w st) (px_section (cs_ctx st)); Ok (st, if negb (rc =? 0) then -1 else 0)
  | l :: ls =>
      match uncomment (words l) with
      | [] => load_lines ls st
      | kw :: args =>
          if (4 <=? length args)%nat then Ok (st, -1) else
          do (st, rc) <- cfg_parse_line junk st kw args;
          if negb (rc =? 0) then Ok (st, -1)
          else load_lines ls {| cs_w := cs_w st; cs_py := cs_py st; cs_ctx := {| px_section := px_section (cs_ctx st); px_lineno := px_lineno (cs_ctx st) + 1 |} |}
      end
  end.

Lemma lines_cons s : exists l ls, lines s = l :: ls.
Proof. destruct s as [|c t]; simpl; [eauto|]. destruct (c =? 10); [eauto|]. destruct (lines t); eauto. Qed.

(** fgets takes the first line when it fits. *)
Lemma fgets_line n txt a b :
  fgets_loop n txt = (a, b) -> (match lines txt with l :: _ => (length l < n)%nat | [] => False end) ->
  (exists l, a = l ++ [10] /\ lines txt = l :: lines b) \/ (b = [] /\ lines txt = [a] /\ last a <> Some 10).
Proof.
  revert txt a b. induction n as [|n IH]; intros txt a b Hg Hl; [by destruct (lines txt); [|lia]|]. destruct txt as [|c t]; cbn [fgets_loop] in Hg.
  { injection Hg as <- <-. right. done. }
  cbn [lines] in *. destruct (c =? 10) eqn:Ec.
  { injection Hg as <- <-. left. exists []. split; [|done]. apply Z.eqb_eq in Ec. by subst. }
  destruct (fgets_loop n t) as [a' b'] eqn:Et. injection Hg as <- <-. destruct (lines_cons t) as (l & ls & Hls). rewrite Hls in *. simpl in Hl.
  destruct (IH t a' b' Et) as [(l' & -> & Hl')|(-> & Ha & Hn)].
  { rewrite Hls. lia. }
  - rewrite Hls in Hl'. injection Hl' as -> ->. left. by exists (c :: l').
  - rewrite Hls in Ha. injection Ha as -> ->. right. split_and!; [done|done|]. destruct a' as [|d a']; [|done]. simpl. apply Z.eqb_neq in Ec. congruence.
Qed.

Lemma strip_line l a : (exists l0, a = l0 ++ [10] /\ l0 = l) \/ (a = l /\ last a <> Some 10) -> (if bool_decide (last a = Some 10) then removelast a else a) = l.
Proof.
  intros [(l0 & -> & ->)|[-> Hn]]; [|by rewrite bool_decide_eq_false_2]. rewrite last_snoc, bool_decide_eq_true_2 by done. by rewrite removelast_last.
Qed.

Lemma load_loop_lines fuel txt st n :
  Forall (fun c => c <> 0) txt -> Forall (fun l => (length l < Z.to_nat LINE - 1)%nat) (lines txt) -> (length txt < fuel)%nat ->
  cfg_load_loop junk fuel txt st n = load_lines (lines txt) st.
Proof.
  revert txt st n. induction fuel as [|fuel IH]; intros txt st n Hz Hl Hf; [lia|]. cbn [cfg_load_loop].
  destruct (decide (txt = [])) as [->|Hne]; [done|].
  destruct (fgets_ok txt Hne Hz) as (a & b & Hg & Ht & Hal & Hlast & Hch). rewrite Hg, Hlast, Hch. cbn [bind negb Z.eqb andb].
  assert (Hg' : fgets_loop (Z.to_nat (LINE - 1)) txt = (a, b)).
  { unfold fgets in Hg. destruct txt; [done|]. destruct (fgets_loop _ _) as [a' b'] eqn:E. injection Hg as Hg ->.
    destruct (fgets_loop_spec _ _ _ _ E) as [Ht' _]. rewrite Ht in Ht'. apply app_inv_tail in Ht'. by subst. }
  assert (Hn : exists l, (if bool_decide (last a = Some 10) then removelast a else a) = l /\
     lines txt = l :: match lines txt with _ :: ls => ls | [] => [] end /\ (forall st n, cfg_load_loop junk fuel b st n = load_lines (match lines txt with _ :: ls => ls | [] => [] end) st)).
  { destruct (lines_cons txt) as (l0 & ls0 & Hl0). pose proof Hl as Hl'. rewrite Hl0 in Hl'. apply Forall_cons in Hl' as [Hlen Hls].
    assert (Hzb : Forall (fun c => c <> 0) b) by (rewrite Ht in Hz; by apply Forall_app in Hz as [_ ?]).
    assert (Hfb : (length b < fuel)%nat) by (rewrite Ht, length_app in Hf; lia).
    destruct (fgets_line _ txt a b Hg') as [(l & -> & Hll)|(-> & Hll & Hna)].
    { rewrite Hl0. change (LINE) with 1024 in *. lia. }
    - exists l. rewrite Hll. split_and!; [apply strip_line; left; eauto|done|]. intros st' n'. apply IH; [done| |done]. rewrite Hll in Hl. by apply Forall_cons in Hl as [_ ?].
    - exists a. rewrite Hll. split_and!; [apply strip_line; by right|done|]. intros st' n'. destruct fuel; [lia|]. done. }
  destruct Hn as (l & -> & Hll & Hrec). rewrite Hll. cbn [load_lines]. pose proof (strtok_words l) as Hw.
  destruct (strtok l) as [[kw rest]|]; [|rewrite Hw; apply Hrec]. destruct Hw as [_ ->]. cbn [uncomment]. destruct (is_comment kw); [apply Hrec|].
  rewrite get_args_words, length_take. destruct (decide (4 <= length (uncomment (words rest)))%nat) as [H4|H4].
  { rewrite (proj2 (Nat.leb_le _ _) H4), (proj2 (Nat.leb_le 4 _)); [done|lia]. }
  rewrite (proj2 (Nat.leb_nle _ _) H4), (proj2 (Nat.leb_nle 4 _)) by lia. rewrite take_ge by lia.
  destruct (cfg_parse_line junk st kw (uncomment (words rest))) as [[st' rc]|]; [|done]. cbn [bind]. destruct (negb (rc =? 0)); [done|apply Hrec].
Qed.
End with_inet6.

(** ** Loading *)
Definition no_objects : pworld := {| pw := empty_world; pw_cas := ∅; pw_certs := ∅; pw_ltns := ∅; pw_ltds := ∅; pw_pls := ∅ |}.

Lemma no_objects_inv : pinv 0 no_objects [].
Proof.
  assert (HR : forall r, total no_objects [] r = 0%nat) by done.
  split; try (intros x; done).
  - exists []. split; [apply empty_winv|done].
  - intros K x Hc. rewrite HR in Hc. lia.
Qed.

Lemma start_cinv w py : proxy_alloc no_objects = (w, Some py) -> cinv 0 w py CFG_PROXY [].
Proof.
  unfold proxy_alloc. destruct (new_block_ok 0 no_objects [] no_objects_inv) as (v & x & -> & Hi & _). intros [= <- <-].
  split; [done|exact Hi| |constructor|by intros x' v' ?%elem_of_nil].
  split; try (by intros ? ?%elem_of_nil); try done.
  - split_and!; by intros ? ? ? ?%elem_of_nil.
  - constructor.
Qed.

Definition no_nul (txt : list Z) : Prop := Forall (fun c => c <> 0) txt.

Lemma main_load_spec `{Inet6} junk txt :
  no_nul txt -> Z.of_nat (length txt) < 2 ^ 31 - 1 ->
  exists w py rc lost, main_load junk no_objects (Some txt) = Ok (w, py, rc) /\
    match py with
    | Some py => rc = 0 /\ wf w py CFG_PROXY /\ pinv (Z.of_nat (length txt)) w (py_refs py ++ lost) /\ Forall lost_kind lost
    | None => rc = -1 /\ pinv (Z.of_nat (length txt)) w lost /\ Forall lost_kind lost
    end.
Proof.
  intros Hz Hl. unfold main_load. destruct (proxy_alloc no_objects) as [w0 [py0|]] eqn:E.
  2: { unfold proxy_alloc in E. destruct (new_block_ok 0 no_objects [] no_objects_inv) as (v & x & Hn & _). by rewrite Hn in E. }
  pose proof (start_cinv _ _ E) as Hc. unfold cfg_load_file.
  destruct (load_loop_ok junk (S (length txt)) txt 0 {| cs_w := w0; cs_py := py0; cs_ctx := {| px_section := CFG_PROXY; px_lineno := 1 |} |} [] 1 Hz ltac:(lia) ltac:(lia) Hc)
    as (st & rc & lost & -> & Hrc & Hlost & Hi & Hwf). cbn [bind]. destruct Hrc as [-> | ->]; cbn [negb Z.eqb].
  - eexists _, _, _, lost. split; [done|]. cbn [fst snd]. split_and!; [done|by apply Hwf|exact Hi|done].
  - destruct (proxy_free_ok (0 + Z.of_nat (length txt)) (cs_w st) (cs_py st) lost ltac:(lia) Hi) as (w' & certs & -> & Hi' & Hcs). cbn [bind].
    eexists _, None, _, (certs ++ lost). split; [done|]. split_and!; [done|exact Hi'|]. apply Forall_app. split; [|done].
    eapply Forall_impl; [exact Hcs|]. intros r Hr. by left.
Qed.

(** C2: while every allocation succeeds, on every text without NUL characters the start of the program (proxy_alloc,
    cfg_load_file, and proxy_free when the file is refused) runs without an invalid
    access and ends with 0 or -1; when the file is accepted, the proxy it returns is
    a well-formed configuration: all numbers are in their ranges, every section is
    complete, names fit their buffers and are unique, certificate sets, listeners and
    pools that are referred to are in the proxy's lists, every pool has as many
    servers as it counts and at least one, and no listener serves two policies. *)
Theorem main_load_well_formed `{Inet6} junk txt :
  no_nul txt -> Z.of_nat (length txt) < 2 ^ 31 - 1 ->
  exists w py rc, main_load junk no_objects (Some txt) = Ok (w, py, rc) /\
    match py with Some py => rc = 0 /\ wf w py CFG_PROXY | None => rc = -1 end.
Proof.
  intros Hz Hl. destruct (main_load_spec junk txt Hz Hl) as (w & py & rc & lost & Hm & Hp). exists w, py, rc. split; [done|]. destruct py; tauto.
Qed.

(** C5: on a file without NUL bytes whose lines are all shorter than 1023
    characters (fgets cuts a longer line in two), the loader, which reads with fgets
    into a buffer and cuts with strtok_r, equals its reference: split the file at
    newlines, take the blank-separated words of
    each line up to the first one that starts with '#', skip lines without words,
    refuse more than three arguments, and run the parser over the rest until the
    first error; at the end the open section is checked. *)
Theorem cfg_load_file_reference `{Inet6} junk w py txt :
  no_nul txt -> Forall (fun l => (length l < Z.to_nat LINE - 1)%nat) (lines txt) ->
  cfg_load_file junk w py (Some txt) =
    do (st, rc) <- load_lines junk (lines txt) {| cs_w := w; cs_py := py; cs_ctx := {| px_section := CFG_PROXY; px_lineno := 1 |} |};
    Ok (cs_w st, cs_py st, rc).
Proof. intros Hz Hl. unfold cfg_load_file. by rewrite load_loop_lines by (done || lia). Qed.

(** ** A sample file *)
Definition nl : string := String (Ascii.ascii_of_nat 10) "".
Definition sample : list Z := Eval vm_compute in str
  ("worker 2 # threads" ++ nl ++ "maxconn 4000" ++ nl ++ nl ++ "[listener]" ++ nl ++ " name l1" ++ nl ++ "address 10.0.0.1:80" ++ nl ++
   "[svrpool]" ++ nl ++ "name p1" ++ nl ++ "server 3 http 10.0.0.2:8080" ++ nl ++ "server 1 http 10.0.0.3:8080" ++ nl ++
   "[policy]" ++ nl ++ "name web" ++ nl ++ "listener l1" ++ nl ++ "svrpool p1" ++ nl)%string.

Lemma sample_no_nul : no_nul sample.
Proof. unfold no_nul. apply Forall_forall. intros c Hc ->. revert Hc. apply (bool_decide_unpack _). vm_compute. done. Qed.

Lemma main_load_well_formed_witness :
  exists w py, main_load zero_address no_objects (Some sample) = Ok (w, Some py, 0) /\ wf w py CFG_PROXY.
Proof.
  destruct (main_load_well_formed zero_address sample sample_no_nul ltac:(vm_compute; reflexivity)) as (w & py & rc & Hm & Hp).
  assert (He : match main_load zero_address no_objects (Some sample) with Ok (_, Some _, _) => True | _ => False end) by (vm_compute; exact I).
  rewrite Hm in He. destruct py as [py|]; [|destruct He]. destruct Hp as [-> Hw]. exists w, py. exact (conj Hm Hw).
Defined.

Lemma cfg_load_file_reference_witness :
  exists w py, cfg_load_file zero_address no_objects py (Some sample) =
    (do (st, rc) <- load_lines zero_address (lines sample) {| cs_w := no_objects; cs_py := py; cs_ctx := {| px_section := CFG_PROXY; px_lineno := 1 |} |};
     Ok (cs_w st, cs_py st, rc)) /\ proxy_alloc no_objects = (w, Some py).
Proof.
  destruct (proxy_alloc no_objects) as [w [py|]] eqn:E; [|by vm_compute in E]. exists w, py. split; [|done].
  apply cfg_load_file_reference; [exact sample_no_nul|]. apply (bool_decide_unpack _). vm_compute. exact I.
Defined.

(** ** What the loader gets wrong *)

(** A line that starts with a NUL character makes the loader look at the byte
    before its buffer: strlen is 0 and line[strlen(line) - 1] is read, whatever
    follows and whatever was loaded before. *)
Theorem cfg_load_nul_underflow `{Inet6} junk w py txt : cfg_load_file junk w py (Some (0 :: txt)) = Fault OutOfBounds.
Proof.
  unfold cfg_load_file. cbn [length cfg_load_loop]. unfold fgets. assert (Hn : exists n, Z.to_nat (LINE - 1) = S n /\ n = 1022%nat) by (by exists 1022%nat). destruct Hn as (n & -> & Hn).
  change (fgets_loop (S n) (0 :: txt)) with (let (a, b) := fgets_loop n txt in (0 :: a, b)). destruct (fgets_loop n txt) as [a b] eqn:E. destruct (fgets_loop_spec _ _ _ _ E) as (_ & Hl & _).
  assert (Hlast : arr_get ((0 :: a) ++ replicate (Z.to_nat LINE - length (0 :: a)) 0) (LINE - 1) = Ok 0).
  { apply arr_get_Ok. split; [done|]. replace (Z.to_nat (LINE - 1)) with 1023%nat by done. replace (Z.to_nat LINE) with 1024%nat by done. cbn [length] in *.
    rewrite lookup_app_r by (simpl; lia). apply lookup_replicate_2. simpl. lia. }
  cbv beta iota. rewrite Hlast. cbn [bind negb Z.eqb andb]. done.
Qed.

(** A certificate set given as a PKCS12 file is never accepted: the line is
    stored, but the type of the certificate stays X509, so the check at the end of
    the section refuses the set for its missing private key. *)
Theorem cfg_pkcs12_refused w py cert a w' :
  cfg_parse_certset w py cert (str "pkcs12") [a] = Ok (w', 0) -> cfg_check_certset w' cert = Ok (-1).
Proof.
  unfold cfg_parse_certset. destruct (get_cert w cert) as [c|] eqn:Ec; [|done]. cbn [bind].
  assert (Hs : forall b, streq (str "pkcs12") b = bool_decide (str "pkcs12" = b)) by done.
  rewrite !Hs, (bool_decide_eq_true_2 (str "pkcs12" = str "pkcs12")) by done. rewrite !(bool_decide_eq_false_2 (str "pkcs12" = _)) by (vm_compute; congruence).
  destruct (c_type (ct_cert c) =? CERT_PKCS12) eqn:Et; [done|]. destruct (nonempty (c_file (ct_cert c))); [done|].
  destruct (c_pkey (ct_cert c)) eqn:Ek; [|done]. cbn [nonempty]. destruct (strcpy PATH_MAX a) as [n|]; [|done]. cbn [bind]. intros [= <-].
  unfold cfg_check_certset, get_cert, put_cert. cbn [pw_certs set_certs]. rewrite lookup_insert_eq. cbn [deref bind set_cert ct_name ct_cert c_type c_file c_pkey].
  destruct (ct_name c); [done|]. rewrite Et. destruct (_ =? CERT_X509); [|done]. by destruct n.
Qed.

Definition p12_world : pworld := (certset_alloc no_objects).1.
Definition p12_py : proxy_t :=
  {| py_cfg := Build_proxy_cfg_t 1 0 1 0 0 0 0 0 0 0 0 0 0; py_maxfd := 0; py_certlist := [1%positive]; py_ncert := 1; py_ltnlist := []; py_nlistener := 0;
     py_splist := []; py_nsvrpool := 0; py_pllist := []; py_npolicy := 0 |}.
Lemma cfg_pkcs12_refused_witness :
  match cfg_parse_certset p12_world p12_py 1 (str "pkcs12") [str "a.p12"] with Ok (w', rc) => rc = 0 /\ cfg_check_certset w' 1 = Ok (-1) | Fault _ => False end.
Proof.
  destruct (cfg_parse_certset p12_world p12_py 1 (str "pkcs12") [str "a.p12"]) as [[w' rc]|] eqn:E.
  - assert (rc = 0) as -> by (vm_compute in E; congruence). split; [reflexivity|]. exact (cfg_pkcs12_refused p12_world p12_py 1 (str "a.p12") w' E).
  - vm_compute in E. discriminate E.
Defined.

(** Numbers are read by their low 32 bits and errors by -1: "worker 4294967297"
    sets one worker although the limit is 40, "nice abc" sets the priority -1, since -1
    is how _cfg_atoi reports that there is no number and also a legal priority, and
    "debug -" sets 0. *)
Theorem cfg_numbers_misread c :
  option_map nworker (cfg_parse_proxy c (str "worker") [str "4294967297"]) = Some 1 /\
  option_map nice (cfg_parse_proxy c (str "nice") [str "abc"]) = Some (-1) /\
  option_map debug (cfg_parse_proxy c (str "debug") [str "-"]) = Some 0.
Proof. destruct c. split_and!; vm_compute; reflexivity. Qed.
End ConfigClaims.
