(* ===== verification/SystemClaims.v ===== *)
(** * The running proxy is memory safe, counts exactly, and releases what it holds *)
From Stdlib Require Import String.
From S2P Require Import Prelude CLib IpAddr IpText SvrPool SvrPoolProofs SvrPoolClaims RefCount Policy PolicyProofs PolicyOps Proxy ProxyConfig ConfigWords ConfigProofs ConfigParse ConfigLines System SystemProofs SystemSteps SystemInv ConfigClaims.

Module SystemClaims.
Import IpAddr IpText SvrPool SvrPoolProofs SvrPoolClaims RefCount Policy PolicyProofs PolicyOps Proxy ProxyConfig ConfigWords ConfigProofs ConfigParse ConfigLines System SystemProofs SystemSteps SystemInv ConfigClaims.

(** ** The state after loading *)
Definition start_sys (w : pworld) (py : proxy_t) : sys :=
  {| sy_w := w; sy_py := py; sy_wks := replicate (Z.to_nat MAX_WORKER) None; sy_phase := Loaded; sy_lost := [] |}.

(** [sy_lost] only grows, and no step looks at it. *)
Definition more_lost (l : list rf) (s : sys) : sys :=
  {| sy_w := sy_w s; sy_py := sy_py s; sy_wks := sy_wks s; sy_phase := sy_phase s; sy_lost := sy_lost s ++ l |}.

Lemma act_more_lost l s a : act (more_lost l s) a = match act s a with Ok s' => Ok (more_lost l s') | Fault f => Fault f end.
Proof.
  unfold act, the_lfd, the_worker, set_wk, more_lost. cbn [sy_w sy_py sy_wks sy_phase sy_lost].
  destruct a; cbn [sy_w sy_py sy_wks sy_phase sy_lost];
    repeat (match goal with
    | |- context [bind ?m _] => destruct m as [?|]; cbn [bind sy_w sy_py sy_wks sy_phase sy_lost]
    | |- context [match ?x with _ => _ end] => destruct x; cbn [bind sy_w sy_py sy_wks sy_phase sy_lost]
    end); by rewrite <- ?app_assoc.
Qed.

Lemma guard_more_lost l s a : guard s a -> guard (more_lost l s) a.
Proof. done. Qed.

Lemma reach_more_lost l s0 n s : reach s0 n s -> reach (more_lost l s0) n (more_lost l s).
Proof.
  induction 1 as [|n s a s' Hr IH Hg Ha]; [constructor|]. change (cost s a) with (cost (more_lost l s) a).
  eapply reach_step; [exact IH|by apply guard_more_lost|]. by rewrite act_more_lost, Ha.
Qed.

(** ** The invariant holds at the start *)
Lemma pool_some_of w py x : wf w py CFG_PROXY -> x ∈ py_splist py -> exists q, w_heap (pw w) !! x = Some (OPool q) /\ (0 < length (sp_svrlist q))%nat.
Proof.
  intros Hw Hx. destruct (wf_pool _ _ _ Hw x Hx) as (v & Hv & (_ & _ & Hn & _) & Hd). destruct (Hd ltac:(done)) as [_ H1].
  unfold cv_pool in Hv. destruct (w_heap (pw w) !! x) as [[| |p|]|] eqn:E; try done. injection Hv as <-. exists p. split; [done|].
  cbn [fst snd] in *. rewrite length_fmap in Hn. lia.
Qed.

Lemma pl_refs_only_outside w g p : total w g (RPl, p) = cnt (RPl, p) g.
Proof.
  unfold total. assert (Hz : forall {V} (f : V -> list rf) h, (forall v x, (RPl, x) ∉ f v) -> msum f h (RPl, p) = 0%nat).
  { intros V f h Hf. destruct (decide (0 < msum f h (RPl, p))%nat) as [(i & v & _ & Hv)%msum_inv|]; [by destruct (Hf v p)|lia]. }
  rewrite !Hz; [lia|..].
  - intros v x. unfold ct_out. set_solver.
  - intros v x. unfold ltn_out, oref. destruct (lc_cert _); set_solver.
  - intros v x. unfold pl_out, oref. destruct (pc_listener _), (pc_svrpool _), (pd_ltndata _), (pd_spdata _); set_solver.
Qed.

Lemma pl_in_list k w py lost p l :
  pinv k w (py_refs py ++ lost) -> Forall lost_kind lost -> pw_pls w !! p = Some l -> p ∈ py_pllist py.
Proof.
  intros Hi Hl Hp. pose proof (counted_at _ _ _ _ _ _ (hi_pl _ _ _ Hi) Hp) as [Hc H0]. rewrite pl_refs_only_outside in Hc.
  assert (Hin : (RPl, p) ∈ py_refs py ++ lost) by (apply cnt_elem; lia). apply elem_of_app in Hin as [Hin|Hin]; [unfold py_refs in Hin; set_solver|].
  rewrite Forall_forall in Hl. destruct (Hl _ Hin) as [|[|]]; done.
Qed.

Lemma start_sinv k w py lost :
  0 <= k -> wf w py CFG_PROXY -> pinv k w (py_refs py ++ lost) -> Forall lost_kind lost ->
  sinv k (more_lost lost (start_sys w py)) [].
Proof.
  intros Hk Hw Hi Hl. assert (Hnw : no_workers (more_lost lost (start_sys w py))) by (apply Forall_replicate; done). split.
  - done.
  - rewrite (no_workers_refs _ Hnw). simpl. by rewrite app_nil_r.
  - constructor.
  - by apply Forall_replicate.
  - destruct (wf_cfg _ _ _ Hw) as (? & _). simpl. lia.
  - split_and!; [|apply Hw|by intros p l Hp; eapply pl_in_list|done].
    intros p Hp. destruct (wf_pl _ _ _ Hw p Hp) as (v & Hv & (_ & _ & _ & Hsp & Hd) & Hdone). destruct (Hdone ltac:(done)) as (_ & [ltn Hltn] & [sp Hsp']).
    unfold cv_pl in Hv. destruct (pw_pls w !! p) as [l|] eqn:E; [|done]. injection Hv as <-. simpl in *. exists l, ltn, sp. split_and!; try done. eapply pool_some_of; eauto.
Qed.

(** A loaded configuration, and how the theorems below start. *)
Definition loaded `{Inet6} (junk : ip_port_t) (txt : list Z) (w : pworld) (py : proxy_t) : Prop :=
  no_nul txt /\ main_load junk no_objects (Some txt) = Ok (w, Some py, 0).

Lemma reach_sinv `{Inet6} junk txt w py n s :
  loaded junk txt w py -> reach (start_sys w py) n s -> Z.of_nat (length txt) + n < 2 ^ 31 - 1 ->
  exists lost certs, sinv (Z.of_nat (length txt) + n) (more_lost lost s) certs /\ Forall lost_kind lost /\ pinv (Z.of_nat (length txt)) w (py_refs py ++ lost).
Proof.
  intros (Hz & Hm) Hr Hn. assert (Hn0 : 0 <= n).
  { clear -Hr. induction Hr as [|n s a s' Hr IH Hg Ha]; [done|]. pose proof (cost_nonneg s a). lia. }
  destruct (main_load_spec junk txt Hz ltac:(lia)) as (w' & py' & rc & lost & Hm' & Hp). rewrite Hm in Hm'. injection Hm' as <- <- <-. destruct Hp as (_ & Hw & Hi & Hl).
  destruct (reach_ok (Z.of_nat (length txt)) (more_lost lost (start_sys w py)) [] n (more_lost lost s)) as (certs & Hs).
  - by apply start_sinv; [lia|..].
  - by apply reach_more_lost.
  - lia.
  - by exists lost, certs.
Qed.

(** C1: memory safety of the objects the running proxy counts, while every
    allocation and every SSL context succeeds.  From a configuration file that was
    accepted, after every sequence of steps of the main thread and of the workers
    (making running data, handing out and dropping policies, taking commands,
    accepting clients, choosing servers, ending sessions at once or by a queued task,
    stopping workers, releasing the data and the proxy), every step the program's
    structure allows is made without using freed memory, following NULL, leaving an
    array or failing an assertion, while fewer than 2^31 references were taken; but
    for exactly two steps: _py_init_data writes behind the array of the running data
    when a policy's pool has more than 256 servers, and assert(fi) of
    _worker_add_policy fails when the new listening descriptor has no item in the
    descriptor map.  The steps hold what policies, listeners, pools and sessions
    refer to; the bytes of the sessions and their tasks are the subject of the
    worker's theorems. *)
Theorem system_safe `{Inet6} junk txt w py n s a :
  loaded junk txt w py -> reach (start_sys w py) n s -> guard s a -> Z.of_nat (length txt) + n + cost s a < 2 ^ 31 - 1 ->
  match faults s a with
  | Some f => act s a = Fault f
  | None => exists s', act s a = Ok s'
  end.
Proof.
  intros Hl Hr Hg Hn. pose proof (cost_nonneg s a). destruct (reach_sinv junk txt w py n s Hl Hr ltac:(lia)) as (lost & certs & Hs & _).
  pose proof (sys_act_ok _ _ _ a Hs (guard_more_lost lost s a Hg) ltac:(change (cost (more_lost lost s) a) with (cost s a); lia)) as Hk.
  unfold act_keeps in Hk. change (faults (more_lost lost s) a) with (faults s a) in Hk. rewrite act_more_lost in Hk.
  destruct (faults s a), (act s a) as [s1|]; try done; [eauto|by destruct Hk as (? & ? & ? & _)].
Qed.

Lemma cnt_other r l (P : rf -> Prop) : Forall P l -> ~ P r -> cnt r l = 0%nat.
Proof. intros Hl Hr. destruct (decide (0 < cnt r l)%nat) as [Hc%cnt_elem|]; [|lia]. rewrite Forall_forall in Hl. by destruct (Hr (Hl _ Hc)). Qed.

(** C3: while every allocation succeeds, the counter of a policy is exact in every reachable state: a policy is alive
    just when someone refers to it, and its counter plus one is the number of the
    references held by the policy list of the proxy, by the listening descriptors,
    sessions, pending commands and delayed sessions of all workers, and of the
    references lost with failed commands and stopped workers. *)
Theorem policy_count_exact `{Inet6} junk txt w py n s p :
  loaded junk txt w py -> reach (start_sys w py) n s -> Z.of_nat (length txt) + n < 2 ^ 31 - 1 ->
  let holders := cnt (RPl, p) (held_by s ++ wks_refs (sy_wks s) ++ sy_lost s) in
  match pw_pls (sy_w s) !! p with Some l => pl_refcnt l + 1 = Z.of_nat holders | None => holders = 0%nat end.
Proof.
  intros Hl Hr Hn. cbv zeta. destruct (reach_sinv junk txt w py n s Hl Hr Hn) as (lost & certs & Hs & Hlost & _).
  pose proof (hi_pl _ _ _ (si_inv _ _ _ Hs) p) as Hc. cbv beta in Hc. rewrite pl_refs_only_outside in Hc. cbn [more_lost sy_w sy_wks sy_lost] in Hc.
  change (held_by (more_lost lost s)) with (held_by s) in Hc. rewrite !cnt_app in *.
  rewrite (cnt_other _ lost lost_kind Hlost), (cnt_other _ certs is_cert) in Hc; [|apply Hs|done|by intros [|[|]]].
  destruct (pw_pls (sy_w s) !! p); lia.
Qed.

(** ** Release *)

Definition pool_tight (w : pworld) (py : proxy_t) (x : positive) (o : obj) : Prop :=
  match o with OPool p => sp_refcnt p + 1 = Z.of_nat (total w (py_refs py) (RPool, x)) | _ => True end.
#[global] Instance pool_tight_dec w py x o : Decision (pool_tight w py x o).
Proof. destruct o; simpl; apply _. Defined.

(** Every counter of the loaded configuration is its number of references less
    one: no line of the file replaced a reference, which would have lost one. *)
Definition tight (w : pworld) (py : proxy_t) : Prop :=
  map_Forall (fun x c => ct_refcnt c + 1 = Z.of_nat (total w (py_refs py) (RCert, x))) (pw_certs w) /\
  map_Forall (fun x l => lt_refcnt l + 1 = Z.of_nat (total w (py_refs py) (RLtn, x))) (pw_ltns w) /\
  map_Forall (pool_tight w py) (w_heap (pw w)).

Lemma total_more w g l r : total w (g ++ l) r = (total w g r + cnt r l)%nat.
Proof. unfold total. rewrite cnt_app. lia. Qed.

Lemma tight_lost k w py lost : pinv k w (py_refs py ++ lost) -> Forall lost_kind lost -> tight w py -> lost = [].
Proof.
  intros Hi Hl (Hc & Ht & Hp). destruct lost as [|[K x] lost]; [done|]. exfalso. apply Forall_cons in Hl as [HK _].
  assert (Hpos : (0 < cnt (K, x) ((K, x) :: lost))%nat) by (apply cnt_elem; left).
  pose proof (total_more w (py_refs py) ((K, x) :: lost) (K, x)) as Hm. destruct HK as [HK|[HK|HK]]; simpl in HK; subst K.
  - destruct (counted_live _ _ _ _ x (hi_cert _ _ _ Hi)) as (v & Hv & _); [lia|]. pose proof (counted_at _ _ _ _ _ _ (hi_cert _ _ _ Hi) Hv). specialize (Hc x v Hv). simpl in Hc. lia.
  - destruct (counted_live _ _ _ _ x (hi_ltn _ _ _ Hi)) as (v & Hv & _); [lia|]. pose proof (counted_at _ _ _ _ _ _ (hi_ltn _ _ _ Hi) Hv). specialize (Ht x v Hv). simpl in Ht. lia.
  - destruct (hi_good _ _ _ Hi RPool x) as [(o & Ho & Hk) _]; [lia|]. destruct o as [| |p|]; try done. specialize (Hp x _ Ho). simpl in Hp.
    destruct (hi_sp _ _ _ Hi) as (own & (Hw & _) & Hown). pose proof (inv_ref _ _ _ _ Hw x) as Hr. rewrite Ho in Hr. specialize (Hown x). simpl in Hr. lia.
Qed.

(** Whatever references to certificate sets, listeners and pools were lost, no
    policy and no running data of a listener is left without a holder. *)
Lemma no_policy_left k w g : pinv k w g -> Forall lost_kind g -> pw_pls w = ∅ /\ pw_ltds w = ∅.
Proof.
  intros Hi Hg. assert (Hno : forall K x, K = RPl \/ K = RLtd -> cnt (K, x) g = 0%nat).
  { intros K x HK. apply (cnt_other _ g lost_kind Hg). unfold lost_kind. simpl. destruct HK; subst K; by intros [|[|]]. }
  assert (Hpl : pw_pls w = ∅) by (eapply counted_none; [apply Hi|]; intros x; cbv beta; rewrite pl_refs_only_outside; auto).
  split; [done|]. eapply counted_none; [apply Hi|]. intros x. cbv beta. unfold total. rewrite Hno by auto. rewrite Hpl. change (msum pl_out ∅ (RLtd, x)) with 0%nat.
  assert (Hz : forall {V} (f : V -> list rf) h, (forall v r, r ∈ f v -> r.1 = RCert \/ r.1 = RCa) -> msum f h (RLtd, x) = 0%nat).
  { intros V f h Hf. destruct (decide (0 < msum f h (RLtd, x))%nat) as [(i & v & _ & Hv)%msum_inv|]; [by destruct (Hf v _ Hv)|lia]. }
  rewrite !Hz; [done| |].
  - intros v r. unfold ct_out. set_solver.
  - intros v r. unfold ltn_out, oref. destruct (lc_cert _); set_solver.
Qed.

Lemma only_certs_left k w g :
  pinv k w g -> Forall is_cert g -> pw_pls w = ∅ /\ pw_ltns w = ∅ /\ pw_ltds w = ∅ /\ w_heap (pw w) = ∅.
Proof.
  intros Hi Hg. assert (Hpl : pw_pls w = ∅).
  { eapply counted_none; [apply Hi|]. intros x. cbv beta. rewrite pl_refs_only_outside. by apply (cnt_other _ _ is_cert). }
  assert (HR : forall K x, K <> RCert -> K <> RCa -> total w g (K, x) = 0%nat).
  { intros K x H1 H2. unfold total. rewrite (cnt_other _ g is_cert Hg) by done. rewrite Hpl. change (msum pl_out ∅ (K, x)) with 0%nat.
    assert (Hz : forall {V} (f : V -> list rf) h, (forall v r, r ∈ f v -> r.1 = RCert \/ r.1 = RCa) -> msum f h (K, x) = 0%nat).
    { intros V f h Hf. destruct (decide (0 < msum f h (K, x))%nat) as [(i & v & _ & Hv)%msum_inv|]; [by destruct (Hf v _ Hv)|lia]. }
    rewrite !Hz; [done| |].
    - intros v r. unfold ct_out. set_solver.
    - intros v r. unfold ltn_out, oref. destruct (lc_cert _); set_solver. }
  split_and!; [done|by eapply counted_none; [apply Hi|]; intros x; apply HR..|].
  destruct (hi_sp _ _ _ Hi) as (own & Hw & Ho). assert (own = []) as ->; [|by eapply no_owner_empty].
  destruct own as [|y own]; [done|]. specialize (Ho y). rewrite !HR in Ho by done. rewrite occ_cons, decide_True in Ho by done. lia.
Qed.

(** C4: what the release leaves, while every allocation succeeds.  When the proxy
    was released and no worker lost a reference on the way (by a command that failed,
    or by a command or delayed session that was pending when it stopped), no
    policy and no running data of a listener is left; and when the loaded counters are
    exact ([tight]: no second listener, svrpool or certset line of the file replaced a
    reference and lost it), no listener, server pool, server and running data of
    these is left either.  Certificate sets stay, and so do the SSL contexts of the
    servers' running data, which server_free_data does not release. *)
Theorem release_complete `{Inet6} junk txt w py n s :
  loaded junk txt w py -> reach (start_sys w py) n s -> Z.of_nat (length txt) + n < 2 ^ 31 - 1 ->
  sy_phase s = Released -> sy_lost s = [] ->
  pw_pls (sy_w s) = ∅ /\ pw_ltds (sy_w s) = ∅ /\
  (tight w py -> pw_ltns (sy_w s) = ∅ /\ w_heap (pw (sy_w s)) = ∅).
Proof.
  intros Hl Hr Hn Hp Hlost. destruct (reach_sinv junk txt w py n s Hl Hr Hn) as (lost & certs & Hs & Hk & Hi0).
  pose proof (si_inv _ _ _ Hs) as Hi. pose proof (si_phase _ _ _ Hs) as Hnw. pose proof (si_certs _ _ _ Hs) as Hc.
  unfold phase_ok in Hnw. unfold held_by in Hi. cbn [more_lost sy_phase sy_w sy_wks sy_lost] in *. rewrite Hp in *.
  rewrite (no_workers_refs (more_lost lost s) Hnw : wks_refs (sy_wks s) = []) in Hi. rewrite Hlost in Hi. cbn [app] in Hi.
  destruct (no_policy_left _ _ _ Hi) as [H1 H2].
  { apply Forall_app. split; [done|]. eapply Forall_impl; [exact Hc|]. intros r Hrc. by left. }
  split; [done|]. split; [done|]. intros Ht. assert (Hnil : lost = []) by (eapply tight_lost; eauto). subst lost. cbn [app] in Hi.
  destruct (only_certs_left _ _ _ Hi Hc) as (_ & ? & _ & ?). done.
Qed.

(** ** A complete run *)

(** The guards, decided. *)
Definition no_worker (k : option worker_t) : bool := match k with Some _ => false | None => true end.
Definition guardb (s : sys) (a : action) : bool :=
  let running := bool_decide (sy_phase s = Running) in
  match a with
  | AInit _ => bool_decide (sy_phase s = Loaded)
  | AStart i => running && match sy_wks s !! i with Some None => true | _ => false end
  | ADel i pl => running && match the_worker s i with Some _ => true | None => false end && bool_decide (pl ∈ py_pllist (sy_py s))
  | AAccept i j n => running && bool_decide (n <= 16)%nat
  | AGetServer i j m _ _ =>
      running && match the_lfd s i j with Some (_, x) => match lfd_ssnlist x !! m with Some ss => bool_decide (ss_svrdata ss = None) | None => true end | None => true end
  | ALoop | AGetCmd _ _ | AEnd _ _ _ | ALate _ _ | AStop _ _ => running
  | AFreeData => running && forallb no_worker (sy_wks s)
  | ARelease => bool_decide (sy_phase s = Stopped \/ sy_phase s = Loaded) && forallb no_worker (sy_wks s)
  end.

Lemma no_workers_b s : forallb no_worker (sy_wks s) = true -> no_workers s.
Proof. intros Hf. apply Forall_forall. intros k Hk. rewrite forallb_forall in Hf. specialize (Hf k (proj1 (list_elem_of_In _ _) Hk)). by destruct k. Qed.

Lemma guardb_sound s a : guardb s a = true -> guard s a.
Proof.
  destruct a; cbn [guardb guard]; rewrite ?andb_true_iff, ?bool_decide_eq_true; try done.
  - intros [? Hw]. split; [done|]. by destruct (sy_wks s !! i) as [[]|].
  - intros [[? Hw] ?]. split_and!; [done| |done]. by destruct (the_worker s i).
  - intros [? Hw]. split; [done|]. intros k x ss Hx Hs. rewrite Hx, Hs in Hw. by apply bool_decide_eq_true in Hw.
  - intros [? ?%no_workers_b]. done.
  - intros [? ?%no_workers_b]. done.
Qed.

Fixpoint run_acts (s : sys) (l : list action) : option (sys * Z) :=
  match l with
  | [] => Some (s, 0)
  | a :: l =>
      if guardb s a then
        match act s a with Ok s' => match run_acts s' l with Some (t, n) => Some (t, cost s a + n) | None => None end | Fault _ => None end
      else None
  end.

Lemma run_acts_reach l s0 n s t m : reach s0 n s -> run_acts s l = Some (t, m) -> reach s0 (n + m) t.
Proof.
  revert n s m. induction l as [|a l IH]; intros n s m Hr; cbn [run_acts]; [intros [= <- <-]; by rewrite Z.add_0_r|].
  destruct (guardb s a) eqn:Hg; [|done]. destruct (act s a) as [s'|] eqn:Ha; [|done]. destruct (run_acts s' l) as [[t' m']|] eqn:Ht; [|done]. intros [= <- <-].
  rewrite Z.add_assoc. eapply IH; [|exact Ht]. eapply reach_step; [exact Hr|by apply guardb_sound|done].
Qed.

Definition sample_load : pworld * proxy_t := Eval vm_compute in
  match main_load zero_address no_objects (Some sample) with
  | Ok (w, Some py, _) => (w, py)
  | _ => (no_objects, {| py_cfg := Build_proxy_cfg_t 0 0 0 0 0 0 0 0 0 0 0 0 0; py_maxfd := 0; py_certlist := []; py_ncert := 0; py_ltnlist := []; py_nlistener := 0;
                         py_splist := []; py_nsvrpool := 0; py_pllist := []; py_npolicy := 0 |})
  end.
Definition sample_start : sys := start_sys sample_load.1 sample_load.2.

Lemma sample_loaded : loaded zero_address sample sample_load.1 sample_load.2.
Proof. split; [exact sample_no_nul|vm_compute; reflexivity]. Qed.

Lemma sample_tight : tight sample_load.1 sample_load.2.
Proof. split_and!; apply (bool_decide_unpack _); vm_compute; exact I. Qed.

Definition good_answers (n : nat) : answers * list bool := ({| an_fd := 7 + Z.of_nat n; an_map := true; an_event := 0 |}, []).

(** Two workers, two clients, one of which gets a server; one session ends, the
    other is open when its worker stops. *)
Definition sample_serving : list action :=
  [AInit 0; AStart 0; AStart 1; ALoop; AGetCmd 0 good_answers; AGetCmd 1 good_answers; AAccept 0 0 2; AGetServer 0 0 1 zero_address false].
Definition sample_acts : list action :=
  sample_serving ++ [AEnd 0 0 0; AStop 0 (fun _ => []); AStop 1 (fun _ => []); AFreeData; ARelease].

Definition run_sample (l : list action) : sys * Z := match run_acts sample_start l with Some r => r | None => (sample_start, 0) end.

Lemma sample_serving_reach : reach sample_start (run_sample sample_serving).2 (run_sample sample_serving).1.
Proof.
  assert (E : run_acts sample_start sample_serving = Some ((run_sample sample_serving).1, (run_sample sample_serving).2)) by (vm_compute; reflexivity).
  exact (run_acts_reach _ _ _ _ _ _ (reach_start sample_start) E).
Qed.
Lemma sample_looped_reach : reach sample_start (run_sample (take 4 sample_serving)).2 (run_sample (take 4 sample_serving)).1.
Proof.
  assert (E : run_acts sample_start (take 4 sample_serving) = Some ((run_sample (take 4 sample_serving)).1, (run_sample (take 4 sample_serving)).2)) by (vm_compute; reflexivity).
  exact (run_acts_reach _ _ _ _ _ _ (reach_start sample_start) E).
Qed.
Lemma sample_acts_reach : reach sample_start (run_sample sample_acts).2 (run_sample sample_acts).1.
Proof.
  assert (E : run_acts sample_start sample_acts = Some ((run_sample sample_acts).1, (run_sample sample_acts).2)) by (vm_compute; reflexivity).
  exact (run_acts_reach _ _ _ _ _ _ (reach_start sample_start) E).
Qed.

(** The second session ends; and a listening descriptor without an item. *)
Definition no_item (n : nat) : answers * list bool := ({| an_fd := 7; an_map := false; an_event := 0 |}, []).
Lemma system_safe_witness :
  (exists s', act (run_sample sample_serving).1 (AEnd 0 0 1) = Ok s') /\
  act (run_sample (take 4 sample_serving)).1 (AGetCmd 0 no_item) = Fault AssertFailed.
Proof.
  split.
  - apply (system_safe zero_address sample sample_load.1 sample_load.2 (run_sample sample_serving).2 _ (AEnd 0 0 1)); [exact sample_loaded|exact sample_serving_reach| |vm_compute; reflexivity].
    apply guardb_sound. vm_compute. reflexivity.
  - pose proof (system_safe zero_address sample sample_load.1 sample_load.2 (run_sample (take 4 sample_serving)).2 _ (AGetCmd 0 no_item) sample_loaded sample_looped_reach) as H.
    assert (E : faults (run_sample (take 4 sample_serving)).1 (AGetCmd 0 no_item) = Some AssertFailed) by (vm_compute; reflexivity).
    rewrite E in H. apply H; [apply guardb_sound; vm_compute; reflexivity|vm_compute; reflexivity].
Defined.

Lemma policy_count_exact_witness :
  let s := (run_sample sample_serving).1 in
  match pw_pls (sy_w s) !! 6%positive with Some l => pl_refcnt l + 1 = Z.of_nat (cnt (RPl, 6%positive) (held_by s ++ wks_refs (sy_wks s) ++ sy_lost s)) | None => False end.
Proof.
  cbv zeta. pose proof (policy_count_exact zero_address sample sample_load.1 sample_load.2 (run_sample sample_serving).2 (run_sample sample_serving).1 6%positive
    sample_loaded sample_serving_reach ltac:(vm_compute; reflexivity)) as Hc. cbv zeta in Hc.
  destruct (pw_pls _ !! _) as [l|] eqn:E; [exact Hc|]. vm_compute in E. discriminate E.
Defined.

Lemma release_complete_witness :
  let s := (run_sample sample_acts).1 in
  sy_phase s = Released /\ pw_pls (sy_w s) = ∅ /\ pw_ltns (sy_w s) = ∅ /\ pw_ltds (sy_w s) = ∅ /\ w_heap (pw (sy_w s)) = ∅.
Proof.
  cbv zeta. split; [vm_compute; reflexivity|].
  destruct (release_complete zero_address sample sample_load.1 sample_load.2 (run_sample sample_acts).2 (run_sample sample_acts).1) as (H1 & H2 & H3);
    [exact sample_loaded|exact sample_acts_reach|vm_compute; reflexivity|vm_compute; reflexivity|vm_compute; reflexivity|].
  destruct (H3 sample_tight) as [H4 H5]. split; [exact H1|]. split; [exact H4|]. split; [exact H2|exact H5].
Defined.

(** ** Certificate sets *)
Lemma on_pw_certs {A} w (r : res (world * A)) w' a : on_pw w r = Ok (w', a) -> pw_certs w' = pw_certs w.
Proof. unfold on_pw. destruct r as [[v x]|]; [|done]. by intros [= <- <-]. Qed.
Lemma listener_free_certs w s w' r : listener_free w s = Ok (w', r) -> pw_certs w' = pw_certs w.
Proof. destruct s; [|by intros [= <- <-]]. unfold listener_free. intros H. inv_ok. by destruct (_ =? 0). Qed.
Lemma listener_free_data_certs w s w' r : listener_free_data w s = Ok (w', r) -> pw_certs w' = pw_certs w.
Proof. destruct s; [|by intros [= <- <-]]. unfold listener_free_data. intros H. inv_ok; try done. by destruct (ld_sslctx _). Qed.

Ltac certs_of :=
  repeat match goal with
  | H : bind _ _ = Ok _ |- _ => apply bind_Ok in H as (? & ? & H)
  | x : (_ * _)%type |- _ => destruct x
  | H : Ok _ = Ok _ |- _ => injection H; clear H; intros; subst
  | H : on_pw _ _ = Ok _ |- _ => apply on_pw_certs in H
  | H : listener_free _ _ = Ok _ |- _ => apply listener_free_certs in H
  | H : listener_free_data _ _ = Ok _ |- _ => apply listener_free_data_certs in H
  | H : match ?x with _ => _ end = Ok _ |- _ => destruct x eqn:?
  end.

Lemma policy_free_data_certs w s w' r : policy_free_data w s = Ok (w', r) -> pw_certs w' = pw_certs w.
Proof. destruct s; [|by intros [= <- <-]]. unfold policy_free_data. intros H. certs_of; cbn [put_pl set_pls pw_certs] in *; congruence. Qed.
Lemma policy_free_certs w s w' r : policy_free w s = Ok (w', r) -> pw_certs w' = pw_certs w.
Proof.
  destruct s; [|by intros [= <- <-]]. unfold policy_free. intros H. certs_of;
    repeat match goal with H : policy_free_data _ _ = Ok _ |- _ => apply policy_free_data_certs in H end; cbn [put_pl set_pls pw_certs] in *; congruence.
Qed.

Lemma free_listeners_certs l w w' : free_listeners w l = Ok w' -> pw_certs w' = pw_certs w.
Proof. revert w. induction l as [|x l IH]; intros w; cbn [free_listeners]; [by intros [= <-]|]. intros H. certs_of. rewrite (IH _ H). done. Qed.
Lemma free_svrpools_certs l w w' : free_svrpools w l = Ok w' -> pw_certs w' = pw_certs w.
Proof. revert w. induction l as [|x l IH]; intros w; cbn [free_svrpools]; [by intros [= <-]|]. intros H. certs_of. rewrite (IH _ H). done. Qed.
Lemma free_policies_certs l w w' : free_policies w l = Ok w' -> pw_certs w' = pw_certs w.
Proof.
  revert w. induction l as [|x l IH]; intros w; cbn [free_policies]; [by intros [= <-]|]. intros H. certs_of. rewrite (IH _ H). by eapply policy_free_certs.
Qed.

(** C6: certificate sets are never released: whatever the configuration, proxy_free
    leaves every certificate set where it was, with the references that the
    released listeners held still counted. *)
Theorem proxy_free_keeps_certsets w py w' rc : proxy_free w (Some py) = Ok (w', rc) -> pw_certs w' = pw_certs w.
Proof.
  unfold proxy_free. intros H. apply bind_Ok in H as (w1 & H1%free_listeners_certs & H). apply bind_Ok in H as (w2 & H2%free_svrpools_certs & H).
  apply bind_Ok in H as (w3 & H3%free_policies_certs & H). injection H as <- <-. congruence.
Qed.

Definition tls_sample : list Z := Eval vm_compute in str
  ("[certset]" ++ nl ++ "name c1" ++ nl ++ "certificate /a.pem" ++ nl ++ "privatekey /a.key" ++ nl ++
   "[listener]" ++ nl ++ "name l1" ++ nl ++ "address 10.0.0.1:443" ++ nl ++ "ssl yes" ++ nl ++ "certset c1" ++ nl)%string.

Lemma proxy_free_keeps_certsets_witness :
  match main_load zero_address no_objects (Some tls_sample) with
  | Ok (w, Some py, _) => match proxy_free w (Some py) with Ok (w', _) => pw_certs w' = pw_certs w /\ option_map ct_refcnt (pw_certs w' !! 2%positive) = Some 1 | Fault _ => False end
  | _ => False
  end.
Proof.
  destruct (main_load zero_address no_objects (Some tls_sample)) as [[[w [py|]] rc]|] eqn:E; [|vm_compute in E; discriminate E..].
  assert (Hc : option_map ct_refcnt (pw_certs w !! 2%positive) = Some 1) by (vm_compute in E; injection E as <- <- <-; vm_compute; reflexivity).
  destruct (proxy_free w (Some py)) as [[w' r]|] eqn:F.
  - rewrite (proxy_free_keeps_certsets w py w' r F). split; [reflexivity|exact Hc].
  - vm_compute in E. injection E as <- <- <-. vm_compute in F. discriminate F.
Defined.
End SystemClaims.
