(* ===== verification/SslDump.v ===== *)
(** * ssldump: the table of TCP streams

    Model of the packet path of src/code/network/packet/ssldump.c: the callback of
    one captured frame and the lookup of its stream in the hash table of shash.h.
    The table holds pointers to streams; a pointer is modelled by the tuple it points
    to, which no function changes after the stream was added, and the identifier of
    the stream (None for the tuple on the stack that a lookup compares with).  The
    memory the streams have is a map. *)
From S2P Require Import Prelude CLib ObjPool HashTable IpAddr NetPkt TcpStream.

Module SslDump.
Import HashTable IpAddr NetPkt TcpStream.

Record sptr : Type := { p_tup : tcp_tup_t; p_id : option positive }.
#[export] Instance ip_addr_eq_dec : EqDecision ip_addr_t.
Proof. solve_decision. Defined.
#[export] Instance ip_port_eq_dec : EqDecision ip_port_t.
Proof. solve_decision. Defined.
#[export] Instance tcp_tup_eq_dec : EqDecision tcp_tup_t.
Proof. solve_decision. Defined.
#[export] Instance sptr_eq_dec : EqDecision sptr.
Proof. solve_decision. Defined.

(** The compare function of the table. *)
Definition sptr_cmp (x y : sptr) : Z := tcp_tup_cmp (Some (p_tup x)) (Some (p_tup y)).

Definition zero_end : ip_port_t := {| ipp_ip := {| ip_family := 0; ip_bytes := replicate 16 0 |}; ipp_port := 0 |}.
Definition zero_tup : tcp_tup_t := {| tup_src := zero_end; tup_dst := zero_end |}.

Section Dump.
Context {P obj : Type} `{Countable obj} `{!ObjPoolSpec P obj}.

(** [_g_tcphash] and the streams; [d_next] is the next fresh identifier. *)
Record dump_t : Type := { d_hash : shash_t P obj sptr; d_streams : gmap positive tcp_stream_t; d_next : positive }.

(** tcp_tup_init, tcp_tup_hash and shash_find for one direction: None when one of the
    first two fails. *)
Definition lookup_dir (st : dump_t) (tup : tcp_tup_t) (p : netpkt_t) (dir : Z) : res (option (tcp_tup_t * Z * option sptr)) :=
  do (tup, rc) <- tcp_tup_init tup p dir;
  if negb (rc =? 0) then Ok None else
  match tcp_tup_hash tup with
  | (0, Some hval) => do r <- shash_find (Some (d_hash st)) (Some {| p_tup := tup; p_id := None |}) hval; Ok (Some (tup, hval, r))
  | _ => Ok None
  end.

(** A known stream gets the packet. *)
Definition flow_stream (st : dump_t) (x : sptr) (p : netpkt_t) (pid : positive) (dir : Z) (a : moved) : res (dump_t * option Z) :=
  do id <- deref (p_id x);
  do t <- deref (d_streams st !! id);
  do (t, n) <- tcp_stream_flow t p pid dir a;
  Ok ({| d_hash := d_hash st; d_streams := <[id := t]> (d_streams st); d_next := d_next st |}, n).

(** A packet of no known stream: a SYN starts one.  [ok] says whether malloc gives
    memory; the result of shash_add is not looked at. *)
Definition new_flow (st : dump_t) (p : netpkt_t) (dir hval : Z) (ok : bool) : res (dump_t * option Z) :=
  do off <- deref (hdr4 p);
  do h <- tcp_header p off;
  if h_syn h && negb (h_ack h) && negb (h_fin h) && negb (h_psh h) && negb (h_rst h) then
    match tcp_stream_alloc ok with
    | None => Ok (st, Some (-1))
    | Some t =>
        let t := syn_stream t (h_seq h) in
        do (tup, rc) <- tcp_tup_init zero_tup p dir;
        if negb (rc =? 0) then do _ <- tcp_stream_free (Some t); Ok (st, Some (-1))
        else
          do (hash, _) <- shash_add (Some (d_hash st)) (Some {| p_tup := tup; p_id := Some (d_next st) |}) hval false;
          do hash <- deref hash;
          Ok ({| d_hash := hash; d_streams := <[d_next st := t]> (d_streams st); d_next := Pos.succ (d_next st) |}, Some (-1))
    end
  else Ok (st, Some (-1)).

(** [junk] is what the stack holds where [tup] is. *)
Definition decode_tcp (st : dump_t) (junk : tcp_tup_t) (p : netpkt_t) (pid : positive) (a : moved) (ok : bool) : res (dump_t * option Z) :=
  do r <- lookup_dir st junk p 1;
  match r with
  | None => Ok (st, Some (-1))
  | Some (_, _, Some x) => flow_stream st x p pid 1 a
  | Some (tup, _, None) =>
      do r <- lookup_dir st tup p 0;
      match r with
      | None => Ok (st, Some (-1))
      | Some (_, _, Some x) => flow_stream st x p pid 0 a
      | Some (_, hval, None) => new_flow st p 0 hval ok
      end
  end.

(** The callback of one frame: [mem] is the fresh memory of the packet, as long as the
    frame.  None when the program exits. *)
Definition dump_decode (st : dump_t) (junk : tcp_tup_t) (mem bytes : list Z) (pid : positive) (a : moved) (ok : bool) : res (option dump_t) :=
  let p := netpkt_alloc mem in
  do (p, _) <- netpkt_add_data p (Some bytes);
  do (p, rc) <- eth_decode p;
  if negb (rc =? 0) then Ok None else
  do (p, rc) <- (if hdr3_type p =? ETHERTYPE_IP then ipv4_decode p else if hdr3_type p =? ETHERTYPE_IPV6 then ipv6_decode p else Ok (p, -1));
  if negb (rc =? 0) then Ok (Some st) else
  if hdr4_type p =? IPPROTO_TCP then
    do (p, rc) <- tcp_decode p;
    if negb (rc =? 0) then Ok (Some st) else
    do (st, _) <- decode_tcp st junk p pid a ok; Ok (Some st)
  else Ok (Some st).
End Dump.
Arguments dump_t P obj {_ _}.
End SslDump.
