(* ===== verification/SslDumpProofs.v ===== *)
(** * ssldump: the table refines a map from connections to streams

    IPv4 traffic only: an IPv4-mapped IPv6 address may compare equal to an IPv4 one
    and still have another hash. *)
From S2P Require Import Prelude CLib ObjPool ObjPoolProofs HashTable HashProofs SHashProofs IpAddr IpAddrProofs IpMatch NetPkt NetPktProofs TcpStream TcpStreamProofs SslDump.

Module SslDumpProofs.
Import ObjPoolProofs HashTable HashProofs SHashProofs IpAddr IpAddrProofs IpMatch NetPkt NetPktProofs TcpStream TcpStreamProofs SslDump.
#[local] Arguments datas : simpl never.

(** ** Connections *)

(** Address and port of the two ends, from the client's side. *)
Definition conn : Type := (list Z * Z) * (list Z * Z).
Definition swap (k : conn) : conn := (k.2, k.1).
Lemma swap_swap k : swap (swap k) = k.
Proof. by destruct k. Qed.

Definition end_key (e : ip_port_t) : list Z * Z := (take 4 (ip_bytes (ipp_ip e)), ipp_port e).
Definition tup_key (t : tcp_tup_t) : conn := (end_key (tup_src t), end_key (tup_dst t)).

Definition v4_end (e : ip_port_t) : Prop := ip_family (ipp_ip e) = AF_INET /\ quad (take 4 (ip_bytes (ipp_ip e))) /\ 0 <= ipp_port e < 2 ^ 16.
Definition v4_tup (t : tcp_tup_t) : Prop := v4_end (tup_src t) /\ v4_end (tup_dst t).

Lemma le_combine_inj a b : quad a -> quad b -> le_combine a = le_combine b -> a = b.
Proof. intros [La Ha] [Lb Hb] E. rewrite <- (le_bytes_combine a), <- (le_bytes_combine b), La, Lb, E; done. Qed.

Lemma ntohl_inj a b : quad a -> quad b -> ntohl (le_combine a) = ntohl (le_combine b) -> a = b.
Proof.
  intros Ha Hb E. destruct (quad_value a Ha) as [Ea _], (quad_value b Hb) as [Eb _]. rewrite Ea, Eb in E.
  apply be_combine_inj; [destruct Ha, Hb; congruence|apply Ha|apply Hb|done].
Qed.

Lemma ntohs_inj x y : 0 <= x < 2 ^ 16 -> 0 <= y < 2 ^ 16 -> ntohs x = ntohs y -> x = y.
Proof. intros Hx Hy E. rewrite <- (bswap_involutive 2 x), <- (bswap_involutive 2 y) by done. unfold ntohs in E. by rewrite E. Qed.

Lemma port_compare_0 a b : v4_end a -> v4_end b -> ip_port_compare (Some a) (Some b) = 0 <-> end_key a = end_key b.
Proof.
  intros (Fa & Qa & Pa) (Fb & Qb & Pb). unfold ip_port_compare, ip_addr_compare, end_key. rewrite Fa, Fb. change (AF_INET =? AF_INET) with true. cbv iota zeta.
  unfold s_addr. destruct (Z.eqb_spec (ntohl (le_combine (take 4 (ip_bytes (ipp_ip a))))) (ntohl (le_combine (take 4 (ip_bytes (ipp_ip b)))))) as [E|E].
  - apply ntohl_inj in E; [|done..]. rewrite E. change (negb (0 =? 0)) with false. cbv iota. split; [|intros [= ->]; lia].
    intros Hs. f_equal. apply ntohs_inj; [done|done|lia].
  - split; [|intros [= Eq _]; congruence]. by destruct (_ <? _).
Qed.

Lemma tup_cmp_0 a b : v4_tup a -> v4_tup b -> tcp_tup_cmp (Some a) (Some b) = 0 <-> tup_key a = tup_key b.
Proof.
  intros [Sa Da] [Sb Db]. unfold tcp_tup_cmp, tup_key. pose proof (port_compare_0 _ _ Sa Sb) as Hs. pose proof (port_compare_0 _ _ Da Db) as Hd.
  destruct (Z.eqb_spec (ip_port_compare (Some (tup_src a)) (Some (tup_src b))) 0) as [E|E]; cbn [negb].
  - rewrite Hd. apply Hs in E. rewrite E. split; [by intros ->|congruence].
  - split; [done|]. intros Ek. destruct E. apply Hs. congruence.
Qed.

(** The hash is a function of the connection. *)
Definition conn_hash (k : conn) : Z :=
  jhash_3words (le_combine k.2.1) (le_combine k.1.1) (u32 (u32 (Z.shiftl k.2.2 16) + k.1.2)).
Lemma tup_hash_v4 t : v4_tup t -> tcp_tup_hash t = (0, Some (conn_hash (tup_key t))).
Proof. intros [(F & _) _]. unfold tcp_tup_hash, conn_hash, tup_key, end_key, s_addr. rewrite F. change (AF_INET =? AF_INET) with true. cbv iota zeta. cbn [fst snd]. exact eq_refl. Qed.
#[local] Opaque conn_hash tcp_tup_cmp.

(** ** Packets *)

(** An IPv4 packet with a TCP header; [k] is read from its headers. *)
Record tcp_of (p : netpkt_t) (k : conn) (h : tcphdr) : Prop := {
  to_ip : hdr3_type p = ETHERTYPE_IP;
  to_tcp : hdr4_type p = IPPROTO_TCP;
  to_read : exists h3 h4, hdr3 p = Some h3 /\ hdr4 p = Some h4 /\
    addr_at p (h3 + 12) 4 = Ok k.1.1 /\ addr_at p (h3 + 16) 4 = Ok k.2.1 /\ port_at p h4 = Ok k.1.2 /\ port_at p (h4 + 2) = Ok k.2.2 /\ tcp_header p h4 = Ok h;
  to_src : quad k.1.1 /\ 0 <= k.1.2 < 2 ^ 16;
  to_dst : quad k.2.1 /\ 0 <= k.2.2 < 2 ^ 16 }.

(** The connection a packet of direction [dir] belongs to. *)
Definition dir_key (dir : Z) (k : conn) : conn := if dir =? 0 then k else swap k.

Lemma set_end_v4 e a port : quad a -> 0 <= port < 2 ^ 16 -> v4_end (set_end e AF_INET a port) /\ end_key (set_end e AF_INET a port) = (a, port).
Proof.
  intros Ha Hp. unfold v4_end, end_key, set_end. change (AF_INET =? AF_INET) with true. cbv iota zeta. cbn [ipp_ip ipp_port ip_family ip_bytes set_v4 set_family].
  pose proof Ha as [L Hb]. rewrite take_app_length' by done. split_and!; (done || lia).
Qed.

Lemma tup_init_v4 tup p k h dir : tcp_of p k h -> exists t, tcp_tup_init tup p dir = Ok (t, 0) /\ v4_tup t /\ tup_key t = dir_key dir k.
Proof.
  intros [T3 T4 (h3 & h4 & E3 & E4 & A & B & Q & R & _) [Ha Hpa] [Hb Hpb]]. unfold tcp_tup_init, dir_key. rewrite E4, T3, E3. change (ETHERTYPE_IP =? ETHERTYPE_IP) with true. cbv iota zeta beta.
  rewrite A, B. cbn [bind]. rewrite T4. change (negb (IPPROTO_TCP =? IPPROTO_TCP)) with false. cbv iota. rewrite Q, R. cbn [bind].
  pose proof (fun e => set_end_v4 e _ _ Ha Hpa) as Hs. pose proof (fun e => set_end_v4 e _ _ Hb Hpb) as Hd.
  destruct k as [[a pa] [b pb]]. cbn [fst snd] in *. eexists. split; [reflexivity|]. destruct (dir =? 0); unfold v4_tup, tup_key, swap; cbn [tup_src tup_dst fst snd].
  - destruct (Hs (tup_src tup)) as [? ->], (Hd (tup_dst tup)) as [? ->]. done.
  - destruct (Hd (tup_src tup)) as [? ->], (Hs (tup_dst tup)) as [? ->]. done.
Qed.
(** ** The table *)
Section Table.
Context {P obj : Type} `{Countable obj} `{!ObjPoolSpec P obj}.
Implicit Types (st : dump_t P obj) (m : gmap conn tcp_stream_t).

Definition key_of (x : sptr) : conn := tup_key (p_tup x).
(** [x] is a pointer the table holds. *)
Definition held st (x : sptr) : Prop := exists i b, scontents (d_hash st) !! i = Some b /\ x ∈ b.
Definition home st (k : conn) : nat := idx (scontents (d_hash st)) (conn_hash k).

Record tab st m : Prop := {
  tb_inv : shash_inv (d_hash st);
  tb_size : u32 (sh_size (d_hash st)) = sh_size (d_hash st);
  tb_cmp : sh_cmp_func (d_hash st) = sptr_cmp;
  tb_entry i b x : scontents (d_hash st) !! i = Some b -> x ∈ b ->
    i = home st (key_of x) /\ v4_tup (p_tup x) /\
    exists id t, p_id x = Some id /\ d_streams st !! id = Some t /\ m !! key_of x = Some t /\ (id < d_next st)%positive;
  tb_full k t : m !! k = Some t -> exists x, held st x /\ key_of x = k;
  tb_ids x y : held st x -> held st y -> p_id x = p_id y <-> key_of x = key_of y;
  tb_idle k t : m !! k = Some t -> stream_idle t;
  tb_next id : (d_next st <= id)%positive -> d_streams st !! id = None }.

(** A lookup finds the stream of the connection. *)
Lemma tab_find st m tup :
  tab st m -> v4_tup tup ->
  exists r, shash_find (Some (d_hash st)) (Some {| p_tup := tup; p_id := None |}) (conn_hash (tup_key tup)) = Ok r /\
    match r with None => m !! tup_key tup = None | Some x => held st x /\ key_of x = tup_key tup end.
Proof.
  intros T Hv. destruct (shash_find_ok (d_hash st) {| p_tup := tup; p_id := None |} (conn_hash (tup_key tup)) (tb_inv _ _ T) (tb_size _ _ T)) as (h' & r & E & _ & Hs & _).
  cbn [run_sop] in E. destruct (shash_find _ _ _) as [v|]; [|done]. injection E as _ Er. exists v. split; [done|].
  rewrite (tb_cmp _ _ T) in Hs. inversion Hs as [| | | | |d hv b Hb Hh Ed Eh|d hv b i x Hb Hh Hx Ed Eh]; subst; simplify_eq.
  - apply eq_None_not_Some. intros [t Ht]. destruct (tb_full _ _ T _ _ Ht) as (x & (i & b' & Hi & Hx) & Ek).
    destruct (tb_entry _ _ T _ _ _ Hi Hx) as (-> & Hvx & _). unfold home in Hi. rewrite Ek in Hi. rewrite Hb in Hi. injection Hi as <-.
    unfold hit in Hh. rewrite find_first_None, Forall_forall in Hh. specialize (Hh x Hx). cbv beta in Hh. unfold sptr_cmp in Hh. cbn [p_tup] in Hh.
    apply Z.eqb_neq in Hh. destruct Hh. apply tup_cmp_0; done.
  - unfold hit in Hh. apply find_first_Some in Hh as (y & Hy & Hc & _). rewrite Hx in Hy. injection Hy as <-. apply Z.eqb_eq in Hc.
    assert (Hin : x ∈ b) by (by eapply list_elem_of_lookup_2). destruct (tb_entry _ _ T _ _ _ Hb Hin) as (_ & Hvx & _).
    split; [by exists (idx (scontents (d_hash st)) (conn_hash (tup_key tup))), b|]. by apply tup_cmp_0 in Hc.
Qed.

(** A packet of a known stream changes that stream only. *)
Lemma tab_flow st m x p pid dir a :
  tab st m -> held st x -> ordinary {| e_pkt := p; e_id := pid; e_dir := dir; e_mem := a |} ->
  exists t t' r st', m !! key_of x = Some t /\ tcp_stream_flow t p pid dir a = Ok (t', r) /\ flow_stream st x p pid dir a = Ok (st', r) /\ tab st' (<[key_of x := t']> m).
Proof.
  intros T Hx Ho. pose proof Hx as (i & b & Hi & Hb). destruct (tb_entry _ _ T _ _ _ Hi Hb) as (_ & _ & id & t & Eid & Est & Em & Hlt).
  destruct (flow_idle t _ (tb_idle _ _ T _ _ Em) Ho) as (t' & r & Ef & Hid). unfold flow in Ef. cbn [e_pkt e_id e_dir e_mem] in Ef.
  exists t, t', r. eexists. split; [done|]. split; [done|]. split; [unfold flow_stream; rewrite Eid; cbn [deref bind]; rewrite Est; cbn [deref bind]; rewrite Ef; reflexivity|].
  constructor; cbn [d_hash d_streams d_next]; [apply T..| | | | |].
  - intros j c y Hj Hy. destruct (tb_entry _ _ T _ _ _ Hj Hy) as (Ej & Hv & id' & t0 & Eid' & Est' & Em' & Hlt'). split; [done|]. split; [done|].
    assert (Hid' : p_id y = p_id x <-> key_of y = key_of x) by (apply (tb_ids _ _ T); [by exists j, c|done]).
    destruct (decide (key_of y = key_of x)) as [Ek|Ek].
    + exists id', t'. apply Hid' in Ek as Ep. assert (id' = id) as -> by congruence. split_and!; [done|by rewrite lookup_insert_eq|by rewrite Ek, lookup_insert_eq|done].
    + exists id', t0. assert (id' <> id) by (intros ->; apply Ek, Hid'; congruence). split_and!; [done|by rewrite lookup_insert_ne|by rewrite lookup_insert_ne|done].
  - intros k t0 Hk. destruct (decide (k = key_of x)) as [->|Hne]; [by exists x|]. rewrite lookup_insert_ne in Hk by done. by apply (tb_full _ _ T k t0).
  - apply (tb_ids _ _ T).
  - intros k t0 Hk. destruct (decide (k = key_of x)) as [->|Hne]; [rewrite lookup_insert_eq in Hk; by injection Hk as <-|]. rewrite lookup_insert_ne in Hk by done. by apply (tb_idle _ _ T k t0).
  - intros id' Hle. rewrite lookup_insert_ne by lia. by apply (tb_next _ _ T).
Qed.
(** The entries after [x] was appended to its bucket. *)
Lemma held_insert (c : list (list sptr)) i0 b0 x i b y :
  c !! i0 = Some b0 -> <[i0 := b0 ++ [x]]> c !! i = Some b -> y ∈ b -> (y = x /\ i = i0) \/ exists b', c !! i = Some b' /\ y ∈ b'.
Proof.
  intros H0 Hi Hy. destruct (decide (i = i0)) as [->|Hne].
  - rewrite list_lookup_insert_eq in Hi by (by eapply lookup_lt_Some). injection Hi as <-. apply elem_of_app in Hy as [Hy|Hy%list_elem_of_singleton]; [right; by eexists|by left].
  - rewrite list_lookup_insert_ne in Hi by done. right. by eexists.
Qed.

(** The table of a state whose hash has the same contents. *)
Lemma tab_same st m h streams next :
  tab st m -> shash_inv h -> u32 (sh_size h) = sh_size h -> sh_cmp_func h = sptr_cmp -> scontents h = scontents (d_hash st) ->
  d_streams st ⊆ streams -> (forall id, (next <= id)%positive -> streams !! id = None) -> (d_next st <= next)%positive -> tab {| d_hash := h; d_streams := streams; d_next := next |} m.
Proof.
  intros T Hi Hs Hc Hco Hsub Hf Hn. assert (Hheld : forall x, held {| d_hash := h; d_streams := streams; d_next := next |} x <-> held st x) by (intros x; unfold held; cbn [d_hash]; by rewrite Hco).
  constructor; cbn [d_hash d_streams d_next]; [done..| | | | |].
  - intros i b x Hb Hx. rewrite Hco in Hb. destruct (tb_entry _ _ T _ _ _ Hb Hx) as (Ei & Hv & id & t & ? & Hl & ? & ?). unfold home. cbn [d_hash]. rewrite Hco.
    split; [done|]. split; [done|]. exists id, t. split_and!; [done|by eapply lookup_weaken|done|lia].
  - intros k t Hk. destruct (tb_full _ _ T k t Hk) as (x & Hx & Ek). exists x. by rewrite Hheld.
  - intros x y. rewrite !Hheld. apply (tb_ids _ _ T).
  - apply (tb_idle _ _ T).
  - done.
Qed.

Lemma tab_fresh st m : tab st m -> forall x, held st x -> p_id x <> Some (d_next st).
Proof. intros T x (i & b & Hi & Hb) E. destruct (tb_entry _ _ T _ _ _ Hi Hb) as (_ & _ & id & _ & Eid & _ & _ & Hlt). rewrite Eid in E. injection E as ->. lia. Qed.

Lemma tab_insert st m tup t h b :
  tab st m -> v4_tup tup -> m !! tup_key tup = None -> stream_idle t ->
  shash_inv h -> u32 (sh_size h) = sh_size h -> sh_cmp_func h = sptr_cmp -> scontents (d_hash st) !! home st (tup_key tup) = Some b ->
  scontents h = <[home st (tup_key tup) := b ++ [ {| p_tup := tup; p_id := Some (d_next st) |} ]]> (scontents (d_hash st)) ->
  tab {| d_hash := h; d_streams := <[d_next st := t]> (d_streams st); d_next := Pos.succ (d_next st) |} (<[tup_key tup := t]> m).
Proof.
  intros T Hv Hm Hid Hi Hs Hc Hb Hco. set (x := {| p_tup := tup; p_id := Some (d_next st) |}) in *. set (st' := {| d_hash := h; d_streams := _; d_next := _ |}).
  assert (Hhome : forall k, home st' k = home st k) by (intros k; unfold home, idx; cbn [d_hash st']; by rewrite Hco, length_insert).
  assert (Hnew : held st' x). { exists (home st (tup_key tup)), (b ++ [x]). cbn [d_hash st']. rewrite Hco, list_lookup_insert_eq by (by eapply lookup_lt_Some). split; [done|]. apply elem_of_app. right. by apply list_elem_of_singleton. }
  assert (Hold : forall y, held st y -> held st' y).
  { intros y (i & b' & Hi' & Hy). unfold held. cbn [d_hash st']. rewrite Hco. destruct (decide (i = home st (tup_key tup))) as [->|Hne].
    - exists (home st (tup_key tup)), (b ++ [x]). rewrite list_lookup_insert_eq by (by eapply lookup_lt_Some). split; [done|]. apply elem_of_app. left. congruence.
    - exists i, b'. by rewrite list_lookup_insert_ne. }
  assert (Hall : forall y, held st' y -> y = x \/ held st y).
  { intros y (i & b' & Hi' & Hy). cbn [d_hash st'] in Hi'. rewrite Hco in Hi'. destruct (held_insert _ _ _ _ _ _ _ Hb Hi' Hy) as [[-> _]|(b1 & H1 & H2)]; [by left|right; by exists i, b1]. }
  assert (Hkey : forall y, held st y -> key_of y <> tup_key tup).
  { intros y (i & b' & Hi' & Hy) Ek. destruct (tb_entry _ _ T _ _ _ Hi' Hy) as (_ & _ & id & t0 & _ & _ & Em & _). congruence. }
  constructor; cbn [d_hash d_streams d_next st']; [done..| | | | |].
  - intros i b' y Hi' Hy. rewrite Hhome. rewrite Hco in Hi'. destruct (held_insert _ _ _ _ _ _ _ Hb Hi' Hy) as [[-> ->]|(b1 & H1 & H2)].
    + split; [done|]. split; [done|]. exists (d_next st), t. split_and!; [done|by rewrite lookup_insert_eq|by rewrite lookup_insert_eq|lia].
    + destruct (tb_entry _ _ T _ _ _ H1 H2) as (Ei & Hvy & id & t0 & Eid & Est & Em & Hlt). split; [done|]. split; [done|]. exists id, t0.
      assert (held st y) by (by exists i, b1). split_and!; [done|rewrite lookup_insert_ne; [done|lia]|rewrite lookup_insert_ne; [done|by apply not_eq_sym, Hkey]|lia].
  - intros k t0 Hk. destruct (decide (k = tup_key tup)) as [->|Hne]; [by exists x|]. rewrite lookup_insert_ne in Hk by done. destruct (tb_full _ _ T k t0 Hk) as (y & Hy & Ey). exists y. auto.
  - intros y z [->|Hy]%Hall [->|Hz]%Hall; [done| | |by apply (tb_ids _ _ T)].
    + split; intros E; [by destruct (tab_fresh _ _ T z Hz)|by destruct (Hkey z Hz)].
    + split; intros E; [by destruct (tab_fresh _ _ T y Hy)|by destruct (Hkey y Hy)].
  - intros k t0 Hk. destruct (decide (k = tup_key tup)) as [->|Hne]; [rewrite lookup_insert_eq in Hk; by injection Hk as <-|]. rewrite lookup_insert_ne in Hk by done. by apply (tb_idle _ _ T k t0).
  - intros id' Hle. rewrite lookup_insert_ne by lia. apply (tb_next _ _ T). lia.
Qed.

(** A SYN of an unknown connection. *)
Definition opens (h : tcphdr) : bool := h_syn h && negb (h_ack h) && negb (h_fin h) && negb (h_psh h) && negb (h_rst h).

Lemma tab_new st m p k h ok :
  tab st m -> tcp_of p k h -> m !! k = None ->
  exists st' m', new_flow st p 0 (conn_hash k) ok = Ok (st', Some (-1)) /\ tab st' m' /\
    m' = if opens h && ok && negb (pool_dry (sh_itempool (d_hash st))) then <[k := syn_stream zero_stream (h_seq h)]> m else m.
Proof.
  intros T Hp Hm. pose proof Hp as [_ _ (h3 & h4 & _ & E4 & _ & _ & _ & _ & Eh) _ _]. unfold new_flow. rewrite E4. cbn [deref bind]. rewrite Eh. cbn [bind]. change (h_syn h && _ && _ && _ && _) with (opens h).
  destruct (opens h) eqn:Eo; [|exists st, m; auto]. destruct ok; [|exists st, m; auto]. cbn [andb]. cbn [tcp_stream_alloc].
  destruct (tup_init_v4 zero_tup p k h 0 Hp) as (tup & -> & Hv & Ek). change (dir_key 0 k) with k in Ek. cbn [bind]. change (negb (0 =? 0)) with false. cbv iota. subst k.
  destruct (shash_add_ok (d_hash st) {| p_tup := tup; p_id := Some (d_next st) |} (conn_hash (tup_key tup)) false (tb_inv _ _ T) (tb_size _ _ T)) as (h' & r & E & Hi & Hs & Hc & Hz).
  cbn [run_sop] in E. destruct (shash_add _ _ _ _) as [[oh rc]|]; [|done]. injection E as -> <-. cbn [bind deref].
  assert (Hz' : u32 (sh_size h') = sh_size h') by (rewrite Hz; unfold u32; apply Zmod_mod). rewrite (tb_cmp _ _ T) in Hc.
  inversion Hs as [d hv ck b Hdry Hb _ Ed Er Econ| |d hv ck b Hdry Hb _ Ed Er Econ| | | |]; rewrite Hdry; cbn [negb].
  - eexists _, _. split; [reflexivity|]. split; [|reflexivity]. eapply tab_insert; [done..| |done|done|done|exact Hb|done]. by split_and!.
  - eexists _, m. split; [reflexivity|]. split; [|done]. apply (tab_same st); [done..| |intros id Hle; rewrite lookup_insert_ne by lia; apply (tb_next _ _ T); lia|lia].
    apply insert_subseteq, (tb_next _ _ T). lia.
Qed.
End Table.

(** ** Runs *)
Record capture : Type := { c_pkt : netpkt_t; c_id : positive; c_mem : moved; c_ok : bool; c_junk : tcp_tup_t }.
Definition cflow (t : tcp_stream_t) (c : capture) (dir : Z) : res (tcp_stream_t * option Z) := tcp_stream_flow t (c_pkt c) (c_id c) dir (c_mem c).

(** The connection the headers of a packet name. *)
Definition conn_of (p : netpkt_t) : option conn :=
  match hdr3 p, hdr4 p with
  | Some h3, Some h4 =>
      match addr_at p (h3 + 12) 4, addr_at p (h3 + 16) 4, port_at p h4, port_at p (h4 + 2) with
      | Ok a, Ok b, Ok pa, Ok pb => Some ((a, pa), (b, pb))
      | _, _, _, _ => None
      end
  | _, _ => None
  end.
Definition header_of (p : netpkt_t) : res tcphdr := do off <- deref (hdr4 p); tcp_header p off.

(** The map from connections to streams that the table stands for: a packet from the
    server's end goes to the stream as direction 1, one from the client's end as
    direction 0, and a SYN of an unknown connection makes a stream exactly when malloc
    gives the memory of the stream ([c_ok]) and the item pool of the table is not dry
    ([dry]); any other packet of an unknown connection changes nothing. *)
Inductive track (dry : bool) (m : gmap conn tcp_stream_t) (c : capture) : gmap conn tcp_stream_t -> Prop :=
  | tr_reply k t t' r : conn_of (c_pkt c) = Some k -> m !! swap k = Some t -> cflow t c 1 = Ok (t', r) -> track dry m c (<[swap k := t']> m)
  | tr_request k t t' r : conn_of (c_pkt c) = Some k -> m !! swap k = None -> m !! k = Some t -> cflow t c 0 = Ok (t', r) -> track dry m c (<[k := t']> m)
  | tr_open k h : conn_of (c_pkt c) = Some k -> m !! swap k = None -> m !! k = None -> header_of (c_pkt c) = Ok h ->
      opens h && c_ok c && negb dry = true -> track dry m c (<[k := syn_stream zero_stream (h_seq h)]> m)
  | tr_none k h : conn_of (c_pkt c) = Some k -> m !! swap k = None -> m !! k = None -> header_of (c_pkt c) = Ok h ->
      opens h && c_ok c && negb dry = false -> track dry m c m.
(** A run, with the state of the item pool before each packet. *)
Inductive tracks (m : gmap conn tcp_stream_t) : list capture -> list bool -> gmap conn tcp_stream_t -> Prop :=
  | tracks_nil : tracks m [] [] m
  | tracks_snoc l c ds d m1 m2 : tracks m l ds m1 -> track d m1 c m2 -> tracks m (l ++ [c]) (ds ++ [d]) m2.

Definition good (c : capture) : Prop := exists k h, tcp_of (c_pkt c) k h /\ c_mem c <> Moved /\ (h_psh h = true -> h_seq h <> 0).

Lemma tcp_of_reads p k h : tcp_of p k h -> conn_of p = Some k /\ header_of p = Ok h.
Proof. intros [_ _ (h3 & h4 & E3 & E4 & A & B & Q & R & Eh) _ _]. unfold conn_of, header_of. rewrite E3, E4, A, B, Q, R. cbn [deref bind]. rewrite Eh. by destruct k as [[? ?] [? ?]]. Qed.

Section Run.
Context {P obj : Type} `{Countable obj} `{!ObjPoolSpec P obj}.
Implicit Types (st : dump_t P obj).

Definition cdecode st (c : capture) : res (dump_t P obj * option Z) := decode_tcp st (c_junk c) (c_pkt c) (c_id c) (c_mem c) (c_ok c).
Fixpoint run_dump st (l : list capture) : res (dump_t P obj) :=
  match l with [] => Ok st | c :: l => do (st, _) <- cdecode st c; run_dump st l end.
Lemma run_dump_snoc st l c : run_dump st (l ++ [c]) = do st <- run_dump st l; do (st, _) <- cdecode st c; Ok st.
Proof. revert st. induction l as [|c' l IH]; intros st; cbn [app run_dump]; [done|]. destruct (cdecode st c') as [[st1 r]|]; [|done]. cbn [bind]. apply IH. Qed.

(** Whether the item pool is dry before each packet. *)
Definition dump_dry st : bool := pool_dry (sh_itempool (d_hash st)).
Fixpoint drys st (l : list capture) : list bool :=
  match l with [] => [] | c :: l => dump_dry st :: match cdecode st c with Ok (st, _) => drys st l | Fault _ => [] end end.
Lemma drys_snoc st l c st' : run_dump st l = Ok st' -> drys st (l ++ [c]) = drys st l ++ [dump_dry st'].
Proof.
  revert st. induction l as [|c' l IH]; intros st; cbn [app run_dump drys].
  - intros [= <-]. by destruct (cdecode st c) as [[]|].
  - destruct (cdecode st c') as [[st1 r]|]; [|done]. cbn [bind app]. intros E. f_equal. by apply IH.
Qed.

Lemma good_ordinary c dir h : dir = 0 \/ dir = 1 -> header_of (c_pkt c) = Ok h -> c_mem c <> Moved -> (h_psh h = true -> h_seq h <> 0) ->
  ordinary {| e_pkt := c_pkt c; e_id := c_id c; e_dir := dir; e_mem := c_mem c |}.
Proof. intros Hd Eh Hm Hp. split; [done|]. split; [done|]. exists h. split; [|done]. unfold header_of, e_header in *. cbn [e_pkt]. by destruct (hdr4 (c_pkt c)). Qed.

Lemma lookup_dir_spec st m tup p k h dir :
  tab st m -> tcp_of p k h ->
  exists t r, lookup_dir st tup p dir = Ok (Some (t, conn_hash (dir_key dir k), r)) /\
    match r with None => m !! dir_key dir k = None | Some x => held st x /\ key_of x = dir_key dir k end.
Proof.
  intros T Hp. destruct (tup_init_v4 tup p k h dir Hp) as (t & E & Hv & Ek). destruct (tab_find st m t T Hv) as (r & Er & Hr). rewrite <- Ek.
  exists t, r. split; [|done]. unfold lookup_dir. rewrite E. cbn [bind]. change (negb (0 =? 0)) with false. cbv iota. rewrite (tup_hash_v4 t Hv), Er. reflexivity.
Qed.

Lemma decode_step st m c : tab st m -> good c -> exists st' r m', cdecode st c = Ok (st', r) /\ tab st' m' /\ track (dump_dry st) m c m'.
Proof.
  intros T (k & h & Hp & Hm & Hs). destruct (tcp_of_reads _ _ _ Hp) as [Ec Eh]. unfold cdecode, decode_tcp.
  destruct (lookup_dir_spec st m (c_junk c) (c_pkt c) k h 1 T Hp) as (t & [x|] & -> & Hr); cbn [bind]; change (dir_key 1 k) with (swap k) in *.
  - destruct Hr as [Hx Ek]. destruct (tab_flow st m x (c_pkt c) (c_id c) 1 (c_mem c) T Hx) as (t0 & t1 & r & st' & Em & Ef & -> & T'); [eapply good_ordinary; eauto|].
    rewrite Ek in *. eexists _, _, _. split; [reflexivity|]. split; [done|]. by eapply tr_reply.
  - destruct (lookup_dir_spec st m t (c_pkt c) k h 0 T Hp) as (t0 & [x|] & -> & Hr0); cbn [bind]; change (dir_key 0 k) with k in *.
    + destruct Hr0 as [Hx Ek]. destruct (tab_flow st m x (c_pkt c) (c_id c) 0 (c_mem c) T Hx) as (t1 & t2 & r & st' & Em & Ef & -> & T'); [eapply good_ordinary; eauto|].
      rewrite Ek in *. eexists _, _, _. split; [reflexivity|]. split; [done|]. by eapply tr_request.
    + destruct (tab_new st m (c_pkt c) k h (c_ok c) T Hp Hr0) as (st' & m' & -> & T' & Hm'). eexists _, _, _. split; [reflexivity|]. split; [exact T'|].
      fold (dump_dry st) in Hm'. rewrite Hm'. destruct (opens h && c_ok c && negb (dump_dry st)) eqn:Eo; [by eapply tr_open|by eapply tr_none].
Qed.

Lemma run_step l st m : tab st m -> Forall good l -> exists st' m', run_dump st l = Ok st' /\ tab st' m' /\ tracks m l (drys st l) m'.
Proof.
  intros T. induction l as [|c l IH] using rev_ind; intros Hl; [exists st, m; by split_and!; [|done|constructor]|]. apply Forall_app in Hl as [Hl Hc]. apply Forall_cons in Hc as [Hc _].
  destruct (IH Hl) as (st1 & m1 & E1 & T1 & Ht1). destruct (decode_step st1 m1 c T1 Hc) as (st2 & r & m2 & E2 & T2 & Ht2).
  exists st2, m2. rewrite run_dump_snoc, (drys_snoc _ _ _ _ E1), E1. cbn [bind]. rewrite E2. split_and!; [done|done|by econstructor].
Qed.

(** The stream of a connection. *)
Definition stream_of st (k : conn) (t : tcp_stream_t) : Prop := exists x id, held st x /\ key_of x = k /\ p_id x = Some id /\ d_streams st !! id = Some t.
Lemma stream_of_tab st m k t : tab st m -> m !! k = Some t <-> stream_of st k t.
Proof.
  intros T. split.
  - intros Hk. destruct (tb_full _ _ T k t Hk) as (x & Hx & <-). pose proof Hx as (i & b & Hi & Hb). destruct (tb_entry _ _ T _ _ _ Hi Hb) as (_ & _ & id & t' & ? & ? & ? & _). exists x, id. split_and!; congruence.
  - intros (x & id & (i & b & Hi & Hb) & <- & Eid & Est). destruct (tb_entry _ _ T _ _ _ Hi Hb) as (_ & _ & id' & t' & ? & ? & ? & _). congruence.
Qed.
End Run.

(** ** What the map says *)

(** One stream for both directions. *)
Lemma tracks_one l ds m : tracks ∅ l ds m -> forall k t, m !! k = Some t -> swap k <> k -> m !! swap k = None.
Proof.
  intros Ht. remember ∅ as m0 eqn:E0. induction Ht as [|l c ds d m1 m2 H1 IH H2]; [by subst|]. intros k t Hk Hne.
  assert (Other : forall k0 t0 t1, m1 !! k0 = Some t0 -> <[k0 := t1]> m1 !! k = Some t -> <[k0 := t1]> m1 !! swap k = None).
  { intros k0 t0 t1 H0 Hk0. destruct (decide (swap k = k0)) as [<-|Hn].
    - rewrite lookup_insert_ne in Hk0 by done. rewrite (IH k t Hk0 Hne) in H0. done.
    - rewrite lookup_insert_ne by done. destruct (decide (k0 = k)) as [->|Hn']; [by apply (IH k t0)|]. rewrite lookup_insert_ne in Hk0 by done. by apply (IH k t). }
  destruct H2 as [k0 t0 t1 r _ H0 _|k0 t0 t1 r _ _ H0 _|k0 h _ Hs H0 _ _|]; [by eapply Other..| |by apply (IH k t)].
  destruct (decide (k0 = k)) as [->|Hn]; [by rewrite lookup_insert_ne|]. rewrite lookup_insert_ne in Hk by done.
  destruct (decide (swap k = k0)) as [<-|Hn']; [rewrite swap_swap in Hs; congruence|]. rewrite lookup_insert_ne by done. by apply (IH k t).
Qed.

(** The packets of a connection, with their directions. *)
Definition event_of (k : conn) (c : capture) : option event :=
  match conn_of (c_pkt c) with
  | Some k' =>
      if decide (swap k' = k) then Some {| e_pkt := c_pkt c; e_id := c_id c; e_dir := 1; e_mem := c_mem c |}
      else if decide (k' = k) then Some {| e_pkt := c_pkt c; e_id := c_id c; e_dir := 0; e_mem := c_mem c |}
      else None
  | None => None
  end.
Definition events_of (k : conn) (l : list capture) : list event := omap (event_of k) l.

Lemma events_of_snoc k l c : events_of k (l ++ [c]) = events_of k l ++ match event_of k c with Some e => [e] | None => [] end.
Proof. unfold events_of. rewrite omap_app. f_equal. Qed.

Lemma tracks_history l ds m : tracks ∅ l ds m -> forall k t, m !! k = Some t -> 0 <= t_state t <= 6 /\ seen (needs (t_state t)) (events_of k l).
Proof.
  intros Ht. remember ∅ as m0 eqn:E0. induction Ht as [|l c ds d m1 m2 H1 IH H2]; [by subst|]. intros k t Hk. rewrite events_of_snoc.
  assert (Stay : m1 !! k = Some t -> 0 <= t_state t <= 6 /\ seen (needs (t_state t)) (events_of k l ++ match event_of k c with Some e => [e] | None => [] end)).
  { intros Hk1. destruct (IH k t Hk1) as [Hr Hs]. split; [done|]. destruct (event_of k c); [by apply seen_later|by rewrite app_nil_r]. }
  assert (Step : forall dir t0 r, m1 !! k = Some t0 -> event_of k c = Some {| e_pkt := c_pkt c; e_id := c_id c; e_dir := dir; e_mem := c_mem c |} -> cflow t0 c dir = Ok (t, r) ->
    0 <= t_state t <= 6 /\ seen (needs (t_state t)) (events_of k l ++ match event_of k c with Some e => [e] | None => [] end)).
  { intros dir t0 r Hk1 -> Ef. destruct (IH k t0 Hk1) as [Hr Hs]. destruct (flow_state t0 {| e_pkt := c_pkt c; e_id := c_id c; e_dir := dir; e_mem := c_mem c |} t r _ Hr Hs Ef) as [? ?]. split; [lia|done]. }
  destruct H2 as [k0 t0 t1 r Ec H0 Ef|k0 t0 t1 r Ec Hn H0 Ef|k0 h Ec Hs H0 Eh Ho|k0 h Ec Hs H0 Eh Ho]; [| | |by apply Stay].
  - destruct (decide (swap k0 = k)) as [<-|Hne]; [|apply Stay; by rewrite lookup_insert_ne in Hk]. rewrite lookup_insert_eq in Hk. injection Hk as ->.
    eapply Step; [done| |done]. unfold event_of. rewrite Ec. by rewrite decide_True.
  - destruct (decide (k0 = k)) as [->|Hne]; [|apply Stay; by rewrite lookup_insert_ne in Hk]. rewrite lookup_insert_eq in Hk. injection Hk as ->.
    eapply Step; [done| |done]. unfold event_of. rewrite Ec. rewrite decide_False by congruence. by rewrite decide_True.
  - destruct (decide (k0 = k)) as [->|Hne]; [|apply Stay; by rewrite lookup_insert_ne in Hk]. rewrite lookup_insert_eq in Hk. injection Hk as <-. split; [done|apply seen_none].
Qed.

(** ** The claims *)

(** A fresh table stands for the empty map. *)
Lemma tab_empty (a : allocator) (now : Z) (a' : allocator) (hb bb : positive) (h : shash_t ObjPool.pool_st (positive * Z) sptr) :
  al_wf a -> 1024 * Z.of_nat (al_room a) < 2 ^ 32 -> shash_alloc a now 1000 sptr_cmp true = Ok (a', Some (hb, bb, h)) ->
  tab {| d_hash := h; d_streams := ∅; d_next := 1 |} ∅.
Proof.
  intros Ha Hr E. destruct (shash_alloc_spec _ _ _ _ _ _ _ _ _ Ha Hr E) as (Hi & Hc & Hsz & Hcmp).
  assert (No : forall i b x, scontents h !! i = Some b -> x ∈ b -> False).
  { intros i b x Hb Hx. rewrite Hc in Hb. apply lookup_replicate in Hb as [-> _]. by apply elem_of_nil in Hx. }
  constructor; cbn [d_hash d_streams d_next]; [done|by rewrite Hsz|done| |done| |done|done].
  - intros i b x Hb Hx. by destruct (No i b x Hb Hx).
  - intros x y (i & b & Hb & Hx). by destruct (No i b x Hb Hx).
Qed.

(** C19: the stream table of ssldump.c behaves as a map from connections to streams.
    Starting from a table made by shash_alloc, _decode_tcp handles every sequence of
    IPv4 TCP packets without a fault, as long as their headers are readable, no data
    starts at sequence number 0 and realloc does not move a queue; each packet is
    given to the one stream of its connection, with direction 1 when it comes from
    the end that did not send the SYN and 0 otherwise.  A SYN of an unknown
    connection makes a stream, exactly when malloc gives the memory of the stream and
    the item pool of the table can give an item ([drys] says whether it cannot);
    every other packet of an unknown connection is dropped.  Afterwards the table
    holds exactly the streams of that map, never one for each direction.  IPv6 is
    not covered. *)
Theorem dump_refines_connections (a : allocator) (now : Z) (a' : allocator) (hb bb : positive) (h : shash_t ObjPool.pool_st (positive * Z) sptr) (l : list capture) :
  al_wf a -> 1024 * Z.of_nat (al_room a) < 2 ^ 32 -> shash_alloc a now 1000 sptr_cmp true = Ok (a', Some (hb, bb, h)) -> Forall good l ->
  let st0 := {| d_hash := h; d_streams := ∅; d_next := 1 |} in
  exists st m, run_dump st0 l = Ok st /\ tracks ∅ l (drys st0 l) m /\
    (forall k t, stream_of st k t <-> m !! k = Some t) /\ (forall k t, m !! k = Some t -> swap k <> k -> m !! swap k = None).
Proof.
  intros Ha Hr E Hl st0. destruct (run_step l _ _ (tab_empty a now a' hb bb h Ha Hr E) Hl) as (st & m & Er & T & Ht).
  exists st, m. split_and!; [done|done|intros k t; by rewrite (stream_of_tab st m)|by eapply tracks_one].
Qed.

(** C20: a stream in the table of ssldump.c has seen its own connection: it is in a
    state only when the packets that lead there arrived, in their order and
    directions, among the packets between the two ends of its connection.  The
    packets are those of the property above: IPv4, with readable headers, no data at
    sequence number 0, realloc not moving. *)
Theorem dump_stream_history (a : allocator) (now : Z) (a' : allocator) (hb bb : positive) (h : shash_t ObjPool.pool_st (positive * Z) sptr) (l : list capture) :
  al_wf a -> 1024 * Z.of_nat (al_room a) < 2 ^ 32 -> shash_alloc a now 1000 sptr_cmp true = Ok (a', Some (hb, bb, h)) -> Forall good l ->
  exists st, run_dump {| d_hash := h; d_streams := ∅; d_next := 1 |} l = Ok st /\
    forall k t, stream_of st k t -> TCP_ST_SYN <= t_state t <= TCP_ST_CLOSE /\ seen (needs (t_state t)) (events_of k l).
Proof.
  intros Ha Hr E Hl. destruct (run_step l _ _ (tab_empty a now a' hb bb h Ha Hr E) Hl) as (st & m & Er & T & Ht).
  exists st. split; [done|]. intros k t Hk. apply (tracks_history l _ m Ht k t). by apply (stream_of_tab st m).
Qed.

(** ** Witnesses *)
Definition ip_bytes_of (src dst : Z) : list Z := [69; 0; 0; 40; 0; 0; 0; 0; 64; 6; 0; 0; 10; 0; 0; src; 10; 0; 0; dst].
Definition tcp_bytes_of (sport dport seq flags : Z) : list Z := [0; sport; 0; dport; 0; 0; 0; seq; 0; 0; 0; 0; 80; flags; 0; 0; 0; 0; 0; 0].
Definition sample_capture (src sport dst dport seq flags : Z) : capture :=
  let m := ip_bytes_of src dst ++ tcp_bytes_of sport dport seq flags in
  let p := set_range (netpkt_init (Some m)) m 0 40 in
  {| c_pkt := set_l4 (set_l3 (set_l2 p 0 0 0 0 ETHERTYPE_IP) 0 0 0 20 IPPROTO_TCP) 20 20; c_id := 1%positive; c_mem := Same; c_ok := true; c_junk := zero_tup |}.
(** The opening of one connection and a stray packet. *)
Definition sample_captures : list capture :=
  [sample_capture 1 80 2 90 5 0x02; sample_capture 2 90 1 80 7 0x12; sample_capture 1 80 2 90 6 0x10; sample_capture 3 80 2 90 6 0x10].

Lemma sample_good src sport dst dport seq flags :
  is_byte src -> is_byte sport -> is_byte dst -> is_byte dport -> is_byte seq -> Z.testbit flags 3 = false -> good (sample_capture src sport dst dport seq flags).
Proof.
  intros H1 H2 H3 H4 H5 Hf. unfold is_byte in *.
  eexists (([10; 0; 0; src], 0 + 256 * (sport + 256 * 0)), ([10; 0; 0; dst], 0 + 256 * (dport + 256 * 0))), _. split; [|split; [discriminate|]].
  - constructor; [reflexivity|reflexivity| | |]; cbn [fst snd].
    + exists 0, 20. split_and!; reflexivity.
    + split; [apply quad4; unfold is_byte; lia|lia].
    + split; [apply quad4; unfold is_byte; lia|lia].
  - cbn [h_psh]. by rewrite Hf.
Qed.
Lemma sample_captures_good : Forall good sample_captures.
Proof. repeat constructor; apply sample_good; done. Qed.

(** The connections of the table with the state of their streams. *)
Definition table_of {P obj} `{Countable obj} `{!ObjPoolSpec P obj} (st : dump_t P obj) : list (conn * option Z) :=
  (fun x => (key_of x, t_state <$> (p_id x ≫= fun id => d_streams st !! id))) <$> concat (scontents (d_hash st)).

Lemma table_of_stream {P obj} `{Countable obj} `{!ObjPoolSpec P obj} (st : dump_t P obj) k s :
  (k, Some s) ∈ table_of st -> exists t, stream_of st k t /\ t_state t = s.
Proof.
  intros (x & E & Hx)%list_elem_of_fmap. injection E as -> E. symmetry in E. apply fmap_Some in E as (t & Ht & ->).
  apply bind_Some in Ht as (id & Eid & Ht). exists t. split; [|done]. exists x, id. split_and!; [|done..].
  apply list_elem_of_In, in_concat in Hx as (b & Hb%list_elem_of_In & Hx%list_elem_of_In).
  apply list_elem_of_lookup in Hb as [i Hi]. by exists i, b.
Qed.

Definition sample_conn : conn := (([10; 0; 0; 1], 256 * 80), ([10; 0; 0; 2], 256 * 90)).

(** The sample run has one stream, and it is established. *)
Lemma sample_run :
  match shash_alloc demo_al 7 1000 sptr_cmp true with
  | Ok (_, Some (_, _, h)) =>
      match run_dump {| d_hash := h; d_streams := ∅; d_next := 1 |} sample_captures with
      | Ok st => table_of st = [(sample_conn, Some TCP_ST_EST)]
      | Fault _ => False
      end
  | _ => False
  end.
Proof. vm_compute. reflexivity. Qed.

Lemma demo_dump_table : exists a' hb bb h st t, shash_alloc demo_al 7 1000 sptr_cmp true = Ok (a', Some (hb, bb, h)) /\
  run_dump {| d_hash := h; d_streams := ∅; d_next := 1 |} sample_captures = Ok st /\ stream_of st sample_conn t /\ t_state t = TCP_ST_EST.
Proof.
  pose proof sample_run as E. destruct (shash_alloc demo_al 7 1000 sptr_cmp true) as [[a' [[[hb bb] h]|]]|]; try destruct E.
  destruct (run_dump _ _) as [st|] eqn:Er; [|destruct E]. destruct (table_of_stream st sample_conn TCP_ST_EST) as (t & Ht & Es); [rewrite E; left|].
  exists a', hb, bb, h, st, t. done.
Qed.

Lemma dump_refines_connections_witness : exists h st m t, run_dump {| d_hash := h; d_streams := ∅; d_next := 1 |} sample_captures = Ok st /\
  tracks ∅ sample_captures (drys {| d_hash := h; d_streams := ∅; d_next := 1 |} sample_captures) m /\ m !! sample_conn = Some t /\ t_state t = TCP_ST_EST.
Proof.
  destruct demo_dump_table as (a' & hb & bb & h & st1 & t & E & E1 & Hk & Es).
  destruct (dump_refines_connections demo_al 7 a' hb bb h sample_captures demo_al_wf) as (st & m & Er & Ht & Hm & _); [reflexivity|exact E|exact sample_captures_good|].
  rewrite E1 in Er. injection Er as <-. exists h, st1, m, t. split; [exact E1|]. split; [exact Ht|]. split; [apply Hm; exact Hk|exact Es].
Defined.
Lemma dump_stream_history_witness :
  exists h st t, run_dump {| d_hash := h; d_streams := ∅; d_next := 1 |} sample_captures = Ok st /\ stream_of st sample_conn t /\ t_state t = TCP_ST_EST /\
    seen (needs TCP_ST_EST) (events_of sample_conn sample_captures).
Proof.
  destruct demo_dump_table as (a' & hb & bb & h & st1 & t & E & E1 & Hk & Es).
  destruct (dump_stream_history demo_al 7 a' hb bb h sample_captures demo_al_wf) as (st & Er & Hs); [reflexivity|exact E|exact sample_captures_good|].
  rewrite E1 in Er. injection Er as <-. exists h, st1, t. split; [exact E1|]. split; [exact Hk|]. split; [exact Es|]. rewrite <- Es. exact (proj2 (Hs _ _ Hk)).
Defined.

End SslDumpProofs.
