(* ===== verification/SockUtil.v ===== *)
(** * sock_util: the socket helpers

    Model of src/code/network/netutil/sock_util.c ([sk_recv] and [sk_send] are in
    Conn.v) and of the two functions of ip_addr.c that ask the kernel or the resolver.  The kernel is a parameter, [sys_answer]: what a system call returns may
    depend on the descriptors open and on everything that happened before.  What is
    kept of it is a ledger: for every open descriptor the calls made on it, in order,
    with their results.  A NULL pointer is [None]; a pointer whose object is written
    gives the object back. *)
From S2P Require Import Prelude CLib IpAddr.

Module SockUtil.
Import CLib IpAddr.

(** ** System calls *)
Definition AF_PACKET : Z := 17.
Definition SOCK_STREAM : Z := 1.
Definition SOCK_DGRAM : Z := 2.
Definition SOCK_RAW : Z := 3.
Definition SOCK_NONBLOCK : Z := 2048.
Definition SOL_SOCKET : Z := 1.
Definition SO_REUSEADDR : Z := 2.
Definition SO_ERROR : Z := 4.
Definition SO_KEEPALIVE : Z := 9.
Definition SO_REUSEPORT : Z := 15.
Definition SO_MARK : Z := 36.
Definition IPPROTO_IP : Z := 0.
Definition IP_TRANSPARENT : Z := 19.
Definition IPPROTO_TCP : Z := 6.
Definition TCP_NODELAY : Z := 1.
Definition TCP_KEEPIDLE : Z := 4.
Definition TCP_KEEPINTVL : Z := 5.
Definition TCP_KEEPCNT : Z := 6.
Definition TCP_QUICKACK : Z := 12.
Definition F_GETFL : Z := 3.
Definition F_SETFL : Z := 4.
Definition O_NONBLOCK : Z := 2048.
Definition MSG_DONTWAIT : Z := 64.
Definition POLLOUT : Z := 4.
Definition POLLERR : Z := 8.
Definition EINTR : Z := 4.
Definition EAGAIN : Z := 11.
Definition EINPROGRESS : Z := 115.

Inductive call : Type :=
  | CSocket (family type protocol : Z)
  | CSetsockopt (fd level name : Z) (opt : list Z)
  | CGetsockopt (fd level name : Z)
  | CBind (fd : Z) (addr : list Z)
  | CListen (fd backlog : Z)
  | CConnect (fd : Z) (addr : list Z)
  | CAccept (fd flags : Z)
  | CGetsockname (fd : Z)
  | CGetpeername (fd : Z)
  | CFcntl (fd cmd arg : Z)
  | CPoll (fd events : Z)
  | CSend (fd : Z) (bytes : list Z) (flags : Z)
  | CClose (fd : Z).
#[global] Instance call_eq_dec : EqDecision call.
Proof. solve_decision. Defined.

(** [a_data]: the socket address or the option value that is stored (as the buffer is
    afterwards), for poll the revents. *)
Record answer : Type := { a_ret : Z; a_errno : Z; a_data : list Z }.

Abbreviation ledger := (gmap Z (list (call * Z))).
Record kern : Type := { k_open : ledger; k_errno : Z; k_past : list (call * answer) }.

(** The descriptor a call is made on. *)
Definition target (c : call) : option Z :=
  match c with
  | CSocket _ _ _ => None
  | CSetsockopt fd _ _ _ | CGetsockopt fd _ _ | CBind fd _ | CListen fd _ | CConnect fd _ | CAccept fd _
  | CGetsockname fd | CGetpeername fd | CFcntl fd _ _ | CPoll fd _ | CSend fd _ _ | CClose fd => Some fd
  end.
(** Calls that open a descriptor. *)
Definition opens (c : call) : bool := match c with CSocket _ _ _ | CAccept _ _ => true | _ => false end.

Definition record (t : ledger) (c : call) (r : Z) : ledger :=
  match c with
  | CClose fd => delete fd t
  | _ =>
      let t := match target c with Some fd => alter (fun h => h ++ [(c, r)]) fd t | None => t end in
      if opens c && (0 <=? r) then <[r := [(c, r)]]> t else t
  end.

(** The kernel: the answer to a call, given what is open and what happened before. *)
Class Sys : Type := sys_answer : ledger -> list (call * answer) -> call -> answer.

(** What socket(2), accept(2) and send(2) promise: a new descriptor is not one that is
    open, and send on a stream takes some of the bytes it is given, or fails. *)
Class SysLaws `{Sys} : Prop := {
  sl_fresh t past c : opens c = true -> 0 <= a_ret (sys_answer t past c) -> t !! a_ret (sys_answer t past c) = None;
  sl_send t past fd bytes fl : bytes <> [] ->
    a_ret (sys_answer t past (CSend fd bytes fl)) < 0 \/ 1 <= a_ret (sys_answer t past (CSend fd bytes fl)) <= Z.of_nat (length bytes) }.

Section sock.
Context `{Sys}.

Definition syscall (k : kern) (c : call) : kern * answer :=
  let a := sys_answer (k_open k) (k_past k) c in
  ({| k_open := record (k_open k) c (a_ret a); k_errno := (if a_ret a <? 0 then a_errno a else k_errno k); k_past := k_past k ++ [(c, a)] |}, a).

Definition close (k : kern) (fd : Z) : kern := (syscall k (CClose fd)).1.
Definition int_bytes (v : Z) : list Z := le_bytes 4 v.
Definition long_bytes (v : Z) : list Z := le_bytes 8 v.

(** ** Addresses

    sk_addr_t is the 28 bytes of struct sockaddr_in6: the family in the first two, the
    port in the next two, an IPv4 address from byte 4, an IPv6 address from byte 8. *)
Definition sa_family (sk : list Z) : Z := le_combine (take 2 sk).
Definition sin_port (sk : list Z) : Z := le_combine (take 2 (drop 2 sk)).
Definition sin_addr (sk : list Z) : list Z := take 4 (drop 4 sk).
Definition sin6_addr (sk : list Z) : list Z := take 16 (drop 8 sk).

Definition sk_addr_from_ip_port (ip : ip_port_t) : option (list Z) :=
  let family := ip_family (ipp_ip ip) in
  if negb (family =? AF_INET) && negb (family =? AF_INET6) then None else
  if family =? AF_INET then Some (le_bytes 2 family ++ le_bytes 2 (ipp_port ip) ++ take 4 (ip_bytes (ipp_ip ip)) ++ replicate 20 0)
  else Some (le_bytes 2 family ++ le_bytes 2 (ipp_port ip) ++ replicate 4 0 ++ ip_bytes (ipp_ip ip) ++ replicate 4 0).

(** The stores of an address into an ip_port_t. *)
Definition set_addr4 (ip : ip_port_t) (sk : list Z) : ip_port_t := {| ipp_ip := set_v4 (ipp_ip ip) (sin_addr sk); ipp_port := sin_port sk |}.
Definition set_addr6 (ip : ip_port_t) (sk : list Z) : ip_port_t := {| ipp_ip := set_v6 (ipp_ip ip) (sin6_addr sk); ipp_port := sin_port sk |}.
Definition set_ipp_family (ip : ip_port_t) (f : Z) : ip_port_t := {| ipp_ip := set_family (ipp_ip ip) f; ipp_port := ipp_port ip |}.

Definition sk_tcp_get_localaddr (k : kern) (fd : Z) (ip : option ip_port_t) : res (kern * option ip_port_t * Z) :=
  let (k, a) := syscall k (CGetsockname fd) in
  let addr := a_data a in
  if negb (a_ret a =? 0) then Ok (k, ip, -1) else
  if sa_family addr =? AF_INET then
    match ip with None => Fault NullDeref | Some ip => Ok (k, Some (set_ipp_family (set_addr4 ip addr) (sa_family addr)), 0) end
  else if sa_family addr =? AF_INET6 then
    match ip with None => Fault NullDeref | Some ip => Ok (k, Some (set_ipp_family (set_addr6 ip addr) (sa_family addr)), 0) end
  else Ok (k, ip, -1).

(** ip_addr.c: the address is read through a struct sockaddr of 16 bytes. *)
Definition ip_addr_from_socket (k : kern) (ip : option ip_addr_t) (fd : Z) (get_remote : bool) : res (kern * option ip_addr_t * Z) :=
  match ip with
  | None => Ok (k, ip, -1)
  | Some ip0 =>
      if fd <? 0 then Ok (k, ip, -1) else
      let (k, a) := syscall k (if get_remote then CGetpeername fd else CGetsockname fd) in
      if a_ret a <? 0 then Ok (k, ip, -1) else
      let addr := take 16 (a_data a) in
      if sa_family addr =? AF_INET then Ok (k, Some (set_v4 (set_family ip0 AF_INET) (sin_addr addr)), 0)
      else if sa_family addr =? AF_INET6 then
        if (length addr <? 24)%nat then Fault OutOfBounds else Ok (k, Some (set_v6 (set_family ip0 AF_INET6) (sin6_addr addr)), 0)
      else Ok (k, ip, -1)
  end.

(** ** Clients and servers *)
Definition sk_set_nonblock (k : kern) (fd nbio : Z) : kern * Z :=
  if fd <? 0 then (k, -1) else
  let (k, a) := syscall k (CFcntl fd F_GETFL 0) in
  let oldflags := a_ret a in
  if oldflags <? 0 then (k, -1) else
  let oldflags := if negb (nbio =? 0) then Z.lor oldflags O_NONBLOCK else Z.land oldflags (Z.lnot O_NONBLOCK) in
  let (k, a) := syscall k (CFcntl fd F_SETFL oldflags) in
  (k, if a_ret a <? 0 then -1 else 0).

(** The part of sk_tcp_connect before connect: the options of transparent mode. *)
Definition tp_bind (k : kern) (fd : Z) (sip : option ip_port_t) : kern * Z :=
  match sip with
  | None => (k, -1)
  | Some sip =>
      match sk_addr_from_ip_port sip with
      | None => (k, -1)
      | Some cliaddr =>
          let (k, a) := syscall k (CSetsockopt fd IPPROTO_IP IP_TRANSPARENT (long_bytes 1)) in
          if negb (a_ret a =? 0) then (k, -1) else
          let (k, a) := syscall k (CBind fd cliaddr) in
          (k, if negb (a_ret a =? 0) then -1 else 0)
      end
  end.

(** 1: connected, 0: in progress, -1: error. *)
Definition sk_tcp_connect (k : kern) (fd : Z) (dip sip : option ip_port_t) (transparent : bool) : res (kern * option ip_port_t * Z) :=
  if fd <? 0 then Ok (k, sip, -1) else
  match dip with
  | None => Ok (k, sip, -1)
  | Some dip =>
      match sk_addr_from_ip_port dip with
      | None => Ok (k, sip, -1)
      | Some svraddr =>
          let (k, r) := if transparent then tp_bind k fd sip else (k, 0) in
          if r <? 0 then Ok (k, sip, -1) else
          let (k, a) := syscall k (CConnect fd svraddr) in
          let ret := a_ret a in
          do (k, sip, r) <- (if negb transparent && (match sip with Some _ => true | None => false end) then sk_tcp_get_localaddr k fd sip else Ok (k, sip, 0));
          if negb (r =? 0) then Ok (k, sip, -1) else
          if ret <? 0 then Ok (k, sip, if k_errno k =? EINPROGRESS then 0 else -1)
          else Ok (k, sip, 1)
      end
  end.

Definition sk_tcp_client (k : kern) (dip sip : option ip_port_t) (transparent : bool) : res (kern * option ip_port_t * Z) :=
  match dip with
  | None => Ok (k, sip, -1)
  | Some d =>
      let (k, a) := syscall k (CSocket (ip_family (ipp_ip d)) SOCK_STREAM 0) in
      let fd := a_ret a in
      if fd <? 0 then Ok (k, sip, -1) else
      do (k, sip, ret) <- sk_tcp_connect k fd dip sip transparent;
      if negb (ret =? 1) then Ok (close k fd, sip, -1) else Ok (k, sip, fd)
  end.

(** [wait]: [None] is a NULL pointer; the result holds the value stored. *)
Definition sk_tcp_client_nb (k : kern) (dip sip : option ip_port_t) (transparent : bool) (wait : option Z) : res (kern * option ip_port_t * option Z * Z) :=
  match dip, wait with
  | Some d, Some w =>
      let (k, a) := syscall k (CSocket (ip_family (ipp_ip d)) SOCK_STREAM 0) in
      let fd := a_ret a in
      if fd <? 0 then Ok (k, sip, Some w, -1) else
      let (k, _) := sk_set_nonblock k fd 1 in
      do (k, sip, ret) <- sk_tcp_connect k fd dip sip transparent;
      if ret <? 0 then Ok (close k fd, sip, Some w, -1) else
      Ok (k, sip, Some (if ret =? 1 then 0 else 1), fd)
  | _, _ => Ok (k, sip, wait, -1)
  end.

Definition sk_tcp_server (k : kern) (ip : option ip_port_t) (reuse_port transparent : bool) : kern * Z :=
  match ip with
  | None => (k, -1)
  | Some ip =>
      match sk_addr_from_ip_port ip with
      | None => (k, -1)
      | Some svraddr =>
          let (k, a) := syscall k (CSocket (ip_family (ipp_ip ip)) SOCK_STREAM 0) in
          let fd := a_ret a in
          if fd <? 0 then (k, -1) else
          let (k, a) := syscall k (CSetsockopt fd SOL_SOCKET SO_REUSEADDR (int_bytes 1)) in
          if negb (a_ret a =? 0) then (close k fd, -1) else
          let (k, r) := if reuse_port then let (k, a) := syscall k (CSetsockopt fd SOL_SOCKET SO_REUSEPORT (int_bytes 1)) in (k, a_ret a) else (k, 0) in
          if negb (r =? 0) then (close k fd, -1) else
          let (k, r) := if transparent then let (k, a) := syscall k (CSetsockopt fd IPPROTO_IP IP_TRANSPARENT (int_bytes 1)) in (k, a_ret a) else (k, 0) in
          if negb (r =? 0) then (k, -1) else
          let (k, a) := syscall k (CBind fd svraddr) in
          if negb (a_ret a =? 0) then (close k fd, -1) else
          let (k, a) := syscall k (CListen fd 25000) in
          if negb (a_ret a =? 0) then (close k fd, -1) else
          (k, fd)
      end
  end.

(** The store of the peer's address: every family but IPv4 is taken for IPv6. *)
Definition save_peer (sip : option ip_port_t) (addr : list Z) : option ip_port_t :=
  match sip with
  | None => None
  | Some sip =>
      let sip := set_ipp_family sip (sa_family addr) in
      Some (if sa_family addr =? AF_INET then set_addr4 sip addr else set_addr6 sip addr)
  end.

Definition accept_flags (k : kern) (fd flags : Z) (sip dip : option ip_port_t) : res (kern * option ip_port_t * option ip_port_t * Z) :=
  if fd <? 0 then Ok (k, sip, dip, -1) else
  let (k, a) := syscall k (CAccept fd flags) in
  let clifd := a_ret a in
  if clifd <? 0 then Ok (k, sip, dip, -1) else
  let sip := save_peer sip (a_data a) in
  match dip with
  | None => Ok (k, sip, dip, clifd)
  | Some _ =>
      do (k, dip, r) <- sk_tcp_get_localaddr k clifd dip;
      if negb (r =? 0) then Ok (close k clifd, sip, dip, -1) else Ok (k, sip, dip, clifd)
  end.
Definition sk_tcp_accept (k : kern) (fd : Z) (sip dip : option ip_port_t) := accept_flags k fd 0 sip dip.
Definition sk_tcp_accept_nb (k : kern) (fd : Z) (sip dip : option ip_port_t) := accept_flags k fd SOCK_NONBLOCK sip dip.

Definition sk_packet (k : kern) (type protocol : Z) : kern * Z :=
  if negb (type =? SOCK_RAW) || negb (type =? SOCK_DGRAM) then (k, -1) else
  if protocol =? 0 then (k, -1) else
  let (k, a) := syscall k (CSocket AF_PACKET type (htons protocol)) in
  (k, if a_ret a <? 0 then -1 else a_ret a).
Definition sk_raw (k : kern) (protocol : Z) : kern * Z :=
  let (k, a) := syscall k (CSocket AF_INET SOCK_RAW protocol) in
  (k, if a_ret a <? 0 then -1 else a_ret a).

(** ** Options *)
Definition sk_is_connected (k : kern) (fd : Z) : kern * Z :=
  let (k, a) := syscall k (CGetsockopt fd SOL_SOCKET SO_ERROR) in
  if negb (a_ret a =? 0) then (k, -1) else
  (k, if negb (le_combine (take 4 (a_data a)) =? 0) then -1 else 0).

(** One setsockopt of an int and its check. *)
Definition set_int (k : kern) (fd level name v : Z) : kern * Z :=
  let (k, a) := syscall k (CSetsockopt fd level name (int_bytes v)) in (k, if negb (a_ret a =? 0) then -1 else 0).
Definition sk_set_nodelay (k : kern) (fd nodelay : Z) : kern * Z := if fd <? 0 then (k, -1) else set_int k fd IPPROTO_TCP TCP_NODELAY nodelay.
Definition sk_set_quickack (k : kern) (fd quickack : Z) : kern * Z := if fd <? 0 then (k, -1) else set_int k fd IPPROTO_TCP TCP_QUICKACK quickack.
Definition sk_set_mark (k : kern) (fd mark : Z) : kern * Z := if fd <? 0 then (k, -1) else set_int k fd SOL_SOCKET SO_MARK mark.
Definition sk_set_keepalive (k : kern) (fd : Z) : kern * Z :=
  if fd <? 0 then (k, -1) else
  let (k, r) := set_int k fd SOL_SOCKET SO_KEEPALIVE 1 in
  if negb (r =? 0) then (k, -1) else
  let (k, r) := set_int k fd IPPROTO_TCP TCP_KEEPCNT 3 in
  if negb (r =? 0) then (k, -1) else
  let (k, r) := set_int k fd IPPROTO_TCP TCP_KEEPIDLE 60 in
  if negb (r =? 0) then (k, -1) else
  let (k, r) := set_int k fd IPPROTO_TCP TCP_KEEPINTVL 20 in
  if negb (r =? 0) then (k, -1) else (k, 0).

(** ** Data *)

(** The loop of sk_send_all; one turn per unit of fuel. *)
Fixpoint send_all_loop (fuel : nat) (k : kern) (fd : Z) (buf : list Z) (m remain : Z) : res (kern * Z) :=
  if negb (0 <? remain) then Ok (k, m) else
  match fuel with
  | O => Fault NoReturn
  | S fuel =>
      let (k, a) := syscall k (CPoll fd POLLOUT) in
      if a_ret a <? 0 then Ok (k, if k_errno k =? EINTR then m else -1) else
      if negb (Z.land (le_combine (a_data a)) POLLERR =? 0) then Ok (k, -1) else
      let (k, a) := syscall k (CSend fd (take (Z.to_nat remain) (drop (Z.to_nat m) buf)) MSG_DONTWAIT) in
      let n := a_ret a in
      if n <? 0 then
        if negb (k_errno k =? EINTR) || negb (k_errno k =? EAGAIN) then Ok (k, -1)
        else send_all_loop fuel k fd buf m remain
      else send_all_loop fuel k fd buf (s32 (m + n)) (s32 (remain - n))
  end.

(** [buf] holds the len bytes. *)
Definition sk_send_all (fuel : nat) (k : kern) (fd : Z) (buf : option (list Z)) : res (kern * Z) :=
  match buf with
  | None => Ok (k, -1)
  | Some buf =>
      let len := Z.of_nat (length buf) in
      if (fd <? 0) || (len <? 1) then Ok (k, -1) else
      send_all_loop fuel k fd buf 0 (s32 len)
  end.
End sock.

(** ** Names

    [gai] is getaddrinfo: an error, or the list of families and socket addresses. *)
Section names.
Context (gai : list Z -> Z -> option (list (Z * list Z))).

Fixpoint pick_addr (pai : list (Z * list Z)) (ip : ip_addr_t) : ip_addr_t * Z :=
  match pai with
  | [] => (ip, -1)
  | (family, sa) :: next =>
      if family =? AF_INET then (set_v4 (set_family ip AF_INET) (sin_addr sa), 0)
      else if family =? AF_INET6 then (set_v6 (set_family ip AF_INET6) (sin6_addr sa), 0)
      else pick_addr next ip
  end.
Definition sk_gethostbyname (domain : option (list Z)) (family : Z) (ip : option ip_addr_t) : option ip_addr_t * Z :=
  match domain, ip with
  | Some domain, Some ip =>
      match gai domain family with
      | None => (Some ip, -1)
      | Some res => let (ip, r) := pick_addr res ip in (Some ip, r)
      end
  | _, _ => (ip, -1)
  end.

(** ip_addr.c: [hostent] is gethostbyname_r: no host, or the bytes from h_addr_list[0] to
    the end of the buffer. *)
Context `{Inet6} (hostent : list Z -> option (list Z)).
Fixpoint c_string (mem : list Z) : res (list Z) :=
  match mem with
  | [] => Fault OutOfBounds
  | b :: mem => if b =? 0 then Ok [] else do s <- c_string mem; Ok (b :: s)
  end.
Definition ip_addr_from_dns (ip : option ip_addr_t) (name : option (list Z)) : res (option ip_addr_t * Z) :=
  match ip, name with
  | Some _, Some name =>
      match hostent name with
      | None => Ok (ip, -1)
      | Some mem => do s <- c_string mem; Ok (ip_addr_from_str ip (Some s))
      end
  | _, _ => Ok (ip, -1)
  end.
End names.

End SockUtil.
