(* ===== verification/SockUtilProofs.v ===== *)
(** * sock_util: descriptors, addresses and data

    What the helpers of sock_util.c leave behind on every path: which descriptors are
    open and which calls succeeded on them, how addresses travel, and what was sent. *)
From S2P Require Import Prelude CLib IpAddr IpAddrProofs SockUtil.

Module SockUtilProofs.
Import CLib IpAddr IpAddrProofs SockUtil.

Abbreviation history := (list (call * Z)).

Section ledger.
Context `{SysLaws}.

(** ** Calls on a descriptor of the ledger *)
Lemma syscall_on k c fd h t :
  target c = Some fd -> opens c = false -> (forall f, c <> CClose f) -> k_open k = <[fd := h]> t ->
  k_open (syscall k c).1 = <[fd := h ++ [(c, a_ret (syscall k c).2)]]> t.
Proof.
  intros Ht Ho Hc E. unfold syscall. cbn [fst snd k_open]. set (r := a_ret _).
  assert (Er : record (k_open k) c r = alter (fun h => h ++ [(c, r)]) fd (k_open k)) by (destruct c; simplify_eq/=; try done; by destruct (Hc fd)).
  rewrite Er, E. by rewrite alter_insert_eq.
Qed.
Lemma close_on k fd h t : t !! fd = None -> k_open k = <[fd := h]> t -> k_open (close k fd) = t.
Proof. intros Hn E. unfold close, syscall. cbn [fst k_open record]. rewrite E. by apply delete_insert_id. Qed.
Lemma socket_on k f ty p :
  let fd := a_ret (syscall k (CSocket f ty p)).2 in
  if fd <? 0 then k_open (syscall k (CSocket f ty p)).1 = k_open k
  else k_open k !! fd = None /\ k_open (syscall k (CSocket f ty p)).1 = <[fd := [(CSocket f ty p, fd)]]> (k_open k).
Proof.
  unfold syscall. cbn [fst snd k_open record target opens andb]. set (r := a_ret _). cbv zeta. destruct (Z.ltb_spec r 0) as [Hr|Hr]; [by rewrite (proj2 (Z.leb_gt 0 r)) by lia|].
  rewrite (proj2 (Z.leb_le 0 r)) by lia. split; [by apply sl_fresh|done].
Qed.
(** A call that is made only when [b] holds. *)
Lemma opt_on (b : bool) k c fd h t :
  target c = Some fd -> opens c = false -> (forall f, c <> CClose f) -> k_open k = <[fd := h]> t ->
  exists k' r, (if b then let (k, a) := syscall k c in (k, a_ret a) else (k, 0)) = (k', r) /\
    k_open k' = <[fd := h ++ (if b then [(c, r)] else [])]> t /\ (b = false -> r = 0).
Proof.
  intros Ht Ho Hc E. destruct b; [|exists k, 0; by rewrite app_nil_r]. pose proof (syscall_on k c fd h t Ht Ho Hc E) as E'.
  destruct (syscall k c) as [k' a]. by exists k', (a_ret a).
Qed.
End ledger.

(** One call on the descriptor at hand: its answer [a] and the ledger after it. *)
Ltac on_fd E := match goal with |- context[syscall ?k ?c] =>
  let E' := fresh "E" in pose proof (syscall_on k c _ _ _ eq_refl eq_refl ltac:(done) E) as E'; clear E;
  let k' := fresh "k" in let a := fresh "a" in destruct (syscall k c) as [k' a]; cbn [fst snd] in E'; rename E' into E end.
(** A call whose result is tested against 0. *)
Ltac test0 a H := destruct (Z.eqb_spec (a_ret a) 0) as [H|H]; cbn [negb].

Section sock.
Context `{SysLaws}.

(** ** sk_tcp_server *)
Definition so_setup (f fd : Z) (reuse : bool) : history :=
  [(CSocket f SOCK_STREAM 0, fd); (CSetsockopt fd SOL_SOCKET SO_REUSEADDR (int_bytes 1), 0)] ++
  (if reuse then [(CSetsockopt fd SOL_SOCKET SO_REUSEPORT (int_bytes 1), 0)] else []).
Definition so_transparent (fd : Z) (r : Z) : call * Z := (CSetsockopt fd IPPROTO_IP IP_TRANSPARENT (int_bytes 1), r).

(** C27: what sk_tcp_server leaves behind, whatever the kernel answers.  It returns a new
    descriptor on which, after socket, exactly the options asked for were set and
    then bind to the address given and listen succeeded, every other descriptor
    untouched; or -1 with the descriptors as before; or, in transparent mode when
    the kernel refuses IP_TRANSPARENT, -1 with the new descriptor left open. *)
Theorem sk_tcp_server_descriptor k ip reuse tp :
  let '(k', r) := sk_tcp_server k ip reuse tp in
  (0 <= r /\ k_open k !! r = None /\ exists ip0 addr, ip = Some ip0 /\ sk_addr_from_ip_port ip0 = Some addr /\
     k_open k' = <[r := so_setup (ip_family (ipp_ip ip0)) r reuse ++ (if tp then [so_transparent r 0] else []) ++ [(CBind r addr, 0); (CListen r 25000, 0)]]> (k_open k)) \/
  (r = -1 /\ k_open k' = k_open k) \/
  (r = -1 /\ tp = true /\ exists ip0 fd v, ip = Some ip0 /\ v <> 0 /\ 0 <= fd /\ k_open k !! fd = None /\ k_open k' = <[fd := so_setup (ip_family (ipp_ip ip0)) fd reuse ++ [so_transparent fd v]]> (k_open k)).
Proof.
  unfold sk_tcp_server. destruct ip as [ip|]; [|auto]. destruct (sk_addr_from_ip_port ip) as [addr|] eqn:Ea; [|auto].
  pose proof (socket_on k (ip_family (ipp_ip ip)) SOCK_STREAM 0) as E. destruct (syscall k (CSocket _ _ _)) as [k1 a1]. cbn [fst snd] in E. set (fd := a_ret a1) in *.
  destruct (Z.ltb_spec fd 0) as [Hfd|Hfd]; [auto|]. destruct E as [Hn E].
  on_fd E. test0 a Hr; [rewrite Hr in E; clear Hr|right; left; split; [done|by eapply close_on]].
  destruct (opt_on reuse k0 (CSetsockopt fd SOL_SOCKET SO_REUSEPORT (int_bytes 1)) fd _ _ eq_refl eq_refl ltac:(done) E) as (k2 & r & -> & E2 & Hf). clear E.
  destruct (Z.eqb_spec r 0) as [->|Hr2]; cbn [negb]; [|right; left; split; [done|by eapply close_on]].
  destruct (opt_on tp k2 (CSetsockopt fd IPPROTO_IP IP_TRANSPARENT (int_bytes 1)) fd _ _ eq_refl eq_refl ltac:(done) E2) as (k3 & r3 & -> & E & Hf3). clear E2.
  destruct (Z.eqb_spec r3 0) as [->|Hr3]; cbn [negb].
  - on_fd E. test0 a0 Hr; [rewrite Hr in E; clear Hr|right; left; split; [done|by eapply close_on]].
    on_fd E. test0 a2 Hr; [rewrite Hr in E|right; left; split; [done|by eapply close_on]].
    left. split_and!; [done|done|]. exists ip, addr. split_and!; [done|done|]. rewrite E. unfold so_setup. by destruct reuse, tp.
  - right; right. destruct tp; [|by rewrite Hf3 in Hr3]. split_and!; [done|done|]. exists ip, fd, r3. split_and!; [done..|]. rewrite E. unfold so_setup. by destruct reuse.
Qed.

(** ** Connecting *)

(** The calls of a connect that was not refused: [c] is what connect(2) returned. *)
Inductive connect_history (fd : Z) (dip : ip_port_t) (c : Z) : bool -> option ip_port_t -> history -> Prop :=
  | ch_plain addr sip : sk_addr_from_ip_port dip = Some addr ->
      connect_history fd dip c false sip ((CConnect fd addr, c) :: (if sip then [(CGetsockname fd, 0)] else []))
  | ch_tp addr sip cli : sk_addr_from_ip_port dip = Some addr -> sk_addr_from_ip_port sip = Some cli ->
      connect_history fd dip c true (Some sip) [(CSetsockopt fd IPPROTO_IP IP_TRANSPARENT (long_bytes 1), 0); (CBind fd cli, 0); (CConnect fd addr, c)].

Lemma get_localaddr_on k fd ip h t :
  k_open k = <[fd := h]> t ->
  exists k' ip' r v, sk_tcp_get_localaddr k fd (Some ip) = Ok (k', Some ip', r) /\ k_open k' = <[fd := h ++ [(CGetsockname fd, v)]]> t /\
    (r = -1 \/ (r = 0 /\ v = 0 /\ k_errno k' = k_errno k)).
Proof.
  intros E. unfold sk_tcp_get_localaddr. pose proof (syscall_on k (CGetsockname fd) fd h t eq_refl eq_refl ltac:(done) E) as E'.
  assert (He : a_ret (syscall k (CGetsockname fd)).2 = 0 -> k_errno (syscall k (CGetsockname fd)).1 = k_errno k) by (unfold syscall; cbn; by intros ->).
  destruct (syscall k (CGetsockname fd)) as [k' a]. cbn [fst snd] in *. test0 a Hr; [|eexists _, _, (-1), _; by eauto].
  destruct (sa_family (a_data a) =? AF_INET); [eexists _, _, 0, 0; rewrite Hr in E'; by eauto 10|].
  destruct (sa_family (a_data a) =? AF_INET6); [eexists _, _, 0, 0; rewrite Hr in E'; by eauto 10|]. eexists _, _, (-1), _; by eauto.
Qed.

Lemma tp_bind_on k fd sip h t :
  k_open k = <[fd := h]> t ->
  exists k' r h', tp_bind k fd sip = (k', r) /\ k_open k' = <[fd := h ++ h']> t /\ (r = -1 \/ r = 0) /\
    (r = 0 -> exists s cli, sip = Some s /\ sk_addr_from_ip_port s = Some cli /\ h' = [(CSetsockopt fd IPPROTO_IP IP_TRANSPARENT (long_bytes 1), 0); (CBind fd cli, 0)]).
Proof.
  intros E. unfold tp_bind. destruct sip as [s|]; [|exists k, (-1), []; rewrite app_nil_r; naive_solver]. destruct (sk_addr_from_ip_port s) as [cli|] eqn:Es; [|exists k, (-1), []; rewrite app_nil_r; naive_solver].
  on_fd E. test0 a Hr; [|eexists _, (-1), _; naive_solver]. rewrite Hr in E. on_fd E. test0 a0 Hr0; [|eexists _, (-1), _; rewrite <-app_assoc in E; naive_solver].
  rewrite Hr0, <-app_assoc in E. eexists _, 0, _. split_and!; [done|exact E|auto|]. intros _. by eexists _, _.
Qed.

(** sk_tcp_connect returns, and a result of 1 or 0 tells how connect(2) went. *)
Lemma sk_tcp_connect_on k fd dip sip tp h t :
  0 <= fd -> k_open k = <[fd := h]> t ->
  exists k' sip' r h', sk_tcp_connect k fd (Some dip) sip tp = Ok (k', sip', r) /\ k_open k' = <[fd := h ++ h']> t /\
    (r = -1 \/ (r = 0 /\ k_errno k' = EINPROGRESS /\ exists c, c < 0 /\ connect_history fd dip c tp sip h') \/ (r = 1 /\ exists c, 0 <= c /\ connect_history fd dip c tp sip h')).
Proof.
  intros Hfd E. unfold sk_tcp_connect. rewrite (proj2 (Z.ltb_ge fd 0)) by done. destruct (sk_addr_from_ip_port dip) as [addr|] eqn:Ea; [|exists k, sip, (-1), []; rewrite app_nil_r; auto].
  assert (Hpre : exists k' r h', (if tp then tp_bind k fd sip else (k, 0)) = (k', r) /\ k_open k' = <[fd := h ++ h']> t /\ (r = -1 \/ r = 0) /\
    (r = 0 -> forall c, connect_history fd dip c tp sip (h' ++ (CConnect fd addr, c) :: (if negb tp then if sip then [(CGetsockname fd, 0)] else [] else [])))).
  { destruct tp; [|exists k, 0, []; rewrite app_nil_r; split_and!; [done|done|auto|]; intros _ c; by constructor].
    destruct (tp_bind_on k fd sip h t E) as (k' & r & h' & E1 & E2 & E3 & E4). exists k', r, h'. split_and!; [done..|]. intros Hr c. destruct (E4 Hr) as (s & cli & -> & Es & ->). by constructor. }
  clear E. destruct Hpre as (k1 & r & h1 & -> & E & [Hr|Hr] & Hh); subst r; [eexists _, _, (-1), _; by eauto|]. specialize (Hh eq_refl). change (0 <? 0) with false. cbv iota.
  on_fd E. set (c := a_ret a) in *. rewrite <-app_assoc in E.
  assert (Hend : forall k', k_open k' = <[fd := h ++ h1 ++ (CConnect fd addr, c) :: (if negb tp then if sip then [(CGetsockname fd, 0)] else [] else [])]> t -> forall sip' : option ip_port_t, exists k2 sip2 r h2,
    (if c <? 0 then @Ok (kern * option ip_port_t * Z) (k', sip', if k_errno k' =? EINPROGRESS then 0 else -1) else Ok (k', sip', 1)) = Ok (k2, sip2, r) /\ k_open k2 = <[fd := h ++ h2]> t /\
    (r = -1 \/ (r = 0 /\ k_errno k2 = EINPROGRESS /\ exists c, c < 0 /\ connect_history fd dip c tp sip h2) \/ (r = 1 /\ exists c, 0 <= c /\ connect_history fd dip c tp sip h2))).
  { intros k' Ek sip'. destruct (Z.ltb_spec c 0); [destruct (Z.eqb_spec (k_errno k') EINPROGRESS)|]; eexists _, _, _, _; (split_and!; [done|exact Ek|]); eauto 10. }
  destruct tp; cbn [negb andb bind Z.eqb]; [apply Hend; exact E|]. destruct sip as [s|]; [|apply Hend; exact E].
  destruct (get_localaddr_on k0 fd s _ _ E) as (k2 & ip' & r2 & v & -> & E2 & [Hr|(Hr & Hv & _)]); subst; cbn [bind negb Z.eqb]; [eexists _, _, (-1), _; rewrite <-app_assoc in E2; by eauto|].
  apply Hend. rewrite E2. f_equal. by rewrite <-!app_assoc.
Qed.

(** ** Clients *)

(** The calls of sk_set_nonblock(fd, 1), refused or not. *)
Definition nonblock_history (fd : Z) (h : history) : Prop :=
  exists v, (v < 0 /\ h = [(CFcntl fd F_GETFL 0, v)]) \/ (0 <= v /\ exists u, h = [(CFcntl fd F_GETFL 0, v); (CFcntl fd F_SETFL (Z.lor v O_NONBLOCK), u)]).

Lemma sk_set_nonblock_on k fd h t :
  0 <= fd -> k_open k = <[fd := h]> t -> exists k' r h', sk_set_nonblock k fd 1 = (k', r) /\ k_open k' = <[fd := h ++ h']> t /\ nonblock_history fd h'.
Proof.
  intros Hfd E. unfold sk_set_nonblock. rewrite (proj2 (Z.ltb_ge fd 0)) by done. on_fd E. destruct (Z.ltb_spec (a_ret a) 0) as [Hv|Hv].
  - eexists _, _, _. split_and!; [done|exact E|]. exists (a_ret a). by left.
  - cbn [negb Z.eqb]. on_fd E. rewrite <-app_assoc in E. eexists _, _, _. split_and!; [done|exact E|]. exists (a_ret a). right. split; [done|]. by eexists.
Qed.

(** C28: what the clients leave behind, whatever the kernel answers.  Both return.
    sk_tcp_client gives a new descriptor only when connect(2) to the address given
    has succeeded on it (after the bind of transparent mode); sk_tcp_client_nb also
    when the connection is in progress, stores 1 in *wait exactly then, and has
    asked for non-blocking mode before.  Otherwise the result is -1 and the
    descriptors are as before. *)
Theorem sk_tcp_clients_descriptor k dip sip tp w :
  (exists k' sip' r, sk_tcp_client k (Some dip) sip tp = Ok (k', sip', r) /\
     ((r = -1 /\ k_open k' = k_open k) \/
      (0 <= r /\ k_open k !! r = None /\ exists c h, 0 <= c /\ connect_history r dip c tp sip h /\
         k_open k' = <[r := (CSocket (ip_family (ipp_ip dip)) SOCK_STREAM 0, r) :: h]> (k_open k)))) /\
  (exists k' sip' w' r, sk_tcp_client_nb k (Some dip) sip tp (Some w) = Ok (k', sip', Some w', r) /\
     ((r = -1 /\ w' = w /\ k_open k' = k_open k) \/
      (0 <= r /\ k_open k !! r = None /\ exists c pre h, connect_history r dip c tp sip h /\ nonblock_history r pre /\
         k_open k' = <[r := (CSocket (ip_family (ipp_ip dip)) SOCK_STREAM 0, r) :: pre ++ h]> (k_open k) /\
         ((w' = 0 /\ 0 <= c) \/ (w' = 1 /\ c < 0 /\ k_errno k' = EINPROGRESS))))).
Proof.
  unfold sk_tcp_client, sk_tcp_client_nb. pose proof (socket_on k (ip_family (ipp_ip dip)) SOCK_STREAM 0) as E. destruct (syscall k (CSocket _ _ _)) as [k1 a1]. cbn [fst snd] in E. set (fd := a_ret a1) in *.
  destruct (Z.ltb_spec fd 0) as [Hfd|Hfd]; [split; eauto 10|]. destruct E as [Hn E]. split.
  - destruct (sk_tcp_connect_on k1 fd dip sip tp _ _ Hfd E) as (k2 & sip2 & r & h & -> & E2 & Hr). cbn [bind].
    destruct Hr as [->|[(-> & _)|(-> & c & Hc & Hh)]]; cbn [negb Z.eqb Pos.eqb]; eexists _, _, _; (split; [done|]); [left; split; [done|by eapply close_on]..|].
    right. split_and!; [done|done|]. exists c, h. by split_and!.
  - destruct (sk_set_nonblock_on k1 fd _ _ Hfd E) as (k2 & rn & pre & -> & E2 & Hpre).
    destruct (sk_tcp_connect_on k2 fd dip sip tp _ _ Hfd E2) as (k3 & sip2 & r & h & -> & E3 & Hr). cbn [bind].
    destruct Hr as [->|[(-> & He & c & Hc & Hh)|(-> & c & Hc & Hh)]]; cbn [Z.ltb Z.eqb Z.compare]; eexists _, _, _, _; (split; [done|]); [left; split_and!; [done|done|by eapply close_on]| |];
      right; (split_and!; [done|done|]); exists c, pre, h; split_and!; [done|done|rewrite E3; by rewrite <-app_assoc|auto..].
Qed.

(** ** Accepting *)
Lemma accept_on k fd fl :
  let r := a_ret (syscall k (CAccept fd fl)).2 in
  let t := alter (fun h => h ++ [(CAccept fd fl, r)]) fd (k_open k) in
  if r <? 0 then k_open (syscall k (CAccept fd fl)).1 = t else t !! r = None /\ k_open (syscall k (CAccept fd fl)).1 = <[r := [(CAccept fd fl, r)]]> t.
Proof.
  unfold syscall. cbn [fst snd k_open record target opens andb]. set (r := a_ret _). cbv zeta. destruct (Z.ltb_spec r 0) as [Hr|Hr]; [by rewrite (proj2 (Z.leb_gt 0 r)) by lia|].
  rewrite (proj2 (Z.leb_le 0 r)) by lia. split; [|done]. apply lookup_alter_None. by apply sl_fresh.
Qed.

(** An accepted descriptor is new and open, a refused one closed; the listener only
    gets the accept on its record.  Both forms. *)
Lemma accept_flags_descriptor k fd fl sip dip :
  0 <= fd -> exists k' sip' dip' r, accept_flags k fd fl sip dip = Ok (k', sip', dip', r) /\ exists v, let t := alter (fun h => h ++ [(CAccept fd fl, v)]) fd (k_open k) in
    (r = -1 /\ k_open k' = t) \/
    (0 <= r /\ k_open k !! r = None /\ v = r /\ k_open k' = <[r := (CAccept fd fl, r) :: (if dip then [(CGetsockname r, 0)] else [])]> t).
Proof.
  intros Hfd. unfold accept_flags. rewrite (proj2 (Z.ltb_ge fd 0)) by done. pose proof (accept_on k fd fl) as E. destruct (syscall k (CAccept fd fl)) as [k1 a]. cbn [fst snd] in E. set (r := a_ret a) in *. cbv zeta in E.
  destruct (Z.ltb_spec r 0) as [Hr|Hr]; [eexists _, _, _, _; split; [done|]; exists r; auto|]. destruct E as [Hn E]. pose proof (proj1 (lookup_alter_None _ _ _ _) Hn) as Hn'.
  destruct dip as [dip|]; [|eexists _, _, _, _; split; [done|]; exists r; by eauto].
  destruct (get_localaddr_on k1 r dip _ _ E) as (k2 & ip' & r2 & v & -> & E2 & [->|(-> & -> & _)]); cbn [bind negb Z.eqb]; eexists _, _, _, _; (split; [done|]); exists r; [left; split; [done|by eapply close_on]|by eauto].
Qed.

(** ** Sending *)

(** The bytes the kernel took on a descriptor. *)
Definition sent (h : history) : list Z := concat ((fun e => match e.1 with CSend _ bytes _ => take (Z.to_nat e.2) bytes | _ => [] end) <$> h).

Lemma send_all_loop_on fuel k fd buf m h t :
  k_open k = <[fd := h]> t -> Z.of_nat (length buf) < 2 ^ 31 -> (m <= length buf)%nat -> (length buf - m <= fuel)%nat ->
  exists k' r h' j, send_all_loop fuel k fd buf (Z.of_nat m) (Z.of_nat (length buf - m)) = Ok (k', r) /\ k_open k' = <[fd := h ++ h']> t /\ sent h' = take j (drop m buf) /\
    ((r = -1 /\ (j < length buf - m)%nat) \/ (r = Z.of_nat (m + j) /\ (m + j <= length buf)%nat /\ (r = Z.of_nat (length buf) \/ k_errno k' = EINTR))).
Proof.
  intros E Hlen Hm Hf. revert k m h E Hm Hf. induction fuel as [|fuel IH]; intros k m h E Hm Hf; cbn [send_all_loop].
  { replace (length buf - m)%nat with 0%nat by lia. exists k, (Z.of_nat m), [], 0%nat. rewrite app_nil_r. split_and!; [done|done|done|]. right. split_and!; [f_equal; lia|lia|left; f_equal; lia]. }
  destruct (Z.ltb_spec 0 (Z.of_nat (length buf - m))) as [Hpos|Hpos]; cbn [negb].
  2: { exists k, (Z.of_nat m), [], 0%nat. rewrite app_nil_r. split_and!; [done|done|done|]. right. split_and!; [f_equal; lia|lia|left; f_equal; lia]. }
  on_fd E. destruct (a_ret a <? 0).
  { destruct (Z.eqb_spec (k_errno k0) EINTR); eexists _, _, _, 0%nat; (split_and!; [done|exact E|done|]); [right; split_and!; [f_equal; lia|lia|auto]|left; split; [done|lia]]. }
  destruct (negb (Z.land (le_combine (a_data a)) POLLERR =? 0)); [eexists _, _, _, 0%nat; split_and!; [done|exact E|done|]; left; split; [done|lia]|].
  rewrite !Nat2Z.id. assert (Et : take (length buf - m) (drop m buf) = drop m buf) by (rewrite take_ge; [done|rewrite length_drop; lia]). rewrite Et.
  assert (Hs := sl_send (k_open k0) (k_past k0) fd (drop m buf) MSG_DONTWAIT ltac:(intros Hd; apply (f_equal length) in Hd; rewrite length_drop in Hd; simpl in Hd; lia)).
  rewrite length_drop in Hs. change (sys_answer (k_open k0) (k_past k0) (CSend fd (drop m buf) MSG_DONTWAIT)) with (syscall k0 (CSend fd (drop m buf) MSG_DONTWAIT)).2 in Hs.
  on_fd E. rewrite <-app_assoc in E. cbn [snd] in Hs. destruct (Z.ltb_spec (a_ret a0) 0) as [Hn|Hn].
  - assert ((negb (k_errno k1 =? EINTR) || negb (k_errno k1 =? EAGAIN)) = true) as -> by (destruct (Z.eqb_spec (k_errno k1) EINTR) as [->|]; done).
    eexists _, _, _, 0%nat. split_and!; [done|exact E| |left; split; [done|lia]]. unfold sent. cbn. replace (Z.to_nat (a_ret a0)) with 0%nat by lia. done.
  - destruct Hs as [Hs|Hs]; [exfalso; lia|]. set (n := Z.to_nat (a_ret a0)). assert (En : a_ret a0 = Z.of_nat n) by lia.
    rewrite En in *. rewrite !s32_small by lia. replace (Z.of_nat m + Z.of_nat n) with (Z.of_nat (m + n)) by lia. replace (Z.of_nat (length buf - m) - Z.of_nat n) with (Z.of_nat (length buf - (m + n))) by lia.
    destruct (IH k1 (m + n)%nat _ E) as (k' & r & h' & j & -> & E' & Hsent & Hr); [lia|lia|]. eexists k', r, _, (n + j)%nat. rewrite <-app_assoc in E'. split_and!; [done|exact E'| |].
    + unfold sent in *. rewrite fmap_app, concat_app, Hsent. cbn. rewrite Nat2Z.id, app_nil_r, <-drop_drop. rewrite <-(take_drop n (drop m buf)) at 3. rewrite take_app.
      rewrite length_take, length_drop. rewrite (take_ge _ (n + j)) by (rewrite length_take, length_drop; lia). f_equal. f_equal. lia.
    + destruct Hr as [[-> Hj]|(-> & Hj & He)]; [left; split; [done|lia]|right; split_and!; [f_equal; lia|lia|done]].
Qed.

(** C29: sk_send_all on an open stream, for any answers of poll and send.  It returns
    within one turn of its loop per byte; the kernel has then taken a prefix of the
    buffer, in order and each byte once.  The result is the length of this prefix,
    which is the whole buffer unless a signal interrupted poll, or -1 when poll or
    send failed (EAGAIN and EINTR of send included), in which case part of the data
    may have been sent. *)
Theorem sk_send_all_stream k fd h buf :
  k_open k !! fd = Some h -> 0 <= fd -> buf <> [] -> Z.of_nat (length buf) < 2 ^ 31 ->
  exists k' r h' j, sk_send_all (length buf) k fd (Some buf) = Ok (k', r) /\ k_open k' = <[fd := h ++ h']> (k_open k) /\ sent h' = take j buf /\
    ((r = -1 /\ (j < length buf)%nat) \/ (r = Z.of_nat j /\ (j <= length buf)%nat /\ (j = length buf \/ k_errno k' = EINTR))).
Proof.
  intros Hk Hfd Hb Hlen. unfold sk_send_all. rewrite (proj2 (Z.ltb_ge fd 0)) by done. cbn [orb]. assert (0 < length buf)%nat by (destruct buf; simpl; [done|lia]).
  rewrite (proj2 (Z.ltb_ge _ 1)) by lia. rewrite s32_small by lia.
  destruct (send_all_loop_on (length buf) k fd buf 0 h (k_open k)) as (k' & r & h' & j & Er & Ek & Hs & Hr); [by rewrite insert_id|done|lia|lia|].
  rewrite Nat.sub_0_r in Er. exists k', r, h', j. rewrite drop_0 in Hs. split_and!; [done..|]. destruct Hr as [[-> Hj]|(-> & Hj & He)]; [left; split; [done|lia]|right; simpl in *; split_and!; [done|lia|]]. destruct He as [He|He]; [left; lia|by right].
Qed.

(** A length of 2^31 or more does not fit the int it is stored in: nothing is sent. *)
Lemma sk_send_all_large fuel k fd buf :
  0 <= fd -> 2 ^ 31 <= Z.of_nat (length buf) < 2 ^ 32 -> sk_send_all fuel k fd (Some buf) = Ok (k, 0).
Proof.
  intros Hfd Hl. unfold sk_send_all. rewrite (proj2 (Z.ltb_ge fd 0)) by done. cbn [orb]. rewrite (proj2 (Z.ltb_ge _ 1)) by lia.
  assert (Hs : s32 (Z.of_nat (length buf)) <= 0). { unfold s32. rewrite <-(Z_mod_plus_full _ (-1)), Z.mod_small by lia. lia. }
  destruct fuel; cbn [send_all_loop]; by rewrite (proj2 (Z.ltb_ge 0 _)) by done.
Qed.

(** sk_packet refuses every type: no type is both SOCK_RAW and SOCK_DGRAM. *)
Lemma sk_packet_refuses k type protocol : sk_packet k type protocol = (k, -1).
Proof. unfold sk_packet. destruct (Z.eqb_spec type SOCK_RAW) as [->|]; done. Qed.

(** sk_set_keepalive reports success exactly when all four options were set. *)
Lemma sk_set_keepalive_on k fd h t :
  0 <= fd -> k_open k = <[fd := h]> t -> exists k' r h', sk_set_keepalive k fd = (k', r) /\ k_open k' = <[fd := h ++ h']> t /\ (r = -1 \/ r = 0) /\
    (r = 0 <-> h' = [(CSetsockopt fd SOL_SOCKET SO_KEEPALIVE (int_bytes 1), 0); (CSetsockopt fd IPPROTO_TCP TCP_KEEPCNT (int_bytes 3), 0);
                     (CSetsockopt fd IPPROTO_TCP TCP_KEEPIDLE (int_bytes 60), 0); (CSetsockopt fd IPPROTO_TCP TCP_KEEPINTVL (int_bytes 20), 0)]).
Proof.
  intros Hfd E. unfold sk_set_keepalive, set_int. rewrite (proj2 (Z.ltb_ge fd 0)) by done.
  on_fd E. test0 a Hr; cbn [Z.eqb]; [rewrite Hr in E|cbn [negb]; eexists _, (-1), _; (split_and!; [done|exact E|auto|]; split; [done|intros [= He]; by simplify_eq])].
  on_fd E. rewrite <-app_assoc in E. test0 a0 Hr0; cbn [Z.eqb negb]; [rewrite Hr0 in E|eexists _, (-1), _; (split_and!; [done|exact E|auto|]; split; [done|intros [= He]; by simplify_eq])].
  on_fd E. rewrite <-app_assoc in E. test0 a1 Hr1; cbn [Z.eqb negb]; [rewrite Hr1 in E|eexists _, (-1), _; (split_and!; [done|exact E|auto|]; split; [done|intros [= He]; by simplify_eq])].
  on_fd E. rewrite <-app_assoc in E. test0 a2 Hr2; cbn [Z.eqb negb]; [rewrite Hr2 in E; eexists _, 0, _; split_and!; [done|exact E|auto|done]|].
  eexists _, (-1), _; split_and!; [done|exact E|auto|]; split; [done|intros [= He]; by simplify_eq].
Qed.

(** ip_addr_from_socket reads an IPv6 address behind its 16 bytes. *)
Lemma ip_addr_from_socket_v6 k ip fd (get_remote : bool) :
  let c := if get_remote then CGetpeername fd else CGetsockname fd in
  0 <= fd -> 0 <= a_ret (sys_answer (k_open k) (k_past k) c) -> sa_family (a_data (sys_answer (k_open k) (k_past k) c)) = AF_INET6 ->
  ip_addr_from_socket k (Some ip) fd get_remote = Fault OutOfBounds.
Proof.
  intros c Hfd Hr Hf. unfold ip_addr_from_socket, syscall. rewrite (proj2 (Z.ltb_ge fd 0)) by done. fold c. cbv zeta. rewrite (proj2 (Z.ltb_ge _ 0)) by done.
  assert (sa_family (take 16 (a_data (sys_answer (k_open k) (k_past k) c))) = AF_INET6) as -> by (rewrite <-Hf; unfold sa_family; by rewrite take_take).
  cbn [Z.eqb AF_INET6 AF_INET Pos.eqb]. rewrite (proj2 (Nat.ltb_lt _ 24)) by (rewrite length_take; lia). done.
Qed.
End sock.

(** ** Addresses *)

(** The same family, port and address. *)
Definition same_port (p q : ip_port_t) : Prop :=
  ip_family (ipp_ip p) = ip_family (ipp_ip q) /\ ipp_port p = ipp_port q /\
  (if ip_family (ipp_ip q) =? AF_INET then take 4 (ip_bytes (ipp_ip p)) = take 4 (ip_bytes (ipp_ip q)) else ip_bytes (ipp_ip p) = ip_bytes (ipp_ip q)).

Lemma sk_addr_parts f p rest : 0 <= f < 2 ^ 16 -> 0 <= p < 2 ^ 16 -> let sk := le_bytes 2 f ++ le_bytes 2 p ++ rest in sa_family sk = f /\ sin_port sk = p /\ drop 4 sk = rest.
Proof.
  intros Hf Hp sk. unfold sa_family, sin_port, sk. rewrite take_app_length', drop_app_length', take_app_length' by done. rewrite !(le_combine_bytes 2) by lia.
  split_and!; [done|done|]. rewrite app_assoc. by apply drop_app_length'.
Qed.

(** The address handed to bind and connect, read back by accept or by
    sk_tcp_get_localaddr, is the one that was given. *)
Lemma sk_addr_round_trip p q :
  ip_wf (ipp_ip p) -> 0 <= ipp_port p < 2 ^ 16 ->
  exists sk p', sk_addr_from_ip_port p = Some sk /\ length sk = 28%nat /\ save_peer (Some q) sk = Some p' /\ same_port p' p.
Proof.
  intros ([Hf|Hf] & Hl & Hb) Hp; unfold sk_addr_from_ip_port, save_peer, same_port; rewrite Hf; cbn [Z.eqb AF_INET AF_INET6 Pos.eqb negb andb].
  - assert (H4 : length (take 4 (ip_bytes (ipp_ip p))) = 4%nat) by (rewrite length_take; lia). set (a4 := take 4 _) in *.
    destruct (sk_addr_parts 2 (ipp_port p) (a4 ++ replicate 20 0) ltac:(lia) Hp) as (Ef & Ep & Ed). eexists _, _. split; [done|]. split; [rewrite !length_app, H4; done|]. split; [done|].
    unfold AF_INET in *. rewrite Ef. cbn [Z.eqb Pos.eqb set_addr4 set_ipp_family ipp_ip ipp_port set_v4 set_family ip_family ip_bytes]. unfold sin_addr. rewrite Ep, Ed, (take_app_length' a4) by done. split_and!; [done|done|by rewrite take_app_length'].
  - destruct (sk_addr_parts 10 (ipp_port p) (replicate 4 0 ++ ip_bytes (ipp_ip p) ++ replicate 4 0) ltac:(lia) Hp) as (Ef & Ep & Ed). eexists _, _. split; [done|]. split; [rewrite !length_app, Hl; done|]. split; [done|].
    unfold AF_INET6, AF_INET in *. rewrite Ef. cbn [Z.eqb Pos.eqb set_addr6 set_ipp_family ipp_ip ipp_port set_v6 set_family ip_family ip_bytes]. unfold sin6_addr. rewrite Ep. split_and!; [done|done|].
    change 8%nat with (4 + 4)%nat. rewrite <-drop_drop, Ed. rewrite drop_app_length' by done. by rewrite take_app_length'.
Qed.

(** sk_gethostbyname stores the first address of a known family. *)
Lemma sk_gethostbyname_first gai domain family ip pre f sa rest :
  gai domain family = Some (pre ++ (f, sa) :: rest) -> Forall (fun e => e.1 <> AF_INET /\ e.1 <> AF_INET6) pre -> f = AF_INET \/ f = AF_INET6 ->
  exists ip', sk_gethostbyname gai (Some domain) family (Some ip) = (Some ip', 0) /\ ip_family ip' = f /\
    (if f =? AF_INET then ip_bytes ip' = sin_addr sa ++ drop 4 (ip_bytes ip) else ip_bytes ip' = sin6_addr sa).
Proof.
  intros Eg Hpre Hf. unfold sk_gethostbyname. rewrite Eg. clear Eg. induction Hpre as [|[g sb] pre [Hg4 Hg6] _ IH]; cbn [app pick_addr].
  - destruct Hf as [->| ->]; cbn [Z.eqb AF_INET AF_INET6 Pos.eqb]; by eexists.
  - cbn [fst] in *. by rewrite (proj2 (Z.eqb_neq g AF_INET)), (proj2 (Z.eqb_neq g AF_INET6)) by done.
Qed.

(** ** A kernel, and the claims on it *)

(** It refuses what [refuse] says, opens the descriptor after the largest open one, and
    takes two bytes at a time. *)
Definition next_fd (t : ledger) : Z := fold_right (fun e n => Z.max (e.1 + 1) n) 3 (map_to_list t).
Definition demo_sys (refuse : call -> option Z) : Sys := fun t _ c =>
  match refuse c with
  | Some e => {| a_ret := -1; a_errno := e; a_data := [] |}
  | None =>
      match c with
      | CSocket _ _ _ | CAccept _ _ => {| a_ret := next_fd t; a_errno := 0; a_data := le_bytes 2 AF_INET ++ replicate 26 7 |}
      | CSend _ bytes _ => {| a_ret := Z.min 2 (Z.of_nat (length bytes)); a_errno := 0; a_data := [] |}
      | CPoll _ _ => {| a_ret := 1; a_errno := 0; a_data := [POLLOUT] |}
      | _ => {| a_ret := 0; a_errno := 0; a_data := le_bytes 2 AF_INET ++ replicate 26 7 |}
      end
  end.
Lemma next_fd_fresh t : t !! next_fd t = None.
Proof.
  destruct (t !! next_fd t) as [h|] eqn:E; [|done]. exfalso. apply elem_of_map_to_list in E. unfold next_fd in E at 1. revert E. unfold next_fd.
  enough (Hlt : forall l (x : Z) (y : history), (x, y) ∈ l -> x < fold_right (fun e n => Z.max (e.1 + 1) n) 3 l) by (intros E; apply Hlt in E; lia).
  induction l as [|[z w] l IH]; intros x y; [by intros ?%not_elem_of_nil|]. intros [[= -> ->]|Hin]%elem_of_cons; simpl; [lia|specialize (IH x y Hin); lia].
Qed.
Lemma demo_laws refuse : SysLaws (H := demo_sys refuse).
Proof.
  constructor.
  - intros t past c Ho. unfold sys_answer, demo_sys. destruct (refuse c); [done|]. destruct c; try done; intros _; apply next_fd_fresh.
  - intros t past fd bytes fl Hb. unfold sys_answer, demo_sys. destruct (refuse _); cbn [a_ret]; [by left|]. right. destruct bytes; [done|]. simpl length. lia.
Qed.

Definition k0 : kern := {| k_open := ∅; k_errno := 0; k_past := [] |}.
Definition local_ip : ip_port_t := {| ipp_ip := {| ip_family := AF_INET; ip_bytes := 127 :: replicate 14 0 ++ [1] |}; ipp_port := 80 |}.
Definition no_tp (c : call) : option Z := match c with CSetsockopt _ _ 19 _ => Some 1 | _ => None end.
Definition later (c : call) : option Z := match c with CConnect _ _ => Some EINPROGRESS | _ => None end.

Lemma sk_tcp_server_descriptor_witness :
  (sk_tcp_server (H := demo_sys no_tp) k0 (Some local_ip) true false).2 = 3 /\
  let '(k', r) := sk_tcp_server (H := demo_sys no_tp) k0 (Some local_ip) true true in r = -1 /\ k_open k' <> ∅.
Proof.
  split; [reflexivity|]. pose proof (sk_tcp_server_descriptor (H := demo_sys no_tp) (H0 := demo_laws no_tp) k0 (Some local_ip) true true) as Hs.
  assert (Er : (sk_tcp_server (H := demo_sys no_tp) k0 (Some local_ip) true true).2 = -1) by reflexivity. assert (Ek : k_open (sk_tcp_server (H := demo_sys no_tp) k0 (Some local_ip) true true).1 <> ∅) by (vm_compute; discriminate).
  destruct (sk_tcp_server (H := demo_sys no_tp) k0 (Some local_ip) true true) as [k' r]. simpl in Er, Ek. destruct Hs as [[Hr _]|[[_ Hs]|[Hr _]]]; [lia|by destruct Ek|by split].
Defined.
Lemma sk_tcp_clients_descriptor_witness :
  exists k' sip' r, sk_tcp_client_nb (H := demo_sys later) k0 (Some local_ip) None false (Some 0) = Ok (k', sip', Some 1, r) /\ r = 3 /\
  exists k' sip' w' r, sk_tcp_client_nb (H := demo_sys later) k0 (Some local_ip) None false (Some 0) = Ok (k', sip', Some w', r) /\ (r = -1 \/ 0 <= r).
Proof.
  eexists _, _, _. split_and!; [reflexivity|reflexivity|].
  destruct (proj2 (sk_tcp_clients_descriptor (H := demo_sys later) (H0 := demo_laws later) k0 local_ip None false 0)) as (k' & sip' & w' & r & E & [(Hr & _)|(Hr & _)]); eauto 10.
Defined.
Definition k3 : kern := {| k_open := {[3 := []]}; k_errno := 0; k_past := [] |}.
Lemma sk_send_all_stream_witness :
  exists k' r h' j, sk_send_all (H := demo_sys (fun _ => None)) 5 k3 3 (Some [10; 20; 30; 40; 50]) = Ok (k', r) /\ r = 5 /\
    k_open k' = <[3 := h']> (k_open k3) /\ sent h' = take j [10; 20; 30; 40; 50].
Proof.
  destruct (sk_send_all_stream (H := demo_sys (fun _ => None)) (H0 := demo_laws _) k3 3 [] [10; 20; 30; 40; 50]) as (k' & r & h' & j & E & Ek & Hs & _); [reflexivity|lia|done|simpl; lia|].
  exists k', r, h', j. split_and!; [exact E| |exact Ek|exact Hs]. vm_compute in E. congruence.
Defined.

End SockUtilProofs.
