(* ===== verification/SockPool.v ===== *)
(** * sockpool: a pool of sockets to the servers

    Model of src/code/network/socket/proxy/utils/sockpool.c.  The items are one block,
    an item pointer is its index; prev and next are kept in the items, NULL is
    [None].  The field flags and the LOCK macros, which sockpool.h lacks, are a bit that
    says whether the pool is locked around its operations; [held] is the mutex.
    memsize, which nothing reads, is left out. *)
From S2P Require Import Prelude.

Module SockPool.

(** ** The world

    [sockets] are the open descriptors, with the address and port they were
    connected to; [w_time] counts the calls. *)
Record world : Type := { sockets : gmap Z (Z * Z); w_time : nat }.

(** sock_tcpcli, recv of one byte ([true]: EAGAIN, nothing to read and not closed) and
    getpeername, which gives s_addr and sin_port as stored. *)
Class Net : Type := {
  net_connect : world -> Z -> Z -> Z;
  net_clear : world -> Z -> bool;
  net_peer : world -> Z -> option (Z * Z) }.

(** A new descriptor is not open; the peer of a socket has the address it was
    connected to. *)
Class NetLaws `{Net} : Prop := {
  nl_fresh w ip port : 0 <= net_connect w ip port -> sockets w !! net_connect w ip port = None;
  nl_peer w fd a p : net_peer w fd = Some (a, p) -> exists port, sockets w !! fd = Some (a, port) }.

(** An assumption about sock_tcpcli, which is not part of the sources: it takes the port
    in host byte order, so that the network-order port getpeername gives, converted by
    ntohs, is the port it was called with.  sockpool.c and its test need this; httpcli.c,
    tcpcli_tw.c and send.c call sock_tcpcli with a port in network byte order. *)
Class HostOrderPort `{Net} : Prop := {
  ho_port w fd a p port : net_peer w fd = Some (a, p) -> sockets w !! fd = Some (a, port) -> ntohs p = port }.

Definition tick (w : world) : world := {| sockets := sockets w; w_time := S (w_time w) |}.
Definition close (w : world) (fd : Z) : world := {| sockets := delete fd (sockets w); w_time := S (w_time w) |}.
Definition opened (w : world) (fd ip port : Z) : world := {| sockets := <[fd := (ip, port)]> (sockets w); w_time := S (w_time w) |}.

(** ** Data *)
Definition SOCKPOOL_HSIZE : nat := Z.to_nat 10001.
Definition SOCKPOOL_USED : Z := 1.

Record sockpool_item_t : Type := { it_prev : option nat; it_next : option nat; it_fd : Z; it_nused : Z; it_flags : Z; it_port : Z; it_ip : Z }.
Record sockpool_hash_t : Type := { h_size : Z; h_head : option nat }.
Record sockpool_t : Type := { sp_size : Z; sp_success : Z; sp_failed : Z; sp_nused : Z; sp_pool : gmap nat sockpool_item_t; sp_hash : list sockpool_hash_t; sp_lock_flag : bool; held : bool }.

Definition IS_USED (i : sockpool_item_t) : bool := negb (Z.land (it_flags i) SOCKPOOL_USED =? 0).

Definition set_prev (i : sockpool_item_t) (p : option nat) : sockpool_item_t := {| it_prev := p; it_next := it_next i; it_fd := it_fd i; it_nused := it_nused i; it_flags := it_flags i; it_port := it_port i; it_ip := it_ip i |}.
Definition set_next (i : sockpool_item_t) (p : option nat) : sockpool_item_t := {| it_prev := it_prev i; it_next := p; it_fd := it_fd i; it_nused := it_nused i; it_flags := it_flags i; it_port := it_port i; it_ip := it_ip i |}.
Definition set_flags (i : sockpool_item_t) (f : Z) : sockpool_item_t := {| it_prev := it_prev i; it_next := it_next i; it_fd := it_fd i; it_nused := it_nused i; it_flags := f; it_port := it_port i; it_ip := it_ip i |}.
Definition SET_USED (i : sockpool_item_t) : sockpool_item_t := set_flags i (Z.lor (it_flags i) SOCKPOOL_USED).
Definition CLR_USED (i : sockpool_item_t) : sockpool_item_t := set_flags i (Z.land (it_flags i) (Z.lnot SOCKPOOL_USED)).

Definition set_pool (p : sockpool_t) (m : gmap nat sockpool_item_t) : sockpool_t :=
  {| sp_size := sp_size p; sp_success := sp_success p; sp_failed := sp_failed p; sp_nused := sp_nused p; sp_pool := m; sp_hash := sp_hash p; sp_lock_flag := sp_lock_flag p; held := held p |}.
Definition set_hash (p : sockpool_t) (h : list sockpool_hash_t) : sockpool_t :=
  {| sp_size := sp_size p; sp_success := sp_success p; sp_failed := sp_failed p; sp_nused := sp_nused p; sp_pool := sp_pool p; sp_hash := h; sp_lock_flag := sp_lock_flag p; held := held p |}.
Definition set_held (p : sockpool_t) (b : bool) : sockpool_t :=
  {| sp_size := sp_size p; sp_success := sp_success p; sp_failed := sp_failed p; sp_nused := sp_nused p; sp_pool := sp_pool p; sp_hash := sp_hash p; sp_lock_flag := sp_lock_flag p; held := b |}.
(** The counters: success, failed and nused. *)
Definition count (p : sockpool_t) (s f n : Z) : sockpool_t :=
  {| sp_size := sp_size p; sp_success := u32 (sp_success p + s); sp_failed := u32 (sp_failed p + f); sp_nused := u32 (sp_nused p + n); sp_pool := sp_pool p; sp_hash := sp_hash p; sp_lock_flag := sp_lock_flag p; held := held p |}.

(** Stores through an item pointer and into a hash entry. *)
Definition upd_item (p : sockpool_t) (x : nat) (f : sockpool_item_t -> sockpool_item_t) : res sockpool_t :=
  do i <- deref (sp_pool p !! x); Ok (set_pool p (<[x := f i]> (sp_pool p))).
Definition upd_entry (p : sockpool_t) (key : nat) (f : sockpool_hash_t -> sockpool_hash_t) : res sockpool_t :=
  do e <- arr_get (sp_hash p) (Z.of_nat key); do h <- arr_set (sp_hash p) (Z.of_nat key) (f e); Ok (set_hash p h).
Definition set_head (h : option nat) (e : sockpool_hash_t) : sockpool_hash_t := {| h_size := h_size e; h_head := h |}.
Definition add_size (d : Z) (e : sockpool_hash_t) : sockpool_hash_t := {| h_size := u32 (h_size e + d); h_head := h_head e |}.

Definition sockpool_keygen (ip port : Z) : nat :=
  let key := u8 (Z.land (Z.shiftr ip 24) 255) in
  let key := u32 (key + u8 (Z.land (Z.shiftr ip 16) 255)) in
  let key := u32 (key + u8 (Z.land (Z.shiftr ip 8) 255)) in
  let key := u32 (key + u8 (Z.land ip 255)) in
  let key := u32 (key + u8 (Z.land (Z.shiftr port 8) 255)) in
  let key := u32 (key + u8 (Z.land port 255)) in
  Z.to_nat (u8 (key mod Z.of_nat SOCKPOOL_HSIZE)).

(** ** The lists of the hash entries *)
Definition sockpool_hash_get (p : sockpool_t) (key : nat) : res (sockpool_t * option nat) :=
  do e <- arr_get (sp_hash p) (Z.of_nat key);
  if h_size e =? 0 then Ok (p, None) else
  let item := h_head e in
  do p <- match item with Some x => do i <- deref (sp_pool p !! x); upd_entry p key (set_head (it_next i)) | None => Ok p end;
  do e <- arr_get (sp_hash p) (Z.of_nat key);
  do p <- match h_head e with Some h => upd_item p h (fun i => set_prev i None) | None => Ok p end;
  do p <- upd_entry p key (add_size (-1));
  Ok (p, item).

Definition sockpool_hash_add (p : sockpool_t) (key : nat) (item : nat) : res sockpool_t :=
  do e <- arr_get (sp_hash p) (Z.of_nat key);
  do p <- match h_head e with
          | Some h => do p <- upd_item p item (fun i => set_next i (Some h)); upd_item p h (fun i => set_prev i (Some item))
          | None => upd_item p item (fun i => set_next i None)
          end;
  do p <- upd_entry p key (set_head (Some item));
  do p <- upd_item p item (fun i => set_prev i None);
  upd_entry p key (add_size 1).

Definition sockpool_hash_del (p : sockpool_t) (key : nat) (item : nat) : res sockpool_t :=
  do i <- deref (sp_pool p !! item);
  do p <- match it_prev i with Some q => upd_item p q (fun j => set_next j (it_next i)) | None => upd_entry p key (set_head (it_next i)) end;
  do i <- deref (sp_pool p !! item);
  do p <- match it_next i with Some q => upd_item p q (fun j => set_prev j (it_prev i)) | None => Ok p end;
  upd_entry p key (add_size (-1)).

Section net.
Context `{Net}.

(** 0: the socket can be used again. *)
Definition sockpool_testfd (w : world) (fd : Z) : res (world * Z) :=
  assert! (0 <=? fd); Ok (tick w, if net_clear w fd then 0 else -1).

Fixpoint find_free_loop (fuel : nat) (w : world) (p : sockpool_t) (key : nat) (item : option nat) : res (world * sockpool_t * option nat) :=
  match item with
  | None => Ok (w, p, None)
  | Some x =>
      match fuel with
      | O => Fault NoReturn
      | S fuel =>
          do i <- deref (sp_pool p !! x);
          assert! (0 <=? it_fd i);
          if IS_USED i then find_free_loop fuel w p key (it_next i) else
          let fd := it_fd i in
          do (w, r) <- sockpool_testfd w fd;
          if negb (r =? 0) then
            let next := it_next i in
            do p <- sockpool_hash_del p key x;
            do p <- sockpool_hash_add p SOCKPOOL_HSIZE x;
            find_free_loop fuel (close w fd) (count p 0 0 (-1)) key next
          else Ok (w, p, Some x)
      end
  end.
Definition sockpool_hash_find_free (fuel : nat) (w : world) (p : sockpool_t) (key : nat) : res (world * sockpool_t * option nat) :=
  do e <- arr_get (sp_hash p) (Z.of_nat key); find_free_loop fuel w p key (h_head e).

Fixpoint find_loop (fuel : nat) (p : sockpool_t) (item : option nat) (fd ip port : Z) : res (option nat) :=
  match item with
  | None => Ok None
  | Some x =>
      match fuel with
      | O => Fault NoReturn
      | S fuel =>
          do i <- deref (sp_pool p !! x);
          assert! (0 <=? it_fd i);
          if it_fd i =? fd then assert! (it_ip i =? ip); assert! (it_port i =? port); Ok (Some x)
          else find_loop fuel p (it_next i) fd ip port
      end
  end.
Definition sockpool_hash_find (fuel : nat) (p : sockpool_t) (key : nat) (fd ip port : Z) : res (option nat) :=
  assert! (0 <=? fd); do e <- arr_get (sp_hash p) (Z.of_nat key); find_loop fuel p (h_head e) fd ip port.

Fixpoint unique_loop (fuel : nat) (p : sockpool_t) (item : option nat) (fd n : Z) : res Z :=
  match item with
  | None => Ok n
  | Some x =>
      match fuel with
      | O => Fault NoReturn
      | S fuel =>
          do i <- deref (sp_pool p !! x);
          assert! (0 <=? it_fd i);
          unique_loop fuel p (it_next i) fd (if it_fd i =? fd then n + 1 else n)
      end
  end.
Definition sockpool_hash_unique (fuel : nat) (p : sockpool_t) (key : nat) (fd : Z) : res Z :=
  assert! (0 <=? fd); do e <- arr_get (sp_hash p) (Z.of_nat key); do n <- unique_loop fuel p (h_head e) fd 0; Ok (if 1 <? n then -1 else 0).

(** ** The pool *)

(** Locking a mutex that is held does not return. *)
Definition sockpool_lock (p : sockpool_t) : res sockpool_t := if sp_lock_flag p then if held p then Fault NoReturn else Ok (set_held p true) else Ok p.
Definition sockpool_unlock (p : sockpool_t) : sockpool_t := if sp_lock_flag p then set_held p false else p.

(** The loop that links the items of the block. *)
Fixpoint init_items (n i : nat) (size : Z) (m : gmap nat sockpool_item_t) : gmap nat sockpool_item_t :=
  match n with
  | O => m
  | S n => init_items n (S i) size (<[i := {| it_fd := -1; it_ip := 0; it_port := 0; it_flags := 0; it_nused := 0;
             it_prev := match i with O => None | S j => Some j end; it_next := if Z.of_nat i =? size - 1 then None else Some (S i) |}]> m)
  end.

(** [mem n] says whether the n-th malloc succeeds; the first result is the number of
    blocks that stay allocated. *)
Definition sockpool_alloc (mem : nat -> bool) (size : Z) (locked : bool) : Z * option sockpool_t :=
  if size <? 1 then (0, None) else
  if negb (mem 0%nat) then (0, None) else
  if negb (mem 1%nat) then (0, None) else
  let items := init_items (Z.to_nat size) 0 size ∅ in
  if negb (mem 2%nat) then (0, None) else
  let entries := replicate SOCKPOOL_HSIZE {| h_size := 0; h_head := None |} ++ [{| h_size := u32 size; h_head := Some 0%nat |}] in
  (3, Some {| sp_size := u32 size; sp_success := 0; sp_failed := 0; sp_nused := 0; sp_pool := items; sp_hash := entries; sp_lock_flag := locked; held := false |}).

Fixpoint close_items (fuel : nat) (w : world) (p : sockpool_t) (item : option nat) : res world :=
  match item with
  | None => Ok w
  | Some x =>
      match fuel with
      | O => Fault NoReturn
      | S fuel => do i <- deref (sp_pool p !! x); assert! (0 <=? it_fd i); close_items fuel (close w (it_fd i)) p (it_next i)
      end
  end.
Fixpoint close_entries (fuel : nat) (w : world) (p : sockpool_t) (es : list sockpool_hash_t) : res world :=
  match es with [] => Ok w | e :: es => do w <- close_items fuel w p (h_head e); close_entries fuel w p es end.
(** The descriptors are closed, then the three blocks are freed. *)
Definition sockpool_free (fuel : nat) (w : world) (pool : option sockpool_t) : res world :=
  match pool with None => Ok w | Some p => close_entries fuel w p (take SOCKPOOL_HSIZE (sp_hash p)) end.

Definition sockpool_get (fuel : nat) (w : world) (pool : option sockpool_t) (ip port : Z) : res (world * option sockpool_t * Z) :=
  match pool with
  | None => Ok (w, None, -1)
  | Some p =>
      if (ip <? 1) || (port <? 1) then Ok (w, Some p, -1) else
      let key := sockpool_keygen ip port in
      do p <- sockpool_lock p;
      do (w, p, item) <- sockpool_hash_find_free fuel w p key;
      match item with
      | Some x =>
          do p <- upd_item p x (fun i => {| it_prev := it_prev i; it_next := it_next i; it_fd := it_fd i; it_nused := u32 (it_nused i + 1); it_flags := it_flags i; it_port := it_port i; it_ip := it_ip i |});
          do i <- deref (sp_pool p !! x);
          let fd := it_fd i in
          do _ <- sockpool_hash_unique fuel p key fd;
          do p <- upd_item (count p 1 0 0) x SET_USED;
          Ok (w, Some (sockpool_unlock p), fd)
      | None =>
          if sp_size p <=? sp_nused p then Ok (w, Some (sockpool_unlock (count p 0 1 0)), -1) else
          let fd := net_connect w ip port in
          if fd <? 0 then Ok (tick w, Some (sockpool_unlock (count p 0 1 0)), -1) else
          let w := opened w fd ip port in
          do (p, item) <- sockpool_hash_get p SOCKPOOL_HSIZE;
          match item with
          | None => Ok (close w fd, Some (sockpool_unlock (count p 0 1 0)), -1)
          | Some x =>
              do p <- upd_item p x (fun i => SET_USED {| it_prev := it_prev i; it_next := it_next i; it_fd := fd; it_nused := 1; it_flags := 0; it_port := port; it_ip := ip |});
              do p <- sockpool_hash_add p key x;
              Ok (w, Some (sockpool_unlock (count p 1 0 1)), fd)
          end
      end
  end.

Definition sockpool_put (fuel : nat) (w : world) (pool : option sockpool_t) (fd : Z) (isclose : bool) : res (world * option sockpool_t * Z) :=
  match pool with
  | None => Ok (w, None, -1)
  | Some p =>
      if fd <? 0 then Ok (w, Some p, -1) else
      match net_peer w fd with
      | None => Ok (tick w, Some p, -1)
      | Some (s_addr, sin_port) =>
          let w := tick w in
          let ip := s_addr in
          let port := ntohs sin_port in
          let key := sockpool_keygen ip port in
          do p <- sockpool_lock p;
          do item <- sockpool_hash_find fuel p key fd ip port;
          match item with
          | None => Ok (w, Some (sockpool_unlock p), -1)
          | Some x =>
              if negb isclose then
                do p <- upd_item p x CLR_USED;
                Ok (w, Some (sockpool_unlock p), 0)
              else
                do p <- sockpool_hash_del p key x;
                do p <- sockpool_hash_add p SOCKPOOL_HSIZE x;
                Ok (close w fd, Some (sockpool_unlock (count p 0 0 (-1))), 0)
          end
      end
  end.
End net.

End SockPool.
