(* ===== verification/SockPoolProofs.v ===== *)
(** * sockpool: the lists, the pool and its contract

    The entries are doubly linked lists through the items; over them the pool is a
    map from descriptors to their address and whether they are in use. *)
From stdpp Require Import functions.
From S2P Require Import Prelude SockPool.

Module SockPoolProofs.
Import SockPool.

(** ** Linked segments

    [dls m prev h l nxt]: from [h] the items [l] follow each other, the first one with
    [prev] behind it, the last one with [nxt] after it. *)
Fixpoint dls (m : gmap nat sockpool_item_t) (prev h : option nat) (l : list nat) (nxt : option nat) : Prop :=
  match l with
  | [] => h = nxt
  | x :: l => h = Some x /\ exists i, m !! x = Some i /\ it_prev i = prev /\ dls m (Some x) (it_next i) l nxt
  end.


Lemma dls_nil m prev h nxt : dls m prev h [] nxt <-> h = nxt.
Proof. done. Qed.




(** ** The entries

    [B k] are the items of entry [k], in order. *)
#[local] Opaque SOCKPOOL_HSIZE.
Section lists.
Context (n : nat) (Hn31 : Z.of_nat n < 2 ^ 31).









End lists.

(** ** The contract

    A pool is a map from descriptors to the address they are connected to and whether
    they are in use; with it go the open descriptors. *)
Abbreviation socks := (gmap Z (Z * Z)).
Abbreviation pmap := (gmap Z (Z * Z * bool)).
Inductive sp_op : Type := OGet (ip port : Z) | OPut (fd : Z) (isclose : bool).


Section contract.
Context `{Net} (cap : Z).
End contract.

(** ** The pool over its lists *)
Section pool.
Context `{NetLaws} {HO : HostOrderPort} (n : nat) (Hn31 : Z.of_nat n < 2 ^ 31).




















(** ** Release *)



(** ** Sequences of operations *)
Definition exec (w : world) (pool : option sockpool_t) (o : sp_op) : res (world * option sockpool_t * Z) :=
  match o with OGet ip port => sockpool_get n w pool ip port | OPut fd c => sockpool_put n w pool fd c end.
Definition run_op (m : res (world * option sockpool_t * list Z)) (o : sp_op) : res (world * option sockpool_t * list Z) :=
  do (w, pool, rs) <- m; do (w, pool, r) <- exec w pool o; Ok (w, pool, rs ++ [r]).
Definition run_ops (w : world) (pool : option sockpool_t) (ops : list sp_op) : res (world * option sockpool_t * list Z) := fold_left run_op ops (Ok (w, pool, [])).
End pool.

(** ** Claims *)


(** A network that always connects, with the number after the largest open
    descriptor, and where no socket ever has data. *)
Definition next_sock (w : world) : Z := fold_right (fun e m => Z.max (e.1 + 1) m) 3 (map_to_list (sockets w)).
Definition demo_net : Net := {|
  net_connect := fun w _ _ => next_sock w;
  net_clear := fun _ _ => true;
  net_peer := fun w fd => match sockets w !! fd with Some (ip, port) => if bool_decide (0 <= port < 2 ^ 16) then Some (ip, htons port) else None | None => None end |}.
Lemma demo_net_laws : NetLaws (H := demo_net).
Proof.
  constructor; cbn [net_connect net_peer demo_net].
  - intros w _ _ _. destruct (sockets w !! next_sock w) as [v|] eqn:E; [|done]. exfalso. apply elem_of_map_to_list in E. unfold next_sock in E at 1. revert E. unfold next_sock.
    enough (Hlt : forall l (x : Z) (y : Z * Z), (x, y) ∈ l -> x < fold_right (fun e m => Z.max (e.1 + 1) m) 3 l) by (intros E; apply Hlt in E; lia).
    induction l as [|[z u] l IH]; intros x y; [by intros ?%not_elem_of_nil|]. intros [[= -> ->]|Hin]%elem_of_cons; simpl; [lia|specialize (IH x y Hin); lia].
  - intros w fd a q. destruct (sockets w !! fd) as [[ip port]|]; [|done]. case_bool_decide as Hp; [|done]. intros [= <- <-]. by exists port.
Qed.
Definition w0 : world := {| sockets := ∅; w_time := 0 |}.

(** 10.0.0.1 and 10.0.1.0, as stored. *)
Definition server1 : Z := 16777226.
Definition server2 : Z := 65546.

(** A socket that was put back is given out for another server: 10.0.0.1 and 10.0.1.0
    have the same key, and the search does not compare the address. *)
Lemma sockpool_get_wrong_server :
  match (sockpool_alloc (fun _ => true) 2 true).2 with
  | Some p => match run_ops (H := demo_net) 2 w0 (Some p) [OGet server1 80; OPut 3 false; OGet server2 80] with
              | Ok (w, _, rs) => rs = [3; 0; 3] /\ sockets w !! 3 = Some (server1, 80)
              | Fault _ => False
              end
  | None => False
  end.
Proof. vm_compute. done. Qed.

(** A network whose sock_tcpcli takes the port as it goes into sin_port: it has the laws
    of the kernel, and the socket of the first get cannot be put back, since
    sockpool_put finds its item and asserts the port sockpool_get stored. *)
Definition raw_net : Net := {|
  net_connect := fun w _ _ => next_sock w;
  net_clear := fun _ _ => true;
  net_peer := fun w fd => sockets w !! fd |}.
Lemma raw_net_laws : NetLaws (H := raw_net).
Proof. constructor; [exact (@nl_fresh demo_net demo_net_laws)|]. cbn [net_peer raw_net]. intros w fd a q E. by exists q. Qed.
Lemma sockpool_put_network_order :
  match (sockpool_alloc (fun _ => true) 2 true).2 with
  | Some p => run_ops (H := raw_net) 2 w0 (Some p) [OGet server1 80; OPut 3 false] = Fault AssertFailed
  | None => False
  end.
Proof. vm_compute. done. Qed.


End SockPoolProofs.
