(* ===== verification/EpollEvent.v ===== *)
(** * epoll_event: the first event layer

    Model of src/code/network/proxy/utils/epoll_event.c and epoll_event.h (the same files
    are in network/socket/proxy/utils).  Events are objects the caller owns, with
    the handlers for reading, writing and errors; epoll and the handlers are
    parameters. *)
From S2P Require Import Prelude FdEpoll.

Module EpollEvent.
Import FdEpoll.

(** epoll: the mask and the pointer registered for a descriptor, and the call (0:
    success). *)
Class Epoll (K : Type) : Type := {
  ep_reg : K -> Z -> option (Z * positive);
  ep_ctl : K -> epoll_op -> Z -> Z * positive -> K * Z }.
(** epoll_ctl(2): a call that fails changes nothing, one that succeeds only the
    descriptor it names. *)
Class EpollLaws (K : Type) `{Epoll K} : Prop := {
  el_fail k op fd e : (ep_ctl k op fd e).2 <> 0 -> forall g, ep_reg (ep_ctl k op fd e).1 g = ep_reg k g;
  el_other k op fd e g : g <> fd -> ep_reg (ep_ctl k op fd e).1 g = ep_reg k g;
  el_this k op fd e : (ep_ctl k op fd e).2 = 0 -> ep_reg (ep_ctl k op fd e).1 fd = match op with EPOLL_CTL_DEL => None | _ => Some e end }.

(** ** Data *)
Section events.
Context {K : Type} `{Epoll K} {F : Type}.

Record ep_event_t : Type := { ev_fd : Z; is_read : bool; is_write : bool; read_func : option F; write_func : option F; error_func : option F }.
Record ep_stat_t : Type := { nread : Z; nwrite : Z; nerror : Z }.
Record ep_ctx_t : Type := { epoll : K; nfd : Z; nevent : Z; stat : ep_stat_t }.
(** The context and the live events; the calls of handlers are recorded. *)
Inductive called : Type := Called_read (p : positive) | Called_write (p : positive) | Called_error (p : positive).
Record state : Type := { ctx : ep_ctx_t; evs : gmap positive ep_event_t; calls : list called }.

Definition set_flags (ev : ep_event_t) (r w : bool) : ep_event_t :=
  {| ev_fd := ev_fd ev; is_read := r; is_write := w; read_func := read_func ev; write_func := write_func ev; error_func := error_func ev |}.
(** The state after an epoll_ctl, the flags of an event and the change of nfd. *)
Definition set_kernel (s : state) (k : K) : state := {| ctx := {| epoll := k; nfd := nfd (ctx s); nevent := nevent (ctx s); stat := stat (ctx s) |}; evs := evs s; calls := calls s |}.
Definition set_event (s : state) (p : positive) (ev : ep_event_t) (d : Z) : state :=
  {| ctx := {| epoll := epoll (ctx s); nfd := s32 (nfd (ctx s) + d); nevent := nevent (ctx s); stat := stat (ctx s) |}; evs := <[p := ev]> (evs s); calls := calls s |}.

(** ** Registration *)

(** epoll_ctl on the event [p] of descriptor [fd]; the mask is 0 for a removal. *)
Definition ctl (s : state) (cmd : epoll_op) (fd events : Z) (p : positive) : state * Z :=
  let (k, r) := ep_ctl (epoll (ctx s)) cmd fd (events, p) in (set_kernel s k, r).

Definition ep_event_add_read_ (s : state) (p : positive) (ev : ep_event_t) : state * Z :=
  if is_read ev then (s, -1) else
  let '(cmd, events) := if is_write ev then (EPOLL_CTL_MOD, Z.lor (Z.lor EPOLLIN EPOLLOUT) EPOLLERR) else (EPOLL_CTL_ADD, Z.lor EPOLLIN EPOLLERR) in
  let (s, r) := ctl s cmd (ev_fd ev) events p in
  if negb (r =? 0) then (s, -1) else
  (set_event s p (set_flags ev true (is_write ev)) (match cmd with EPOLL_CTL_ADD => 1 | _ => 0 end), 0).
Definition ep_event_add_write_ (s : state) (p : positive) (ev : ep_event_t) : state * Z :=
  if is_write ev then (s, -1) else
  let '(cmd, events) := if is_read ev then (EPOLL_CTL_MOD, Z.lor (Z.lor EPOLLIN EPOLLOUT) EPOLLERR) else (EPOLL_CTL_ADD, Z.lor EPOLLOUT EPOLLERR) in
  let (s, r) := ctl s cmd (ev_fd ev) events p in
  if negb (r =? 0) then (s, -1) else
  (set_event s p (set_flags ev (is_read ev) true) (match cmd with EPOLL_CTL_ADD => 1 | _ => 0 end), 0).
Definition ep_event_del_read_ (s : state) (p : positive) (ev : ep_event_t) : state * Z :=
  if negb (is_read ev) then (s, -1) else
  let '(cmd, events) := if is_write ev then (EPOLL_CTL_MOD, Z.lor EPOLLOUT EPOLLERR) else (EPOLL_CTL_DEL, 0) in
  let (s, r) := ctl s cmd (ev_fd ev) events p in
  if negb (r =? 0) then (s, -1) else
  (set_event s p (set_flags ev false (is_write ev)) (match cmd with EPOLL_CTL_DEL => -1 | _ => 0 end), 0).
Definition ep_event_del_write_ (s : state) (p : positive) (ev : ep_event_t) : state * Z :=
  if negb (is_write ev) then (s, -1) else
  let '(cmd, events) := if is_read ev then (EPOLL_CTL_MOD, Z.lor EPOLLIN EPOLLERR) else (EPOLL_CTL_DEL, 0) in
  let (s, r) := ctl s cmd (ev_fd ev) events p in
  if negb (r =? 0) then (s, -1) else
  (set_event s p (set_flags ev (is_read ev) false) (match cmd with EPOLL_CTL_DEL => -1 | _ => 0 end), 0).
Definition ep_event_del_ (s : state) (p : positive) (ev : ep_event_t) : state * Z :=
  if negb (is_read ev) && negb (is_write ev) then (s, -1) else
  let (s, r) := ctl s EPOLL_CTL_DEL (ev_fd ev) 0 p in
  if negb (r =? 0) then (s, -1) else
  (set_event s p (set_flags ev false false) (-1), 0).

(** The exported functions; [None] is a NULL event. *)
Inductive ep_op : Type := AddRead | AddWrite | DelRead | DelWrite | Del.
Definition has_func (o : option F) : bool := match o with Some _ => true | None => false end.
Definition ep_event_op (o : ep_op) (s : state) (ev : option positive) : res (state * Z) :=
  match ev with
  | None => Ok (s, -1)
  | Some p =>
      do ev <- deref (evs s !! p);
      Ok match o with
         | AddRead => if negb (has_func (read_func ev)) then (s, -1) else ep_event_add_read_ s p ev
         | AddWrite => if negb (has_func (write_func ev)) then (s, -1) else ep_event_add_write_ s p ev
         | DelRead => ep_event_del_read_ s p ev
         | DelWrite => ep_event_del_write_ s p ev
         | Del => ep_event_del_ s p ev
         end
  end.
Definition ep_event_add_read := ep_event_op AddRead.
Definition ep_event_add_write := ep_event_op AddWrite.
Definition ep_event_del_read := ep_event_op DelRead.
Definition ep_event_del_write := ep_event_op DelWrite.
Definition ep_event_del := ep_event_op Del.

(** [mem n]: whether the n-th malloc succeeds; [k]: what epoll_create gives, or an error. *)
Definition ep_event_create (mem : nat -> bool) (k : option K) (max : Z) : option ep_ctx_t :=
  if max <? 1 then None else
  if negb (mem 0%nat) then None else
  match k with
  | None => None
  | Some k => if negb (mem 1%nat) then None else Some {| epoll := k; nfd := 0; nevent := max; stat := {| nread := 0; nwrite := 0; nerror := 0 |} |}
  end.

(** The blocks of a context; [ep_event_destroy] gives those it frees. *)
Inductive block : Type := CtxBlock | EventsBlock.
Definition ctx_blocks : list block := [CtxBlock; EventsBlock].
Definition ep_event_destroy (c : option ep_ctx_t) : list block * Z := match c with None => ([], -1) | Some _ => ([CtxBlock], 0) end.

(** ** Dispatch *)

(** What a handler does to the state. *)
Context (handler : F -> positive -> state -> res state).

Definition bump (s : state) (r w e : Z) (c : called) : state :=
  let st := stat (ctx s) in
  {| ctx := {| epoll := epoll (ctx s); nfd := nfd (ctx s); nevent := nevent (ctx s); stat := {| nread := u64 (nread st + r); nwrite := u64 (nwrite st + w); nerror := u64 (nerror st + e) |} |}; evs := evs s; calls := calls s ++ [c] |}.

(** A handler is looked up only when its event was reported. *)
Definition find_func (s : state) (p : positive) (reported : bool) (func : ep_event_t -> option F) : res (option F) :=
  if reported then do ev <- deref (evs s !! p); Ok (func ev) else Ok None.
Definition reports (events bit : Z) : bool := negb (Z.land events bit =? 0).

(** One event of the array: what epoll reported, and data.ptr. *)
Definition dispatch (s : state) (e : Z * option positive) : res state :=
  let '(events, ptr) := e in
  match ptr with
  | None => Ok s
  | Some p =>
      do f <- find_func s p (reports events EPOLLERR) error_func;
      match f with
      | Some f => do s <- handler f p s; Ok (bump s 0 0 1 (Called_error p))
      | None =>
          do f <- find_func s p (reports events EPOLLOUT) write_func;
          do s <- match f with Some f => do s <- handler f p s; Ok (bump s 0 1 0 (Called_write p)) | None => Ok s end;
          do f <- find_func s p (reports events EPOLLIN) read_func;
          match f with Some f => do s <- handler f p s; Ok (bump s 1 0 0 (Called_read p)) | None => Ok s end
      end
  end.
(** [n] and [errno] of epoll_wait, and the events it stored. *)
Definition ep_event_loop (s : state) (n errno : Z) (events : list (Z * option positive)) : res (state * Z) :=
  if n <? 0 then Ok (s, if (errno =? 11) || (errno =? 4) then 0 else -1) else
  do s <- fold_left (fun m e => do s <- m; dispatch s e) (take (Z.to_nat n) events) (Ok s);
  Ok (s, n).
End events.

End EpollEvent.
