(* ===== verification/EpollEventProofs.v ===== *)
(** * epoll_event: what is registered, and which handlers run *)
From S2P Require Import Prelude FdEpoll EpollEvent.

Module EpollEventProofs.
Import FdEpoll EpollEvent.

Section proofs.
Context {K : Type} `{EpollLaws K} {F : Type}.
Abbreviation event := (@ep_event_t F).
Abbreviation st := (@state K F).

Definition registered (ev : event) : bool := is_read ev || is_write ev.
(** What epoll should hold for the event. *)
Definition mask (ev : event) : Z := Z.lor (Z.lor (if is_read ev then EPOLLIN else 0) (if is_write ev then EPOLLOUT else 0)) EPOLLERR.
Definition want (ev : event) (p : positive) : option (Z * positive) := if registered ev then Some (mask ev, p) else None.
Definition nreg (m : gmap positive event) : nat := size (filter (fun e => registered e.2 = true) m).

(** epoll holds exactly what the flags of the live events say; no two events share a
    descriptor. *)
Record synced (s : st) : Prop := {
  sy_inj p q ev ev' : evs s !! p = Some ev -> evs s !! q = Some ev' -> ev_fd ev = ev_fd ev' -> p = q;
  sy_reg p ev : evs s !! p = Some ev -> ep_reg (epoll (ctx s)) (ev_fd ev) = want ev p;
  sy_nfd : nfd (ctx s) = Z.of_nat (nreg (evs s)) /\ Z.of_nat (size (evs s)) < 2 ^ 31 }.

(** The change an operation asks for. *)
Definition asked (o : ep_op) (ev : event) : option event :=
  match o with
  | AddRead => if has_func (read_func ev) && negb (is_read ev) then Some (set_flags ev true (is_write ev)) else None
  | AddWrite => if has_func (write_func ev) && negb (is_write ev) then Some (set_flags ev (is_read ev) true) else None
  | DelRead => if is_read ev then Some (set_flags ev false (is_write ev)) else None
  | DelWrite => if is_write ev then Some (set_flags ev (is_read ev) false) else None
  | Del => if registered ev then Some (set_flags ev false false) else None
  end.

(** ** Counting *)
Lemma nreg_lookup m p ev : m !! p = Some ev -> nreg m = ((if registered ev then 1 else 0) + nreg (delete p m))%nat.
Proof.
  intros Hp. unfold nreg. rewrite <-(insert_delete_id m p ev Hp) at 1. destruct (registered ev) eqn:E.
  - rewrite map_filter_insert_True by done. rewrite map_size_insert_None; [done|]. apply map_lookup_filter_None. left. apply lookup_delete_eq.
  - rewrite map_filter_insert_False by (simpl; congruence). by rewrite delete_id by apply lookup_delete_eq.
Qed.
Lemma nreg_le m : (nreg m <= size m)%nat.
Proof. apply map_size_filter. Qed.
Lemma nreg_insert m p ev ev' : m !! p = Some ev -> Z.of_nat (nreg (<[p := ev']> m)) = Z.of_nat (nreg m) - Z.b2z (registered ev) + Z.b2z (registered ev').
Proof.
  intros Hp. rewrite (nreg_lookup m p ev Hp), (nreg_lookup (<[p := ev']> m) p ev') by apply lookup_insert_eq. rewrite delete_insert_eq. destruct (registered ev), (registered ev'); simpl; lia.
Qed.

(** ** One call *)
Lemma ctl_on (s : st) p ev ev' cmd events d :
  synced s -> evs s !! p = Some ev -> ev_fd ev' = ev_fd ev -> want ev' p = (match cmd with EPOLL_CTL_DEL => None | _ => Some (events, p) end) -> d = Z.b2z (registered ev') - Z.b2z (registered ev) ->
  let (s1, r) := ctl s cmd (ev_fd ev) events p in
  if negb (r =? 0) then synced s1 /\ evs s1 = evs s else synced (set_event s1 p ev' d) /\ evs (set_event s1 p ev' d) = <[p := ev']> (evs s).
Proof.
  intros [Si Sr [Sn Ss]] Hp Hf Hw Hd. unfold ctl. destruct (ep_ctl (epoll (ctx s)) cmd (ev_fd ev) (events, p)) as [k r] eqn:E.
  pose proof (el_fail (epoll (ctx s)) cmd (ev_fd ev) (events, p)) as Lf. pose proof (el_this (epoll (ctx s)) cmd (ev_fd ev) (events, p)) as Lt. pose proof (fun g => el_other (epoll (ctx s)) cmd (ev_fd ev) (events, p) g) as Lo. rewrite E in Lf, Lt, Lo. cbn [fst snd] in *.
  destruct (Z.eqb_spec r 0) as [->|Hr]; cbn [negb]; (split; [|done]); constructor; cbn [set_event set_kernel ctx epoll evs nfd]; [| | |done| |done].
  - intros q1 q2 e1 e2 H1 H2 He. assert (Hl : forall q e, <[p := ev']> (evs s) !! q = Some e -> exists e0, evs s !! q = Some e0 /\ ev_fd e0 = ev_fd e) by (intros q e; destruct (decide (p = q)) as [<-|Hne]; [rewrite lookup_insert_eq; intros [= <-]; by exists ev|rewrite lookup_insert_ne by done; eauto]).
    destruct (Hl _ _ H1) as (e1' & G1 & F1), (Hl _ _ H2) as (e2' & G2 & F2). apply (Si q1 q2 e1' e2' G1 G2). congruence.
  - intros q e. destruct (decide (p = q)) as [<-|Hne]; [rewrite lookup_insert_eq; intros [= <-]; rewrite Hf, Hw; by apply Lt|]. rewrite lookup_insert_ne by done. intros Hq. rewrite Lo; [by apply Sr|]. intros Heq. by apply Hne, (Si p q ev e).
  - rewrite Sn, (nreg_insert _ _ ev) by done. rewrite map_size_insert, Hp. pose proof (nreg_le (delete p (evs s))) as Hd'. rewrite map_size_delete_Some in Hd' by done. assert (size (evs s) <> 0%nat) by (intros E0%map_size_empty_inv; by rewrite E0 in Hp). pose proof (nreg_lookup (evs s) p ev Hp) as Hc. split; [|done]. subst d. rewrite s32_small; [lia|].
    destruct (registered ev), (registered ev'); simpl in *; lia.
  - intros q e Hq. rewrite Lf by done. by apply Sr.
Qed.

(** The outcome of an operation on the event [p]. *)
Definition outcome (o : ep_op) (s : st) (p : positive) (ev : event) (m : res (st * Z)) : Prop :=
  exists s' r, m = Ok (s', r) /\ synced s' /\ ((r = -1 /\ evs s' = evs s) \/ (r = 0 /\ exists ev', asked o ev = Some ev' /\ evs s' = <[p := ev']> (evs s))).

Lemma ctl_then o (s : st) p ev ev' cmd events d :
  synced s -> evs s !! p = Some ev -> asked o ev = Some ev' -> ev_fd ev' = ev_fd ev -> want ev' p = (match cmd with EPOLL_CTL_DEL => None | _ => Some (events, p) end) -> d = Z.b2z (registered ev') - Z.b2z (registered ev) ->
  outcome o s p ev (Ok (let (s1, r) := ctl s cmd (ev_fd ev) events p in if negb (r =? 0) then (s1, -1) else (set_event s1 p ev' d, 0))).
Proof.
  intros S Hp Ha Hf Hw Hd. pose proof (ctl_on s p ev ev' cmd events d S Hp Hf Hw Hd) as G. destruct (ctl s cmd (ev_fd ev) events p) as [s1 r]. unfold outcome.
  destruct (negb (r =? 0)); destruct G as [G1 G2]; eexists _, _; (split; [done|]); eauto 10.
Qed.

Lemma ep_event_op_on o (s : st) p ev : synced s -> evs s !! p = Some ev -> outcome o s p ev (ep_event_op o s (Some p)).
Proof.
  intros S Hp. unfold ep_event_op. rewrite Hp. cbn [deref bind]. assert (Hsame : outcome o s p ev (Ok (s, -1))) by (exists s, (-1); auto).
  destruct o; unfold ep_event_add_read_, ep_event_add_write_, ep_event_del_read_, ep_event_del_write_, ep_event_del_;
    [destruct (has_func (read_func ev)) eqn:Ef; [|done]|destruct (has_func (write_func ev)) eqn:Ef; [|done]|..];
    destruct (is_read ev) eqn:Er, (is_write ev) eqn:Ew; cbn [negb andb]; try exact Hsame;
    (apply ctl_then; [exact S|exact Hp|unfold asked, registered; rewrite ?Ef, ?Er, ?Ew; done|done|unfold want, registered, mask, set_flags; cbn [is_read is_write orb]; try done|unfold registered, set_flags; rewrite ?Er, ?Ew; done]).
Qed.

(** ** Sequences of operations *)
Definition step (m : res (st * list Z)) (o : ep_op * positive) : res (st * list Z) := do (s, rs) <- m; do (s, r) <- ep_event_op o.1 s (Some o.2); Ok (s, rs ++ [r]).
Definition run (s : st) (os : list (ep_op * positive)) : res (st * list Z) := fold_left step os (Ok (s, [])).
(** Each operation is refused or does what was asked. *)
Fixpoint flags_trace (m : gmap positive event) (os : list (ep_op * positive)) (rs : list Z) (m' : gmap positive event) : Prop :=
  match os, rs with
  | [], [] => m' = m
  | (o, p) :: os, r :: rs => exists m1, ((r = -1 /\ m1 = m) \/ (r = 0 /\ exists ev ev', m !! p = Some ev /\ asked o ev = Some ev' /\ m1 = <[p := ev']> m)) /\ flags_trace m1 os rs m'
  | _, _ => False
  end.

Lemma run_on (s : st) os rs0 :
  synced s -> Forall (fun o => is_Some (evs s !! o.2)) os -> exists s' rs, fold_left step os (Ok (s, rs0)) = Ok (s', rs0 ++ rs) /\ synced s' /\ flags_trace (evs s) os rs (evs s').
Proof.
  revert s rs0. induction os as [|[o p] os IH]; intros s rs0 S HF; [exists s, []; rewrite app_nil_r; by split_and!|]. apply Forall_cons in HF as [[ev Hev] HF]. cbn [snd] in Hev. cbn [fold_left]. unfold step at 2. cbn [bind fst snd].
  destruct (ep_event_op_on o s p ev S Hev) as (s1 & r & -> & S1 & Hr). cbn [bind]. assert (HF1 : Forall (fun o => is_Some (evs s1 !! o.2)) os).
  { eapply Forall_impl; [exact HF|]. intros [o' q]. cbn [snd]. destruct Hr as [[_ ->]|(_ & ev' & _ & ->)]; [done|]. intros Hq. destruct (decide (p = q)) as [<-|Hne]; [rewrite lookup_insert_eq; by eexists|by rewrite lookup_insert_ne]. }
  destruct (IH s1 (rs0 ++ [r]) S1 HF1) as (s2 & rs & E2 & S2 & T). exists s2, (r :: rs). rewrite E2, <-app_assoc. split_and!; [done|done|]. exists (evs s1). split; [|exact T]. destruct Hr as [Hr|(-> & ev' & Ha & Em)]; [by left|right; eauto 10].
Qed.

(** C31: epoll follows the flags.  For any sequence of ep_event_add_read, add_write,
    del_read, del_write and del on live events of distinct descriptors, whatever
    epoll_ctl answers: each call returns 0 and sets or clears exactly the flags asked
    for, or returns -1 and changes none; and epoll holds for every event exactly the mask
    of its flags with the pointer to the event, or nothing when no flag is set, while nfd
    counts the registered events. *)
Theorem ep_event_flags_registered (s : st) os :
  synced s -> Forall (fun o => is_Some (evs s !! o.2)) os ->
  exists s' rs, run s os = Ok (s', rs) /\ flags_trace (evs s) os rs (evs s') /\
    (forall p ev, evs s' !! p = Some ev -> ep_reg (epoll (ctx s')) (ev_fd ev) = want ev p) /\ nfd (ctx s') = Z.of_nat (nreg (evs s')).
Proof.
  intros S HF. destruct (run_on s os [] S HF) as (s' & rs & E & S' & T). exists s', rs. split_and!; [exact E|exact T|apply (sy_reg _ S')|apply (sy_nfd _ S')].
Qed.

(** ** Dispatch *)
Context (handler : F -> positive -> st -> res st).

(** The handlers of one reported event, in order. *)
Definition expected (m : gmap positive event) (e : Z * option positive) : list called :=
  match e.2 with
  | None => []
  | Some p =>
      match m !! p with
      | None => []
      | Some ev =>
          if reports e.1 EPOLLERR && has_func (error_func ev) then [Called_error p] else
          (if reports e.1 EPOLLOUT && has_func (write_func ev) then [Called_write p] else []) ++ (if reports e.1 EPOLLIN && has_func (read_func ev) then [Called_read p] else [])
      end
  end.
Definition funcs (ev : event) := (read_func ev, write_func ev, error_func ev).
Definition same_funcs (m m' : gmap positive event) : Prop := forall p, funcs <$> m !! p = funcs <$> m' !! p.

(** Handlers that return, do not free events and do not exchange handlers. *)
Definition keeps : Prop := forall f p s, exists s', handler f p s = Ok s' /\ same_funcs (evs s) (evs s') /\ calls s' = calls s.

Lemma expected_same m m' e : same_funcs m m' -> expected m e = expected m' e.
Proof.
  intros Hs. unfold expected. destruct e as [bits [p|]]; [|done]. cbn [fst snd]. specialize (Hs p). destruct (m !! p) as [ev|], (m' !! p) as [ev'|]; try done. injection Hs as E1 E2 E3. by rewrite E1, E2, E3.
Qed.
(** One handler of an event. *)
Lemma stage_on (s : st) p ev rep func r w e c :
  keeps -> evs s !! p = Some ev ->
  find_func s p rep func = Ok (if rep then func ev else None) /\
  exists s', (match (if rep then func ev else None) with Some f => do s <- handler f p s; Ok (bump s r w e c) | None => Ok s end) = Ok s' /\ same_funcs (evs s) (evs s') /\
    calls s' = calls s ++ (if rep && has_func (func ev) then [c] else []).
Proof.
  intros Hk Hev. unfold find_func. rewrite Hev. split; [by destruct rep|]. destruct rep; cbn [andb]; [destruct (func ev) as [f|]; cbn [has_func]|]; [|exists s; by rewrite app_nil_r..].
  destruct (Hk f p s) as (s1 & -> & H1 & C1). eexists. split_and!; [done|exact H1|cbn; by rewrite C1].
Qed.
Lemma same_funcs_live m m' p ev : same_funcs m m' -> m !! p = Some ev -> exists ev', m' !! p = Some ev' /\ funcs ev' = funcs ev.
Proof. intros Hs Hp. specialize (Hs p). rewrite Hp in Hs. destruct (m' !! p) as [ev'|]; [|done]. exists ev'. split; [done|]. injection Hs. unfold funcs. congruence. Qed.

Lemma dispatch_on (s : st) e :
  keeps -> (forall p, e.2 = Some p -> is_Some (evs s !! p)) -> exists s', dispatch handler s e = Ok s' /\ same_funcs (evs s) (evs s') /\ calls s' = calls s ++ expected (evs s) e.
Proof.
  intros Hk Hl. destruct e as [bits [p|]]; [|exists s; rewrite app_nil_r; done]. destruct (Hl p eq_refl) as [ev Hev]. unfold dispatch, expected. cbn [fst snd]. rewrite Hev.
  destruct (stage_on s p ev (reports bits EPOLLERR) error_func 0 0 1 (Called_error p) Hk Hev) as (-> & s1 & E1 & F1 & C1). cbn [bind].
  destruct (if reports bits EPOLLERR then error_func ev else None) as [f|] eqn:Ef.
  { exists s1. split_and!; [done|done|]. rewrite C1. destruct (reports bits EPOLLERR); [|done]. rewrite Ef. done. }
  assert ((reports bits EPOLLERR && has_func (error_func ev)) = false) as -> by (destruct (reports bits EPOLLERR); [by rewrite Ef|done]). clear s1 E1 F1 C1.
  destruct (stage_on s p ev (reports bits EPOLLOUT) write_func 0 1 0 (Called_write p) Hk Hev) as (-> & s1 & E1 & F1 & C1). cbn [bind]. rewrite E1. cbn [bind].
  destruct (same_funcs_live _ _ _ _ F1 Hev) as (ev1 & Hev1 & [= Er _ _]).
  destruct (stage_on s1 p ev1 (reports bits EPOLLIN) read_func 1 0 0 (Called_read p) Hk Hev1) as (-> & s2 & E2 & F2 & C2). cbn [bind]. exists s2. split_and!; [done|intros q; by rewrite F1|]. by rewrite C2, C1, Er, <-app_assoc.
Qed.

(** With handlers that return and do not free events, ep_event_loop serves every event
    epoll reported, in order: the error handler alone, or else the write and then the
    read handler. *)
Lemma ep_event_loop_serves (s : st) n errno events :
  keeps -> 0 <= n -> Forall (fun e => forall p, e.2 = Some p -> is_Some (evs s !! p)) events ->
  exists s', ep_event_loop handler s n errno events = Ok (s', n) /\ calls s' = calls s ++ concat (expected (evs s) <$> take (Z.to_nat n) events).
Proof.
  intros Hk Hn HF. unfold ep_event_loop. rewrite (proj2 (Z.ltb_ge n 0)) by done. apply (Forall_take _ (Z.to_nat n)) in HF. revert HF. generalize (take (Z.to_nat n) events) as es.
  assert (G : forall es (s : st), Forall (fun e => forall p, e.2 = Some p -> is_Some (evs s !! p)) es -> exists s', fold_left (fun m e => do s <- m; dispatch handler s e) es (Ok s) = Ok s' /\ calls s' = calls s ++ concat (expected (evs s) <$> es)).
  { induction es as [|e es IH]; intros s0 HF; [exists s0; by rewrite app_nil_r|]. apply Forall_cons in HF as [He HF]. destruct (dispatch_on s0 e Hk He) as (s1 & E1 & F1 & C1). cbn [fold_left bind]. rewrite E1.
    destruct (IH s1) as (s2 & E2 & C2). { eapply Forall_impl; [exact HF|]. intros x Hx p Hp. destruct (Hx p Hp) as [ev Hev]. destruct (same_funcs_live _ _ _ _ F1 Hev) as (ev' & Hev' & _). by eexists. }
    exists s2. split; [done|]. rewrite C2, C1, <-app_assoc. cbn [fmap list_fmap concat]. f_equal. f_equal. f_equal. apply list_fmap_ext. intros ? x _. symmetry. by apply expected_same. }
  intros es HF. destruct (G es s HF) as (s' & -> & C). cbn [bind]. by exists s'.
Qed.

(** A write handler that frees its event: when epoll reports reading too, the event is
    read after it is gone. *)
Lemma ep_event_loop_use_after_free (s : st) p ev f errno :
  evs s !! p = Some ev -> write_func ev = Some f ->
  (forall s, handler f p s = Ok {| ctx := ctx s; evs := delete p (evs s); calls := calls s |}) ->
  ep_event_loop handler s 1 errno [(Z.lor EPOLLIN EPOLLOUT, Some p)] = Fault UseAfterFree.
Proof.
  intros Hev Hf Hh. unfold ep_event_loop. change (1 <? 0) with false. change (Z.to_nat 1) with 1%nat. cbn [take fold_left bind]. unfold dispatch, find_func.
  change (reports (Z.lor EPOLLIN EPOLLOUT) EPOLLERR) with false. change (reports (Z.lor EPOLLIN EPOLLOUT) EPOLLOUT) with true. change (reports (Z.lor EPOLLIN EPOLLOUT) EPOLLIN) with true.
  cbn [bind]. rewrite Hev. cbn [deref bind]. rewrite Hf, Hh. cbn [bind bump evs]. by rewrite lookup_delete_eq.
Qed.

(** The array of events is never freed. *)
Lemma ep_event_destroy_leaks (c : @ep_ctx_t K) : EventsBlock ∈ ctx_blocks /\ EventsBlock ∉ (ep_event_destroy (Some c)).1.
Proof. split; [right; left|]. cbn. by intros ?%list_elem_of_singleton. Qed.
End proofs.

(** ** Witness: a table as epoll, one event *)
#[global] Instance demo_epoll : Epoll (gmap Z (Z * positive)) := {
  ep_reg := fun k fd => k !! fd;
  ep_ctl := fun k op fd e =>
    match op, k !! fd with
    | EPOLL_CTL_ADD, None | EPOLL_CTL_MOD, Some _ => (<[fd := e]> k, 0)
    | EPOLL_CTL_DEL, Some _ => (delete fd k, 0)
    | _, _ => (k, -1)
    end }.
#[global] Instance demo_epoll_laws : EpollLaws (gmap Z (Z * positive)).
Proof.
  constructor; cbn [ep_reg ep_ctl demo_epoll].
  - intros k op fd e. destruct op, (k !! fd); done.
  - intros k op fd e g Hg. destruct op, (k !! fd); cbn [fst]; rewrite ?lookup_insert_ne, ?lookup_delete_ne by done; done.
  - intros k op fd e. destruct op, (k !! fd) eqn:E; cbn [fst snd]; rewrite ?lookup_insert_eq, ?lookup_delete_eq; done.
Qed.
Definition demo_event : @ep_event_t unit := {| ev_fd := 5; is_read := false; is_write := false; read_func := Some (); write_func := Some (); error_func := None |}.
Definition demo_state : @state (gmap Z (Z * positive)) unit :=
  {| ctx := {| epoll := ∅; nfd := 0; nevent := 8; stat := {| nread := 0; nwrite := 0; nerror := 0 |} |}; evs := {[1%positive := demo_event]}; calls := [] |}.
Lemma demo_synced : synced demo_state.
Proof.
  constructor; cbn [demo_state evs ctx epoll nfd].
  - intros p q ev ev' [<- _]%lookup_singleton_Some [<- _]%lookup_singleton_Some. done.
  - intros p ev [<- <-]%lookup_singleton_Some. done.
  - split; [reflexivity|]. rewrite map_size_singleton. lia.
Qed.
Lemma ep_event_flags_registered_witness :
  exists s' rs, run demo_state [(AddRead, 1%positive); (AddWrite, 1%positive); (AddRead, 1%positive); (DelRead, 1%positive); (Del, 1%positive)] = Ok (s', rs) /\ rs = [0; 0; -1; 0; 0] /\ nfd (ctx s') = 0.
Proof.
  destruct (ep_event_flags_registered demo_state [(AddRead, 1%positive); (AddWrite, 1%positive); (AddRead, 1%positive); (DelRead, 1%positive); (Del, 1%positive)] demo_synced) as (s' & rs & E & _ & _ & Hn); [repeat constructor; by eexists|].
  exists s', rs. split; [exact E|]. vm_compute in E. injection E as <- <-. split; reflexivity.
Defined.

End EpollEventProofs.
